(* ===== verification/_CoqProject ===== *)
-Q . S2P
Prelude.v
Go.v
Prog.v
Kube.v
Csi.v
Api.v
Store.v
Utils.v
CsiUtil.v
Controller.v
Samples.v
Volumes.v
VolumesSpec.v
VolumesThm.v
Attach.v
AttachSpec.v
AttachThm.v
Liveness.v
Rwx.v
NodeController.v
NodeControllerThm.v
Json.v
Snapshots.v
SnapshotsSpec.v
SnapshotsThm.v
NodeServer.v
NodeServerThm.v
NodeCycle.v
Concurrent.v
ConcurrentThm.v
Net.v
Server.v
Process.v
Manager.v
ManagerThm.v
VersionThm.v
Main.v
