(* ===== verification/Prelude.v ===== *)
(** * Harvester CSI driver: a verification development

    The driver gives a guest Kubernetes cluster, whose nodes are virtual
    machines of a Harvester (host) cluster, volumes of that host cluster.
    This library models the Go sources of the driver (directory src/) and
    proves what makes them correct.

    ** The parts of the program and how they interact

    - The controller server (pkg/csi/controller_server.go) serves the
      controller RPCs of CSI: a volume is a PVC of the host cluster, it is
      attached by hot-plugging it into the virtual machine of a node, and
      snapshots are VolumeSnapshots or VolumeRemoteBackups of the host.
    - The node server (pkg/csi/node_server.go, pkg/csi/util.go) runs on each
      guest node: it finds the hot-plugged device and formats, mounts,
      unmounts, measures and grows it; RWX volumes are NFS mounts.
    - The node controller (pkg/controller/node/controller.go) watches the
      guest nodes: it taints a node that is down together with its machine,
      then unplugs its volumes, and removes the taint on recovery.
    - The manager (pkg/csi/manager.go) builds the clients, chooses the
      hotplug mode from the Harvester version (pkg/utils/version.go), finds
      the machine the driver runs on by its MAC addresses (pkg/sysfsnet) and
      starts the gRPC server (pkg/csi/server.go) with the identity service
      (pkg/csi/identity_server.go) and, on the control-plane node that wins
      the leader election, the node controller.  main.go turns the command line and the environment into
      its configuration.

    The gRPC server runs the handlers concurrently, and the node controller
    beside them; they meet in the objects of the host cluster.

    ** The model

    A handler is a program [prog] (Prog.v): a tree whose nodes are calls of
    the services the driver uses and whose leaves are Go's return values or a
    panic (nil dereference, logrus.Fatal).  Api.v has one constructor of
    [call] per client method, system call or command of the sources and the
    type of its reply.  No service is part of the driver, so nothing is
    assumed of the replies by default: [all_runs p Q] quantifies over every
    reply at every call, which also covers every interleaving with other
    clients of the API servers, and [runs] records the calls with their
    replies in a trace.  Where a property relates stored objects before and
    after, the program runs against a server with a state ([srun], [swp];
    [traced] keeps the trace beside the state) and the server's laws are a
    type class: [VolumeLaws], [VmLaws], [SnapLaws] of
    Store.v, [NfsLaws] of Rwx.v, [FairCluster] of Liveness.v, [MountLaws] of
    NodeServerThm.v, [MountTable] of NodeCycle.v, [HistoryLaws] of
    Concurrent.v; each has an executable instance on which the witnesses run
    ([mem_serve], [rwx_serve], [lag_serve], [mount_serve], [table_serve],
    [hist_serve]).  [VmLaws], [NfsLaws] and [HistoryLaws] let other clients
    change the objects between two calls of the driver and only state what a
    write with a resource version does.  Two theorems on stored volumes,
    [DeleteVolume_releases] and [CreateVolume_exists], assume in addition that
    no other client adds or removes claims and restores while the call runs;
    this is no promise of a server and is a class of its own,
    [VolumeIsolation].  Likewise the paths [own] of [MountTable] are paths that
    nobody but the driver mounts on.

    Where steps of several programs interleave, there is a step relation:
    [cstep] of Concurrent.v for the pool of running handlers over one server,
    [pstep] of Process.v for the goroutines of the process; invariants are
    proved by induction on the reachable states.

    - Prelude.v    notations, tactics, hint databases, int64 arithmetic, lists
    - Go.v         strings, path/filepath, error values, API error predicates
    - Prog.v       programs, runs, predicate transformers
    - Kube.v       API objects with the fields the driver uses
    - Csi.v        CSI messages
    - Api.v        the calls; which ones write; symbolic execution tactics
    - Store.v      JSON patch, laws of the API servers, the in-memory cluster
    - Utils.v      pkg/utils with golang.org/x/mod/semver
    - CsiUtil.v    pkg/csi/util.go and the snapshot identifiers
    - Controller.v helpers of controller_server.go: validation, the PVCs it
                   builds, the RWX test, the waiting loops
    - Samples.v    the cluster of the witnesses
    - Volumes.v    CreateVolume, DeleteVolume, ControllerExpandVolume,
                   ValidateVolumeCapabilities
    - Attach.v     ControllerPublishVolume, ControllerUnpublishVolume, hot plug
    - Rwx.v        network file systems on the host: laws and the switch
    - Liveness.v   publish on a cluster that catches up
    - Snapshots.v  CreateSnapshot, DeleteSnapshot, ListSnapshots
    - Json.v       the part of encoding/json that decodes the CSI settings
    - NodeServer.v, NodeController.v  the node server and the node controller
    - NodeCycle.v  the mount table over the life of a shared volume
    - Concurrent.v the pool of running handlers; abstract actions on machines;
                   the rely-guarantee predicate [safe]
    - Net.v        net.ParseMAC and pkg/sysfsnet
    - Server.v     server.go, identity_server.go, pkg/version
    - Process.v    the wait group of server.go and the goroutines
    - Manager.v    manager.go and pkg/config
    - Main.v       main.go, with the argument parsing of urfave/cli and of
                   Go's package flag
    - [...Spec.v]  a postcondition for every helper, proved once; and
      [...Thm.v]   the properties, each a few lines over the specifications.
                   Rwx.v, Liveness.v, NodeCycle.v, Server.v, Process.v and
                   Main.v hold their own.

    ** What the theorems show

    - Volumes (VolumesThm.v): a malformed request makes no call; every PVC
      submitted is the one asked for; success describes what the host
      accepted, with the network file system of a Longhorn RWX volume in
      place; a backup restore creates a restore object only; deletion is
      ordered, idempotent, complete and, against a store, releases the
      volume; expansion never shrinks; rounding is least and exact at int64
      width, with its overflow.
    - Attachment (AttachThm.v): at most one hot plug, after the attachments
      were settled, and success only after the volume was seen attached;
      detachment reports success only when nothing is left; against any
      server with the resource-version law the patches are exactly "plug
      this volume" and "unplug this volume", so no concurrent update is lost
      (a refinement of the abstract [plug] and [unplug]), and the two are
      inverse; a network file system in use is not disabled.
    - Progress (Liveness.v): on a cluster that answers and catches up within
      the polling rounds, publishing returns success.
    - Shared volumes (Rwx.v, NodeCycle.v): publish and unpublish switch the
      stored network file system in its desired state only; on the node,
      stage, publish, unpublish and unstage restore the mount table.
    - Concurrency (ConcurrentThm.v): whatever handlers and other clients run
      at the same time, every patch the server accepts is one abstract action
      of its request on the machine stored at that moment (linearizability),
      and no machine ever gets two volumes of one name.
    - Snapshots (SnapshotsThm.v): routing, idempotence, the exact result of
      the listing, the round trips of backup identifiers and of the labels a
      restore needs.
    - Node server (NodeServerThm.v): formatting is guarded, a published
      volume is in place, the unmount loop ends, statistics are exact,
      staging mounts a ready export only, expansion runs the right command.
    - Node controller (NodeControllerThm.v): it acts only when node and
      machine agree, tainting converges and is undone, the removal of all
      hot-plugged volumes loses no update.
    - Start-up (Main.v, ManagerThm.v, Server.v, Process.v, VersionThm.v): the
      command line determines the configuration, or how main ends without
      one; consistent configuration of the servers, which writes of its own
      Run makes on the way, discovery by MAC address, endpoint parsing, the
      interceptor, the version order; the process waits for ever.
    - Some theorems state behaviour that is at odds with a comment, with CSI
      or with the code's evident aim: [CreateVolume_exists], [rwx_switch] (a
      network file system that is gone makes unpublish fail),
      [taint_diverges], [snapshot_restore_roundtrip] (a claim without a volume
      mode is restored as Block), [ListSnapshots_other_backup],
      [processHostSnapshots_panics], [RoundUpSize_exact] (overflow),
      [serve_calls] (upper-case schemes), [node_rwx_cycle] (staging twice
      stacks two mounts), [process_waits] (nothing counts the wait group
      down).

    ** Bounds and fuel

    - A polling loop runs the number of rounds that the call [PollRounds]
      answers, which is arbitrary: the deadline of the loop falls after some
      finite number of ticks, and every theorem holds for all of them; only
      [ControllerPublishVolume_completes] asks for more rounds than the
      cluster needs to catch up.
    - NodeUnpublishVolume repeats unmounting for as long as mounts are
      stacked; it takes fuel and answers [None] without enough;
      [NodeUnpublishVolume_terminates] shows that more rounds than there are
      layers are enough.
    - The decoder of JSON strings and the comparison of pre-releases take the
      length of their input as fuel; each round consumes a byte at least
      ([json.unquote_fuel_enough], [comparePrerelease_fuel]).
    - Integers of the sources are [Z]; int64 wrap-around is written out where
      arithmetic is done ([wrap64]).

    ** What is not modelled

    Manifests and scripts; the log records, except that the interceptor
    writes them; contexts and their cancellation, other than the deadlines of
    the polling loops; the informers, signal handling and gRPC machinery
    around the handlers, and the leader election, which is a call that ends
    the process; the texts of errors made by libraries
    and of the help of the command line.  JSON patches are lists of
    operations rather than their encoding, since the objects are modelled
    with the fields the driver uses.  A resource quantity is the integer of
    its Value method.  In Concurrent.v the requests are the ones that write
    to the host cluster; the node server's requests touch the mounts of their
    own node only.

    ** Plan

    Next: progress of detachment over the retries of the caller; the JSON
    encoding of the patches with its round trip; the snapshot handlers
    against a store, with their readiness as a state machine. *)

From stdpp Require Export base list option strings gmap pretty.
From Stdlib Require Export ZArith Lia Ascii.
From Stdlib Require String.
Export String.StringSyntax.

#[global] Set Default Goal Selector "!".
Open Scope string_scope.
Open Scope list_scope.
Open Scope Z_scope.

(** ** Hint databases

    [csi] collects the resolution hints of the components, [csi_rw] the
    rewriting rules that [csi_simpl] applies. *)
Create HintDb csi.
Create Rewrite HintDb csi_rw.

Ltac csi_simpl := autorewrite with csi_rw in *; simplify_eq/=.

(** Case analysis on the scrutinee of some [match] or [if] of the goal or of
    a hypothesis, preferring innermost scrutinees that are variables. *)
Ltac case_goal :=
  match goal with
  | |- context [match ?x with _ => _ end] =>
      lazymatch x with context [match _ with _ => _ end] => fail | _ => idtac end;
      first [is_var x; destruct x | destruct x eqn:?]
  end.

Ltac case_hyp :=
  match goal with
  | H : context [match ?x with _ => _ end] |- _ =>
      lazymatch x with context [match _ with _ => _ end] => fail | _ => idtac end;
      first [is_var x; destruct x | destruct x eqn:?]
  end.

Ltac split_and_all := repeat match goal with |- _ /\ _ => split end.

(** ** Machine integers *)

(** Two's complement wrap-around of Go's [int64] arithmetic. *)
Definition wrap64 (z : Z) : Z := (z + 2 ^ 63) mod 2 ^ 64 - 2 ^ 63.

Definition in_int64 (z : Z) : Prop := - 2 ^ 63 <= z < 2 ^ 63.

Lemma wrap64_id z : in_int64 z -> wrap64 z = z.
Proof. unfold in_int64, wrap64. intros H. rewrite Z.mod_small; lia. Qed.

Lemma wrap64_range z : in_int64 (wrap64 z).
Proof.
  unfold in_int64, wrap64.
  pose proof (Z.mod_pos_bound (z + 2 ^ 63) (2 ^ 64) ltac:(lia)). lia.
Qed.

#[export] Hint Resolve wrap64_range : csi.

(** ** Boolean reflection of string equality *)

Lemma eqb_true_eq (a b : string) : (a =? b)%string = true <-> a = b.
Proof. apply String.eqb_eq. Qed.

Lemma eqb_false_ne (a b : string) : (a =? b)%string = false <-> a <> b.
Proof. apply String.eqb_neq. Qed.

#[export] Hint Rewrite String.eqb_refl : csi_rw.

(** Turn boolean string, integer and connective tests into propositions. *)
Ltac bool_to_prop :=
  repeat match goal with
  | H : (_ =? _)%string = true |- _ => apply String.eqb_eq in H
  | H : (_ =? _)%string = false |- _ => apply String.eqb_neq in H
  | H : (_ && _)%bool = true |- _ => apply andb_true_iff in H as [? ?]
  | H : (_ && _)%bool = false |- _ => apply andb_false_iff in H
  | H : (_ || _)%bool = true |- _ => apply orb_true_iff in H
  | H : (_ || _)%bool = false |- _ => apply orb_false_iff in H as [? ?]
  | H : negb _ = true |- _ => apply negb_true_iff in H
  | H : negb _ = false |- _ => apply negb_false_iff in H
  | H : (_ <? _)%Z = true |- _ => apply Z.ltb_lt in H
  | H : (_ <? _)%Z = false |- _ => apply Z.ltb_ge in H
  | H : (_ <=? _)%Z = true |- _ => apply Z.leb_le in H
  | H : (_ <=? _)%Z = false |- _ => apply Z.leb_gt in H
  | H : (_ =? _)%Z = true |- _ => apply Z.eqb_eq in H
  | H : (_ =? _)%Z = false |- _ => apply Z.eqb_neq in H
  end.

(** ** Lists *)

Lemma existsb_ext_filter {A} (f : A -> bool) (l : list A) :
  existsb f l = false <-> List.filter f l = [].
Proof.
  induction l as [|x l IH]; simpl; [done|].
  destruct (f x); simpl; [done|]. exact IH.
Qed.

Lemma existsb_In {A} (f : A -> bool) (l : list A) :
  existsb f l = true <-> exists x, In x l /\ f x = true.
Proof. apply existsb_exists. Qed.

Lemma existsb_false_forall {A} (f : A -> bool) (l : list A) :
  existsb f l = false <-> forall x, In x l -> f x = false.
Proof.
  induction l as [|y l IH]; simpl; [split; [intros _ ? []|done]|].
  rewrite orb_false_iff, IH. split; [intros [? ?] x [<-|?]; auto|].
  intros H. split; [|intros x Hx]; apply H; auto.
Qed.

(** A stdlib filter keeps exactly the elements that satisfy the test. *)
Lemma filter_In_iff {A} (f : A -> bool) (l : list A) x :
  In x (List.filter f l) <-> In x l /\ f x = true.
Proof. apply filter_In. Qed.

Lemma filter_all_true {A} (f : A -> bool) (l : list A) :
  (forall x, In x l -> f x = true) -> List.filter f l = l.
Proof.
  induction l as [|x l IH]; simpl; intros H; [done|].
  rewrite (H x) by auto. f_equal. auto.
Qed.

Lemma filter_idem {A} (f : A -> bool) (l : list A) :
  List.filter f (List.filter f l) = List.filter f l.
Proof. apply filter_all_true. intros x [_ ?]%filter_In. done. Qed.

(** Membership is reasoned about with lemmas, not by unfolding. *)
#[global] Arguments In {A} a l : simpl never.
#[export] Hint Resolve in_eq in_cons in_or_app : csi.

(** Case analysis on membership in a concrete list *)
Ltac inv_In H := unfold In in H; destruct_or? H; simplify_eq; try done.
