(* ===== verification/Go.v ===== *)
(** * The parts of Go and its standard library that the driver uses

    Go strings are byte strings, as are Coq's [string]s.  This file models
    the functions of package [strings] the sources call, Go's error values
    (with the [%w] chain that [errors.As] walks), the status codes of
    gRPC and the predicates of k8s.io/apimachinery/pkg/api/errors. *)

From S2P Require Import Prelude.

(** ** Package strings *)
Module strings.

Fixpoint skip (n : nat) (s : string) : string :=
  match n, s with
  | O, _ => s
  | S n', String _ s' => skip n' s'
  | S _, EmptyString => EmptyString
  end.

(** strings.HasPrefix *)
Definition HasPrefix (s p : string) : bool := String.prefix p s.

(** strings.CutPrefix: the rest after the prefix, when it is there *)
Definition CutPrefix (s p : string) : option string :=
  if HasPrefix s p then Some (skip (String.length p) s) else None.

(** strings.Cut: split around the first occurrence of [sep] *)
Fixpoint Cut (s sep : string) : option (string * string) :=
  if String.prefix sep s then Some ("", skip (String.length sep) s)
  else match s with
       | EmptyString => None
       | String c s' =>
           match Cut s' sep with
           | Some (before, after) => Some (String c before, after)
           | None => None
           end
       end.

(** strings.SplitN(s, sep, 2) *)
Definition SplitN2 (s sep : string) : list string :=
  match Cut s sep with
  | Some (before, after) => [before; after]
  | None => [s]
  end.

(** strings.Contains *)
Definition Contains (s sub : string) : bool :=
  match Cut s sub with Some _ => true | None => false end.

(** strings.ToLower, as far as ASCII letters come out of it: the ASCII
    capitals, the dotted capital I (C4 B0) and the Kelvin sign (E2 84 AA);
    other bytes do not become ASCII letters and are kept. *)
Fixpoint ToLower (s : string) : string :=
  match s with
  | EmptyString => ""
  | String c r =>
      let n := nat_of_ascii c in
      let here := String (if ((65 <=? n) && (n <=? 90))%nat then ascii_of_nat (n + 32) else c)
                    (ToLower r) in
      match r with
      | String d r2 =>
          if ((n =? 196) && (nat_of_ascii d =? 176))%nat then String "i" (ToLower r2)
          else match r2 with
               | String e r3 =>
                   if ((n =? 226) && (nat_of_ascii d =? 132) && (nat_of_ascii e =? 170))%nat
                   then String "k" (ToLower r3) else here
               | EmptyString => here
               end
      | EmptyString => here
      end
  end.

(** The UTF-8 encodings of the white space of unicode.IsSpace *)
Definition spaces : list string :=
  let b l := String.string_of_list_ascii (map ascii_of_nat l) in
  map b ([[9]; [10]; [11]; [12]; [13]; [32]; [194; 133]; [194; 160]; [225; 154; 128];
          [226; 128; 168]; [226; 128; 169]; [226; 128; 175]; [226; 129; 159]; [227; 128; 128]]
         ++ map (fun i => [226; 128; i]) (seq 128 11))%nat.

Definition reverse_string (s : string) : string :=
  String.string_of_list_ascii (rev (String.list_ascii_of_string s)).

(** Drop the given prefixes; each step drops a byte at least, so the length
    of the string is fuel enough. *)
Fixpoint trimLeft (prefixes : list string) (fuel : nat) (s : string) : string :=
  match fuel with
  | O => s
  | S fuel =>
      match List.find (fun p => String.prefix p s) prefixes with
      | Some p => trimLeft prefixes fuel (skip (String.length p) s)
      | None => s
      end
  end.

(** strings.TrimSpace *)
Definition TrimSpace (s : string) : string :=
  let l := trimLeft spaces (String.length s) s in
  reverse_string (trimLeft (map reverse_string spaces) (String.length l) (reverse_string l)).

Lemma skip_app p s : skip (String.length p) (p +:+ s) = s.
Proof. induction p; simpl; auto. Qed.

Lemma append_assoc a b c : a +:+ b +:+ c = (a +:+ b) +:+ c.
Proof. induction a as [|x a IH]; [done|]. exact (f_equal (String x) IH). Qed.

Lemma append_nil_r a : a +:+ "" = a.
Proof. induction a as [|x a IH]; [done|]. exact (f_equal (String x) IH). Qed.

Lemma prefix_app p s : String.prefix p (p +:+ s) = true.
Proof.
  induction p as [|c p IH]; simpl; [by destruct s|].
  destruct (Ascii.ascii_dec c c); [exact IH|done].
Qed.

Lemma prefix_split p s : String.prefix p s = true -> exists s', s = p +:+ s'.
Proof.
  revert s. induction p as [|c p IH]; intros s H; [by exists s|].
  destruct s as [|d s]; simpl in H; [done|].
  destruct (Ascii.ascii_dec c d) as [->|]; [|done].
  destruct (IH s H) as [s' ->]. by exists s'.
Qed.

Lemma CutPrefix_app p s : CutPrefix (p +:+ s) p = Some s.
Proof. unfold CutPrefix, HasPrefix. by rewrite prefix_app, skip_app. Qed.

Lemma CutPrefix_Some s p r : CutPrefix s p = Some r <-> s = p +:+ r.
Proof.
  unfold CutPrefix, HasPrefix. split.
  - destruct (String.prefix p s) eqn:E; [|done].
    destruct (prefix_split _ _ E) as [s' ->]. rewrite skip_app. congruence.
  - intros ->. by rewrite prefix_app, skip_app.
Qed.

(** [Cut] finds a decomposition around the separator. *)
Lemma Cut_Some s sep a b : Cut s sep = Some (a, b) -> s = a +:+ sep +:+ b.
Proof.
  revert a b. induction s as [|c s IH]; intros a b; cbn [Cut].
  - destruct (String.prefix sep "") eqn:E; [|done].
    destruct (prefix_split _ _ E) as [s' Hs'].
    destruct sep; [|done]. by intros [= <- <-].
  - destruct (String.prefix sep (String c s)) eqn:E.
    + destruct (prefix_split _ _ E) as [s' Hs'].
      rewrite Hs', skip_app. by intros [= <- <-].
    + destruct (Cut s sep) as [[a' b']|]; [|done].
      intros [= <- <-]. simpl. by rewrite (IH a' b').
Qed.

(** For a one-character separator that does not occur in the first part the
    decomposition found is that one. *)
Lemma Cut_char c a b :
  Contains a (String c "") = false ->
  Cut (a +:+ String c b) (String c "") = Some (a, b).
Proof.
  unfold Contains. induction a as [|d a IH].
  - intros _. simpl. destruct (Ascii.ascii_dec c c); [|done]. by destruct b.
  - change (String d a +:+ String c b) with (String d (a +:+ String c b)).
    cbn [Cut String.prefix]. destruct (Ascii.ascii_dec c d) as [->|Hne].
    + by destruct a.
    + destruct (Cut a (String c "")) as [[x y]|]; [done|].
      intros _. by rewrite (IH eq_refl).
Qed.

End strings.

#[export] Hint Rewrite strings.CutPrefix_app : csi_rw.

(** ** Package path/filepath (Unix) *)
Module filepath.

(** The parts between the slashes *)
Fixpoint split (s : string) : list string :=
  match s with
  | EmptyString => [""]
  | String c s' =>
      if Ascii.eqb c "/" then "" :: split s'
      else match split s' with
           | part :: parts => String c part :: parts
           | [] => [String c ""]
           end
  end.

Fixpoint join (parts : list string) : string :=
  match parts with
  | [] => ""
  | [p] => p
  | p :: rest => p +:+ "/" +:+ join rest
  end.

(** The parts that remain, last first: empty parts and dots vanish, two dots
    cancel the part before them, and vanish at the root. *)
Definition cleanPart (rooted : bool) (acc : list string) (part : string) : list string :=
  if (part =? "")%string || (part =? ".")%string then acc
  else if (part =? "..")%string then
    match acc with
    | p :: acc' => if (p =? "..")%string then part :: acc else acc'
    | [] => if rooted then [] else [part]
    end
  else part :: acc.

Definition Clean (path : string) : string :=
  let rooted := strings.HasPrefix path "/" in
  let cleaned := join (rev (foldl (cleanPart rooted) [] (split path))) in
  if rooted then "/" +:+ cleaned else if (cleaned =? "")%string then "." else cleaned.

(** All but what follows the last slash *)
Definition Dir (path : string) : string :=
  let parts := split path in
  let dir := removelast parts in
  Clean (match dir with [] => "" | _ => join dir +:+ "/" end).

(** filepath.Join of two elements: empty ones are left out *)
Definition Join (a b : string) : string :=
  if (a =? "")%string then (if (b =? "")%string then "" else Clean b)
  else if (b =? "")%string then Clean a
  else Clean (a +:+ "/" +:+ b).

Example path_samples :
  Dir "/var/lib/kubelet/x/target" = "/var/lib/kubelet/x" /\ Dir "/target" = "/" /\ Dir "a" = "."
  /\ Dir "a//b/../c" = "a" /\ Dir "" = "." /\ Dir "/a/b/" = "/a/b"
  /\ Join "/dev/disk/by-id/" "scsi-x" = "/dev/disk/by-id/scsi-x" /\ Clean "/../a/./b" = "/a/b".
Proof. vm_compute. auto 10. Qed.

End filepath.

(** ** gRPC status codes (google.golang.org/grpc/codes) *)
Inductive code :=
| codes_OK | Canceled | Unknown | InvalidArgument | DeadlineExceeded
| NotFound | AlreadyExists | PermissionDenied | ResourceExhausted
| FailedPrecondition | Aborted | OutOfRange | Unimplemented | Internal
| Unavailable | DataLoss | Unauthenticated.

#[export] Instance code_eq_dec : EqDecision code.
Proof. solve_decision. Defined.

Definition code_String (c : code) : string :=
  match c with
  | codes_OK => "OK" | Canceled => "Canceled" | Unknown => "Unknown"
  | InvalidArgument => "InvalidArgument" | DeadlineExceeded => "DeadlineExceeded"
  | NotFound => "NotFound" | AlreadyExists => "AlreadyExists"
  | PermissionDenied => "PermissionDenied"
  | ResourceExhausted => "ResourceExhausted"
  | FailedPrecondition => "FailedPrecondition" | Aborted => "Aborted"
  | OutOfRange => "OutOfRange" | Unimplemented => "Unimplemented"
  | Internal => "Internal" | Unavailable => "Unavailable"
  | DataLoss => "DataLoss" | Unauthenticated => "Unauthenticated"
  end.

(** ** Error values *)

(** System call error numbers the code distinguishes. *)
Inductive errno := ENOENT | EEXIST | errno_other (n : Z).

#[export] Instance errno_eq_dec : EqDecision errno.
Proof. solve_decision. Defined.

(** The error values that flow through the driver: a gRPC status, an API
    server status (apimachinery's StatusError), an error built by
    fmt.Errorf (plain, or wrapping another one with [%w]), the error of a
    system call, and any other error (network, context, command). *)
Inductive error :=
| StatusErr (c : code) (msg : string)
| APIErr (reason : string) (httpCode : Z) (msg : string)
| FmtErr (msg : string)
| WrapErr (msg : string) (wrapped : error)
| SysErr (n : errno) (msg : string)
| OtherErr (msg : string).

(** The Error method *)
Definition Error (e : error) : string :=
  match e with
  | StatusErr c msg => "rpc error: code = " +:+ code_String c +:+ " desc = " +:+ msg
  | APIErr _ _ msg => msg
  | FmtErr msg => msg
  | WrapErr msg _ => msg
  | SysErr _ msg => msg
  | OtherErr msg => msg
  end.

(** A Go function that returns [(A, error)] with [nil, err] on failure. *)
Inductive result (A : Type) :=
| Ok (a : A)
| Err (e : error).
Arguments Ok {A} a.
Arguments Err {A} e.

(** What the gRPC server sends for an error a handler returned: the code of
    the status in the [%w] chain, [Unknown] when there is none. *)
Fixpoint status_Code (e : error) : code :=
  match e with
  | StatusErr c _ => c
  | WrapErr _ e' => status_Code e'
  | _ => Unknown
  end.

(** ** k8s.io/apimachinery/pkg/api/errors *)
Module errors.

Definition knownReasons : list string :=
  [ "Unauthorized"; "Forbidden"; "NotFound"; "AlreadyExists"; "Conflict";
    "Gone"; "Invalid"; "ServerTimeout"; "StorageReadError"; "Timeout";
    "TooManyRequests"; "BadRequest"; "MethodNotAllowed"; "NotAcceptable";
    "RequestEntityTooLarge"; "UnsupportedMediaType"; "InternalError";
    "Expired"; "ServiceUnavailable" ].

(** reasonAndCodeForError: the API status found along the [%w] chain *)
Fixpoint reasonAndCodeForError (e : error) : string * Z :=
  match e with
  | APIErr r c _ => (r, c)
  | WrapErr _ e' => reasonAndCodeForError e'
  | _ => ("", 0)
  end.

Definition ReasonForError (e : error) : string := (reasonAndCodeForError e).1.

Definition reasonOrCode (r : string) (c : Z) (e : error) : bool :=
  let '(reason, httpCode) := reasonAndCodeForError e in
  (reason =? r)%string
  || (negb (existsb (String.eqb reason) knownReasons) && (httpCode =? c)).

Definition IsNotFound (e : error) : bool := reasonOrCode "NotFound" 404 e.

(** apimachinery's IsAlreadyExists looks at the reason only. *)
Definition IsAlreadyExists (e : error) : bool :=
  (ReasonForError e =? "AlreadyExists")%string.

(** os.IsNotExist and errors.Is(err, unix.ENOENT) *)
Definition IsNotExist (e : error) : bool :=
  match e with SysErr ENOENT _ => true | _ => false end.

Definition IsExist (e : error) : bool :=
  match e with SysErr EEXIST _ => true | _ => false end.

(** A gRPC status is never an API status: a NotFound answer that was turned
    into a status error is no longer recognised. *)
Lemma IsNotFound_StatusErr c msg : IsNotFound (StatusErr c msg) = false.
Proof. reflexivity. Qed.

End errors.

#[export] Hint Rewrite errors.IsNotFound_StatusErr : csi_rw.

(** ** Maps

    A Go map that may be nil; reading a nil map finds nothing. *)
Abbreviation gomap := (option (gmap string string)).

Definition map_lookup (m : gomap) (k : string) : option string :=
  match m with Some m' => m' !! k | None => None end.

(** [m[k]] with the zero value for a missing key *)
Definition map_get (m : gomap) (k : string) : string :=
  default "" (map_lookup m k).
