(* ===== verification/Prog.v ===== *)
(** * Programs that call services

    A handler of the driver is a sequential program that calls the API
    servers of the host and guest clusters, the operating system of the node
    and the clock.  None of those services is part of the driver, so a
    handler is a tree [prog] whose nodes are calls; a branch is chosen by the
    reply, which is arbitrary.  A Go panic (nil dereference) is a leaf of its
    own.

    Two semantics are given to a tree: the runs it has when every reply is
    possible ([runs], with the predicate transformer [wp]), used for the
    properties that hold whatever the servers answer and however other
    clients interleave, and the runs against a server with a state
    ([srun]/[swp], and [exec] for an executable server), used for the
    properties that relate the objects before and after a handler. *)

From S2P Require Import Prelude Go.

Section Programs.

Context {call : Type} {reply : call -> Type}.

Inductive prog (A : Type) : Type :=
| Ret (a : A)
| Panic (why : string)
| Call (c : call) (k : reply c -> prog A).

Inductive outcome (A : Type) : Type :=
| Returned (a : A)
| Panicked (why : string).

End Programs.

Arguments prog {call} reply A.
Arguments Ret {call reply A} a.
Arguments Panic {call reply A} why.
Arguments Call {call reply A} c k.
Arguments Returned {A} a.
Arguments Panicked {A} why.

Section Semantics.

Context {call : Type} {reply : call -> Type}.
Implicit Types c : call.

Fixpoint bind {A B} (p : prog reply A) (f : A -> prog reply B) : prog reply B :=
  match p with
  | Ret a => f a
  | Panic w => Panic w
  | Call c k => Call c (fun r => bind (k r) f)
  end.

Definition trigger c : prog reply (reply c) := Call c Ret.

(** Dereference of a pointer: a nil pointer panics. *)
Definition deref {A} (o : option A) : prog reply A :=
  match o with
  | Some a => Ret a
  | None => Panic "nil pointer dereference"
  end.

(** ** Runs with arbitrary replies *)

Definition event : Type := sigT reply.
Definition trace : Type := list event.
Definition ev c (r : reply c) : event := existT c r.
Definition calls (tr : trace) : list call := map (fun e => projT1 e) tr.

Fixpoint runs {A} (p : prog reply A) (tr : trace) (o : outcome A) : Prop :=
  match p with
  | Ret a => tr = [] /\ o = Returned a
  | Panic w => tr = [] /\ o = Panicked w
  | Call c k => exists r tr', tr = ev c r :: tr' /\ runs (k r) tr' o
  end.

(** [all_runs p Q]: every run of [p], whatever the replies, satisfies [Q]. *)
Definition all_runs {A} (p : prog reply A) (Q : trace -> outcome A -> Prop) : Prop :=
  forall tr o, runs p tr o -> Q tr o.

Fixpoint wp {A} (p : prog reply A) (Q : trace -> outcome A -> Prop) : Prop :=
  match p with
  | Ret a => Q [] (Returned a)
  | Panic w => Q [] (Panicked w)
  | Call c k => forall r, wp (k r) (fun tr o => Q (ev c r :: tr) o)
  end.

(** ** Runs against a server with a state

    [step c s r s'] holds when the server in state [s] may answer the call
    [c] with [r] and be in state [s'] when the caller goes on. *)
Context {S : Type}.

Fixpoint srun {A} (step : forall c, S -> reply c -> S -> Prop)
    (p : prog reply A) (s : S) (o : outcome A) (s' : S) : Prop :=
  match p with
  | Ret a => s' = s /\ o = Returned a
  | Panic w => s' = s /\ o = Panicked w
  | Call c k => exists r s1, step c s r s1 /\ srun step (k r) s1 o s'
  end.

Fixpoint swp {A} (step : forall c, S -> reply c -> S -> Prop)
    (p : prog reply A) (s : S) (Q : outcome A -> S -> Prop) : Prop :=
  match p with
  | Ret a => Q (Returned a) s
  | Panic w => Q (Panicked w) s
  | Call c k => forall r s1, step c s r s1 -> swp step (k r) s1 Q
  end.

(** An executable server answers every call with a function of its state. *)
Fixpoint exec {A} (serve : forall c, S -> reply c * S)
    (p : prog reply A) (s : S) : outcome A * S * trace :=
  match p with
  | Ret a => (Returned a, s, [])
  | Panic w => (Panicked w, s, [])
  | Call c k =>
      let '(r, s1) := serve c s in
      let '(o, s2, tr) := exec serve (k r) s1 in
      (o, s2, ev c r :: tr)
  end.

(** The relation of an executable server. *)
Definition step_of (serve : forall c, S -> reply c * S) : forall c, S -> reply c -> S -> Prop :=
  fun c s r s' => serve c s = (r, s').

(** ** Structural lemmas *)

Lemma calls_app tr tr' : calls (tr ++ tr') = calls tr ++ calls tr'.
Proof. apply map_app. Qed.

Lemma wp_iff {A} (p : prog reply A) Q : wp p Q <-> all_runs p Q.
Proof.
  unfold all_runs. revert Q. induction p as [a|w|c k IH]; intros Q; simpl.
  - split; [intros H tr o [-> ->]; done|auto].
  - split; [intros H tr o [-> ->]; done|auto].
  - split.
    + intros H tr o (r & tr' & -> & Hr). by apply (proj1 (IH r _) (H r)).
    + intros H r. apply IH. intros tr o Hr. apply H. by exists r, tr.
Qed.

Lemma wp_mono {A} (p : prog reply A) (Q Q' : trace -> outcome A -> Prop) :
  wp p Q -> (forall tr o, Q tr o -> Q' tr o) -> wp p Q'.
Proof. rewrite !wp_iff. unfold all_runs. auto. Qed.

Lemma wp_and {A} (p : prog reply A) (Q Q' : trace -> outcome A -> Prop) :
  wp p Q -> wp p Q' -> wp p (fun tr o => Q tr o /\ Q' tr o).
Proof. rewrite !wp_iff. unfold all_runs. auto. Qed.

Lemma wp_bind {A B} (p : prog reply A) (f : A -> prog reply B) Q :
  wp p (fun tr o => match o with
                    | Returned a => wp (f a) (fun tr' o' => Q (tr ++ tr') o')
                    | Panicked w => Q tr (Panicked w)
                    end) ->
  wp (bind p f) Q.
Proof.
  revert Q. induction p as [a|w|c k IH]; intros Q; simpl; auto.
Qed.

(** Sequencing with an intermediate assertion. *)
Lemma wp_bind_use {A B} (p : prog reply A) (f : A -> prog reply B)
    (R : trace -> outcome A -> Prop) Q :
  wp p R ->
  (forall tr a, R tr (Returned a) -> wp (f a) (fun tr' o' => Q (tr ++ tr') o')) ->
  (forall tr w, R tr (Panicked w) -> Q tr (Panicked w)) ->
  wp (bind p f) Q.
Proof.
  intros Hp Hf Hw. apply wp_bind. eapply wp_mono; [exact Hp|].
  intros tr [a|w]; auto.
Qed.

(** The runs of a sequence *)
Lemma runs_bind {A B} (p : prog reply A) (f : A -> prog reply B) tr o :
  runs (bind p f) tr o <->
  (exists tr1 a tr2, runs p tr1 (Returned a) /\ runs (f a) tr2 o /\ tr = tr1 ++ tr2)
  \/ (exists w, o = Panicked w /\ runs p tr (Panicked w)).
Proof.
  revert tr. induction p as [a|w|c k IH]; intros tr; simpl.
  - split; [intros H; left; by exists [], a, tr|].
    intros [(tr1 & a' & tr2 & [-> [= ->]] & Hf & ->)|(w & _ & _ & Hw)]; done.
  - split; [intros [-> ->]; right; by exists w|].
    intros [(tr1 & a' & tr2 & [_ ?] & _)|(w' & -> & [-> ?])]; by simplify_eq.
  - split.
    + intros (r & tr' & -> & [(tr1 & a & tr2 & H1 & H2 & ->)|(w & -> & H)]%IH).
      * left. exists (ev c r :: tr1), a, tr2. split_and!; eauto.
      * right. eauto 8.
    + intros [(tr1 & a & tr2 & (r & tr' & -> & H1) & H2 & ->)|(w & -> & r & tr' & -> & H)].
      * exists r, (tr' ++ tr2). split; [done|]. apply IH. left. eauto 8.
      * exists r, tr'. split; [done|]. apply IH. eauto.
Qed.

(** Every program has a run when every call can be answered. *)
Lemma runs_exists {A} (p : prog reply A) :
  (forall c, inhabited (reply c)) -> exists tr o, runs p tr o.
Proof.
  intros Hin. induction p as [a|w|c k IH]; simpl; eauto.
  destruct (Hin c) as [r]. destruct (IH r) as (tr & o & H). eauto 6.
Qed.

Lemma exec_runs {A} serve (p : prog reply A) s o s' tr :
  exec serve p s = (o, s', tr) -> runs p tr o.
Proof.
  revert s tr. induction p as [a|w|c k IH]; intros s tr; simpl.
  - by intros [= <- <- <-].
  - by intros [= <- <- <-].
  - destruct (serve c s) as [r s1].
    destruct (exec serve (k r) s1) as [[o2 s2] tr2] eqn:E.
    intros [= <- <- <-]. exists r, tr2. split; [done|]. by eapply IH.
Qed.

(** What holds of every run holds of the run with an executable server. *)
Lemma exec_post {A} serve (p : prog reply A) s Q :
  all_runs p Q -> Q (exec serve p s).2 (exec serve p s).1.1.
Proof.
  intros H. destruct (exec serve p s) as [[o s'] tr] eqn:E. by eapply H, exec_runs.
Qed.

Lemma exec_srun {A} serve (p : prog reply A) s o s' tr :
  exec serve p s = (o, s', tr) -> srun (step_of serve) p s o s'.
Proof.
  revert s tr. induction p as [a|w|c k IH]; intros s tr; simpl.
  - by intros [= <- <- <-].
  - by intros [= <- <- <-].
  - destruct (serve c s) as [r s1] eqn:Es.
    destruct (exec serve (k r) s1) as [[o2 s2] tr2] eqn:E.
    intros [= <- <- <-]. exists r, s1. split; [done|]. by eapply IH.
Qed.

Lemma swp_iff {A} step (p : prog reply A) s Q :
  swp step p s Q <-> (forall o s', srun step p s o s' -> Q o s').
Proof.
  revert s. induction p as [a|w|c k IH]; intros s; simpl.
  - split; [intros H o s' [-> ->]; done|auto].
  - split; [intros H o s' [-> ->]; done|auto].
  - split.
    + intros H o s' (r & s1 & Hs & Hr). by eapply (proj1 (IH r s1) (H r s1 Hs)).
    + intros H r s1 Hs. apply IH. eauto.
Qed.

(** A program runs to its end against a server that answers every call. *)
Lemma srun_exists {A} step (p : prog reply A) s :
  (forall c s, exists r s', step c s r s') -> exists o s', srun step p s o s'.
Proof.
  intros Hst. revert s. induction p as [a|w|c k IH]; intros s; simpl; eauto.
  destruct (Hst c s) as (r & s1 & Hs). destruct (IH r s1) as (o & s' & H). eauto 8.
Qed.

Lemma exec_spost {A} serve (p : prog reply A) s Q :
  swp (step_of serve) p s Q -> Q (exec serve p s).1.1 (exec serve p s).1.2.
Proof.
  rewrite swp_iff. intros H. destruct (exec serve p s) as [[o s'] tr] eqn:E.
  by eapply H, exec_srun.
Qed.

Lemma swp_mono {A} step (p : prog reply A) s (Q Q' : outcome A -> S -> Prop) :
  swp step p s Q -> (forall o s', Q o s' -> Q' o s') -> swp step p s Q'.
Proof. rewrite !swp_iff. auto. Qed.

Lemma swp_bind {A B} step (p : prog reply A) (f : A -> prog reply B) s Q :
  swp step p s (fun o s1 => match o with
                            | Returned a => swp step (f a) s1 Q
                            | Panicked w => Q (Panicked w) s1
                            end) ->
  swp step (bind p f) s Q.
Proof. revert s. induction p as [a|w|c k IH]; intros s; simpl; auto. Qed.

Lemma swp_bind_use {A B} step (p : prog reply A) (f : A -> prog reply B) s
    (R : outcome A -> S -> Prop) Q :
  swp step p s R ->
  (forall a s1, R (Returned a) s1 -> swp step (f a) s1 Q) ->
  (forall w s1, R (Panicked w) s1 -> Q (Panicked w) s1) ->
  swp step (bind p f) s Q.
Proof.
  intros Hp Hf Hw. apply swp_bind. eapply swp_mono; [exact Hp|].
  intros [a|w] s1; auto.
Qed.

(** What holds of every run holds of the runs against a server too. *)
Lemma swp_wp {A} step (p : prog reply A) s Q (R : outcome A -> S -> Prop) :
  wp p Q -> swp step p s R -> swp step p s (fun o s' => (exists tr, Q tr o) /\ R o s').
Proof.
  revert s Q. induction p as [a|w|c k IH]; simpl; intros s Q HQ HR; eauto.
  intros r s1 Hs. eapply swp_mono; [eapply IH; eauto|].
  simpl. intros o s' [[tr Htr] Ho]. eauto.
Qed.

(** A property of the calls that every call of the program has, whatever
    the replies. *)
Fixpoint only_calls {A} (P : call -> Prop) (p : prog reply A) : Prop :=
  match p with
  | Ret _ | Panic _ => True
  | Call c k => P c /\ forall r, only_calls P (k r)
  end.

Lemma only_calls_bind {A B} P (p : prog reply A) (f : A -> prog reply B) :
  only_calls P p -> (forall a, only_calls P (f a)) -> only_calls P (bind p f).
Proof. induction p as [a|w|c k IH]; simpl; naive_solver. Qed.

Lemma only_calls_mono {A} (P Q : call -> Prop) (p : prog reply A) :
  only_calls P p -> (forall c, P c -> Q c) -> only_calls Q p.
Proof. induction p as [a|w|c k IH]; simpl; naive_solver. Qed.

Lemma only_calls_runs {A} P (p : prog reply A) tr o :
  only_calls P p -> runs p tr o -> Forall P (calls tr).
Proof.
  revert tr. induction p as [a|w|c k IH]; simpl; intros tr Hp.
  - intros [-> _]. constructor.
  - intros [-> _]. constructor.
  - intros (r & tr' & -> & Hr). destruct Hp as [Hc Hk]. simpl.
    constructor; [done|]. by apply (IH r).
Qed.

Lemma wp_only_calls {A} P (p : prog reply A) :
  only_calls P p -> wp p (fun tr _ => Forall P (calls tr)).
Proof. intros Hp. apply wp_iff. intros tr o Hr. by eapply only_calls_runs. Qed.

(** A server whose every step of the calls in [P] preserves the invariant
    [I] preserves it over a program that makes only calls in [P]. *)
Lemma swp_invariant {A} step (P : call -> Prop) (I : S -> Prop) (p : prog reply A) s :
  (forall c s r s', P c -> step c s r s' -> I s -> I s') ->
  only_calls P p -> I s -> swp step p s (fun _ s' => I s').
Proof.
  intros Hstep. revert s. induction p as [a|w|c k IH]; simpl; intros s Hp Hi; auto.
  destruct Hp as [Hc Hk]. intros r s1 Hs. apply IH; eauto.
Qed.

(** ** A server with a log

    [logged step] also records the states in which the calls were served, so
    that a property can speak about the state a write was applied to. *)
Definition logged (step : forall c, S -> reply c -> S -> Prop)
    : forall c, S * list S -> reply c -> S * list S -> Prop :=
  fun c s r s' => step c s.1 r s'.1 /\ s'.2 = s.2 ++ [s.1].

(** [traced step] records the calls and their replies, so that a property of
    the final state can speak about the run that led there. *)
Definition traced (step : forall c, S -> reply c -> S -> Prop)
    : forall c, S * trace -> reply c -> S * trace -> Prop :=
  fun c s r s' => step c s.1 r s'.1 /\ s'.2 = s.2 ++ [ev c r].

End Semantics.


Arguments trigger {call reply} c.
Arguments event {call} reply.
Arguments trace {call} reply.

(** ** Traced runs *)
Section Traced.

Context {call : Type} {reply : call -> Type} {S : Type}.

Lemma swp_traced {A} (step : forall c, S -> reply c -> S -> Prop) (p : prog reply A) s
    (tr0 : trace reply) Q (R : outcome A -> S -> Prop) :
  wp p Q -> swp step p s R ->
  swp (traced step) p (s, tr0) (fun o s' => R o s'.1 /\ exists tr, s'.2 = tr0 ++ tr /\ Q tr o).
Proof.
  revert s tr0 Q. induction p as [a|w|c k IH]; simpl; intros s tr0 Q HQ HR.
  1,2: split; [done|]; exists []; by rewrite app_nil_r.
  intros r [s1 tr1] [Hs Htr]. simpl in *. subst.
  eapply swp_mono; [eapply (IH r); [apply HQ|by apply HR]|]. simpl. intros o s' [Ho (tr & -> & HQ')].
  split; [done|]. exists (ev c r :: tr). by rewrite <- app_assoc.
Qed.

Lemma exec_traced {A} (serve : forall c, S -> reply c * S) (p : prog reply A) s (tr0 : trace reply) :
  srun (traced (step_of serve)) p (s, tr0) (exec serve p s).1.1
    ((exec serve p s).1.2, tr0 ++ (exec serve p s).2).
Proof.
  revert s tr0. induction p as [a|w|c k IH]; intros s tr0; simpl; [by rewrite app_nil_r..|].
  destruct (serve c s) as [r s1] eqn:Es. specialize (IH r s1 (tr0 ++ [ev c r])).
  destruct (exec serve (k r) s1) as [[o s2] tr]. simpl in *.
  rewrite <- app_assoc in IH. by exists r, (s1, tr0 ++ [ev c r]).
Qed.

(** What holds at the end of every traced run holds of the executed one. *)
Lemma exec_tpost {A} (serve : forall c, S -> reply c * S) (p : prog reply A) s Q :
  swp (traced (step_of serve)) p (s, []) Q ->
  Q (exec serve p s).1.1 ((exec serve p s).1.2, (exec serve p s).2).
Proof. rewrite swp_iff. intros H. apply H, (exec_traced serve p s []). Qed.

End Traced.

(** ** Notation *)

Declare Scope prog_scope.
Delimit Scope prog_scope with prog.
Open Scope prog_scope.

(** Sequencing *)
Notation "'let*' x := p 'in' q" := (bind p (fun x => q))
  (at level 10, x name, p at level 100, q at level 200) : prog_scope.

(** [x, err := p; if err != nil { return nil, err }; q] *)
Notation "'let?' x := p 'in' q" :=
  (bind p (fun r => match r with Ok x => q | Err e => Ret (Err e) end))
  (at level 10, x name, p at level 100, q at level 200) : prog_scope.

(** [if err := r; err != nil { return err }; q], for a pure check *)
Notation "'check!' r 'in' q" :=
  (match r with Ok _ => q | Err e => Ret (Err e) end)
  (at level 10, r at level 100, q at level 200) : prog_scope.

(** ** Tactics *)

(** Symbolic execution: introduce replies and split on them, up to the
    leaves of the tree. *)
Ltac wp_step :=
  match goal with
  | |- forall _, _ => intro
  | |- context [match ?x with _ => _ end] => case_goal
  end; cbn -[String.prefix String.eqb Z.mul Z.add Z.sub] in *.

Ltac runs_wp := apply wp_iff.

#[export] Hint Resolve only_calls_bind : csi.
