(* ===== verification/Kube.v ===== *)
(** * The objects the driver exchanges

    The API objects of the host cluster (Harvester) and of the guest cluster,
    and the messages of the CSI protocol, with the fields the driver reads or
    writes.  A pointer field is an [option]; a Go map that may be nil is an
    [option] of a finite map.  A resource quantity is the integer its Value
    method returns. *)

From S2P Require Import Prelude Go.

(** ** Common metadata *)

(** time.Time, as seconds since the Unix epoch and nanoseconds; the zero
    value of Go is January 1 of year 1. *)
Record Time := mkTime { Unix : Z; Nanosecond : Z }.

Definition zeroTime : Time := mkTime (-62135596800) 0.

Definition IsZero (t : Time) : bool :=
  (Unix t =? Unix zeroTime) && (Nanosecond t =? Nanosecond zeroTime).

Record ObjectMeta := mkMeta {
  Name : string;
  Namespace : string;
  Labels : gomap;
  Annotations : gomap;
  ResourceVersion : string;
  DeletionTimestamp : option Time;
  CreationTimestamp : Time;
}.

(** The metadata of an object the driver builds: only these are set. *)
Definition newMeta (ns name : string) : ObjectMeta :=
  mkMeta name ns None None "" None zeroTime.

Definition set_Labels (l : gomap) (m : ObjectMeta) : ObjectMeta :=
  mkMeta (Name m) (Namespace m) l (Annotations m) (ResourceVersion m)
         (DeletionTimestamp m) (CreationTimestamp m).

Definition set_Annotations (a : gomap) (m : ObjectMeta) : ObjectMeta :=
  mkMeta (Name m) (Namespace m) (Labels m) a (ResourceVersion m)
         (DeletionTimestamp m) (CreationTimestamp m).

(** Every API object has metadata. *)
Class HasMeta (T : Type) := meta : T -> ObjectMeta.

Definition name_of {T} `{HasMeta T} (x : T) : string := Name (meta x).
Definition key_of {T} `{HasMeta T} (x : T) : string * string :=
  (Namespace (meta x), Name (meta x)).

(** ** Volume claims, storage classes, attachments *)

Abbreviation ResourceList := (option (gmap string Z)).

(** ResourceList.Storage().Value() *)
Definition Storage (rl : ResourceList) : Z :=
  match rl with
  | Some m => default 0 (m !! "storage")
  | None => 0
  end.
#[global] Arguments Storage rl : simpl never.

Record TypedLocalObjectReference := mkRef {
  ref_APIGroup : option string;
  ref_Kind : string;
  ref_Name : string;
}.

Record PersistentVolumeClaimSpec := mkPVCSpec {
  AccessModes : list string;
  VolumeMode : option string;
  StorageClassName : option string;
  VolumeName : string;
  Requests : ResourceList;
  DataSource : option TypedLocalObjectReference;
}.

Record PersistentVolumeClaim := mkPVC {
  pvc_meta : ObjectMeta;
  pvc_Spec : PersistentVolumeClaimSpec;
  pvc_Phase : string;
  pvc_Capacity : ResourceList;
}.
#[export] Instance pvc_HasMeta : HasMeta PersistentVolumeClaim := pvc_meta.

Definition emptyPVCSpec : PersistentVolumeClaimSpec := mkPVCSpec [] None None "" None None.

(** [pvc.Spec.Resources.Requests[corev1.ResourceStorage] = q] *)
Definition set_request (q : Z) (pvc : PersistentVolumeClaim) : PersistentVolumeClaim :=
  let s := pvc_Spec pvc in
  mkPVC (pvc_meta pvc)
    (mkPVCSpec (AccessModes s) (VolumeMode s) (StorageClassName s) (VolumeName s)
       (match Requests s with
        | Some m => Some (<["storage" := q]> m)
        | None => None
        end) (DataSource s))
    (pvc_Phase pvc) (pvc_Capacity pvc).

Record StorageClass := mkSC { sc_meta : ObjectMeta; Provisioner : string }.
#[export] Instance sc_HasMeta : HasMeta StorageClass := sc_meta.

Record VolumeAttachment := mkVA {
  va_meta : ObjectMeta;
  va_PersistentVolumeName : option string;
  va_NodeName : string;
  va_Attached : bool;
}.

Record PersistentVolume := mkPV {
  pv_meta : ObjectMeta;
  pv_ClaimRef : option (string * string);   (* namespace, name *)
}.

(** A pod, with the claim name of each of its volumes that is a claim. *)
Record Pod := mkPod {
  pod_meta : ObjectMeta;
  pod_Volumes : list (option string);
  pod_Phase : string;
}.
#[export] Instance pod_HasMeta : HasMeta Pod := pod_meta.

(** ** Snapshots and remote backups *)

(** The Error of a snapshot's status, with its optional message *)
Record VolumeSnapshotStatus := mkSnapStatus {
  CreationTime : option Time;
  ReadyToUse : option bool;
  RestoreSize : option Z;
  StatusError : option (option string);
}.

Record VolumeSnapshot := mkSnap {
  snap_meta : ObjectMeta;
  snap_PersistentVolumeClaimName : option string;
  snap_VolumeSnapshotClassName : option string;
  snap_Status : option VolumeSnapshotStatus;
}.
#[export] Instance snap_HasMeta : HasMeta VolumeSnapshot := snap_meta.

Record VolumeSnapshotList := mkSnapList {
  snap_Items : list VolumeSnapshot;
  snap_Continue : string;
}.

Record VolumeRemoteBackup := mkVRB {
  vrb_meta : ObjectMeta;
  vrb_Type : string;
  vrb_Source : string;
  vrb_SourceSpec : PersistentVolumeClaimSpec;
  vrb_Success : bool;
}.
#[export] Instance vrb_HasMeta : HasMeta VolumeRemoteBackup := vrb_meta.

Record VolumeRemoteRestore := mkVRR {
  vrr_meta : ObjectMeta;
  vrr_Type : string;
  vrr_From : string;
  vrr_Success : bool;
}.
#[export] Instance vrr_HasMeta : HasMeta VolumeRemoteRestore := vrr_meta.

Record ListOptions := mkListOptions {
  LabelSelector : string;
  Continue : string;
  Limit : Z;
}.

(** A Harvester setting, and one entry of the csi-driver-config setting *)
Record Setting := mkSetting { set_Default : string; set_Value : string }.

Record CSIDriverInfo := mkCSIDriverInfo {
  VolumeSnapshotClassName : string;
  BackupVolumeSnapshotClassName : string;
}.

(** ** Network file systems (networkfs-manager) *)

Record NetworkFilesystem := mkNFS {
  nfs_meta : ObjectMeta;
  NetworkFSName : string;
  DesiredState : string;
  nfs_Provisioner : string;
  nfs_State : string;
  nfs_Status : string;
  nfs_Endpoint : string;
  nfs_MountOpts : string;
}.
#[export] Instance nfs_HasMeta : HasMeta NetworkFilesystem := nfs_meta.

Definition NetworkFSStateEnabled : string := "Enabled".
Definition NetworkFSStateEnabling : string := "Enabling".
Definition NetworkFSStateDisabling : string := "Disabling".
Definition NetworkFSStateDisabled : string := "Disabled".
Definition EndpointStatusReady : string := "Ready".

Definition set_DesiredState (st : string) (n : NetworkFilesystem) : NetworkFilesystem :=
  mkNFS (nfs_meta n) (NetworkFSName n) st (nfs_Provisioner n) (nfs_State n)
        (nfs_Status n) (nfs_Endpoint n) (nfs_MountOpts n).

(** The zero object a typed client returns next to an error *)
Definition emptyNFS : NetworkFilesystem :=
  mkNFS (newMeta "" "") "" "" "" "" "" "" "".

(** ** Virtual machines (KubeVirt)

    [vol_source] and [disk_device] stand for the parts of a volume or disk
    the driver copies without looking at them. *)

Record VMPVCSource := mkVMPVCSource { ClaimName : string; Hotpluggable : bool }.

Record VMVolume := mkVMVolume {
  vol_Name : string;
  vol_PersistentVolumeClaim : option VMPVCSource;
  vol_source : string;
}.

Record VMDisk := mkVMDisk {
  disk_Name : string;
  disk_Bus : option string;
  disk_device : string;
}.

Record VMTemplateSpec := mkVMTemplate {
  Volumes : list VMVolume;
  Disks : list VMDisk;
}.

(** A condition of a node or of a virtual machine *)
Record Condition := mkCondition { cond_Type : string; cond_Status : string }.

Record VirtualMachine := mkVM {
  vm_meta : ObjectMeta;
  vm_Template : option VMTemplateSpec;
  vm_Conditions : list Condition;
  vm_PrintableStatus : string;
}.
#[export] Instance vm_HasMeta : HasMeta VirtualMachine := vm_meta.

Record VolumeStatus := mkVolumeStatus {
  vs_Name : string;
  vs_HotplugVolume : bool;     (* the pointer is not nil *)
  vs_Phase : string;
  vs_Target : string;
}.

Record VirtualMachineInstance := mkVMI {
  vmi_meta : ObjectMeta;
  vmi_NodeName : string;
  vmi_VolumeStatus : list VolumeStatus;
  vmi_Interfaces : list string;   (* the MAC of each interface *)
}.
#[export] Instance vmi_HasMeta : HasMeta VirtualMachineInstance := vmi_meta.

(** kubevirtv1.AddVolumeOptions as the driver fills it *)
Record AddVolumeOptions := mkAddVolumeOptions {
  avo_Name : string;
  avo_Bus : string;
  avo_ClaimName : string;
}.

(** One operation of a JSON patch (type patchOp of the sources) *)
Inductive patchValue :=
| PVString (s : string)
| PVVolume (v : VMVolume)
| PVDisk (d : VMDisk)
| PVVolumes (vs : list VMVolume)
| PVDisks (ds : list VMDisk).

Record patchOp := mkPatchOp { Op : string; Path : string; PatchValue : patchValue }.

(** ** Guest nodes *)

Record Taint := mkTaint { taint_Key : string; taint_Value : string; taint_Effect : string }.

Record Node := mkNode {
  node_meta : ObjectMeta;
  Taints : list Taint;
  node_Conditions : list Condition;
}.
#[export] Instance node_HasMeta : HasMeta Node := node_meta.

Definition set_Taints (ts : list Taint) (n : Node) : Node :=
  mkNode (node_meta n) ts (node_Conditions n).

#[export] Instance taint_eq_dec : EqDecision Taint.
Proof. solve_decision. Defined.
