(* ===== verification/Csi.v ===== *)
(** * Messages of the CSI protocol

    The request and response types of the generated package csi, with the
    fields the driver uses.  A message pointer that may be nil is an
    [option]; the generated getters accept nil and return the zero value. *)

From S2P Require Import Prelude Go Kube.

(** VolumeCapability_AccessMode_Mode, an open enumeration *)
Inductive Mode :=
| Mode_UNKNOWN
| SINGLE_NODE_WRITER
| SINGLE_NODE_READER_ONLY
| MULTI_NODE_READER_ONLY
| MULTI_NODE_SINGLE_WRITER
| MULTI_NODE_MULTI_WRITER
| SINGLE_NODE_SINGLE_WRITER
| SINGLE_NODE_MULTI_WRITER
| Mode_unrecognized (n : Z).

#[export] Instance Mode_eq_dec : EqDecision Mode.
Proof. solve_decision. Defined.

Definition Mode_eqb (a b : Mode) : bool := bool_decide (a = b).

Definition Mode_String (m : Mode) : string :=
  match m with
  | Mode_UNKNOWN => "UNKNOWN"
  | SINGLE_NODE_WRITER => "SINGLE_NODE_WRITER"
  | SINGLE_NODE_READER_ONLY => "SINGLE_NODE_READER_ONLY"
  | MULTI_NODE_READER_ONLY => "MULTI_NODE_READER_ONLY"
  | MULTI_NODE_SINGLE_WRITER => "MULTI_NODE_SINGLE_WRITER"
  | MULTI_NODE_MULTI_WRITER => "MULTI_NODE_MULTI_WRITER"
  | SINGLE_NODE_SINGLE_WRITER => "SINGLE_NODE_SINGLE_WRITER"
  | SINGLE_NODE_MULTI_WRITER => "SINGLE_NODE_MULTI_WRITER"
  | Mode_unrecognized n => pretty n
  end.

(** The oneof field access_type: at most one of the two is set. *)
Inductive AccessType :=
| AccessType_Block
| AccessType_Mount (fsType : string) (mountFlags : list string)
| AccessType_unset.

Record VolumeCapability := mkVolCap {
  GetAccessType : AccessType;
  AccessMode : option Mode;
}.

Definition GetBlock (vc : VolumeCapability) : option unit :=
  match GetAccessType vc with AccessType_Block => Some tt | _ => None end.

Definition GetMount (vc : VolumeCapability) : option (string * list string) :=
  match GetAccessType vc with
  | AccessType_Mount fs flags => Some (fs, flags)
  | _ => None
  end.

(** [GetAccessMode().GetMode()], nil-safe *)
Definition GetMode (vc : VolumeCapability) : Mode := default Mode_UNKNOWN (AccessMode vc).

Inductive VolumeContentSource :=
| Source_Snapshot (snapshotId : string)
| Source_Volume (volumeId : string)
| Source_unset.

Definition GetSnapshot (vcs : VolumeContentSource) : option string :=
  match vcs with Source_Snapshot id => Some id | _ => None end.

Definition GetVolume (vcs : VolumeContentSource) : option string :=
  match vcs with Source_Volume id => Some id | _ => None end.

(** ** Controller service *)

Record CreateVolumeRequest := mkCreateVolumeRequest {
  cv_Name : string;
  cv_RequiredBytes : option Z;         (* the capacity range, when present *)
  cv_VolumeCapabilities : option (list VolumeCapability);
  cv_Parameters : gomap;
  cv_VolumeContentSource : option VolumeContentSource;
}.

Record Volume := mkVolume {
  VolumeId : string;
  CapacityBytes : Z;
  VolumeContext : gomap;
  ContentSource : option VolumeContentSource;
}.

Record ValidateVolumeCapabilitiesRequest := mkValidateRequest {
  vv_VolumeId : string;
  vv_VolumeContext : gomap;
  vv_VolumeCapabilities : option (list VolumeCapability);
  vv_Parameters : gomap;
}.

(** The Confirmed part of the response *)
Record Confirmed := mkConfirmed {
  conf_VolumeContext : gomap;
  conf_VolumeCapabilities : option (list VolumeCapability);
  conf_Parameters : gomap;
}.

Record ControllerPublishVolumeRequest := mkPublishRequest {
  cp_VolumeId : string;
  cp_NodeId : string;
  cp_VolumeCapability : option VolumeCapability;
}.

Record ControllerUnpublishVolumeRequest := mkUnpublishRequest {
  cu_VolumeId : string;
  cu_NodeId : string;
}.

Record ControllerExpandVolumeRequest := mkExpandRequest {
  ce_VolumeId : string;
  ce_RequiredBytes : option Z;
  ce_VolumeCapability : option VolumeCapability;
}.

Record ControllerExpandVolumeResponse := mkExpandResponse {
  exp_CapacityBytes : Z;
  NodeExpansionRequired : bool;
}.

Record CreateSnapshotRequest := mkCreateSnapshotRequest {
  cs_Name : string;
  cs_SourceVolumeId : string;
  cs_Parameters : gomap;
}.

Record Snapshot := mkSnapshot {
  SnapshotId : string;
  SourceVolumeId : string;
  SizeBytes : Z;
  snapshot_CreationTime : option Time;
  snapshot_ReadyToUse : bool;
}.

Record ListSnapshotsRequest := mkListSnapshotsRequest {
  ls_MaxEntries : Z;
  ls_StartingToken : string;
  ls_SourceVolumeId : string;
  ls_SnapshotId : string;
}.

Record ListSnapshotsResponse := mkListSnapshotsResponse {
  Entries : list Snapshot;
  NextToken : string;
}.

(** ControllerServiceCapability_RPC_Type *)
Inductive RPC_Type :=
| RPC_UNKNOWN | RPC_CREATE_DELETE_VOLUME | RPC_PUBLISH_UNPUBLISH_VOLUME
| RPC_LIST_VOLUMES | RPC_GET_CAPACITY | RPC_CREATE_DELETE_SNAPSHOT
| RPC_LIST_SNAPSHOTS | RPC_CLONE_VOLUME | RPC_PUBLISH_READONLY
| RPC_EXPAND_VOLUME | RPC_LIST_VOLUMES_PUBLISHED_NODES
| RPC_VOLUME_CONDITION | RPC_GET_VOLUME | RPC_SINGLE_NODE_MULTI_WRITER
| RPC_MODIFY_VOLUME.

#[export] Instance RPC_Type_eq_dec : EqDecision RPC_Type.
Proof. solve_decision. Defined.

Definition RPC_Type_String (t : RPC_Type) : string :=
  match t with
  | RPC_UNKNOWN => "UNKNOWN"
  | RPC_CREATE_DELETE_VOLUME => "CREATE_DELETE_VOLUME"
  | RPC_PUBLISH_UNPUBLISH_VOLUME => "PUBLISH_UNPUBLISH_VOLUME"
  | RPC_LIST_VOLUMES => "LIST_VOLUMES"
  | RPC_GET_CAPACITY => "GET_CAPACITY"
  | RPC_CREATE_DELETE_SNAPSHOT => "CREATE_DELETE_SNAPSHOT"
  | RPC_LIST_SNAPSHOTS => "LIST_SNAPSHOTS"
  | RPC_CLONE_VOLUME => "CLONE_VOLUME"
  | RPC_PUBLISH_READONLY => "PUBLISH_READONLY"
  | RPC_EXPAND_VOLUME => "EXPAND_VOLUME"
  | RPC_LIST_VOLUMES_PUBLISHED_NODES => "LIST_VOLUMES_PUBLISHED_NODES"
  | RPC_VOLUME_CONDITION => "VOLUME_CONDITION"
  | RPC_GET_VOLUME => "GET_VOLUME"
  | RPC_SINGLE_NODE_MULTI_WRITER => "SINGLE_NODE_MULTI_WRITER"
  | RPC_MODIFY_VOLUME => "MODIFY_VOLUME"
  end.

(** A controller capability is an RPC type in its oneof. *)
Record ControllerServiceCapability := mkCSC { csc_Rpc : RPC_Type }.

(** ** Node service *)

(** NodeServiceCapability_RPC_Type *)
Inductive Node_RPC_Type :=
| NRPC_UNKNOWN | NRPC_STAGE_UNSTAGE_VOLUME | NRPC_GET_VOLUME_STATS
| NRPC_EXPAND_VOLUME | NRPC_VOLUME_CONDITION | NRPC_SINGLE_NODE_MULTI_WRITER
| NRPC_VOLUME_MOUNT_GROUP.

Record NodeServiceCapability := mkNSC { nsc_Rpc : Node_RPC_Type }.

Record NodeStageVolumeRequest := mkNodeStageRequest {
  nst_VolumeId : string;
  nst_StagingTargetPath : string;
  nst_VolumeCapability : option VolumeCapability;
}.

Record NodeUnstageVolumeRequest := mkNodeUnstageRequest {
  nus_VolumeId : string;
  nus_StagingTargetPath : string;
}.

Record NodePublishVolumeRequest := mkNodePublishRequest {
  np_VolumeId : string;
  np_StagingTargetPath : string;
  np_TargetPath : string;
  np_VolumeCapability : option VolumeCapability;
}.

Record NodeUnpublishVolumeRequest := mkNodeUnpublishRequest {
  nup_VolumeId : string;
  nup_TargetPath : string;
}.

Record NodeGetVolumeStatsRequest := mkNodeStatsRequest {
  ngs_VolumeId : string;
  ngs_VolumePath : string;
}.

Inductive UsageUnit := VolumeUsage_BYTES | VolumeUsage_INODES.

Record VolumeUsage := mkVolumeUsage {
  Available : Z;
  Total : Z;
  Used : Z;
  Unit : UsageUnit;
}.

Record NodeExpandVolumeRequest := mkNodeExpandRequest {
  ne_VolumeId : string;
  ne_VolumePath : string;
  ne_RequiredBytes : option Z;
  ne_VolumeCapability : option VolumeCapability;
}.
