(* ===== verification/Api.v ===== *)
(** * The services the driver calls

    One constructor of [call] per client method the sources use: the API
    servers of the host cluster and of the guest cluster, the clock that
    bounds the polling loops, and the operating system of the node.  [reply]
    gives the type of the answer.

    None of these services is part of the driver: the handlers are programs
    over [call], and what a property needs from a service is a hypothesis of
    that property. *)

From S2P Require Import Prelude Go Prog Kube.

(** The fields of statfs(2) the node server reads *)
Record Statfs := mkStatfs {
  Bavail : Z; Blocks : Z; Bfree : Z; Bsize : Z; Ffree : Z; Files : Z;
}.

Inductive call : Type :=
(* host cluster: snapshot client *)
| SnapGet (ns name : string)
| SnapCreate (s : VolumeSnapshot)
| SnapList (ns : string) (lo : ListOptions)
| SnapDelete (ns name : string)
(* host cluster: storage and core clients *)
| ScGet (name : string)
| PvcGet (ns name : string)
| PvcCreate (p : PersistentVolumeClaim)
| PvcUpdate (p : PersistentVolumeClaim)
| PvcDelete (ns name : string)
| HostPodList (ns : string)
| HostVaList
(* host cluster: Harvester client *)
| VrbGet (ns name : string)
| VrbCreate (v : VolumeRemoteBackup)
| VrbList (ns : string) (lo : ListOptions)
| VrbDelete (ns name : string)
| VrrGet (ns name : string)
| VrrCreate (v : VolumeRemoteRestore)
| VrrDelete (ns name : string)
| SettingGet (name : string)
(* host cluster: network file systems and Longhorn *)
| NfsGet (ns name : string)
| NfsCreate (ns : string) (n : NetworkFilesystem)
| NfsUpdate (ns : string) (n : NetworkFilesystem)
| NfsDelete (ns name : string)
| NfsList (ns : string)
| LhVolumeList (ns : string)
(* host cluster: KubeVirt *)
| VmGet (ns name : string)
| VmPatch (ns name : string) (ops : list patchOp)
| VmAddVolume (ns name : string) (opts : AddVolumeOptions)
| VmRemoveVolume (ns name volume : string)
| VmiGet (ns name : string)
| VmiList (ns : string)
| VmiRemoveVolume (ns name volume : string)
(* guest cluster *)
| GuestVaList
| GuestPvGet (name : string)
| GuestPodsByIndex (index key : string)
| GuestNodeGet (name : string)
| GuestNodeUpdate (n : Node)
(* clock: how many polling rounds come before the deadline *)
| PollRounds (interval timeout : Z)
(* start-up of the driver *)
| OsStat (path : string)
| NewClient (what : string)
| ConfigNamespace (kubeconfig : string)
| ClientConfigHost (kubeconfig : string)
| Log (level : string)
| GoServe (endpoint : string)
| LeaderRun (ns name : string)
| AddIndexer (index : string)
| NetListen (proto addr : string)
| GrpcServe (proto addr : string)
| GrpcStop (graceful : bool)
(* Go runtime: the order in which a map is ranged over *)
| RangeOrder (keys : list string)
(* operating system of the node *)
| OsReadDir (path : string)
| OsEvalSymlinks (path : string)
| OsMkdirAll (path : string) (perm : Z)
| OsCreateFile (path : string) (perm : Z)
| OsRemove (path : string)
| OsStatIsDir (path : string)
| OsReadLine (path : string)
| PathExists (path : string)
| UnixStatMode (path : string)
| UnixStatfs (path : string)
| IsMountPoint (path : string)
| IsLikelyNotMountPoint (path : string)
| Mount (source target fstype : string) (options : list string)
| FormatAndMount (source target fstype : string) (options : list string)
| Unmount (target : string)
| CleanupMountPoint (path : string) (extensive : bool)
| HostNamespacePath (proc : string)
| NewExecutorWithNS (ns : string)
| Execute (cmd : string) (args : list string)
| RunCommand (cmd : string) (args : list string).

(** leader.RunOrDie does not return: it takes part in the election, holding a
    Lease while it leads, until it ends the process, with status 0 once the
    context is done and otherwise by a fatal error or a panic. *)
Inductive leader_end := LeaderTerminated | LeaderDied (why : string).

Definition reply (c : call) : Type :=
  match c with
  | SnapGet _ _ | SnapCreate _ => result VolumeSnapshot
  | SnapList _ _ => result VolumeSnapshotList
  | SnapDelete _ _ => result unit
  | ScGet _ => result StorageClass
  | PvcGet _ _ | PvcCreate _ | PvcUpdate _ => result PersistentVolumeClaim
  | PvcDelete _ _ => result unit
  | HostPodList _ => result (list Pod)
  | HostVaList | GuestVaList => result (list VolumeAttachment)
  | VrbGet _ _ | VrbCreate _ => result VolumeRemoteBackup
  | VrbList _ _ => result (list VolumeRemoteBackup)
  | VrbDelete _ _ => result unit
  | VrrGet _ _ | VrrCreate _ => result VolumeRemoteRestore
  | VrrDelete _ _ => result unit
  | SettingGet _ => result Setting
  | NfsGet _ _ | NfsCreate _ _ | NfsUpdate _ _ => result NetworkFilesystem
  | NfsDelete _ _ => result unit
  | NfsList _ => result (list NetworkFilesystem)
  | LhVolumeList _ => result unit
  | VmGet _ _ | VmPatch _ _ _ => result VirtualMachine
  | VmAddVolume _ _ _ | VmRemoveVolume _ _ _ | VmiRemoveVolume _ _ _ => result unit
  | VmiGet _ _ => result VirtualMachineInstance
  | VmiList _ => result (list VirtualMachineInstance)
  | GuestPvGet _ => result PersistentVolume
  | GuestPodsByIndex _ _ => result (list Pod)
  | GuestNodeGet _ | GuestNodeUpdate _ => result Node
  | PollRounds _ _ => nat
  | RangeOrder _ => list string
  | OsStat _ | NewClient _ | NetListen _ _ | GrpcServe _ _ => result unit
  | ConfigNamespace _ | ClientConfigHost _ => result string
  | Log _ | GoServe _ | AddIndexer _ | GrpcStop _ => unit
  | LeaderRun _ _ => leader_end
  | OsReadDir _ => result (list string)
  | OsEvalSymlinks _ => result string
  | OsMkdirAll _ _ | OsCreateFile _ _ | OsRemove _ => result unit
  | OsStatIsDir _ => result bool
  | OsReadLine _ => result string
  | PathExists _ => result bool
  | UnixStatMode _ => result Z
  | UnixStatfs _ => result Statfs
  | IsMountPoint _ | IsLikelyNotMountPoint _ => (bool * option error)%type
  | Mount _ _ _ _ | FormatAndMount _ _ _ _ | Unmount _ | CleanupMountPoint _ _ => result unit
  | HostNamespacePath _ => string
  | NewExecutorWithNS _ => result unit
  | Execute _ _ => result string
  | RunCommand _ _ => (string * option error)%type
  end.

(** The type of the handlers: programs over these calls that return Go's
    pair of a value and an error. *)
Abbreviation P := (prog reply).
Abbreviation Fallible A := (prog reply (result A)).

(** Which calls write: a request the API servers answer by changing an
    object, or an operation that changes the mounts or files of the node.
    The leader election creates and renews its Lease, and the goroutine that
    GoServe starts runs [serve] (Server.v), which removes a stale socket.
    The command mountpoint only tests. *)
Definition mutating (c : call) : bool :=
  match c with
  | SnapCreate _ | SnapDelete _ _
  | PvcCreate _ | PvcUpdate _ | PvcDelete _ _
  | VrbCreate _ | VrbDelete _ _ | VrrCreate _ | VrrDelete _ _
  | NfsCreate _ _ | NfsUpdate _ _ | NfsDelete _ _
  | VmPatch _ _ _ | VmAddVolume _ _ _ | VmRemoveVolume _ _ _ | VmiRemoveVolume _ _ _
  | GuestNodeUpdate _ | LeaderRun _ _ | GoServe _
  | OsMkdirAll _ _ | OsCreateFile _ _ | OsRemove _
  | Mount _ _ _ _ | FormatAndMount _ _ _ _ | Unmount _ | CleanupMountPoint _ _
  | RunCommand _ _ => true
  | Execute cmd _ => negb (cmd =? "mountpoint")%string
  | _ => false
  end.

(** The mutating calls of a trace, in order *)
Definition writes (tr : trace reply) : list call :=
  List.filter mutating (calls tr).

#[global] Arguments writes tr : simpl never.

Lemma writes_app tr1 tr2 : writes (tr1 ++ tr2) = writes tr1 ++ writes tr2.
Proof. unfold writes, calls. by rewrite map_app, List.filter_app. Qed.

Lemma writes_cons e tr :
  writes (e :: tr) = (if mutating (projT1 e) then [projT1 e] else []) ++ writes tr.
Proof. unfold writes, calls. simpl. by destruct (mutating (projT1 e)). Qed.

(** The writes are the mutating calls. *)
Lemma In_writes c tr : In c (writes tr) <-> In c (calls tr) /\ mutating c = true.
Proof. apply filter_In. Qed.

Lemma In_writes_mutating c tr : mutating c = true -> In c (calls tr) -> In c (writes tr).
Proof. rewrite In_writes. auto. Qed.

Lemma writes_nil : writes [] = [].
Proof. reflexivity. Qed.

#[export] Hint Rewrite writes_app writes_cons writes_nil : csi_rw.

(** Compute the writes of a concrete trace. *)
Ltac writes_simpl :=
  repeat (rewrite ?writes_app, ?writes_cons, ?writes_nil;
          cbn [projT1 ev mutating app]);
  repeat match goal with H : writes _ = _ |- _ => rewrite H end;
  cbn [app].

(** A client call *)
Abbreviation send := (@trigger call reply).

(** The error a reply carries, if any *)
Definition err_of {A} (r : result A) : option error :=
  match r with Ok _ => None | Err e => Some e end.

Definition reply_error (e : event reply) : option error :=
  let '(existT c r) := e in
  match c return reply c -> option error with
  | PollRounds _ _ | RangeOrder _ | HostNamespacePath _ | Log _ | GoServe _ | LeaderRun _ _
  | AddIndexer _ | GrpcStop _ => fun _ => None
  | IsMountPoint _ | IsLikelyNotMountPoint _ | RunCommand _ _ => fun r => r.2
  | SnapGet _ _ | SnapCreate _ | SnapList _ _ | SnapDelete _ _ | ScGet _
  | PvcGet _ _ | PvcCreate _ | PvcUpdate _ | PvcDelete _ _ | HostPodList _ | HostVaList
  | VrbGet _ _ | VrbCreate _ | VrbList _ _ | VrbDelete _ _ | VrrGet _ _ | VrrCreate _
  | VrrDelete _ _ | SettingGet _ | NfsGet _ _ | NfsCreate _ _ | NfsUpdate _ _
  | NfsDelete _ _ | NfsList _ | LhVolumeList _ | VmGet _ _ | VmPatch _ _ _
  | VmAddVolume _ _ _ | VmRemoveVolume _ _ _ | VmiGet _ _ | VmiList _
  | VmiRemoveVolume _ _ _ | GuestVaList | GuestPvGet _ | GuestPodsByIndex _ _
  | GuestNodeGet _ | GuestNodeUpdate _ | OsReadDir _ | OsEvalSymlinks _
  | OsMkdirAll _ _ | OsCreateFile _ _ | OsRemove _ | OsStatIsDir _ | OsReadLine _
  | PathExists _ | UnixStatMode _ | UnixStatfs _ | Mount _ _ _ _
  | FormatAndMount _ _ _ _ | Unmount _ | CleanupMountPoint _ _
  | NewExecutorWithNS _ | Execute _ _ | OsStat _ | NewClient _ | NetListen _ _
  | GrpcServe _ _ | ConfigNamespace _ | ClientConfigHost _ => err_of
  end r.

(** Some service failed: it answered with an error other than not-found. *)
Definition service_failed (tr : trace reply) : Prop :=
  exists e err, In e tr /\ reply_error e = Some err /\ errors.IsNotFound err = false.

Lemma service_failed_cons e tr : service_failed tr -> service_failed (e :: tr).
Proof. intros (e' & err & Hin & H). exists e', err. auto with csi. Qed.

Lemma service_failed_app_r tr tr' : service_failed tr' -> service_failed (tr ++ tr').
Proof. intros (e' & err & Hin & H). exists e', err. auto with csi. Qed.

Lemma service_failed_head e tr err :
  reply_error e = Some err -> errors.IsNotFound err = false -> service_failed (e :: tr).
Proof. intros H1 H2. exists e, err. auto with csi. Qed.

#[export] Hint Resolve service_failed_cons service_failed_app_r : csi.
#[export] Hint Extern 4 (service_failed (_ :: _)) =>
  eapply service_failed_head; [reflexivity|eassumption] : csi.

(** ** Programs that only read *)

Definition read_only {A} (p : P A) : Prop := only_calls (fun c => mutating c = false) p.

Lemma wp_read_only {A} (p : P A) : read_only p -> wp p (fun tr _ => writes tr = []).
Proof.
  intros H. apply wp_iff. intros tr o Hr.
  pose proof (only_calls_runs _ _ _ _ H Hr) as HF. unfold writes.
  induction HF as [|c cs' Hc _ IH]; simpl; [done|]. by rewrite Hc.
Qed.

(** Sequencing after a program that only reads *)
Lemma wp_bind_read_only {A B} (p : P A) (f : A -> P B) Q :
  read_only p ->
  (forall tr a, writes tr = [] -> wp (f a) (fun tr' o' => Q (tr ++ tr') o')) ->
  (forall tr w, writes tr = [] -> Q tr (Panicked w)) ->
  wp (bind p f) Q.
Proof.
  intros Hp Hf Hw. eapply wp_bind_use; [apply wp_read_only, Hp| |]; simpl; auto.
Qed.

Lemma read_only_bind {A B} (p : P A) (f : A -> P B) :
  read_only p -> (forall a, read_only (f a)) -> read_only (bind p f).
Proof. apply only_calls_bind. Qed.

Lemma read_only_deref {A} (o : option A) : read_only (deref o).
Proof. by destruct o. Qed.

#[export] Hint Resolve read_only_bind read_only_deref : csi.

(** Prove that a program only reads, by symbolic execution. *)
Ltac solve_read_only :=
  repeat first
    [ progress intros
    | done
    | apply read_only_deref
    | apply read_only_bind
    | case_goal
    | match goal with |- read_only (Call _ _) => split; [reflexivity|] end
    | match goal with |- read_only (send _) => split; [reflexivity|] end
    | progress (unfold read_only; simpl only_calls) ].

(** ** Symbolic execution

    [wp_exec] runs a program on symbolic replies down to its leaves: it
    introduces each reply, splits on it when the program does, and passes
    over the subprograms that the hint base [csi] knows to be read-only. *)
Ltac wp_split x :=
  lazymatch x with
  | context [match ?y with _ => _ end] => wp_split y
  | _ => first [is_var x; destruct x | destruct x eqn:?]
  end.

Ltac wp_exec_step :=
  lazymatch goal with
  | |- forall _ : reply _, _ => intros ?; cbn [reply] in *
  | |- forall _, _ => intros ?
  | |- wp (match ?x with _ => _ end) _ => wp_split x
  | |- wp (bind (match ?x with _ => _ end) _) _ => wp_split x
  | |- wp (bind (bind _ _) _) _ => apply wp_bind
  | |- wp (bind _ _) _ =>
      apply wp_bind_read_only; [solve [auto with csi nocore]|intros ? ? ?|intros ? ? ?]
  end.

Ltac wp_exec := cbn; repeat (wp_exec_step; cbn).

(** The same over a server: [swp_exec] keeps the steps of the server as
    hypotheses. *)
Ltac swp_exec_step :=
  lazymatch goal with
  | |- forall _ : reply _, _ => intros ?; cbn [reply] in *
  | |- forall _, _ => intros ?
  | |- swp _ (match ?x with _ => _ end) _ _ => wp_split x
  | |- swp _ (bind (match ?x with _ => _ end) _) _ _ => wp_split x
  | |- swp _ (bind (bind _ _) _) _ _ => apply swp_bind
  end.

Ltac swp_exec := cbn; repeat (swp_exec_step; cbn).
