(* ===== verification/Store.v ===== *)
(** * What the API servers promise

    The API servers are not part of the driver; what the driver relies on is
    stated here as classes of laws over a server [step] (the relation of
    [Prog]): a read returns the stored object, a successful delete removes
    the object or marks it as being deleted, and a JSON patch is applied as
    a whole or not at all.  Requests may fail at any time and other clients
    may act between two calls wherever a law does not forbid it; what a
    theorem assumes of those clients is a class of its own
    ([VolumeIsolation]).

    [Cluster] and [mem_serve] are an executable in-memory server that
    satisfies the laws; the examples of the development run against it. *)

From S2P Require Import Prelude Go Prog Kube Csi Api.

Abbreviation key := (string * string)%type.

(** ** JSON patches (RFC 6902)

    The effect of one operation on a virtual machine, for the paths the
    driver patches.  An empty list is omitted from the JSON document, so
    appending to it or replacing it addresses a missing location. *)

Definition rvPath : string := "/metadata/resourceVersion".
Definition volumesPath : string := "/spec/template/spec/volumes".
Definition disksPath : string := "/spec/template/spec/domain/devices/disks".

Definition set_Template (t : VMTemplateSpec) (vm : VirtualMachine) : VirtualMachine :=
  mkVM (vm_meta vm) (Some t) (vm_Conditions vm) (vm_PrintableStatus vm).

Definition apply_op (op : patchOp) (vm : VirtualMachine) : option VirtualMachine :=
  match PatchValue op, vm_Template vm with
  | PVString s, _ =>
      if (Op op =? "test")%string && (Path op =? rvPath)%string
         && (s =? ResourceVersion (meta vm))%string then Some vm else None
  | PVVolume v, Some t =>
      if (Op op =? "add")%string && (Path op =? volumesPath +:+ "/-")%string then
        match Volumes t with
        | [] => None
        | vs => Some (set_Template (mkVMTemplate (vs ++ [v]) (Disks t)) vm)
        end
      else None
  | PVDisk d, Some t =>
      if (Op op =? "add")%string && (Path op =? disksPath +:+ "/-")%string then
        match Disks t with
        | [] => None
        | ds => Some (set_Template (mkVMTemplate (Volumes t) (ds ++ [d])) vm)
        end
      else None
  | PVVolumes vs, Some t =>
      if (Op op =? "replace")%string && (Path op =? volumesPath)%string then
        match Volumes t with
        | [] => None
        | _ => Some (set_Template (mkVMTemplate vs (Disks t)) vm)
        end
      else None
  | PVDisks ds, Some t =>
      if (Op op =? "replace")%string && (Path op =? disksPath)%string then
        match Disks t with
        | [] => None
        | _ => Some (set_Template (mkVMTemplate (Volumes t) ds) vm)
        end
      else None
  | _, None => None
  end.

Definition apply_patch (ops : list patchOp) (vm : VirtualMachine) : option VirtualMachine :=
  foldl (fun acc op => acc ≫= apply_op op) (Some vm) ops.

Lemma apply_patch_cons op ops vm :
  apply_patch (op :: ops) vm = apply_op op vm ≫= apply_patch ops.
Proof.
  unfold apply_patch. simpl. destruct (apply_op op vm) as [vm'|]; simpl; [done|].
  induction ops; simpl; auto.
Qed.

(** ** Laws *)

(** An object is gone when it is not stored or is stored with a deletion
    timestamp (it waits for its finalizers). *)
Definition gone {T} `{HasMeta T} (m : gmap key T) (k : key) : Prop :=
  match m !! k with
  | None => True
  | Some x => DeletionTimestamp (meta x) <> None
  end.

(** The reply to a read of key [k] in the map [m] *)
Definition read_reply {T} (m : gmap key T) (k : key) (r : result T) : Prop :=
  match r with
  | Ok x => m !! k = Some x
  | Err e => errors.IsNotFound e = true -> m !! k = None
  end.

(** The reply to a delete of key [k]; a failed delete that is not a
    not-found leaves the map alone. *)
Definition delete_reply {T} `{HasMeta T} (m m' : gmap key T) (k : key) (r : result unit) : Prop :=
  match r with
  | Ok _ => gone m' k
  | Err e => if errors.IsNotFound e then m' !! k = None else m' = m
  end.

(** Claims and restores of the host cluster: what the API server documents
    of its read, create and delete requests. *)
Class VolumeLaws (S : Type) (step : forall c, S -> reply c -> S -> Prop) := {
  pvcs : S -> gmap key PersistentVolumeClaim;
  vrrs : S -> gmap key VolumeRemoteRestore;
  pvc_get : forall ns n s r s', step (PvcGet ns n) s r s' -> read_reply (pvcs s) (ns, n) r;
  pvc_create : forall p s r s', step (PvcCreate p) s r s' ->
    is_Some (pvcs s !! key_of p) -> exists e, r = Err e;
  pvc_delete : forall ns n s r s', step (PvcDelete ns n) s r s' ->
    delete_reply (pvcs s) (pvcs s') (ns, n) r;
  vrr_get : forall ns n s r s', step (VrrGet ns n) s r s' -> read_reply (vrrs s) (ns, n) r;
  vrr_delete : forall ns n s r s', step (VrrDelete ns n) s r s' ->
    delete_reply (vrrs s) (vrrs s') (ns, n) r;
}.

(** Isolation.  This is an assumption on the other clients and controllers
    of the host, not a promise of the API server: while the run lasts they
    may change claims and restores (the binder sets fields), but they add
    none and remove none, so the only calls after which the set of claims or
    of restores may differ are those of the driver that write the kind. *)
Class VolumeIsolation (S : Type) (step : forall c, S -> reply c -> S -> Prop)
    `{!VolumeLaws S step} := {
  pvc_frame : forall c s r s', step c s r s' ->
    match c with
    | PvcCreate _ | PvcUpdate _ | PvcDelete _ _ => True
    | _ => dom (pvcs s') = dom (pvcs s)
    end;
  vrr_frame : forall c s r s', step c s r s' ->
    match c with
    | VrrCreate _ | VrrDelete _ _ => True
    | _ => dom (vrrs s') = dom (vrrs s)
    end;
}.

(** Snapshots of the host cluster *)
Class SnapLaws (S : Type) (step : forall c, S -> reply c -> S -> Prop) := {
  snaps : S -> gmap key VolumeSnapshot;
  snap_get : forall ns n s r s', step (SnapGet ns n) s r s' -> read_reply (snaps s) (ns, n) r;
}.

(** The virtual machine and its stored version differ in the resource
    version at most. *)
Definition same_spec (a b : VirtualMachine) : Prop :=
  vm_Template a = vm_Template b /\ vm_Conditions a = vm_Conditions b
  /\ vm_PrintableStatus a = vm_PrintableStatus b
  /\ key_of a = key_of b.

(** Virtual machines of the host cluster.  Other clients may change a
    machine after the driver read it and before its next call; a changed
    machine has another resource version.  A patch is applied as a whole to
    the machine stored when it is processed. *)
Class VmLaws (S : Type) (step : forall c, S -> reply c -> S -> Prop) := {
  vms : S -> gmap key VirtualMachine;
  vm_get : forall ns n s r s', step (VmGet ns n) s r s' -> read_reply (vms s) (ns, n) r;
  vm_version : forall ns n s vm s' vm', step (VmGet ns n) s (Ok vm) s' ->
    vms s' !! (ns, n) = Some vm' ->
    ResourceVersion (meta vm') = ResourceVersion (meta vm) -> vm' = vm;
  vm_patch : forall ns n ops s r s', step (VmPatch ns n ops) s r s' ->
    match r with
    | Ok vm' => exists vm vm1, vms s !! (ns, n) = Some vm
        /\ apply_patch ops vm = Some vm1 /\ same_spec vm' vm1
        /\ vms s' = <[(ns, n) := vm']> (vms s)
    | Err _ => vms s' = vms s
    end;
}.

(** ** An in-memory server *)

Record Cluster := mkCluster {
  cl_pvcs : gmap key PersistentVolumeClaim;
  cl_vrrs : gmap key VolumeRemoteRestore;
  cl_vrbs : gmap key VolumeRemoteBackup;
  cl_snaps : gmap key VolumeSnapshot;
  cl_scs : gmap string StorageClass;
  cl_nfs : gmap key NetworkFilesystem;
  cl_vms : gmap key VirtualMachine;
  cl_vmis : gmap key VirtualMachineInstance;
  cl_pods : list Pod;
  cl_settings : gmap string Setting;
  cl_rounds : nat;
}.

Definition notFound {A} (what : string) : result A :=
  Err (APIErr "NotFound" 404 (what +:+ " not found")).

Definition lookup_reply {T} (m : gmap key T) (k : key) : result T :=
  match m !! k with Some x => Ok x | None => notFound k.2 end.

Definition upd_pvcs f (c : Cluster) := mkCluster (f (cl_pvcs c)) (cl_vrrs c) (cl_vrbs c)
  (cl_snaps c) (cl_scs c) (cl_nfs c) (cl_vms c) (cl_vmis c) (cl_pods c) (cl_settings c) (cl_rounds c).
Definition upd_vrrs f (c : Cluster) := mkCluster (cl_pvcs c) (f (cl_vrrs c)) (cl_vrbs c)
  (cl_snaps c) (cl_scs c) (cl_nfs c) (cl_vms c) (cl_vmis c) (cl_pods c) (cl_settings c) (cl_rounds c).
Definition upd_snaps f (c : Cluster) := mkCluster (cl_pvcs c) (cl_vrrs c) (cl_vrbs c)
  (f (cl_snaps c)) (cl_scs c) (cl_nfs c) (cl_vms c) (cl_vmis c) (cl_pods c) (cl_settings c) (cl_rounds c).
Definition upd_nfs f (c : Cluster) := mkCluster (cl_pvcs c) (cl_vrrs c) (cl_vrbs c)
  (cl_snaps c) (cl_scs c) (f (cl_nfs c)) (cl_vms c) (cl_vmis c) (cl_pods c) (cl_settings c) (cl_rounds c).
Definition upd_vms f (c : Cluster) := mkCluster (cl_pvcs c) (cl_vrrs c) (cl_vrbs c)
  (cl_snaps c) (cl_scs c) (cl_nfs c) (f (cl_vms c)) (cl_vmis c) (cl_pods c) (cl_settings c) (cl_rounds c).

Definition upd_vmis f (c : Cluster) := mkCluster (cl_pvcs c) (cl_vrrs c) (cl_vrbs c)
  (cl_snaps c) (cl_scs c) (cl_nfs c) (cl_vms c) (f (cl_vmis c)) (cl_pods c) (cl_settings c) (cl_rounds c).

(** A new resource version *)
Definition bump (vm : VirtualMachine) : VirtualMachine :=
  let m := vm_meta vm in
  mkVM (mkMeta (Name m) (Namespace m) (Labels m) (Annotations m)
          (ResourceVersion m +:+ "'") (DeletionTimestamp m) (CreationTimestamp m))
    (vm_Template vm) (vm_Conditions vm) (vm_PrintableStatus vm).

Definition create_in {T} `{HasMeta T} (m : gmap key T) (x : T) : result T :=
  match m !! key_of x with
  | Some _ => Err (APIErr "AlreadyExists" 409 (name_of x +:+ " already exists"))
  | None => Ok x
  end.

Definition unsupported {A} : result A := Err (OtherErr "not served").

Definition mem_serve (c : call) : Cluster -> reply c * Cluster :=
  match c return Cluster -> reply c * Cluster with
  | PvcGet ns n => fun s => (lookup_reply (cl_pvcs s) (ns, n), s)
  | PvcCreate p => fun s =>
      let r := create_in (cl_pvcs s) p in
      (r, match r with Ok _ => upd_pvcs <[key_of p := p]> s | Err _ => s end)
  | PvcUpdate p => fun s => (Ok p, upd_pvcs <[key_of p := p]> s)
  | PvcDelete ns n => fun s =>
      match cl_pvcs s !! (ns, n) with
      | Some _ => (Ok tt, upd_pvcs (delete (ns, n)) s)
      | None => (notFound n, s)
      end
  | VrrGet ns n => fun s => (lookup_reply (cl_vrrs s) (ns, n), s)
  | VrrCreate v => fun s =>
      let r := create_in (cl_vrrs s) v in
      (r, match r with Ok _ => upd_vrrs <[key_of v := v]> s | Err _ => s end)
  | VrrDelete ns n => fun s =>
      match cl_vrrs s !! (ns, n) with
      | Some _ => (Ok tt, upd_vrrs (delete (ns, n)) s)
      | None => (notFound n, s)
      end
  | VrbGet ns n => fun s => (lookup_reply (cl_vrbs s) (ns, n), s)
  | SnapGet ns n => fun s => (lookup_reply (cl_snaps s) (ns, n), s)
  | SnapCreate x => fun s =>
      let r := create_in (cl_snaps s) x in
      (r, match r with Ok _ => upd_snaps <[key_of x := x]> s | Err _ => s end)
  | SnapDelete ns n => fun s =>
      match cl_snaps s !! (ns, n) with
      | Some _ => (Ok tt, upd_snaps (delete (ns, n)) s)
      | None => (notFound n, s)
      end
  | ScGet n => fun s =>
      (match cl_scs s !! n with Some x => Ok x | None => notFound n end, s)
  | NfsGet ns n => fun s => (lookup_reply (cl_nfs s) (ns, n), s)
  | NfsCreate ns x => fun s =>
      let r := create_in (cl_nfs s) x in
      (r, match r with Ok _ => upd_nfs <[(ns, name_of x) := x]> s | Err _ => s end)
  | NfsUpdate ns x => fun s => (Ok x, upd_nfs <[(ns, name_of x) := x]> s)
  | NfsDelete ns n => fun s =>
      match cl_nfs s !! (ns, n) with
      | Some _ => (Ok tt, upd_nfs (delete (ns, n)) s)
      | None => (notFound n, s)
      end
  | VmGet ns n => fun s => (lookup_reply (cl_vms s) (ns, n), s)
  | VmPatch ns n ops => fun s =>
      match cl_vms s !! (ns, n) with
      | None => (notFound n, s)
      | Some vm =>
          match apply_patch ops vm with
          | None => (Err (APIErr "Invalid" 422 "the server rejected our request"), s)
          | Some vm1 => (Ok (bump vm1), upd_vms <[(ns, n) := bump vm1]> s)
          end
      end
  | VmiGet ns n => fun s => (lookup_reply (cl_vmis s) (ns, n), s)
  | HostPodList _ => fun s => (Ok (cl_pods s), s)
  | HostVaList => fun s => (Ok [], s)
  | GuestVaList => fun s => (Ok [], s)
  | SettingGet n => fun s =>
      (match cl_settings s !! n with Some x => Ok x | None => notFound n end, s)
  | PollRounds _ _ => fun s => (cl_rounds s, s)
  | RangeOrder keys => fun s => (keys, s)
  | Log _ | GoServe _ | AddIndexer _ | GrpcStop _ => fun s => (tt, s)
  | LeaderRun _ _ => fun s => (LeaderTerminated, s)
  | HostNamespacePath p => fun s => (p +:+ "/1/ns/", s)
  | IsMountPoint _ => fun s => ((false, None), s)
  | IsLikelyNotMountPoint _ => fun s => ((true, None), s)
  | RunCommand _ _ => fun s => (("", None), s)
  | _ => fun s => (unsupported, s)
  end.

Definition mem_step : forall c, Cluster -> reply c -> Cluster -> Prop := step_of mem_serve.

Lemma read_reply_lookup {T} (m : gmap key T) k : read_reply m k (lookup_reply m k).
Proof. unfold read_reply, lookup_reply. by destruct (m !! k). Qed.

Lemma create_in_exists {T} `{HasMeta T} (m : gmap key T) (x : T) :
  is_Some (m !! key_of x) -> exists e, create_in m x = Err e.
Proof. unfold create_in. intros [y ->]. eauto. Qed.

#[export] Program Instance mem_VolumeLaws : VolumeLaws Cluster mem_step := {|
  pvcs := cl_pvcs;
  vrrs := cl_vrrs;
|}.
Next Obligation.
  intros ns n s r s' [= <- <-]. apply read_reply_lookup.
Qed.
Next Obligation.
  intros p s r s' [= <- _]. apply create_in_exists.
Qed.
Next Obligation.
  intros ns n s r s'. unfold mem_step, step_of. simpl.
  destruct (cl_pvcs s !! (ns, n)) eqn:E; intros [= <- <-]; unfold delete_reply, gone; simpl.
  - by rewrite lookup_delete_eq.
  - done.
Qed.
Next Obligation.
  intros ns n s r s' [= <- <-]. apply read_reply_lookup.
Qed.
Next Obligation.
  intros ns n s r s'. unfold mem_step, step_of. simpl.
  destruct (cl_vrrs s !! (ns, n)) eqn:E; intros [= <- <-]; unfold delete_reply, gone; simpl.
  - by rewrite lookup_delete_eq.
  - done.
Qed.

#[export] Instance mem_VolumeIsolation : VolumeIsolation Cluster mem_step.
Proof.
  split; intros c s r s'; unfold mem_step, step_of;
    destruct c; simpl; repeat case_match; intros; by simplify_eq/=.
Qed.

#[export] Program Instance mem_SnapLaws : SnapLaws Cluster mem_step := {| snaps := cl_snaps |}.
Next Obligation.
  intros ns n s r s' [= <- <-]. apply read_reply_lookup.
Qed.

#[export] Program Instance mem_VmLaws : VmLaws Cluster mem_step := {| vms := cl_vms |}.
Next Obligation.
  intros ns n s r s' [= <- <-]. apply read_reply_lookup.
Qed.
Next Obligation.
  intros ns n s vm s' vm' [= Hr <-] Hl _. unfold lookup_reply in Hr.
  rewrite Hl in Hr. congruence.
Qed.
Next Obligation.
  intros ns n ops s r s'. unfold mem_step, step_of. simpl.
  destruct (cl_vms s !! (ns, n)) as [vm|] eqn:E; [|by intros [= <- <-]].
  destruct (apply_patch ops vm) as [vm1|] eqn:E2; intros [= <- <-]; [|done].
  exists vm, vm1. by repeat split.
Qed.
