(* ===== verification/Utils.v ===== *)
(** * pkg/utils: volume size rounding and the Harvester version test

    [RoundUpSize] works on Go's int64, so its addition wraps around near the
    top of the range; [IsVersionAtLeast] is built on the vendored
    golang.org/x/mod/semver, which is translated here function by function. *)

From S2P Require Import Prelude Go.

(** ** pkg/utils/util.go *)

Definition SizeAlignment : Z := 2 * 1024 * 1024.
Definition MinimalVolumeSize : Z := 10 * 1024 * 1024.
Definition AnnStorageProvisioner : string := "volume.kubernetes.io/storage-provisioner".
Definition AnnBetaStorageProvisioner : string :=
  "volume.beta.kubernetes.io/storage-provisioner".

Definition RoundUpSize (size : Z) : Z :=
  if size <=? 0 then SizeAlignment
  else
    let r := Z.rem size SizeAlignment in
    if r =? 0 then size
    else wrap64 (wrap64 (size - r) + SizeAlignment).

(** The largest size whose rounding fits in an int64 *)
Definition maxRoundable : Z := 2 ^ 63 - SizeAlignment.

(** Rounding up as arithmetic on the unbounded integers. *)
Lemma RoundUpSize_div size :
  0 < size <= maxRoundable ->
  RoundUpSize size = (size + SizeAlignment - 1) / SizeAlignment * SizeAlignment.
Proof.
  unfold RoundUpSize, maxRoundable, SizeAlignment. intros H.
  rewrite (proj2 (Z.leb_gt size 0)) by lia.
  rewrite Z.rem_mod_nonneg by lia.
  pose proof (Z.mod_pos_bound size (2 * 1024 * 1024) ltac:(lia)) as Hm.
  pose proof (Z.div_mod size (2 * 1024 * 1024) ltac:(lia)) as Hd.
  set (q := size / (2 * 1024 * 1024)) in *.
  set (r := size mod (2 * 1024 * 1024)) in *.
  destruct (r =? 0) eqn:E; bool_to_prop.
  - rewrite <- (Z.div_unique (size + 2 * 1024 * 1024 - 1) (2 * 1024 * 1024) q
               (2 * 1024 * 1024 - 1)); lia.
  - rewrite <- (Z.div_unique (size + 2 * 1024 * 1024 - 1) (2 * 1024 * 1024) (q + 1)
               (r - 1)) by lia.
    rewrite (wrap64_id (size - r)) by (unfold in_int64; lia).
    rewrite wrap64_id by (unfold in_int64; lia). lia.
Qed.

Lemma RoundUpSize_bounds size :
  0 < size <= maxRoundable ->
  size <= RoundUpSize size < size + SizeAlignment
  /\ (SizeAlignment | RoundUpSize size).
Proof.
  intros H. rewrite RoundUpSize_div by done.
  unfold maxRoundable, SizeAlignment in *.
  pose proof (Z.div_mod (size + 2 * 1024 * 1024 - 1) (2 * 1024 * 1024) ltac:(lia)).
  pose proof (Z.mod_pos_bound (size + 2 * 1024 * 1024 - 1) (2 * 1024 * 1024) ltac:(lia)).
  split; [lia|]. by exists ((size + 2 * 1024 * 1024 - 1) / (2 * 1024 * 1024)).
Qed.

Lemma RoundUpSize_aligned size :
  0 < size -> (SizeAlignment | size) -> RoundUpSize size = size.
Proof.
  unfold RoundUpSize, SizeAlignment. intros H [q ->].
  rewrite (proj2 (Z.leb_gt _ 0)) by lia.
  rewrite Z.rem_mod_nonneg by lia. by rewrite Z.mod_mul.
Qed.

Lemma RoundUpSize_least size :
  0 < size <= maxRoundable ->
  (SizeAlignment | RoundUpSize size) /\ size <= RoundUpSize size
  /\ (forall m, (SizeAlignment | m) -> size <= m -> RoundUpSize size <= m)
  /\ RoundUpSize (RoundUpSize size) = RoundUpSize size.
Proof.
  intros H. destruct (RoundUpSize_bounds size H) as [Hb Hd]. split_and!; [done|lia| |].
  - intros m Hm Hle. destruct (Z.le_gt_cases (RoundUpSize size) m) as [|Hgt]; [done|].
    destruct Hd as [a Ha], Hm as [b Hb']. unfold SizeAlignment in *. nia.
  - apply RoundUpSize_aligned; [lia|done].
Qed.

(** The addition wraps around above the bound. *)
Lemma RoundUpSize_overflow size :
  maxRoundable < size < 2 ^ 63 -> RoundUpSize size = - 2 ^ 63.
Proof.
  unfold maxRoundable, SizeAlignment, RoundUpSize, SizeAlignment. intros H.
  rewrite (proj2 (Z.leb_gt size 0)) by lia.
  rewrite Z.rem_mod_nonneg by lia.
  rewrite (Z.mod_eq size (2 * 1024 * 1024)) by lia.
  rewrite <- (Z.div_unique size (2 * 1024 * 1024) 4398046511103
                (size - 2 * 1024 * 1024 * 4398046511103)) by lia.
  rewrite (proj2 (Z.eqb_neq _ 0)) by lia.
  rewrite (wrap64_id (size - _)) by (unfold in_int64; lia).
  replace (size - (size - 2 * 1024 * 1024 * 4398046511103) + 2 * 1024 * 1024) with (2 ^ 63) by lia.
  reflexivity.
Qed.

(** ** golang.org/x/mod/semver *)
Module semver.

Definition ascii_le (a b : ascii) : bool := (N_of_ascii a <=? N_of_ascii b)%N.

Definition isDigit (c : ascii) : bool := ascii_le "0" c && ascii_le c "9".

Definition isIdentChar (c : ascii) : bool :=
  (ascii_le "A" c && ascii_le c "Z") || (ascii_le "a" c && ascii_le c "z")
  || isDigit c || Ascii.eqb c "-".

(** The loop [for i < len(v) && test(v[i]) { i++ }]: [v[:i]] and [v[i:]] *)
Fixpoint span (test : ascii -> bool) (v : string) : string * string :=
  match v with
  | EmptyString => ("", "")
  | String c v' =>
      if test c then let '(a, b) := span test v' in (String c a, b) else ("", v)
  end.

Definition isNum (v : string) : bool := ((span isDigit v).2 =? "")%string.

Definition isBadNum (v : string) : bool :=
  isNum v && (1 <? Z.of_nat (String.length v)) &&
  match v with String c _ => Ascii.eqb c "0" | EmptyString => false end.

Record parsed := mkParsed {
  major : string; minor : string; patch : string; short : string;
  prerelease : string; build : string;
}.

Definition parseInt (v : string) : option (string * string) :=
  match v with
  | EmptyString => None
  | String c v' =>
      if negb (isDigit c) then None
      else
        let '(ds, rest) := span isDigit v' in
        if Ascii.eqb c "0" && negb (ds =? "")%string then None
        else Some (String c ds, rest)
  end.

(** The loop of parsePrerelease after the leading hyphen; [cur] is
    [v[start:i]], the identifier read so far. *)
Fixpoint prerelease_loop (v cur : string) : option (string * string) :=
  let ended := (cur =? "")%string || isBadNum cur in
  match v with
  | EmptyString => if ended then None else Some ("", "")
  | String c v' =>
      if Ascii.eqb c "+" then (if ended then None else Some ("", v))
      else if negb (isIdentChar c) && negb (Ascii.eqb c ".") then None
      else if Ascii.eqb c "." then
        if ended then None
        else match prerelease_loop v' "" with
             | Some (t, rest) => Some (String c t, rest)
             | None => None
             end
      else match prerelease_loop v' (cur +:+ String c "") with
           | Some (t, rest) => Some (String c t, rest)
           | None => None
           end
  end.

Definition parsePrerelease (v : string) : option (string * string) :=
  match v with
  | String "-" v' =>
      match prerelease_loop v' "" with
      | Some (t, rest) => Some (String "-" t, rest)
      | None => None
      end
  | _ => None
  end.

Fixpoint build_loop (v cur : string) : option (string * string) :=
  match v with
  | EmptyString => if (cur =? "")%string then None else Some ("", "")
  | String c v' =>
      if negb (isIdentChar c) && negb (Ascii.eqb c ".") then None
      else if Ascii.eqb c "." then
        if (cur =? "")%string then None
        else match build_loop v' "" with
             | Some (t, rest) => Some (String c t, rest)
             | None => None
             end
      else match build_loop v' (cur +:+ String c "") with
           | Some (t, rest) => Some (String c t, rest)
           | None => None
           end
  end.

Definition parseBuild (v : string) : option (string * string) :=
  match v with
  | String "+" v' =>
      match build_loop v' "" with
      | Some (t, rest) => Some (String "+" t, rest)
      | None => None
      end
  | _ => None
  end.

(** The part of parse after the patch number *)
Definition parse_suffix (ma mi pa v : string) : option parsed :=
  let pre := match v with
             | String "-" _ => parsePrerelease v
             | _ => Some ("", v)
             end in
  match pre with
  | None => None
  | Some (prerel, v) =>
      let bld := match v with
                 | String "+" _ => parseBuild v
                 | _ => Some ("", v)
                 end in
      match bld with
      | None => None
      | Some (b, v) =>
          if (v =? "")%string then Some (mkParsed ma mi pa "" prerel b) else None
      end
  end.

Definition parse (v : string) : option parsed :=
  match v with
  | String "v" v =>
      match parseInt v with
      | None => None
      | Some (ma, "") => Some (mkParsed ma "0" "0" ".0.0" "" "")
      | Some (ma, String "." v) =>
          match parseInt v with
          | None => None
          | Some (mi, "") => Some (mkParsed ma mi "0" ".0" "" "")
          | Some (mi, String "." v) =>
              match parseInt v with
              | None => None
              | Some (pa, v) => parse_suffix ma mi pa v
              end
          | Some _ => None
          end
      | Some _ => None
      end
  | _ => None
  end.

Definition IsValid (v : string) : bool :=
  match parse v with Some _ => true | None => false end.

Definition compareInt (x y : string) : Z :=
  if (x =? y)%string then 0
  else if (String.length x <? String.length y)%nat then -1
  else if (String.length y <? String.length x)%nat then 1
  else if String.ltb x y then -1 else 1.

Definition nextIdent (x : string) : string * string :=
  span (fun c => negb (Ascii.eqb c ".")) x.

Definition tail (x : string) : string := strings.skip 1 x.

(** The comparison of two different identifiers *)
Definition compareIdent (dx dy : string) : Z :=
  let ix := isNum dx in
  let iy := isNum dy in
  if negb (Bool.eqb ix iy) then (if ix then -1 else 1)
  else if ix && (String.length dx <? String.length dy)%nat then -1
  else if ix && (String.length dy <? String.length dx)%nat then 1
  else if String.ltb dx dy then -1 else 1.

(** The loop of comparePrerelease; every round drops at least one byte of
    [x], so [String.length x] rounds are enough. *)
Fixpoint comparePrerelease_loop (fuel : nat) (x y : string) : Z :=
  match fuel with
  | O => if (x =? "")%string then -1 else 1
  | S fuel =>
      if (x =? "")%string || (y =? "")%string
      then (if (x =? "")%string then -1 else 1)
      else
        let '(dx, x) := nextIdent (tail x) in
        let '(dy, y) := nextIdent (tail y) in
        if negb (dx =? dy)%string then compareIdent dx dy
        else comparePrerelease_loop fuel x y
  end.

Definition comparePrerelease (x y : string) : Z :=
  if (x =? y)%string then 0
  else if (x =? "")%string then 1
  else if (y =? "")%string then -1
  else comparePrerelease_loop (String.length x) x y.

Definition Compare (v w : string) : Z :=
  match parse v, parse w with
  | None, None => 0
  | None, Some _ => -1
  | Some _, None => 1
  | Some pv, Some pw =>
      let c := compareInt (major pv) (major pw) in
      if negb (c =? 0) then c else
      let c := compareInt (minor pv) (minor pw) in
      if negb (c =? 0) then c else
      let c := compareInt (patch pv) (patch pw) in
      if negb (c =? 0) then c else
      comparePrerelease (prerelease pv) (prerelease pw)
  end.

End semver.

(** ** pkg/utils/version.go *)

Definition IsVersionAtLeast (version : string) (maj min : Z) : bool :=
  if negb (semver.IsValid version) then true
  else
    let target := "v" +:+ pretty maj +:+ "." +:+ pretty min +:+ ".0-0" in
    0 <=? semver.Compare version target.

Example version_samples :
  map (fun v => IsVersionAtLeast v 1 8)
    ["v1.8.0"; "v1.8.0-rc1"; "v1.7.2-rc1"; "v1.7.99"; "v2.0.0"; "v1.10.0";
     "master-head"; "v1.8"; "1.2.3"; "v1.8.0-0"]
  = [true; true; false; false; true; true; true; true; true; true].
Proof. vm_compute. reflexivity. Qed.
