(* ===== verification/CsiUtil.v ===== *)
(** * pkg/csi/util.go: helpers shared by the controller and the node server

    Snapshot identifiers, request validation, file system helpers and the
    statistics computed from statfs(2) in Go's int64 arithmetic. *)

From S2P Require Import Prelude Go Prog Kube Csi Api.

Definition deviceByIDDirectory : string := "/dev/disk/by-id/".
Definition driverName : string := "driver.harvesterhci.io".
Definition LHName : string := "Longhorn".
Definition fsTypeExt4 : string := "ext4".
Definition fsTypeXFS : string := "xfs".
Definition missingVolumeInfoErr : string := "Missing required volume information in request".

Record volumeFilesystemStatistics := mkStats {
  availableBytes : Z; totalBytes : Z; usedBytes : Z;
  availableInodes : Z; totalInodes : Z; usedInodes : Z;
}.

(** [(stat.Mode & unix.S_IFMT) == unix.S_IFBLK] *)
Definition S_IFMT : Z := 61440.
Definition S_IFBLK : Z := 24576.

Definition isBlockDevice (volumePath : string) : Fallible bool :=
  let? mode := send (UnixStatMode volumePath) in
  Ret (Ok (Z.land mode S_IFMT =? S_IFBLK)).

(** The arithmetic of getFilesystemStatistics: conversion of the unsigned
    counters to int64, then int64 products and differences. *)
Definition statistics (st : Statfs) : volumeFilesystemStatistics :=
  let i := wrap64 in
  {| availableBytes := wrap64 (i (Bavail st) * i (Bsize st));
     totalBytes := wrap64 (i (Blocks st) * i (Bsize st));
     usedBytes := wrap64 (wrap64 (i (Blocks st) - i (Bfree st)) * i (Bsize st));
     availableInodes := i (Ffree st);
     totalInodes := i (Files st);
     usedInodes := wrap64 (i (Files st) - i (Ffree st)) |}.

Definition getFilesystemStatistics (volumePath : string) : Fallible volumeFilesystemStatistics :=
  let? st := send (UnixStatfs volumePath) in
  Ret (Ok (statistics st)).

Definition makeDir (pathname : string) : Fallible unit :=
  let* r := send (OsMkdirAll pathname 493) in    (* 0755 *)
  match r with
  | Err e => if negb (errors.IsExist e) then Ret (Err e) else Ret (Ok tt)
  | Ok _ => Ret (Ok tt)
  end.

Definition makeFile (pathname : string) : Fallible unit :=
  let* r := send (OsCreateFile pathname 420) in  (* 0644 *)
  match r with
  | Err e => if negb (errors.IsExist e) then Ret (Err e) else Ret (Ok tt)
  | Ok _ => Ret (Ok tt)
  end.

(** A message pointer is nil *)
Definition isNil {A} (o : option A) : bool :=
  match o with None => true | Some _ => false end.

Definition validateCtrlExpandReq (req : ControllerExpandVolumeRequest) : result unit :=
  if (ce_VolumeId req =? "")%string || isNil (ce_VolumeCapability req)
  then Err (StatusErr InvalidArgument missingVolumeInfoErr)
  else Ok tt.

(** [GetVolumeCapability().GetAccessMode().GetMode()] of an optional message *)
Definition capMode (vc : option VolumeCapability) : Mode :=
  match vc with Some c => GetMode c | None => Mode_UNKNOWN end.

Definition ctrlExpandRWX (req : ControllerExpandVolumeRequest) : bool :=
  Mode_eqb (capMode (ce_VolumeCapability req)) MULTI_NODE_MULTI_WRITER.

Definition validateNodeExpandReq (req : NodeExpandVolumeRequest) : result unit :=
  if (ne_VolumeId req =? "")%string || (ne_VolumePath req =? "")%string
     || isNil (ne_VolumeCapability req)
  then Err (StatusErr InvalidArgument missingVolumeInfoErr)
  else Ok tt.

Definition nodeExpandRWX (req : NodeExpandVolumeRequest) : bool :=
  Mode_eqb (capMode (ne_VolumeCapability req)) MULTI_NODE_MULTI_WRITER.

Definition getNodeFsType (req : NodeExpandVolumeRequest) : result string :=
  match (ne_VolumeCapability req) ≫= GetBlock with
  | Some _ => Err (StatusErr InvalidArgument "Volume capability is block")
  | None =>
      let fsType := match ne_VolumeCapability req ≫= GetMount with
                    | Some (fs, _) => fs
                    | None => ""
                    end in
      if (fsType =? "")%string then Ok fsTypeExt4 else Ok fsType
  end.

(** ** Snapshot identifiers *)

Definition formatBackupSnapshotID (namespace name : string) : string :=
  "backup:" +:+ namespace +:+ "/" +:+ name.

(** Returns (isBackup, namespace, name). *)
Definition parseSnapshotID (snapshotID : string) : bool * string * string :=
  match strings.CutPrefix snapshotID "backup:" with
  | Some after =>
      match strings.SplitN2 after "/" with
      | [p0; p1] => (true, p0, p1)
      | _ => (false, "", snapshotID)
      end
  | None => (false, "", snapshotID)
  end.

(** A namespace without a slash (every Kubernetes namespace) survives the
    round trip, whatever the name. *)
Lemma parse_format ns name :
  strings.Contains ns "/" = false ->
  parseSnapshotID (formatBackupSnapshotID ns name) = (true, ns, name).
Proof.
  intros H. unfold parseSnapshotID, formatBackupSnapshotID.
  rewrite strings.CutPrefix_app. unfold strings.SplitN2.
  change (ns +:+ "/" +:+ name) with (ns +:+ String "/" name).
  by rewrite strings.Cut_char.
Qed.

(** An identifier classified as a backup is the formatted pair it parses
    to; any other identifier is its own name. *)
Lemma parse_inv id b ns name :
  parseSnapshotID id = (b, ns, name) ->
  if b then id = formatBackupSnapshotID ns name else id = name /\ ns = "".
Proof.
  unfold parseSnapshotID, formatBackupSnapshotID, strings.SplitN2.
  destruct (strings.CutPrefix id "backup:") as [after|] eqn:E1;
    [|by intros [= <- <- <-]].
  apply strings.CutPrefix_Some in E1 as ->.
  destruct (strings.Cut after "/") as [[a c]|] eqn:E2; intros [= <- <- <-]; [|done].
  by apply strings.Cut_Some in E2 as ->.
Qed.
