(* ===== verification/Controller.v ===== *)
(** * pkg/csi/controller_server.go: state, validation and host PVC manifests

    The controller server keeps no mutable state of its own: its record holds
    the configuration fixed at start-up.  This file has the record and its
    constructor, the thin wrappers around the clients, the validation of
    requests and the functions that build the PVC manifests. *)

From S2P Require Import Prelude Go Prog Kube Csi Api Utils CsiUtil.

(** ** Constants *)
Definition Second : Z := 1000000000.
Definition genericTimeout : Z := 60 * Second.
Definition genericTickTime : Z := 2 * Second.
Definition attachCheckInterval : Z := 3 * Second.
Definition attachCheckTimeout : Z := 15 * Second.
Definition paramHostSC : string := "hostStorageClass".
Definition paramHostVolMode : string := "hostVolumeMode".
Definition paramSnapshotType : string := "type".
Definition snapshotTypeBackup : string := "backup".
Definition LHBackup : string := "lh".
Definition VolumeRemoteRestoreLH : string := "lh".
Definition longhornProvisioner : string := "driver.longhorn.io".
Definition annoFSVolumeForVM : string := "harvesterhci.io/volumeForVirtualMachine".
Definition labelSnapHostSC : string := "harvesterhci.io/snapHostSC".
Definition labelSnapHostVolumeMode : string := "harvesterhci.io/snapHostVolumeMode".
Definition labelBackupSrcVol : string := "harvesterhci.io/backupSourceVolume".
Definition LonghornNS : string := "longhorn-system".
Definition HarvesterNS : string := "harvester-system".
Definition VolumeSnapshotKind : string := "VolumeSnapshot".
Definition snapshotGroupName : string := "snapshot.storage.k8s.io".
Definition csiOnlineExpandValidation : string := "csi-online-expand-validation".
Definition csiDriverConfig : string := "csi-driver-config".

Definition ReadWriteMany : string := "ReadWriteMany".
Definition PersistentVolumeBlock : string := "Block".
Definition PersistentVolumeFilesystem : string := "Filesystem".
Definition ClaimBound : string := "Bound".

(** ** State *)

Record ControllerServer := mkControllerServer {
  namespace : string;
  hostStorageClass : string;
  useDeclarativeHotplug : bool;
  caps : list ControllerServiceCapability;
  accessModes : list Mode;
}.

Definition getControllerServiceCapabilities (cl : list RPC_Type) : list ControllerServiceCapability :=
  map mkCSC cl.

Definition getVolumeCapabilityAccessModes (vc : list Mode) : list Mode := vc.

Definition NewControllerServer (ns hostSC : string) (declarative : bool) : P ControllerServer :=
  let* nfs := send (NfsList HarvesterNS) in
  let accessMode :=
    match nfs with
    | Ok _ => [SINGLE_NODE_WRITER] ++ [MULTI_NODE_MULTI_WRITER]
    | Err _ => [SINGLE_NODE_WRITER]
    end in
  let* _ := send (LhVolumeList LonghornNS) in
  Ret {| namespace := ns;
         hostStorageClass := hostSC;
         useDeclarativeHotplug := declarative;
         caps := getControllerServiceCapabilities
                   [ RPC_CREATE_DELETE_VOLUME; RPC_PUBLISH_UNPUBLISH_VOLUME;
                     RPC_EXPAND_VOLUME; RPC_CREATE_DELETE_SNAPSHOT;
                     RPC_LIST_SNAPSHOTS ];
         accessModes := getVolumeCapabilityAccessModes accessMode |}.

(** The index of the guest's pods by the claims they use *)
Definition IndexPodByPVC : string := "indexPodByPVC".

(** ** Client wrappers *)

Definition getHostSnap (ns hostSnap : string) := send (SnapGet ns hostSnap).
Definition createHostSnap (s : VolumeSnapshot) := send (SnapCreate s).
Definition listHostSnaps (ns : string) (lo : ListOptions) := send (SnapList ns lo).
Definition deleteHostSnap (ns name : string) := send (SnapDelete ns name).
Definition getHostSC (sc : string) := send (ScGet sc).
Definition getHostPVC (ns vol : string) := send (PvcGet ns vol).
Definition createHostPVC (hostPVC : PersistentVolumeClaim) := send (PvcCreate hostPVC).
Definition createHostVolumeRemoteBackup (v : VolumeRemoteBackup) := send (VrbCreate v).
Definition getHostVolumeRemoteBackup (ns hostVrb : string) := send (VrbGet ns hostVrb).
Definition deleteHostVolumeRemoteBackup (ns name : string) := send (VrbDelete ns name).
Definition listHostVolumeRemoteBackups (ns : string) (lo : ListOptions) := send (VrbList ns lo).
Definition createHostVolumeRemoteRestore (v : VolumeRemoteRestore) := send (VrrCreate v).
Definition getHostVolumeRemoteRestore (ns hostVrr : string) := send (VrrGet ns hostVrr).
Definition deleteHostVolumeRemoteRestore (ns name : string) := send (VrrDelete ns name).
Definition getHarvCSIConfig := send (SettingGet csiDriverConfig).

(** ** Validation *)

Definition validateControllerServiceRequest (cs : ControllerServer) (c : RPC_Type) : result unit :=
  if bool_decide (c = RPC_UNKNOWN) then Ok tt
  else if existsb (fun cap => bool_decide (c = csc_Rpc cap)) (caps cs) then Ok tt
  else Err (StatusErr InvalidArgument ("unsupported capability " +:+ RPC_Type_String c)).

(** The loop over the capabilities.  The message of the last error reads the
    access mode through a pointer that may be nil. *)
Fixpoint validateVolumeCapabilities_loop (modes : list Mode) (volumeCaps : list VolumeCapability)
    : Fallible unit :=
  match volumeCaps with
  | [] => Ret (Ok tt)
  | cap :: rest =>
      if isNil (GetMount cap) && isNil (GetBlock cap) then
        Ret (Err (StatusErr InvalidArgument
          "cannot have both mount and block access type be undefined"))
      else if negb (isNil (GetMount cap)) && negb (isNil (GetBlock cap)) then
        Ret (Err (StatusErr InvalidArgument
          "cannot have both block and mount access type"))
      else
        let supportedMode := existsb (fun m => Mode_eqb (GetMode cap) m) modes in
        if negb supportedMode then
          let* m := deref (AccessMode cap) in
          Ret (Err (StatusErr InvalidArgument
            ("access mode " +:+ Mode_String m +:+ " is not supported")))
        else validateVolumeCapabilities_loop modes rest
  end.

Definition validateVolumeCapabilities (cs : ControllerServer)
    (volumeCaps : option (list VolumeCapability)) : Fallible unit :=
  match volumeCaps with
  | None => Ret (Err (StatusErr InvalidArgument "Volume Capabilities cannot be empty"))
  | Some l => validateVolumeCapabilities_loop (accessModes cs) l
  end.

Definition validateVolumeContentSource (vcs : option VolumeContentSource)
    (vc : option (list VolumeCapability)) : result unit :=
  match vcs with
  | None => Ok tt
  | Some vcs =>
      if negb (isNil (GetVolume vcs)) then
        Err (StatusErr InvalidArgument "Volume cloning from another volume is not supported,")
      else
        match GetSnapshot vcs with
        | None => Ok tt
        | Some snapId =>
            if (snapId =? "")%string then
              Err (StatusErr InvalidArgument
                "Snapshot source is specified but SnapshotId is empty")
            else if existsb (fun v => Mode_eqb (GetMode v) MULTI_NODE_MULTI_WRITER) (default [] vc) then
              Err (StatusErr InvalidArgument
                "Creating RWX volumes from snapshots is not supported")
            else Ok tt
        end
  end.

(** Returns the volume parameters and the size. *)
Definition validateCreateVolReq (cs : ControllerServer) (req : CreateVolumeRequest)
    : Fallible (gomap * Z) :=
  match validateControllerServiceRequest cs RPC_CREATE_DELETE_VOLUME with
  | Err err => Ret (Err (StatusErr InvalidArgument ("invalid create volume req: " +:+ Error err)))
  | Ok _ =>
      if (Z.of_nat (String.length (cv_Name req)) =? 0) then
        Ret (Err (StatusErr InvalidArgument "Volume Name cannot be empty"))
      else
        let? _ := validateVolumeCapabilities cs (cv_VolumeCapabilities req) in
        check! validateVolumeContentSource (cv_VolumeContentSource req)
                 (cv_VolumeCapabilities req) in
        let volumeParameters :=
          match cv_Parameters req with None => Some ∅ | Some m => Some m end in
        let volSizeBytes :=
          match cv_RequiredBytes req with Some n => n | None => MinimalVolumeSize end in
        let volSizeBytes :=
          if volSizeBytes <? MinimalVolumeSize then MinimalVolumeSize else volSizeBytes in
        Ret (Ok (volumeParameters, volSizeBytes))
  end.

(** The host storage class, [None] when the guest may not read it. *)
Definition validStorageClass (storageClassName : string) : Fallible (option StorageClass) :=
  let* r := send (ScGet storageClassName) in
  match r with
  | Err err =>
      let errReason := errors.ReasonForError err in
      if (errReason =? "Forbidden")%string then Ret (Ok None)
      else if (errReason =? "NotFound")%string then
        Ret (Err (StatusErr NotFound (Error err)))
      else Ret (Err (StatusErr Internal (Error err)))
  | Ok sc => Ret (Ok (Some sc))
  end.

(** The label names are checked in this order; the missing ones are listed. *)
Definition requiredLabels : list string := [labelSnapHostSC; labelSnapHostVolumeMode].

Fixpoint join (sep : string) (l : list string) : string :=
  match l with
  | [] => ""
  | [x] => x
  | x :: l' => x +:+ sep +:+ join sep l'
  end.

Definition validateHostSnapLabels (hostSnap : VolumeSnapshot) : result unit :=
  match Labels (meta hostSnap) with
  | None => Err (FmtErr ("host snapshot " +:+ name_of hostSnap +:+ " is missing required labels"))
  | Some labels =>
      let missingLabels := List.filter (fun l => isNil (labels !! l)) requiredLabels in
      if 0 <? Z.of_nat (length missingLabels) then
        Err (FmtErr ("host snapshot " +:+ name_of hostSnap
                     +:+ " is missing required labels: [" +:+ join " " missingLabels +:+ "]"))
      else Ok tt
  end.

(** ** Host PVC manifests *)

Fixpoint getVolumeMode (volCaps : list VolumeCapability) : string :=
  match volCaps with
  | [] => ""
  | volCap :: rest =>
      if Mode_eqb (GetMode volCap) MULTI_NODE_MULTI_WRITER then PersistentVolumeFilesystem
      else if Mode_eqb (GetMode volCap) SINGLE_NODE_WRITER then PersistentVolumeBlock
      else getVolumeMode rest
  end.

(** Returns the storage class name and the provisioner. *)
Definition getStorageClass (cs : ControllerServer) (volParameters : gomap)
    : Fallible (string * string) :=
  match map_lookup volParameters paramHostSC with
  | Some val =>
      let? sc := validStorageClass val in
      let targetProvisioner :=
        match sc with Some sc => Provisioner sc | None => longhornProvisioner end in
      Ret (Ok (val, targetProvisioner))
  | None => Ret (Ok (hostStorageClass cs, longhornProvisioner))
  end.

Definition newResourceList (size : Z) : ResourceList := Some {["storage" := size]}.
#[global] Arguments newResourceList size : simpl never.

Definition buildHostPVCFromScratch (cs : ControllerServer) (name : string)
    (vc : option (list VolumeCapability)) (vp : gomap) (size : Z)
    : Fallible PersistentVolumeClaim :=
  let volumeMode := getVolumeMode (default [] vc) in
  let? target := getStorageClass cs vp in
  let '(targetSC, targetProvisioner) := target in
  let volumeMode :=
    match map_lookup vp paramHostVolMode with
    | Some val => if (val =? "filesystem")%string then PersistentVolumeFilesystem else volumeMode
    | None => volumeMode
    end in
  let annotations :=
    if (volumeMode =? PersistentVolumeFilesystem)%string
       && negb (targetProvisioner =? longhornProvisioner)%string
    then Some {[annoFSVolumeForVM := "true"]} else None in
  let size := RoundUpSize size in
  Ret (Ok {| pvc_meta := set_Annotations annotations (newMeta (namespace cs) name);
             pvc_Spec :=
               {| AccessModes := [ReadWriteMany];
                  VolumeMode := Some volumeMode;
                  StorageClassName :=
                    if (targetSC =? "")%string then None else Some targetSC;
                  VolumeName := "";
                  Requests := newResourceList size;
                  DataSource := None |};
             pvc_Phase := "";
             pvc_Capacity := None |}).

Definition buildHostPVCFromSnap (cs : ControllerServer) (name : string)
    (snapshotId : string) (size : Z) : Fallible PersistentVolumeClaim :=
  let? hostSnap := getHostSnap (namespace cs) snapshotId in
  check! validateHostSnapLabels hostSnap in
  let storageClassName := map_get (Labels (meta hostSnap)) labelSnapHostSC in
  let volumeModeStr := map_get (Labels (meta hostSnap)) labelSnapHostVolumeMode in
  let? _ := getHostSC storageClassName in
  if (volumeModeStr =? PersistentVolumeBlock)%string
     || (volumeModeStr =? PersistentVolumeFilesystem)%string
  then
    Ret (Ok {| pvc_meta := newMeta (namespace cs) name;
               pvc_Spec :=
                 {| AccessModes := [ReadWriteMany];
                    VolumeMode := Some volumeModeStr;
                    StorageClassName := Some storageClassName;
                    VolumeName := "";
                    Requests := newResourceList size;
                    DataSource := Some {| ref_APIGroup := Some snapshotGroupName;
                                          ref_Kind := VolumeSnapshotKind;
                                          ref_Name := name_of hostSnap |} |};
               pvc_Phase := "";
               pvc_Capacity := None |})
  else
    Ret (Err (StatusErr Internal
      ("Invalid volume mode " +:+ volumeModeStr +:+ " in snapshot labels"))).

Definition buildHostPVC (cs : ControllerServer) (req : CreateVolumeRequest)
    (vp : gomap) (size : Z) : Fallible PersistentVolumeClaim :=
  match cv_VolumeContentSource req with
  | None => buildHostPVCFromScratch cs (cv_Name req) (cv_VolumeCapabilities req) vp size
  | Some vcs =>
      match GetSnapshot vcs with
      | Some id => buildHostPVCFromSnap cs (cv_Name req) id size
      | None => Ret (Err (StatusErr InvalidArgument
                  "Only snapshot content source is supported for now"))
      end
  end.

(** ** Predicates on a host PVC *)

(** The loop over the access modes: each RWX mode looks the storage class up
    again.  The storage class name is a pointer that is dereferenced without
    a test; a failed lookup leaves the zero storage class. *)
Fixpoint isLHRWXVolume_loop (scName : option string) (modes : list string) : P bool :=
  match modes with
  | [] => Ret false
  | mode :: rest =>
      if negb (mode =? ReadWriteMany)%string then isLHRWXVolume_loop scName rest
      else
        let* name := deref scName in
        let* sc := getHostSC name in
        let provisioner := match sc with Ok sc => Provisioner sc | Err _ => "" end in
        if (provisioner =? longhornProvisioner)%string then Ret true
        else isLHRWXVolume_loop scName rest
  end.

Definition isLHRWXVolume (pvc : PersistentVolumeClaim) : P bool :=
  match VolumeMode (pvc_Spec pvc) with
  | None => Ret false
  | Some m =>
      if negb (m =? PersistentVolumeFilesystem)%string then Ret false
      else if Z.of_nat (length (AccessModes (pvc_Spec pvc))) =? 0 then Ret false
      else isLHRWXVolume_loop (StorageClassName (pvc_Spec pvc)) (AccessModes (pvc_Spec pvc))
  end.

Definition podUsesVolume (volumeID : string) (pod : Pod) : bool :=
  existsb (fun vol => match vol with
                      | Some claim => (claim =? volumeID)%string
                      | None => false
                      end) (pod_Volumes pod).

Definition isVolumeInUse (cs : ControllerServer) (volumeID : string) : Fallible bool :=
  let* r := send (HostPodList (namespace cs)) in
  match r with
  | Err err => Ret (Err (WrapErr ("error listing pods: " +:+ Error err) err))
  | Ok podList => Ret (Ok (existsb (podUsesVolume volumeID) podList))
  end.

(** ** Waiting

    A loop [for { select { case <-timeout: ...; case <-tick: ... } }] serves
    some number of ticks before it serves the timeout; that number is the
    answer of the clock. *)

Fixpoint waitForPVCState_rounds (ns name : string) (predicate : PersistentVolumeClaim -> bool)
    (rounds : nat) : P bool :=
  match rounds with
  | O => Ret false
  | S rounds =>
      let* existVol := send (PvcGet ns name) in
      match existVol with
      | Err _ => waitForPVCState_rounds ns name predicate rounds
      | Ok existVol =>
          if predicate existVol then Ret true
          else waitForPVCState_rounds ns name predicate rounds
      end
  end.

Definition waitForPVCState (cs : ControllerServer) (name : string)
    (predicate : PersistentVolumeClaim -> bool) : P bool :=
  let* rounds := send (PollRounds genericTickTime genericTimeout) in
  waitForPVCState_rounds (namespace cs) name predicate rounds.

Fixpoint waitForLHVolumeName_rounds (ns pvcName : string) (rounds : nat) : P bool :=
  match rounds with
  | O => Ret false
  | S rounds =>
      let* resPVC := send (PvcGet ns pvcName) in
      match resPVC with
      | Err _ => Ret false
      | Ok resPVC =>
          if (VolumeName (pvc_Spec resPVC) =? "")%string
          then waitForLHVolumeName_rounds ns pvcName rounds
          else Ret true
      end
  end.

Definition waitForLHVolumeName (cs : ControllerServer) (pvcName : string) : P bool :=
  let* rounds := send (PollRounds genericTickTime genericTimeout) in
  waitForLHVolumeName_rounds (namespace cs) pvcName rounds.
