(* ===== verification/Samples.v ===== *)
(** * Sample objects

    A controller configuration and a small host cluster on which the
    examples of the development run. *)

From S2P Require Import Prelude Go Prog Kube Csi Api Store Utils CsiUtil Controller.

Definition sample_cs : ControllerServer :=
  {| namespace := "guest"; hostStorageClass := "harvester-longhorn";
     useDeclarativeHotplug := true;
     caps := getControllerServiceCapabilities
               [RPC_CREATE_DELETE_VOLUME; RPC_PUBLISH_UNPUBLISH_VOLUME; RPC_EXPAND_VOLUME;
                RPC_CREATE_DELETE_SNAPSHOT; RPC_LIST_SNAPSHOTS];
     accessModes := [SINGLE_NODE_WRITER; MULTI_NODE_MULTI_WRITER] |}.

Definition sample_cap (m : Mode) : VolumeCapability :=
  mkVolCap (AccessType_Mount "ext4" []) (Some m).

Definition sample_pvc (name : string) (mode : string) (size : Z) : PersistentVolumeClaim :=
  mkPVC (newMeta "guest" name)
    (mkPVCSpec [ReadWriteMany] (Some mode) (Some "harvester-longhorn") ("pv-" +:+ name)
       (newResourceList size) None)
    ClaimBound (newResourceList size).

Definition sample_sc : StorageClass := mkSC (newMeta "" "harvester-longhorn") longhornProvisioner.

Definition sample_vrr (name : string) : VolumeRemoteRestore :=
  mkVRR (newMeta "guest" name) VolumeRemoteRestoreLH "guest/b1" true.

Definition sample_vm : VirtualMachine :=
  mkVM (mkMeta "node1" "guest" None None "7" None zeroTime)
    (Some (mkVMTemplate [mkVMVolume "root" None "containerDisk"]
                        [mkVMDisk "root" (Some "virtio") "disk"]))
    [mkCondition "Ready" "True"] "Running".

(** The same machine with the volume [vol1] plugged in, and its instance *)
Definition sample_vm_plugged : VirtualMachine :=
  mkVM (mkMeta "node1" "guest" None None "8" None zeroTime)
    (Some (mkVMTemplate [mkVMVolume "root" None "containerDisk";
                         mkVMVolume "vol1" (Some (mkVMPVCSource "vol1" true)) ""]
                        [mkVMDisk "root" (Some "virtio") "disk"; mkVMDisk "vol1" (Some "scsi") ""]))
    [mkCondition "Ready" "True"] "Running".

Definition sample_vmi (hotplugged : list string) : VirtualMachineInstance :=
  mkVMI (newMeta "guest" "node1") "host1"
    (mkVolumeStatus "root" false "" "vda"
     :: map (fun v => mkVolumeStatus v true "Ready" "sda") hotplugged) ["52:54:00:00:00:01"].

Definition sample_vrb : VolumeRemoteBackup :=
  mkVRB (newMeta "guest" "b1") LHBackup "vol1"
    (mkPVCSpec [ReadWriteMany] (Some PersistentVolumeBlock) (Some "harvester-longhorn") "pv-vol1"
       (newResourceList (20 * 1024 * 1024)) None) true.

Definition sample_cluster : Cluster :=
  {| cl_pvcs := <[("guest", "vol1") := sample_pvc "vol1" PersistentVolumeBlock (20 * 1024 * 1024)]>
                (<[("guest", "nfs1") := sample_pvc "nfs1" PersistentVolumeFilesystem (20 * 1024 * 1024)]> ∅);
     cl_vrrs := <[("guest", "rest1") := sample_vrr "rest1"]> ∅;
     cl_vrbs := <[("guest", "b1") := sample_vrb]> ∅; cl_snaps := ∅;
     cl_scs := <["harvester-longhorn" := sample_sc]> ∅;
     cl_nfs := <[("harvester-system", "pv-nfs1") :=
                   mkNFS (newMeta HarvesterNS "pv-nfs1") "pv-nfs1" NetworkFSStateDisabled
                         LHName NetworkFSStateDisabled EndpointStatusReady "10.0.0.1" ""]> ∅;
     cl_vms := <[("guest", "node1") := sample_vm]> ∅;
     cl_vmis := <[("guest", "node1") := sample_vmi []]> ∅; cl_pods := []; cl_settings := ∅; cl_rounds := 3 |}.

(** The same cluster with the volume [vol1] attached *)
Definition sample_attached : Cluster :=
  upd_vms <[("guest", "node1") := sample_vm_plugged]>
    (upd_vmis <[("guest", "node1") := sample_vmi ["vol1"]]> sample_cluster).

Definition sample_create (name : string) (source : option VolumeContentSource) : CreateVolumeRequest :=
  {| cv_Name := name; cv_RequiredBytes := Some 10485761;
     cv_VolumeCapabilities := Some [sample_cap SINGLE_NODE_WRITER];
     cv_Parameters := Some {[paramHostSC := "harvester-longhorn"]};
     cv_VolumeContentSource := source |}.
