(* ===== verification/Volumes.v ===== *)
(** * Volume life cycle of the controller server

    CreateVolume (from scratch, from a snapshot, from a remote backup),
    DeleteVolume, ValidateVolumeCapabilities and ControllerExpandVolume, with
    the helpers only they use. *)

From S2P Require Import Prelude Go Prog Kube Csi Api Utils CsiUtil Controller.

(** ** Restore from a remote backup *)

Definition generateHostVolumeRemoteRestore (cs : ControllerServer) (name : string)
    (vrb : VolumeRemoteBackup) : Fallible VolumeRemoteRestore :=
  createHostVolumeRemoteRestore
    {| vrr_meta := newMeta (namespace cs) name;
       vrr_Type := VolumeRemoteRestoreLH;
       vrr_From := Namespace (meta vrb) +:+ "/" +:+ name_of vrb;
       vrr_Success := false |}.

Definition getOrCreateVolumeRemoteRestore (cs : ControllerServer) (name : string)
    (vrb : VolumeRemoteBackup) : Fallible VolumeRemoteRestore :=
  let* r := getHostVolumeRemoteRestore (namespace cs) name in
  match r with
  | Ok existingVrr => Ret (Ok existingVrr)
  | Err err =>
      if negb (errors.IsNotFound err) then Ret (Err err)
      else
        let? createdVrr := generateHostVolumeRemoteRestore cs name vrb in
        Ret (Ok createdVrr)
  end.

Definition checkVolumeRemoteRestoreReadiness (cs : ControllerServer) (name : string) : P bool :=
  let* vrr := getHostVolumeRemoteRestore (namespace cs) name in
  match vrr with
  | Err _ => Ret false
  | Ok vrr => if vrr_Success vrr then Ret true else Ret false
  end.

Definition buildHostVolumeRemoteRestoreFromBackup (cs : ControllerServer) (name : string)
    (vrb : VolumeRemoteBackup) : Fallible VolumeRemoteRestore :=
  let? vrr := getOrCreateVolumeRemoteRestore cs name vrb in
  let* ready := checkVolumeRemoteRestoreReadiness cs (name_of vrr) in
  if negb ready then
    Ret (Err (StatusErr Internal ("VolumeRemoteRestore " +:+ name_of vrr +:+ " is not ready")))
  else Ret (Ok vrr).

Definition isBackupSnapshotRestore (req : CreateVolumeRequest) : bool :=
  match cv_VolumeContentSource req with
  | None => false
  | Some vcs =>
      match GetSnapshot vcs with
      | None => false
      | Some snapshotID => let '(isBackup, _, _) := parseSnapshotID snapshotID in isBackup
      end
  end.

(** [req.GetVolumeContentSource().GetSnapshot().GetSnapshotId()], nil-safe *)
Definition requestSnapshotId (req : CreateVolumeRequest) : string :=
  default "" (cv_VolumeContentSource req ≫= GetSnapshot).

Definition buildHostVolumeRemoteRestore (cs : ControllerServer) (req : CreateVolumeRequest)
    (volumeParameters : gomap) : Fallible Volume :=
  let snapshotID := requestSnapshotId req in
  let '(isBackup, vrbNs, vrbName) := parseSnapshotID snapshotID in
  if negb isBackup then
    Ret (Err (StatusErr InvalidArgument "Invalid backup snapshot ID format"))
  else
    let? vrb := getHostVolumeRemoteBackup vrbNs vrbName in
    let? vrr := buildHostVolumeRemoteRestoreFromBackup cs (cv_Name req) vrb in
    let volSizeBytes :=
      match Requests (vrb_SourceSpec vrb) with
      | Some _ => Storage (Requests (vrb_SourceSpec vrb))
      | None => 0
      end in
    Ret (Ok {| VolumeId := name_of vrr;
               CapacityBytes := volSizeBytes;
               VolumeContext := volumeParameters;
               ContentSource := cv_VolumeContentSource req |}).

(** ** CreateVolume *)

Definition newNetworkFilesystem (volumeName : string) : NetworkFilesystem :=
  {| nfs_meta := newMeta HarvesterNS volumeName;
     NetworkFSName := volumeName;
     DesiredState := NetworkFSStateDisabled;
     nfs_Provisioner := LHName;
     nfs_State := ""; nfs_Status := ""; nfs_Endpoint := ""; nfs_MountOpts := "" |}.

Definition createNetworkFilesystem (volumeName : string) : Fallible unit :=
  let* r := send (NfsCreate HarvesterNS (newNetworkFilesystem volumeName)) in
  match r with
  | Err err => if negb (errors.IsAlreadyExists err) then Ret (Err err) else Ret (Ok tt)
  | Ok _ => Ret (Ok tt)
  end.

(** The steps of CreateVolume for a Longhorn RWX volume, between the
    creation of the PVC and the response. *)
Definition prepareRWXVolume (cs : ControllerServer) (resHostPVC : PersistentVolumeClaim)
    : Fallible unit :=
  let* named := waitForLHVolumeName cs (name_of resHostPVC) in
  if negb named then
    Ret (Err (StatusErr DeadlineExceeded ("Failed to create volume " +:+ name_of resHostPVC)))
  else
    let* r := send (PvcGet (namespace cs) (name_of resHostPVC)) in
    match r with
    | Err err => Ret (Err (StatusErr Internal ("Failed to get PVC : " +:+ Error err)))
    | Ok resPVC =>
        let* r := createNetworkFilesystem (VolumeName (pvc_Spec resPVC)) in
        match r with
        | Err err => Ret (Err (StatusErr Internal
            ("Failed to create NetworkFileSystem for volume " +:+ name_of resPVC
             +:+ ": " +:+ Error err)))
        | Ok _ => Ret (Ok tt)
        end
    end.

Definition CreateVolume (cs : ControllerServer) (req : CreateVolumeRequest) : Fallible Volume :=
  let? v := validateCreateVolReq cs req in
  let '(volumeParameters, volSizeBytes) := v in
  if isBackupSnapshotRestore req then buildHostVolumeRemoteRestore cs req volumeParameters
  else
    let? hostPVC := buildHostPVC cs req volumeParameters volSizeBytes in
    let* r := createHostPVC hostPVC in
    match r with
    | Err err => Ret (Err (StatusErr Internal (Error err)))
    | Ok resHostPVC =>
        let* isRWX := isLHRWXVolume resHostPVC in
        let? _ := (if isRWX then prepareRWXVolume cs resHostPVC else Ret (Ok tt)) in
        Ret (Ok {| VolumeId := name_of resHostPVC;
                   CapacityBytes := volSizeBytes;
                   VolumeContext := volumeParameters;
                   ContentSource := cv_VolumeContentSource req |})
    end.

(** ** DeleteVolume *)

Definition deleteVolumeRemoteRestoreIfExists (cs : ControllerServer) (volumeID : string)
    : Fallible bool :=
  let* pr := getHostVolumeRemoteRestore (namespace cs) volumeID in
  match pr with
  | Err err => if errors.IsNotFound err then Ret (Ok false) else Ret (Err err)
  | Ok _ =>
      let? _ := deleteHostVolumeRemoteRestore (namespace cs) volumeID in
      Ret (Ok true)
  end.

(** The network file system of a Longhorn RWX volume goes before its PVC. *)
Definition deleteNetworkFilesystem (volumeName : string) : Fallible unit :=
  let* r := send (NfsGet HarvesterNS volumeName) in
  match r with
  | Err err =>
      if negb (errors.IsNotFound err) then
        Ret (Err (StatusErr Internal
          ("Failed to get NetworkFileSystem " +:+ volumeName +:+ ": " +:+ Error err)))
      else Ret (Ok tt)
  | Ok _ =>
      let* r := send (NfsDelete HarvesterNS volumeName) in
      match r with
      | Err err => Ret (Err (StatusErr Internal
          ("Failed to delete NetworkFileSystem " +:+ volumeName +:+ ": " +:+ Error err)))
      | Ok _ => Ret (Ok tt)
      end
  end.

Definition DeleteVolume (cs : ControllerServer) (volumeId : string) : Fallible unit :=
  if Z.of_nat (String.length volumeId) =? 0 then
    Ret (Err (StatusErr InvalidArgument "Volume ID missing in request"))
  else
    match validateControllerServiceRequest cs RPC_CREATE_DELETE_VOLUME with
    | Err err => Ret (Err (StatusErr Internal ("Invalid delete volume req: " +:+ Error err)))
    | Ok _ =>
        let? deleted := deleteVolumeRemoteRestoreIfExists cs volumeId in
        if deleted : bool then Ret (Ok tt)
        else
          let* r := send (PvcGet (namespace cs) volumeId) in
          match r with
          | Err err =>
              if errors.IsNotFound err then Ret (Ok tt)
              else Ret (Err (StatusErr Internal
                     ("Failed to get PVC " +:+ volumeId +:+ ": " +:+ Error err)))
          | Ok resPVC =>
              let* isRWX := isLHRWXVolume resPVC in
              let? _ := (if isRWX then deleteNetworkFilesystem (VolumeName (pvc_Spec resPVC))
                         else Ret (Ok tt)) in
              let* r := send (PvcDelete (namespace cs) volumeId) in
              match r with
              | Err err =>
                  if errors.IsNotFound err then Ret (Ok tt)
                  else Ret (Err (StatusErr Internal
                         ("Failed to delete PVC " +:+ volumeId +:+ ": " +:+ Error err)))
              | Ok _ => Ret (Ok tt)
              end
          end
    end.

(** ** ValidateVolumeCapabilities *)

Definition ValidateVolumeCapabilities (cs : ControllerServer)
    (req : ValidateVolumeCapabilitiesRequest) : Fallible Confirmed :=
  let* r := send (PvcGet (namespace cs) (vv_VolumeId req)) in
  match r with
  | Err err =>
      if errors.IsNotFound err then
        Ret (Err (StatusErr NotFound ("The PVC " +:+ vv_VolumeId req +:+ " does not exist")))
      else Ret (Err (StatusErr Internal
             ("Failed to get PVC " +:+ vv_VolumeId req +:+ ": " +:+ Error err)))
  | Ok _ =>
      let? _ := validateVolumeCapabilities cs (vv_VolumeCapabilities req) in
      Ret (Ok {| conf_VolumeContext := vv_VolumeContext req;
                 conf_VolumeCapabilities := vv_VolumeCapabilities req;
                 conf_Parameters := vv_Parameters req |})
  end.

Definition ControllerGetCapabilities (cs : ControllerServer) : list ControllerServiceCapability :=
  caps cs.

(** ** ControllerExpandVolume *)

Definition validateOnlineExpansion (cs : ControllerServer) (pvc : PersistentVolumeClaim)
    : Fallible unit :=
  let? inUse := isVolumeInUse cs (name_of pvc) in
  if negb inUse then Ret (Ok tt)
  else
    let* r := send (SettingGet csiOnlineExpandValidation) in
    match r with
    | Err err => Ret (Err (StatusErr Internal
        ("Failed to retrieve online expansion setting: " +:+ Error err)))
    | Ok _ => Ret (Ok tt)
    end.

Definition expanded (reqSize : Z) (vol : PersistentVolumeClaim) : bool :=
  reqSize <=? Storage (pvc_Capacity vol).

(** Storing into the nil map panics. *)
Definition storeRequest (q : Z) (pvc : PersistentVolumeClaim) : P PersistentVolumeClaim :=
  match Requests (pvc_Spec pvc) with
  | None => Panic "assignment to entry in nil map"
  | Some _ => Ret (set_request q pvc)
  end.

Definition ControllerExpandVolume (cs : ControllerServer) (req : ControllerExpandVolumeRequest)
    : Fallible ControllerExpandVolumeResponse :=
  check! validateCtrlExpandReq req in
  if ctrlExpandRWX req then
    Ret (Err (StatusErr Internal "rwx volume expansion is not supported"))
  else
    let notFound := Ret (Err (StatusErr NotFound
                      ("PersistentVolumeClaim " +:+ ce_VolumeId req +:+ " not found"))) in
    let* r := send (PvcGet (namespace cs) (ce_VolumeId req)) in
    match r with
    | Err _ => notFound
    | Ok pvc =>
        if (VolumeName (pvc_Spec pvc) =? "")%string then notFound
        else
          let? _ := validateOnlineExpansion cs pvc in
          match ce_RequiredBytes req with
          | None => Ret (Err (StatusErr InvalidArgument
                      "Capacity range is missing in the request"))
          | Some reqSize =>
              if reqSize <? Storage (Requests (pvc_Spec pvc)) then
                Ret (Err (StatusErr FailedPrecondition "Volume shrink is not supported"))
              else
                let* pvc' := storeRequest reqSize pvc in
                let* r := send (PvcUpdate pvc') in
                match r with
                | Err err => Ret (Err (StatusErr Internal
                    ("Failed to update PVC size: " +:+ Error err)))
                | Ok _ =>
                    let* ok := waitForPVCState cs (ce_VolumeId req) (expanded reqSize) in
                    if negb ok then
                      Ret (Err (StatusErr DeadlineExceeded "PVC expansion timed out"))
                    else
                      let* r := isVolumeInUse cs (ce_VolumeId req) in
                      match r with
                      | Err err => Ret (Err (StatusErr Internal
                          ("Failed to check if volume " +:+ ce_VolumeId req
                           +:+ " is in use: " +:+ Error err)))
                      | Ok inUse => Ret (Ok {| exp_CapacityBytes := reqSize;
                                               NodeExpansionRequired := inUse |})
                      end
                end
          end
    end.

(** ** Methods the driver does not implement *)
Definition unimplemented {A} : result A := Err (StatusErr Unimplemented "").
Definition ControllerGetVolume : result unit := unimplemented.
Definition ListVolumes : result unit := unimplemented.
Definition GetCapacity : result unit := unimplemented.
Definition ControllerModifyVolume : result unit := unimplemented.
