(* ===== verification/VolumesSpec.v ===== *)
(** * Properties of the volume life cycle *)

From S2P Require Import Prelude Go Prog Kube Csi Api Store Utils CsiUtil Controller Volumes.

(** ** Helpers that only read *)

Lemma isLHRWXVolume_loop_ro sc modes : read_only (isLHRWXVolume_loop sc modes).
Proof.
  induction modes as [|m ms IH]; simpl; [done|].
  case_match; [exact IH|]. apply read_only_bind; [apply read_only_deref|].
  intros n. split; [done|]. intros r. simpl. by case_match.
Qed.

Lemma isLHRWXVolume_ro pvc : read_only (isLHRWXVolume pvc).
Proof.
  unfold isLHRWXVolume. repeat case_match; try done. apply isLHRWXVolume_loop_ro.
Qed.

#[export] Hint Resolve isLHRWXVolume_ro : csi.


(** What DeleteVolume may have written when it stops: nothing, the deletion
    of the restore object, or, after the restore object was not found and
    the PVC was read, the deletions of the PVC and of the network file
    system that PVC names. *)
Definition delete_writes (cs : ControllerServer) (id : string) (tr : trace reply) : Prop :=
  writes tr = [] \/ writes tr = [VrrDelete (namespace cs) id] \/
  exists e pvc,
    In (ev (VrrGet (namespace cs) id) (Err e)) tr /\ errors.IsNotFound e = true /\
    In (ev (PvcGet (namespace cs) id) (Ok pvc)) tr /\
    let nfs := NfsDelete HarvesterNS (VolumeName (pvc_Spec pvc)) in
    let del := PvcDelete (namespace cs) id in
    (writes tr = [nfs] \/ writes tr = [del] \/ writes tr = [nfs; del]).

Lemma DeleteVolume_writes cs id :
  all_runs (DeleteVolume cs id) (fun tr _ => delete_writes cs id tr).
Proof.
  apply wp_iff. unfold DeleteVolume. wp_exec;
    first [ by left; writes_simpl | by right; left; writes_simpl
          | right; right; do 2 eexists; cbn zeta;
            (split_and!; [by auto with csi|done|by auto with csi|writes_simpl; auto]) ].
Qed.

(** The replies after which DeleteVolume gives up: an error other than
    not-found of a read or of the deletion of the PVC, and any error of the
    deletion of the restore or of the network file system. *)
Definition delete_fatal (e : event reply) : bool :=
  match e with
  | existT (VrrGet _ _) (Err e) | existT (PvcGet _ _) (Err e)
  | existT (NfsGet _ _) (Err e) | existT (PvcDelete _ _) (Err e) => negb (errors.IsNotFound e)
  | existT (VrrDelete _ _) (Err _) | existT (NfsDelete _ _) (Err _) => true
  | _ => false
  end.

(** The run got the volume deleted: its restore object was deleted, or there
    was none and the PVC was not found or was deleted. *)
Definition delete_done (cs : ControllerServer) (id : string) (tr : trace reply) : Prop :=
  In (ev (VrrDelete (namespace cs) id) (Ok tt)) tr
  \/ exists e, In (ev (VrrGet (namespace cs) id) (Err e)) tr /\ errors.IsNotFound e = true
     /\ ((exists e2, In (ev (PvcGet (namespace cs) id) (Err e2)) tr /\ errors.IsNotFound e2 = true)
         \/ In (ev (PvcDelete (namespace cs) id) (Ok tt)) tr
         \/ (exists e2, In (ev (PvcDelete (namespace cs) id) (Err e2)) tr
              /\ errors.IsNotFound e2 = true)).

(** ** Request validation *)

(** A capability the server accepts *)
Definition cap_ok (cs : ControllerServer) (cap : VolumeCapability) : Prop :=
  GetAccessType cap <> AccessType_unset /\ In (GetMode cap) (accessModes cs).

Definition source_ok (caps : list VolumeCapability) (vcs : VolumeContentSource) : Prop :=
  match vcs with
  | Source_Volume _ => False
  | Source_Snapshot id => id <> "" /\ forall c, In c caps -> GetMode c <> MULTI_NODE_MULTI_WRITER
  | Source_unset => True
  end.

(** The well-formed CreateVolume requests *)
Definition valid_create (cs : ControllerServer) (req : CreateVolumeRequest) : Prop :=
  (exists cap, In cap (Controller.caps cs) /\ csc_Rpc cap = RPC_CREATE_DELETE_VOLUME)
  /\ cv_Name req <> ""
  /\ (exists l, cv_VolumeCapabilities req = Some l /\ Forall (cap_ok cs) l)
  /\ match cv_VolumeContentSource req with
     | None => True
     | Some vcs => source_ok (default [] (cv_VolumeCapabilities req)) vcs
     end.

(** The size a request asks for, never below the minimum *)
Definition effectiveSize (req : CreateVolumeRequest) : Z :=
  Z.max MinimalVolumeSize (default MinimalVolumeSize (cv_RequiredBytes req)).

Definition effectiveParameters (req : CreateVolumeRequest) : gomap :=
  Some (default ∅ (cv_Parameters req)).

(** Some capability of the request has no access mode. *)
Definition lacks_mode (req : CreateVolumeRequest) : Prop :=
  exists l cap, cv_VolumeCapabilities req = Some l /\ In cap l /\ AccessMode cap = None.

Lemma Mode_eqb_eq a b : Mode_eqb a b = true <-> a = b.
Proof. apply bool_decide_eq_true. Qed.

Lemma Mode_eqb_neq a b : Mode_eqb a b = false <-> a <> b.
Proof. apply bool_decide_eq_false. Qed.

Lemma mode_supported (m : Mode) (l : list Mode) :
  existsb (fun m' => Mode_eqb m m') l = true <-> In m l.
Proof.
  rewrite existsb_exists. split.
  - intros (x & Hin & ->%Mode_eqb_eq). done.
  - intros Hin. exists m. by rewrite Mode_eqb_eq.
Qed.

Lemma service_supported cs c :
  c <> RPC_UNKNOWN ->
  validateControllerServiceRequest cs c = Ok tt <->
  exists cap, In cap (Controller.caps cs) /\ csc_Rpc cap = c.
Proof.
  intros Hc. unfold validateControllerServiceRequest.
  rewrite bool_decide_eq_false_2 by done.
  destruct (existsb _ (Controller.caps cs)) eqn:E.
  - split; [intros _|done]. apply existsb_exists in E as (cap & Hin & E).
    apply bool_decide_eq_true in E. eauto.
  - split; [done|]. intros (cap & Hin & <-).
    rewrite existsb_false_forall in E. specialize (E cap Hin).
    by rewrite bool_decide_eq_true_2 in E.
Qed.

(** The loop over the capabilities accepts exactly the lists of acceptable
    capabilities, rejects with InvalidArgument otherwise, and panics only on
    a capability without access mode. *)
Lemma validateVolumeCapabilities_loop_spec cs l :
  wp (validateVolumeCapabilities_loop (accessModes cs) l) (fun tr o =>
    tr = [] /\
    match o with
    | Returned (Ok _) => Forall (cap_ok cs) l
    | Returned (Err e) => status_Code e = InvalidArgument /\ ~ Forall (cap_ok cs) l
    | Panicked _ => ~ Forall (cap_ok cs) l /\ exists cap, In cap l /\ AccessMode cap = None
    end).
Proof.
  induction l as [|cap l IH]; cbn [validateVolumeCapabilities_loop]; [by split|].
  destruct (GetAccessType cap) eqn:Ht;
    unfold isNil, GetMount, GetBlock; rewrite Ht; cbn [negb andb].
  3: { cbn. split; [done|]. split; [done|]. intros HF. inversion HF; subst.
       by destruct H1 as [Hu _]. }
  all: destruct (existsb _ _) eqn:E; cbn [negb].
  1, 3: apply mode_supported in E; eapply wp_mono; [exact IH|]; intros tr [[u|e]|w] [-> H];
        (split; [done|]).
  all: assert (Hcap : GetAccessType cap <> AccessType_unset) by by rewrite Ht.
  1, 4: by constructor.
  1, 3: split; [apply H|]; intros HF; inversion HF; subst; by apply H.
  1, 2: destruct H as (H1 & c & Hin & Hm); (split; [|eauto with csi]);
        intros HF; inversion HF; subst; by apply H1.
  all: assert (~ Forall (cap_ok cs) (cap :: l)) by
        (intros HF; inversion HF as [|? ? [_ Hin%mode_supported] _]; congruence).
  all: destruct (AccessMode cap) eqn:Hm; cbn; (split; [done|]); split; eauto with csi.
Qed.

Lemma validateVolumeContentSource_spec vcs caps :
  match validateVolumeContentSource vcs caps with
  | Ok _ => match vcs with None => True | Some v => source_ok (default [] caps) v end
  | Err e => status_Code e = InvalidArgument
             /\ exists v, vcs = Some v /\ ~ source_ok (default [] caps) v
  end.
Proof.
  unfold validateVolumeContentSource, isNil. destruct vcs as [[id|id|]|]; simpl; try done.
  2: by split; eauto.
  destruct (id =? "")%string eqn:E; bool_to_prop.
  { split; [done|]. eexists. split; [done|]. by intros [? _]. }
  destruct (existsb _ _) eqn:E2; simpl.
  - apply existsb_exists in E2 as (c & Hin & Hc%Mode_eqb_eq).
    split; [done|]. eexists. split; [done|]. intros [_ H]. by apply (H c Hin).
  - split; [done|]. intros c Hin. rewrite existsb_false_forall in E2.
    apply Mode_eqb_neq, E2, Hin.
Qed.

(** Validation makes no call; it succeeds exactly on the well-formed
    requests, with the effective parameters and size. *)
Lemma validateCreateVolReq_spec cs req :
  wp (validateCreateVolReq cs req) (fun tr o =>
    tr = [] /\
    match o with
    | Returned (Ok v) => valid_create cs req /\ v = (effectiveParameters req, effectiveSize req)
    | Returned (Err e) => status_Code e = InvalidArgument /\ ~ valid_create cs req
    | Panicked _ => ~ valid_create cs req /\ lacks_mode req
    end).
Proof.
  unfold validateCreateVolReq, valid_create.
  destruct (validateControllerServiceRequest cs RPC_CREATE_DELETE_VOLUME) as [[]|e] eqn:Ev.
  2: { cbn. split_and!; [done..|]. intros [Hc _].
       apply service_supported in Hc; [congruence|done]. }
  apply service_supported in Ev; [|done].
  destruct (Z.of_nat (String.length (cv_Name req)) =? 0) eqn:En; bool_to_prop.
  { cbn. split_and!; [done..|]. intros (_ & Hn & _). by destruct (cv_Name req). }
  assert (Hn : cv_Name req <> "") by (intros Hn; by rewrite Hn in En).
  destruct (cv_VolumeCapabilities req) as [l|] eqn:El; cbn [validateVolumeCapabilities].
  2: { cbn. split_and!; [done..|]. by intros (_ & _ & (? & ? & _) & _). }
  eapply wp_bind_use; [apply validateVolumeCapabilities_loop_spec| |]; cbn.
  - intros tr [u|e] [-> H]; cbn [app].
    + pose proof (validateVolumeContentSource_spec (cv_VolumeContentSource req) (Some l)) as Hs.
      destruct (validateVolumeContentSource _ _); cbn.
      * split; [done|]. split; [by eauto 10|]. unfold effectiveParameters, effectiveSize.
        destruct (cv_Parameters req), (cv_RequiredBytes req) as [b|]; simpl;
          (f_equal; try done); try (destruct (b <? MinimalVolumeSize) eqn:Eb; bool_to_prop; lia).
      * destruct Hs as (Hc & v & Hv & Hns). split_and!; [done..|].
        intros (_ & _ & _ & Hsrc). by rewrite Hv in Hsrc.
    + destruct H as [Hc Hf]. cbn. split_and!; [done..|].
      intros (_ & _ & (l' & [= <-] & HF) & _). done.
  - intros tr w [-> (Hf & cap & Hin & Hm)]. split; [done|]. split; [|by exists l, cap].
    intros (_ & _ & (l' & [= <-] & HF) & _). done.
Qed.

(** ** Manifests of host PVCs *)

(** The host storage class was read, or the guest may not read it. *)
Definition class_checked (tr : trace reply) (sc : string) : Prop :=
  (exists c, In (ev (ScGet sc) (Ok c)) tr)
  \/ exists e, In (ev (ScGet sc) (Err e)) tr /\ errors.ReasonForError e = "Forbidden".

(** The storage class a request selects: the parameter of the guest's class,
    else the class the driver was started with; the empty name selects the
    default of the host. *)
Definition requestedClass (cs : ControllerServer) (vp : gomap) : option string :=
  let sc := default (hostStorageClass cs) (map_lookup vp paramHostSC) in
  if (sc =? "")%string then None else Some sc.

Lemma getStorageClass_spec cs vp :
  wp (getStorageClass cs vp) (fun tr o =>
    writes tr = [] /\
    match o with
    | Returned (Ok (sc, prov)) =>
        sc = default (hostStorageClass cs) (map_lookup vp paramHostSC)
        /\ (forall sc', map_lookup vp paramHostSC = Some sc' -> class_checked tr sc')
    | Returned (Err e) => status_Code e = NotFound \/ status_Code e = Internal
    | Panicked _ => False
    end).
Proof.
  unfold getStorageClass. destruct (map_lookup vp paramHostSC) as [sc|]; cbn; [|done].
  intros [c|e]; cbn.
  - split_and!; [by writes_simpl|done|]. intros ? [= <-]. left. eauto with csi.
  - destruct (errors.ReasonForError e =? "Forbidden")%string eqn:E; cbn; bool_to_prop.
    + split_and!; [by writes_simpl|done|]. intros ? [= <-]. right. eauto with csi.
    + case_match; cbn; (split; [by writes_simpl|auto]).
Qed.

Definition scratch_manifest (cs : ControllerServer) (req : CreateVolumeRequest) (vp : gomap)
    (size : Z) (p : PersistentVolumeClaim) : Prop :=
  key_of p = (namespace cs, cv_Name req)
  /\ Storage (Requests (pvc_Spec p)) = RoundUpSize size
  /\ StorageClassName (pvc_Spec p) = requestedClass cs vp
  /\ AccessModes (pvc_Spec p) = [ReadWriteMany]
  /\ (map_lookup vp paramHostVolMode = Some "filesystem" ->
      VolumeMode (pvc_Spec p) = Some PersistentVolumeFilesystem)
  /\ (map_lookup vp paramHostVolMode <> Some "filesystem" ->
      VolumeMode (pvc_Spec p) = Some (getVolumeMode (default [] (cv_VolumeCapabilities req)))).

Lemma Storage_new q : Storage (newResourceList q) = q.
Proof. unfold Storage, newResourceList. by rewrite lookup_singleton_eq. Qed.

Lemma buildHostPVCFromScratch_spec cs req vp size :
  wp (buildHostPVCFromScratch cs (cv_Name req) (cv_VolumeCapabilities req) vp size) (fun tr o =>
    writes tr = [] /\
    match o with
    | Returned (Ok p) => scratch_manifest cs req vp size p
        /\ (forall sc, map_lookup vp paramHostSC = Some sc -> class_checked tr sc)
    | Returned (Err e) => status_Code e = NotFound \/ status_Code e = Internal
    | Panicked _ => False
    end).
Proof.
  unfold buildHostPVCFromScratch.
  eapply wp_bind_use; [apply getStorageClass_spec| |]; [|by intros].
  intros tr [[sc prov]|e] [Hw H]; cbn -[newResourceList getVolumeMode];
    rewrite ?app_nil_r; [|done].
  destruct H as [-> Hsc]. split; [done|]. split; [|done].
  unfold scratch_manifest. cbn -[newResourceList getVolumeMode Storage].
  rewrite Storage_new. unfold requestedClass, key_of, meta, pvc_HasMeta; simpl.
  split_and!; try done.
  - by intros ->.
  - intros Hne. destruct (map_lookup vp paramHostVolMode) as [v|]; [|done].
    destruct (v =? "filesystem")%string eqn:E; [|done]. bool_to_prop. by subst.
Qed.

(** A PVC restored from a snapshot has the class and the mode recorded in
    the labels of the snapshot it was read from, and names it as source. *)
Definition snap_manifest (cs : ControllerServer) (name id : string) (size : Z)
    (tr : trace reply) (p : PersistentVolumeClaim) : Prop :=
  exists snap sc mode,
    In (ev (SnapGet (namespace cs) id) (Ok snap)) tr
    /\ map_lookup (Labels (meta snap)) labelSnapHostSC = Some sc
    /\ map_lookup (Labels (meta snap)) labelSnapHostVolumeMode = Some mode
    /\ (mode = PersistentVolumeBlock \/ mode = PersistentVolumeFilesystem)
    /\ key_of p = (namespace cs, name)
    /\ Storage (Requests (pvc_Spec p)) = size
    /\ StorageClassName (pvc_Spec p) = Some sc
    /\ VolumeMode (pvc_Spec p) = Some mode
    /\ DataSource (pvc_Spec p) = Some (mkRef (Some snapshotGroupName) VolumeSnapshotKind (name_of snap))
    /\ exists c, In (ev (ScGet sc) (Ok c)) tr.

(** The labels check succeeds exactly when both labels are there. *)
Lemma validateHostSnapLabels_spec snap :
  validateHostSnapLabels snap = Ok tt <->
  exists sc mode, map_lookup (Labels (meta snap)) labelSnapHostSC = Some sc
    /\ map_lookup (Labels (meta snap)) labelSnapHostVolumeMode = Some mode.
Proof.
  unfold validateHostSnapLabels, map_lookup.
  destruct (Labels (meta snap)) as [ls|]; [|naive_solver].
  unfold requiredLabels. cbn [List.filter].
  destruct (ls !! labelSnapHostSC), (ls !! labelSnapHostVolumeMode); simpl; naive_solver.
Qed.

Lemma buildHostPVCFromSnap_spec cs name id size :
  wp (buildHostPVCFromSnap cs name id size) (fun tr o =>
    writes tr = [] /\
    match o with
    | Returned (Ok p) => snap_manifest cs name id size tr p
    | Returned (Err _) => True
    | Panicked _ => False
    end).
Proof.
  unfold buildHostPVCFromSnap. cbn. intros [snap|e]; cbn; [|by writes_simpl].
  destruct (validateHostSnapLabels snap) as [[]|e] eqn:E; cbn; [|by writes_simpl].
  apply validateHostSnapLabels_spec in E as (sc & mode & Hsc & Hmode).
  unfold map_get. rewrite Hsc, Hmode. cbn.
  intros [c|e]; cbn; [|by writes_simpl].
  destruct (_ || _) eqn:Em; cbn; (split; [by writes_simpl|]); [|done].
  exists snap, sc, mode. cbn. rewrite Storage_new. split_and!; try done; [auto with csi| |].
  - by apply orb_true_iff in Em as [Em|Em]; bool_to_prop; [left|right].
  - exists c. auto with csi.
Qed.

(** ** CreateVolume *)

(** The modes of the claim are those of an RWX file system. *)
Definition rwx_modes (pvc : PersistentVolumeClaim) : Prop :=
  VolumeMode (pvc_Spec pvc) = Some PersistentVolumeFilesystem
  /\ In ReadWriteMany (AccessModes (pvc_Spec pvc)).

(** The run [tr] found the claim to be a Longhorn RWX one: its modes say so
    and its storage class was read with the provisioner of Longhorn. *)
Definition rwx_claim (tr : trace reply) (pvc : PersistentVolumeClaim) : Prop :=
  rwx_modes pvc
  /\ exists n c, StorageClassName (pvc_Spec pvc) = Some n
     /\ In (ev (ScGet n) (Ok c)) tr /\ Provisioner c = longhornProvisioner.

(** The run [tr] found that it is not one: its modes do not say so, or its
    storage class was looked up and never read with that provisioner. *)
Definition not_rwx_claim (tr : trace reply) (pvc : PersistentVolumeClaim) : Prop :=
  ~ rwx_modes pvc
  \/ exists n, StorageClassName (pvc_Spec pvc) = Some n
     /\ In (ScGet n) (calls tr)
     /\ forall c, In (ev (ScGet n) (Ok c)) tr -> Provisioner c <> longhornProvisioner.

Lemma rwx_claim_mono tr tr' pvc : incl tr tr' -> rwx_claim tr pvc -> rwx_claim tr' pvc.
Proof. intros Hi [Hm (n & c & Hn & Hin & Hp)]. split; [done|]. exists n, c. auto. Qed.

(** The storage class an event read *)
Definition class_read (e : event reply) : option StorageClass :=
  match e with
  | existT (ScGet _) (Ok c) => Some c
  | _ => None
  end.

Lemma isLHRWXVolume_loop_spec sc modes :
  wp (isLHRWXVolume_loop sc modes) (fun tr o =>
    writes tr = [] /\
    match o with
    | Returned true => In ReadWriteMany modes /\ exists n c, sc = Some n
        /\ In (ev (ScGet n) (Ok c)) tr /\ Provisioner c = longhornProvisioner
    | Returned false => (In ReadWriteMany modes -> exists n, sc = Some n /\ In (ScGet n) (calls tr))
        /\ forall n c, In (ev (ScGet n) (Ok c)) tr -> Provisioner c <> longhornProvisioner
    | Panicked _ => sc = None
    end).
Proof.
  induction modes as [|m ms IH]; cbn [isLHRWXVolume_loop]; [done|].
  destruct (m =? ReadWriteMany)%string eqn:Em; cbn [negb]; bool_to_prop.
  - subst. destruct sc as [n|]; cbn; [|done]. intros r; cbn.
    destruct (match r with Ok c => Provisioner c | Err _ => "" end =? longhornProvisioner)%string eqn:E;
      bool_to_prop; cbn.
    { destruct r as [c|e]; [|done]. split; [by writes_simpl|].
      split; [auto with csi|]. exists n, c. auto with csi. }
    eapply wp_mono; [exact IH|]. intros tr [[]|w] [Hw H]; (split; [by writes_simpl|]); try done.
    + destruct H as [? (n' & c' & ? & ? & ?)]. split; [auto with csi|]. exists n', c'. auto with csi.
    + split; [intros _; exists n; split; [done|by left]|]. destruct H as [_ H]. intros n' c' [Hin|Hin]; [|eauto].
      apply (f_equal class_read) in Hin. simpl in Hin. destruct r; by simplify_eq.
  - eapply wp_mono; [exact IH|]. intros tr [[]|w] [Hw H]; (split; [done|]); try done;
      destruct H as [H ?]; (split; [|done]); [auto with csi|]. intros [?|?]; [done|auto].
Qed.

(** isLHRWXVolume decides whether the claim is a Longhorn RWX one. *)
Lemma isLHRWXVolume_spec pvc :
  wp (isLHRWXVolume pvc) (fun tr o =>
    writes tr = [] /\
    match o with
    | Returned true => rwx_claim tr pvc
    | Returned false => not_rwx_claim tr pvc
    | Panicked _ => VolumeMode (pvc_Spec pvc) = Some PersistentVolumeFilesystem
        /\ StorageClassName (pvc_Spec pvc) = None
    end).
Proof.
  unfold isLHRWXVolume, not_rwx_claim, rwx_modes.
  destruct (VolumeMode (pvc_Spec pvc)) as [m|] eqn:Em; [|split; [done|left; by intros [? _]]].
  destruct (m =? PersistentVolumeFilesystem)%string eqn:E; cbn [negb]; bool_to_prop.
  2: { split; [done|left; intros [? _]; congruence]. }
  subst. case_match.
  { bool_to_prop. split; [done|left]. intros [_ Hin].
    by destruct (AccessModes (pvc_Spec pvc)). }
  eapply wp_mono; [apply isLHRWXVolume_loop_spec|]. intros tr [[]|w] [Hw Ho]; (split; [done|]).
  - destruct Ho as [? ?]. by repeat split.
  - destruct Ho as [Hget Hno].
    destruct (in_dec String.string_dec ReadWriteMany (AccessModes (pvc_Spec pvc))) as [Hin|Hin]; [right|left; tauto].
    destruct (Hget Hin) as (n & ? & ?). exists n. eauto.
  - done.
Qed.

Lemma isLHRWXVolume_not_fatal pvc :
  wp (isLHRWXVolume pvc) (fun tr _ => existsb delete_fatal tr = false).
Proof.
  assert (Hl : forall sc modes, wp (isLHRWXVolume_loop sc modes)
                 (fun tr _ => existsb delete_fatal tr = false)).
  { intros sc modes. induction modes as [|m ms IH]; cbn [isLHRWXVolume_loop]; [done|].
    case_match; [exact IH|]. destruct sc as [n|]; cbn; [|done].
    intros [c|e]; cbn; [destruct (Provisioner c =? longhornProvisioner)%string; cbn|]; done. }
  unfold isLHRWXVolume. by repeat case_match.
Qed.

(** The waiting loops end, whatever the number of rounds, and answer true
    only after a PVC that satisfies the condition was read. *)
Lemma waitForLHVolumeName_spec cs n :
  wp (waitForLHVolumeName cs n) (fun tr o =>
    writes tr = [] /\
    match o with
    | Returned true => exists p, In (ev (PvcGet (namespace cs) n) (Ok p)) tr
        /\ VolumeName (pvc_Spec p) <> ""
    | Returned false => True
    | Panicked _ => False
    end).
Proof.
  cbn. intros k. induction k as [|k IH]; cbn [waitForLHVolumeName_rounds]; cbn.
  { by writes_simpl. }
  intros [p|e]; cbn; [|by writes_simpl].
  destruct (VolumeName (pvc_Spec p) =? "")%string eqn:E; bool_to_prop; cbn.
  - eapply wp_mono; [exact IH|]. intros tr [[]|w] [Hw H];
      (split; [revert Hw; by writes_simpl|]); try done.
    destruct H as (p' & [Hin|Hin] & Hv); [done|].
    exists p'. auto with csi.
  - split; [by writes_simpl|]. exists p. auto with csi.
Qed.

Lemma waitForPVCState_spec cs n pred :
  wp (waitForPVCState cs n pred) (fun tr o =>
    writes tr = [] /\
    match o with
    | Returned true => exists p, In (ev (PvcGet (namespace cs) n) (Ok p)) tr /\ pred p = true
    | Returned false => True
    | Panicked _ => False
    end).
Proof.
  cbn. intros k. induction k as [|k IH]; cbn [waitForPVCState_rounds]; cbn.
  { by writes_simpl. }
  intros [p|e]; cbn; [destruct (pred p) eqn:E; cbn|].
  { split; [by writes_simpl|]. exists p. auto with csi. }
  all: eapply wp_mono; [exact IH|]; intros tr [[]|w] [Hw H];
      (split; [revert Hw; by writes_simpl|]); try done;
    destruct H as (p' & [Hin|Hin] & Hv); [done|]; exists p'; auto with csi.
Qed.

(** The network file system of the volume the claim was read with *)
Definition nfs_of (cs : ControllerServer) (claim : string) (tr : trace reply) (c : call) : Prop :=
  exists pvc, In (ev (PvcGet (namespace cs) claim) (Ok pvc)) tr
    /\ c = NfsCreate HarvesterNS (newNetworkFilesystem (VolumeName (pvc_Spec pvc))).

(** The network file system was created, or there was one already. *)
Definition nfs_made (cs : ControllerServer) (claim : string) (tr : trace reply) : Prop :=
  exists pvc r, In (ev (PvcGet (namespace cs) claim) (Ok pvc)) tr
    /\ In (ev (NfsCreate HarvesterNS (newNetworkFilesystem (VolumeName (pvc_Spec pvc)))) r) tr
    /\ match r with Ok _ => True | Err e => errors.IsAlreadyExists e = true end
    /\ writes tr = [NfsCreate HarvesterNS (newNetworkFilesystem (VolumeName (pvc_Spec pvc)))].

Lemma nfs_made_after cs claim tr tr' :
  writes tr = [] -> nfs_made cs claim tr' -> nfs_made cs claim (tr ++ tr').
Proof.
  intros Hw (pvc & r & H1 & H2 & Hr & H3). exists pvc, r.
  split_and!; [auto with csi..|done|by writes_simpl].
Qed.

Lemma prepareRWXVolume_spec cs p :
  wp (prepareRWXVolume cs p) (fun tr o =>
    match o with
    | Returned (Ok _) => nfs_made cs (name_of p) tr
    | Returned (Err e) => (status_Code e = DeadlineExceeded \/ status_Code e = Internal)
        /\ (writes tr = [] \/ exists c, nfs_of cs (name_of p) tr c /\ writes tr = [c])
    | Panicked _ => False
    end).
Proof.
  unfold prepareRWXVolume. eapply wp_bind_use; [apply waitForLHVolumeName_spec| |].
  2: by intros tr w [_ []].
  intros tr named [Hw _]. destruct named; cbn; [|split; [by left|left; by writes_simpl]].
  intros [pvc|e]; cbn; [|split; [by right|left; by writes_simpl]].
  assert (Hget : forall t, In (ev (PvcGet (namespace cs) (name_of p)) (Ok pvc))
                 (tr ++ ev (PvcGet (namespace cs) (name_of p)) (Ok pvc) :: t)) by auto with csi.
  intros [x|e]; cbn; [|destruct (errors.IsAlreadyExists e) eqn:Ee; cbn].
  1,2: exists pvc; eexists; split_and!; [apply Hget|by auto 10 with csi|done|by writes_simpl].
  split; [by right|right]. eexists. split; [by exists pvc|by writes_simpl].
Qed.

(** The manifest of the PVC a well-formed request asks for *)
Definition manifest (cs : ControllerServer) (req : CreateVolumeRequest) (tr : trace reply)
    (p : PersistentVolumeClaim) : Prop :=
  match cv_VolumeContentSource req with
  | None => scratch_manifest cs req (effectiveParameters req) (effectiveSize req) p
      /\ (forall sc, map_lookup (effectiveParameters req) paramHostSC = Some sc ->
            class_checked tr sc)
  | Some vcs => exists id, GetSnapshot vcs = Some id
      /\ snap_manifest cs (cv_Name req) id (effectiveSize req) tr p
  end.

Lemma manifest_mono cs req tr tr' p :
  incl tr tr' -> manifest cs req tr p -> manifest cs req tr' p.
Proof.
  unfold manifest, incl. intros Hi. destruct (cv_VolumeContentSource req).
  - intros (id & Hid & snap & sc & mode & H & ? & ? & ? & ? & ? & ? & ? & ? & c & Hc).
    exists id. split; [done|]. exists snap, sc, mode. split_and!; eauto.
  - intros [Hm Hc]. split; [done|]. intros sc Hsc.
    destruct (Hc sc Hsc) as [[c ?]|(e & ? & ?)]; [left|right]; eauto.
Qed.

Lemma buildHostPVC_spec cs req :
  wp (buildHostPVC cs req (effectiveParameters req) (effectiveSize req)) (fun tr o =>
    writes tr = [] /\
    match o with
    | Returned (Ok p) => manifest cs req tr p
    | Returned (Err _) => True
    | Panicked _ => False
    end).
Proof.
  unfold buildHostPVC, manifest. destruct (cv_VolumeContentSource req) as [vcs|].
  - destruct (GetSnapshot vcs) as [id|] eqn:Eid; [|done].
    eapply wp_mono; [apply buildHostPVCFromSnap_spec|].
    intros tr [[p|e]|w] [Hw H]; (split; [done|]); eauto.
  - eapply wp_mono; [apply buildHostPVCFromScratch_spec|].
    intros tr [[p|e]|w] [Hw H]; auto.
Qed.

Lemma manifest_key cs req tr p :
  manifest cs req tr p -> key_of p = (namespace cs, cv_Name req).
Proof.
  unfold manifest, snap_manifest, scratch_manifest.
  destruct (cv_VolumeContentSource req); naive_solver.
Qed.

Lemma validateVolumeCapabilities_loop_ro modes l :
  read_only (validateVolumeCapabilities_loop modes l).
Proof.
  induction l as [|cap l IH]; cbn [validateVolumeCapabilities_loop]; [done|].
  repeat case_match; try done. by destruct (AccessMode cap).
Qed.

Lemma validateCreateVolReq_ro cs req : read_only (validateCreateVolReq cs req).
Proof.
  unfold validateCreateVolReq, validateVolumeCapabilities. case_match; [|done]. case_match; [done|].
  apply read_only_bind.
  - destruct (cv_VolumeCapabilities req); [apply validateVolumeCapabilities_loop_ro|done].
  - intros [u|e]; [|done]. by case_match.
Qed.

Lemma buildHostPVC_ro cs req vp size : read_only (buildHostPVC cs req vp size).
Proof.
  unfold buildHostPVC. repeat case_match; [| done|].
  - split; [done|]. intros [snap|e]; simpl; [|done]. case_match; [|done].
    split; [done|]. intros [c|e]; simpl; [|done]. by case_match.
  - apply read_only_bind.
    + unfold getStorageClass. case_match; [|done]. split; [done|].
      intros [c|e]; simpl; [done|]. by repeat case_match.
    + intros [[sc prov]|e]; done.
Qed.

(** How a run ends after the PVC [p] was submitted *)
Definition created_post (cs : ControllerServer) (req : CreateVolumeRequest)
    (p : PersistentVolumeClaim) (tr : trace reply) (o : outcome (result Volume)) : Prop :=
  (exists e, In (ev (PvcCreate p) (Err e)) tr /\ writes tr = [PvcCreate p]
             /\ o = Returned (Err (StatusErr Internal (Error e))))
  \/ exists p' before after, tr = before ++ ev (PvcCreate p) (Ok p') :: after
     /\ writes before = []
     /\ match o with
        | Returned (Ok v) => v = mkVolume (name_of p') (effectiveSize req)
                                   (effectiveParameters req) (cv_VolumeContentSource req)
            /\ (not_rwx_claim after p' /\ writes after = []
                \/ rwx_claim after p' /\ nfs_made cs (name_of p') after)
        | Returned (Err e) => (status_Code e = DeadlineExceeded \/ status_Code e = Internal)
            /\ rwx_claim after p'
            /\ (writes after = [] \/ exists c, nfs_of cs (name_of p') after c /\ writes after = [c])
        | Panicked _ => writes after = []
            /\ VolumeMode (pvc_Spec p') = Some PersistentVolumeFilesystem
            /\ StorageClassName (pvc_Spec p') = None
        end.

(** The writes of a run that submitted the PVC [p] *)
Lemma created_post_writes cs req p tr o c :
  created_post cs req p tr o -> In c (writes tr) ->
  c = PvcCreate p \/ exists n, c = NfsCreate HarvesterNS n.
Proof.
  intros [(e & _ & Hw & _)|(p' & before & after & -> & Hb & Ho)] Hin.
  { rewrite Hw in Hin. inv_In Hin. by left. }
  revert Hin. writes_simpl. intros [<-|Hin]; [by left|right].
  destruct o as [[v|e]|w].
  - destruct Ho as [_ [[_ Hw]|[_ (pvc & r & _ & _ & _ & Hw)]]]; rewrite Hw in Hin; inv_In Hin. eauto.
  - destruct Ho as (_ & _ & [Hw|(c' & (pvc & _ & ->) & Hw)]); rewrite Hw in Hin; inv_In Hin. eauto.
  - destruct Ho as [Hw _]. rewrite Hw in Hin. inv_In Hin.
Qed.

(** The restore object of the backup [vrb] *)
Definition restore_object (cs : ControllerServer) (req : CreateVolumeRequest)
    (vrb : VolumeRemoteBackup) : VolumeRemoteRestore :=
  mkVRR (newMeta (namespace cs) (cv_Name req)) VolumeRemoteRestoreLH
    (Namespace (meta vrb) +:+ "/" +:+ name_of vrb) false.

(** How a run of a restore from a remote backup ends: the volume is the
    restore object that was found under the requested name, or the one that
    was created after none was found there, and that object was read again
    with a successful status. *)
Definition restore_post (cs : ControllerServer) (req : CreateVolumeRequest)
    (tr : trace reply) (o : outcome (result Volume)) : Prop :=
  exists ns name, parseSnapshotID (requestSnapshotId req) = (true, ns, name)
  /\ (writes tr = []
      \/ exists vrb e, In (ev (VrbGet ns name) (Ok vrb)) tr
         /\ In (ev (VrrGet (namespace cs) (cv_Name req)) (Err e)) tr /\ errors.IsNotFound e = true
         /\ writes tr = [VrrCreate (restore_object cs req vrb)])
  /\ match o with
     | Returned (Ok v) => exists vrb x vrr,
         In (ev (VrbGet ns name) (Ok vrb)) tr
         /\ (In (ev (VrrGet (namespace cs) (cv_Name req)) (Ok x)) tr
             \/ In (ev (VrrCreate (restore_object cs req vrb)) (Ok x)) tr)
         /\ VolumeId v = name_of x
         /\ In (ev (VrrGet (namespace cs) (VolumeId v)) (Ok vrr)) tr /\ vrr_Success vrr = true
         /\ CapacityBytes v = Storage (Requests (vrb_SourceSpec vrb))
         /\ VolumeContext v = effectiveParameters req
         /\ ContentSource v = cv_VolumeContentSource req
     | Returned (Err _) => True
     | Panicked _ => False
     end.

Definition create_post (cs : ControllerServer) (req : CreateVolumeRequest)
    (tr : trace reply) (o : outcome (result Volume)) : Prop :=
  (~ valid_create cs req /\ tr = [] /\
   match o with
   | Returned (Ok _) => False
   | Returned (Err e) => status_Code e = InvalidArgument
   | Panicked _ => lacks_mode req
   end)
  \/ (valid_create cs req /\
      if isBackupSnapshotRestore req then restore_post cs req tr o
      else (writes tr = [] /\ exists e, o = Returned (Err e))
           \/ exists p, manifest cs req tr p /\ created_post cs req p tr o).

Lemma Storage_None : Storage None = 0.
Proof. reflexivity. Qed.

Lemma buildHostVolumeRemoteRestore_spec cs req :
  isBackupSnapshotRestore req = true ->
  wp (buildHostVolumeRemoteRestore cs req (effectiveParameters req)) (restore_post cs req).
Proof.
  intros Hb. assert (exists ns name, parseSnapshotID (requestSnapshotId req) = (true, ns, name))
    as (ns & name & E).
  { unfold isBackupSnapshotRestore, requestSnapshotId in *.
    destruct (cv_VolumeContentSource req) as [vcs|]; [|done]. simpl.
    destruct (GetSnapshot vcs) as [id|]; [|done]. simpl.
    destruct (parseSnapshotID id) as [[[] ns] name]; [eauto|done]. }
  unfold buildHostVolumeRemoteRestore, restore_post. rewrite E.
  wp_exec; exists ns, name.
  all: split; [done|].
  all: split; [first [left; by writes_simpl
                     | right; do 2 eexists; split_and!;
                       [by auto with csi|by auto 10 with csi|by bool_to_prop|by writes_simpl]]|].
  all: try done.
  all: do 3 eexists; split_and!; cbn;
    [by auto with csi|first [left; by auto 10 with csi|right; by auto 10 with csi]|done
    |by auto 10 with csi|done| |done|done].
  all: by case_match; rewrite ?Storage_None.
Qed.

Lemma CreateVolume_spec cs req : wp (CreateVolume cs req) (create_post cs req).
Proof.
  unfold CreateVolume. eapply wp_bind_use; [apply validateCreateVolReq_spec| |].
  2: { intros tr w [-> [Hv Hl]]. by left. }
  intros tr [v|e] [-> H]; cbn [app]; [|left; naive_solver].
  destruct H as [Hv ->]. unfold create_post.
  destruct (isBackupSnapshotRestore req) eqn:Eb.
  { eapply wp_mono; [by apply buildHostVolumeRemoteRestore_spec|]. by right. }
  eapply wp_bind_use; [apply buildHostPVC_spec| |]; [|by intros tr w [_ []]].
  intros tr [p|e] [Hw Hm]; cbn; rewrite ?app_nil_r.
  2: { right. split; [done|]. left. eauto. }
  intros [p'|e]; cbn.
  2: { right. split; [done|]. right. exists p. split; [eapply manifest_mono; [|exact Hm]; auto with datatypes|].
       left. exists e. split_and!; [auto with csi|by writes_simpl|done]. }
  assert (Hm' : forall t, manifest cs req (tr ++ ev (PvcCreate p) (Ok p') :: t) p).
  { intros t. eapply manifest_mono; [|exact Hm]. auto with datatypes. }
  eapply wp_bind_use; [apply isLHRWXVolume_spec| |]; cbn.
  2: { intros tr2 w [Hw2 Ho]. right. split; [done|]. right. exists p. split; [done|].
       right. by exists p', tr, tr2. }
  intros tr2 rwx [Hw2 Hrwx]. destruct rwx; [|cbn].
  - eapply wp_bind_use; [apply prepareRWXVolume_spec| |]; [|by intros tr3 w []].
    assert (Hr : forall t, rwx_claim (tr2 ++ t) p').
    { intros t. eapply rwx_claim_mono; [|exact Hrwx]. auto with datatypes. }
    intros tr3 [u|e] Ho; cbn; rewrite ?app_nil_r;
      right; (split; [done|]); right; exists p; (split; [done|]); right; exists p', tr, (tr2 ++ tr3).
    + split_and!; try done. right. split; [done|]. by apply nfs_made_after.
    + destruct Ho as [Hc [Hw3|(c & (pvc & Hg & ->) & Hw3)]]; split_and!; try done;
        [left; by writes_simpl|right]. eexists. split; [exists pvc; auto with csi|by writes_simpl].
  - right. split; [done|]. right. exists p. rewrite app_nil_r. split; [done|]. right.
    exists p', tr, tr2. split_and!; try done. by left.
Qed.

(** ** ControllerExpandVolume *)

(** How a run of ControllerExpandVolume ends *)
Definition expand_post (cs : ControllerServer) (req : ControllerExpandVolumeRequest)
    (tr : trace reply) (o : outcome (result ControllerExpandVolumeResponse)) : Prop :=
  (writes tr = [] /\ forall r, o <> Returned (Ok r))
  \/ exists pvc size,
     In (ev (PvcGet (namespace cs) (ce_VolumeId req)) (Ok pvc)) tr
     /\ ce_RequiredBytes req = Some size
     /\ Storage (Requests (pvc_Spec pvc)) <= size
     /\ writes tr = [PvcUpdate (set_request size pvc)]
     /\ Storage (Requests (pvc_Spec (set_request size pvc))) = size
     /\ forall r, o = Returned (Ok r) ->
        exp_CapacityBytes r = size
        /\ exists vol, In (ev (PvcGet (namespace cs) (ce_VolumeId req)) (Ok vol)) tr
             /\ size <= Storage (pvc_Capacity vol).

Lemma Storage_set_request size pvc :
  Requests (pvc_Spec pvc) <> None ->
  Storage (Requests (pvc_Spec (set_request size pvc))) = size.
Proof.
  unfold set_request, Storage. simpl. destruct (Requests (pvc_Spec pvc)); [|done].
  by rewrite lookup_insert_eq.
Qed.

Lemma isVolumeInUse_ro cs id : read_only (isVolumeInUse cs id).
Proof. split; [done|]. intros [?|?]; simpl; done. Qed.

Lemma validateOnlineExpansion_ro cs pvc : read_only (validateOnlineExpansion cs pvc).
Proof.
  apply read_only_bind; [apply isVolumeInUse_ro|]. intros [b|e]; [|done].
  case_match; [done|]. split; [done|]. intros [?|?]; simpl; done.
Qed.

Lemma ControllerExpandVolume_spec cs req :
  wp (ControllerExpandVolume cs req) (expand_post cs req).
Proof.
  assert (Hleaf : forall tr e, writes tr = [] ->
            expand_post cs req tr (Returned (Err e))) by (intros; left; auto).
  unfold ControllerExpandVolume.
  case_match; [|by apply Hleaf]. case_match; [by apply Hleaf|].
  cbn -[validateOnlineExpansion waitForPVCState isVolumeInUse expanded].
  intros [pvc|e]; cbn -[validateOnlineExpansion waitForPVCState isVolumeInUse expanded];
    [|by apply Hleaf].
  case_match; cbn -[validateOnlineExpansion waitForPVCState isVolumeInUse expanded];
    [by apply Hleaf|].
  apply wp_bind_read_only; [apply validateOnlineExpansion_ro| |].
  2: { intros tr w Hw. left. split; [by writes_simpl|done]. }
  intros tr [u|e] Hw; [|cbn; apply Hleaf; by writes_simpl].
  destruct (ce_RequiredBytes req) as [size|] eqn:Er; [|cbn; apply Hleaf; by writes_simpl].
  destruct (size <? Storage (Requests (pvc_Spec pvc))) eqn:Es; bool_to_prop;
    [cbn; apply Hleaf; by writes_simpl|].
  unfold storeRequest. destruct (Requests (pvc_Spec pvc)) as [m|] eqn:Em.
  2: { cbn. left. split; [by writes_simpl|done]. }
  assert (Hnew : Storage (Requests (pvc_Spec (set_request size pvc))) = size)
    by (apply Storage_set_request; congruence).
  assert (Hpost : forall tr' o', writes tr' = [] ->
    (forall r, o' = Returned (Ok r) -> exp_CapacityBytes r = size /\
       exists vol, In (ev (PvcGet (namespace cs) (ce_VolumeId req)) (Ok vol)) tr'
         /\ size <= Storage (pvc_Capacity vol)) ->
    forall rep, expand_post cs req (ev (PvcGet (namespace cs) (ce_VolumeId req)) (Ok pvc)
      :: tr ++ ev (PvcUpdate (set_request size pvc)) rep :: tr') o').
  { intros tr' o' Hw' Ho rep. right. exists pvc, size. rewrite Em.
    split_and!; [auto with csi|done|done|by writes_simpl|done|].
    intros r Hr. destruct (Ho r Hr) as [? (vol & ? & ?)]. split; [done|].
    exists vol. auto 10 with csi. }
  cbn -[waitForPVCState isVolumeInUse expanded set_request].
  intros [p'|e]; cbn -[waitForPVCState isVolumeInUse expanded set_request];
    [|by apply Hpost].
  eapply wp_bind_use; [apply waitForPVCState_spec| |]; [|by intros tr2 w [_ []]].
  intros tr2 ok [Hw2 Hok]. destruct ok; cbn -[expanded set_request].
  2: { apply Hpost; [by writes_simpl|done]. }
  intros [pods|e]; cbn -[expanded set_request]; apply Hpost; [by writes_simpl| |by writes_simpl|done].
  intros r [= <-]. split; [done|]. destruct Hok as (vol & Hin & Hex).
  exists vol. split; [auto with csi|]. unfold expanded in Hex. by bool_to_prop.
Qed.
