(* ===== verification/VolumesThm.v ===== *)
(** * Theorems on the volume life cycle

    What CreateVolume, DeleteVolume and ControllerExpandVolume guarantee: over
    every sequence of replies ([all_runs]), and against any server that
    follows the laws of [VolumeLaws], under [VolumeIsolation]. *)

From S2P Require Import Prelude Go Prog Kube Csi Api Store Utils CsiUtil Controller Volumes VolumesSpec Samples.

(** ** Size rounding *)

(** C35: RoundUpSize rounds up exactly where it can.  For every positive size
    whose rounding fits in an int64 it returns the least multiple of 2 MiB
    that is at least the size, and does nothing to such a multiple; above
    that bound the int64 addition wraps around, and the result is the most
    negative int64 whatever the size; a size that is not positive becomes
    2 MiB. *)
Theorem RoundUpSize_exact size :
  in_int64 size ->
  (0 < size <= maxRoundable ->
     (SizeAlignment | RoundUpSize size) /\ size <= RoundUpSize size
     /\ (forall m, (SizeAlignment | m) -> size <= m -> RoundUpSize size <= m)
     /\ RoundUpSize (RoundUpSize size) = RoundUpSize size)
  /\ (maxRoundable < size -> RoundUpSize size = - 2 ^ 63)
  /\ (size <= 0 -> RoundUpSize size = SizeAlignment).
Proof.
  intros Hin. split_and!; [apply RoundUpSize_least| |].
  - intros H. apply RoundUpSize_overflow. unfold in_int64 in Hin. lia.
  - intros H. unfold RoundUpSize. by rewrite (proj2 (Z.leb_le size 0) H).
Qed.

Lemma RoundUpSize_exact_witness :
  RoundUpSize 10485761 = 12582912 /\ RoundUpSize (RoundUpSize 10485761) = RoundUpSize 10485761
  /\ RoundUpSize (2 ^ 63 - 1) = - 2 ^ 63.
Proof.
  split; [reflexivity|]. split.
  - apply (RoundUpSize_exact 10485761); [unfold in_int64; lia|unfold maxRoundable, SizeAlignment; lia].
  - apply (RoundUpSize_exact (2 ^ 63 - 1)); [unfold in_int64; lia|unfold maxRoundable, SizeAlignment; lia].
Defined.

(** ** CreateVolume *)

(** C24: CreateVolume validates before it acts: on a request that is not
    well-formed it makes no API call and answers InvalidArgument (it panics
    only when a capability has no access mode); a run that makes a call or
    succeeds belongs to a well-formed request. *)
Theorem CreateVolume_validates cs req :
  all_runs (CreateVolume cs req) (fun tr o =>
    (~ valid_create cs req ->
      tr = [] /\
      match o with
      | Returned (Ok _) => False
      | Returned (Err e) => status_Code e = InvalidArgument
      | Panicked _ => lacks_mode req
      end)
    /\ (tr <> [] -> valid_create cs req)
    /\ (forall v, o = Returned (Ok v) -> valid_create cs req)).
Proof.
  apply wp_iff. eapply wp_mono; [apply CreateVolume_spec|].
  intros tr o [(Hv & -> & Ho)|[Hv _]]; split_and!; try done.
  by intros v ->.
Qed.

(** C8: every PVC CreateVolume submits is the one the request asks for, in the
    namespace of the driver and under the requested name.  Without a content
    source its size is RoundUpSize of the effective size (the requested one,
    at least 10 MiB), that is, as long as the rounding fits in an int64
    (effectiveSize <= maxRoundable), the multiple of 2 MiB at or less than
    2 MiB above it; its storage class is the one the parameters (else the
    configuration) name, and a class named by the parameters, unlike the
    configured one, was found on the host or may not be read there.  With a
    snapshot as source its size is exactly the effective size, not rounded,
    and class and volume mode are those in the labels of the snapshot. *)
Theorem CreateVolume_manifest cs req :
  all_runs (CreateVolume cs req) (fun tr _ => forall p,
    In (PvcCreate p) (calls tr) ->
    valid_create cs req
    /\ key_of p = (namespace cs, cv_Name req)
    /\ match cv_VolumeContentSource req with
       | None => Storage (Requests (pvc_Spec p)) = RoundUpSize (effectiveSize req)
           /\ (effectiveSize req <= maxRoundable ->
                 (SizeAlignment | Storage (Requests (pvc_Spec p)))
                 /\ effectiveSize req <= Storage (Requests (pvc_Spec p))
                      < effectiveSize req + SizeAlignment)
           /\ StorageClassName (pvc_Spec p) = requestedClass cs (effectiveParameters req)
           /\ forall sc, map_lookup (effectiveParameters req) paramHostSC = Some sc ->
                class_checked tr sc
       | Some vcs => exists id, GetSnapshot vcs = Some id
           /\ Storage (Requests (pvc_Spec p)) = effectiveSize req
           /\ snap_manifest cs (cv_Name req) id (effectiveSize req) tr p
       end).
Proof.
  apply wp_iff. eapply wp_mono; [apply CreateVolume_spec|].
  intros tr o Hpost p Hin%In_writes_mutating; [|done].
  assert (Heff : 0 < effectiveSize req).
  { unfold effectiveSize, MinimalVolumeSize. lia. }
  destruct Hpost as [(_ & -> & _)|[Hv Hpost]]; [inv_In Hin|]. split; [done|].
  destruct (isBackupSnapshotRestore req).
  { destruct Hpost as (ns & name & _ & [Hw|(vrb & e & _ & _ & _ & Hw)] & _); rewrite Hw in Hin; inv_In Hin. }
  destruct Hpost as [[Hw _]|(p0 & Hm & Hc)]; [rewrite Hw in Hin; inv_In Hin|].
  destruct (created_post_writes _ _ _ _ _ _ Hc Hin) as [[= ->]|[n ?]]; [|done].
  unfold manifest in Hm. destruct (cv_VolumeContentSource req) as [vcs|].
  - destruct Hm as (id & Hid & Hs).
    pose proof Hs as (? & ? & ? & _ & _ & _ & _ & Hk & Hst & _). by eauto.
  - destruct Hm as [(Hk & Hst & Hsc & _) Hcl]. split_and!; try done.
    intros Hsize. destruct (RoundUpSize_bounds (effectiveSize req)) as [Hb Hd]; [lia|].
    rewrite Hst. by split; [|lia].
Qed.

Lemma CreateVolume_manifest_witness :
  let run := exec mem_serve (CreateVolume sample_cs (sample_create "new1" None)) sample_cluster in
  exists p, In (PvcCreate p) (calls run.2)
    /\ 10485761 <= Storage (Requests (pvc_Spec p)) < 10485761 + SizeAlignment
    /\ StorageClassName (pvc_Spec p) = Some "harvester-longhorn".
Proof.
  cbv zeta. eexists. split; [right; left; vm_compute; reflexivity|].
  destruct (exec_post mem_serve (CreateVolume sample_cs (sample_create "new1" None))
    sample_cluster _ (CreateVolume_manifest sample_cs (sample_create "new1" None)) _
    ltac:(right; left; vm_compute; reflexivity)) as (_ & _ & _ & Hs & Hc & _).
  split; [apply Hs; by vm_compute|exact Hc].
Defined.



(** C14: a CreateVolume that restores a remote backup never creates a PVC; it
    creates at most one VolumeRemoteRestore, under the requested name, after
    none was found there, for the backup the snapshot id denotes; and it
    succeeds only after the restore object found or created, which it names
    as the volume, was read with a successful status; the capacity is the one
    recorded in the backup.  A request that is not well-formed makes no call
    and does not succeed. *)
Theorem CreateVolume_restore cs req :
  isBackupSnapshotRestore req = true ->
  all_runs (CreateVolume cs req) (fun tr o =>
    (forall p, ~ In (PvcCreate p) (calls tr))
    /\ (valid_create cs req -> restore_post cs req tr o)
    /\ (~ valid_create cs req -> tr = [] /\ forall v, o <> Returned (Ok v))).
Proof.
  intros Hb. apply wp_iff. eapply wp_mono; [apply CreateVolume_spec|].
  intros tr o [(Hv & -> & Ho)|[Hv Hpost]].
  { split_and!; [intros p Hin; inv_In Hin|done|]. intros _. split; [done|]. by intros v ->. }
  rewrite Hb in Hpost. split_and!; [|done..].
  intros p Hin%In_writes_mutating; [|done].
  destruct Hpost as (ns & name & _ & [Hw|(vrb & e & _ & _ & _ & Hw)] & _); rewrite Hw in Hin; inv_In Hin.
Qed.

Lemma sample_restore_valid :
  valid_create sample_cs (sample_create "rest1" (Some (Source_Snapshot "backup:guest/b1"))).
Proof.
  split_and!; [exists (mkCSC RPC_CREATE_DELETE_VOLUME); by split; [left|]|done| |].
  - eexists. split; [done|]. constructor; [|done]. split; [done|by left].
  - split; [done|]. by intros c [<-|[]].
Qed.

Lemma CreateVolume_restore_witness :
  let req := sample_create "rest1" (Some (Source_Snapshot "backup:guest/b1")) in
  let run := exec mem_serve (CreateVolume sample_cs req) sample_cluster in
  (exists v, run.1.1 = Returned (Ok v) /\ VolumeId v = "rest1")
  /\ (forall p, ~ In (PvcCreate p) (calls run.2))
  /\ exists vrr, In (ev (VrrGet "guest" "rest1") (Ok vrr)) run.2 /\ vrr_Success vrr = true.
Proof.
  cbv zeta. split; [eexists; split; [vm_compute; reflexivity|reflexivity]|].
  destruct (exec_post mem_serve _ sample_cluster _ (CreateVolume_restore sample_cs
    (sample_create "rest1" (Some (Source_Snapshot "backup:guest/b1"))) eq_refl)) as (Hp & Hr & _).
  split; [exact Hp|]. destruct Hr as (ns & n & _ & _ & Hok).
  { apply sample_restore_valid. }
  destruct Hok as (vrb & x & vrr & _ & _ & _ & Hin & Hs & _). exists vrr. split; [exact Hin|exact Hs].
Defined.

(** ** DeleteVolume *)

(** C6: DeleteVolume writes only what it must and in the right order: it
    deletes the restore object of the volume, or, only after that object was
    not found and the PVC was read, the network file system this PVC names
    and then the PVC; it never touches an object of another volume. *)
Theorem DeleteVolume_ordered cs id :
  all_runs (DeleteVolume cs id) (fun tr _ => delete_writes cs id tr).
Proof. apply DeleteVolume_writes. Qed.

(** C25: DeleteVolume is idempotent and complete.  On a valid request it
    reports success only when the restore object of the volume was deleted,
    or there was none and the PVC is not found or was deleted, and no call it
    depends on failed; it reports an error only when one did (an error other
    than not-found, or a failed deletion of the restore or of the network file
    system), so a volume already gone is a success; and it panics only on a
    file-system PVC without a storage class. *)
Theorem DeleteVolume_complete cs id :
  id <> "" ->
  (exists cap, In cap (Controller.caps cs) /\ csc_Rpc cap = RPC_CREATE_DELETE_VOLUME) ->
  all_runs (DeleteVolume cs id) (fun tr o =>
    match o with
    | Returned (Ok _) => delete_done cs id tr /\ existsb delete_fatal tr = false
    | Returned (Err _) => existsb delete_fatal tr = true
    | Panicked _ => existsb delete_fatal tr = false
        /\ exists pvc, In (ev (PvcGet (namespace cs) id) (Ok pvc)) tr
           /\ VolumeMode (pvc_Spec pvc) = Some PersistentVolumeFilesystem
           /\ StorageClassName (pvc_Spec pvc) = None
    end).
Proof.
  intros Hid Hcap. apply wp_iff. unfold DeleteVolume.
  destruct (Z.of_nat (String.length id) =? 0) eqn:El; [by destruct id|clear El].
  rewrite (proj2 (service_supported cs RPC_CREATE_DELETE_VOLUME ltac:(done)) Hcap).
  cbn. intros [vrr|e]; cbn.
  { intros [[]|e]; cbn; [|done]. split; [|done]. left. auto with csi. }
  destruct (errors.IsNotFound e) eqn:He; cbn; rewrite ?He; [|done].
  intros [pvc|e2]; cbn.
  2: { destruct (errors.IsNotFound e2) eqn:He2; cbn; rewrite ?He, ?He2; [|done].
       split; [|done]. right. exists e. split_and!; [auto with csi|done|left; eauto with csi]. }
  eapply wp_bind_use; [apply wp_and; [apply isLHRWXVolume_spec|apply isLHRWXVolume_not_fatal]| |]; cbn.
  2: { intros tr w [[_ [Hm Hsc]] Hf]. rewrite Hf. split; [done|]. eauto 6 with csi. }
  intros tr rwx [_ Hf].
  destruct rwx; wp_exec; bool_to_prop; rewrite existsb_app, Hf; simpl;
    repeat match goal with H : errors.IsNotFound _ = _ |- _ => rewrite ?H; revert H end; intros; try done;
    repeat match goal with u : unit |- _ => destruct u end;
    (split; [|done]); right; exists e; (split_and!; [auto with csi|done|right]);
    first [left; by auto 10 with csi|right; eexists; split; [by auto 10 with csi|done]].
Qed.

Lemma DeleteVolume_complete_witness :
  let run := exec mem_serve (DeleteVolume sample_cs "nfs1") sample_cluster in
  "nfs1" <> "" /\
  (exists cap, In cap (Controller.caps sample_cs) /\ csc_Rpc cap = RPC_CREATE_DELETE_VOLUME) /\
  run.1.1 = Returned (Ok tt) /\ delete_done sample_cs "nfs1" run.2.
Proof.
  cbv zeta. split; [done|]. split; [exists (mkCSC RPC_CREATE_DELETE_VOLUME); by split; [left|]|].
  split; [vm_compute; reflexivity|].
  refine (proj1 (exec_post mem_serve (DeleteVolume sample_cs "nfs1") sample_cluster _
    (DeleteVolume_complete sample_cs "nfs1" _ _))); [done|].
  exists (mkCSC RPC_CREATE_DELETE_VOLUME). by split; [left|].
Defined.

(** ** ControllerExpandVolume *)

(** C13: ControllerExpandVolume never shrinks a volume: the only write is one
    update of the PVC that was read, which sets its storage request to the
    requested size, not below the request it had; the call succeeds only
    after the claim was read with that capacity, and reports that size. *)
Theorem ControllerExpandVolume_grows cs req :
  all_runs (ControllerExpandVolume cs req) (expand_post cs req).
Proof. apply wp_iff, ControllerExpandVolume_spec. Qed.

(** ** Against a server that follows the laws *)
Section Server.

Context {S : Type} {step : forall c, S -> reply c -> S -> Prop} `{!VolumeLaws S step, !VolumeIsolation S step}.
Implicit Types s : S.

(** Reads keep the set of claims and the set of restores. *)
Lemma swp_read_only_doms {A} (p : P A) s :
  read_only p -> swp step p s (fun _ s' =>
    dom (pvcs s') = dom (pvcs s) /\ dom (vrrs s') = dom (vrrs s)).
Proof.
  intros Hp. eapply (swp_invariant step _ (fun s' =>
    dom (pvcs s') = dom (pvcs s) /\ dom (vrrs s') = dom (vrrs s))); [|exact Hp|done].
  intros c s1 r s2 Hc Hs [H1 H2].
  pose proof (pvc_frame c s1 r s2 Hs) as Hf1. pose proof (vrr_frame c s1 r s2 Hs) as Hf2.
  destruct c; simpl in *; try done; split; congruence.
Qed.

Lemma dom_None {T} (m m' : gmap key T) k : dom m' = dom m -> m !! k = None -> m' !! k = None.
Proof. intros Hd. rewrite <- !not_elem_of_dom. by rewrite Hd. Qed.

Lemma dom_Some {T} (m m' : gmap key T) k : dom m' = dom m -> is_Some (m !! k) -> is_Some (m' !! k).
Proof. intros Hd. rewrite <- !elem_of_dom. by rewrite Hd. Qed.

(** Deleting the PVC, the last call of DeleteVolume, leaves it gone. *)
Lemma delete_pvc_releases cs id s :
  vrrs s !! (namespace cs, id) = None ->
  swp step (let* r := send (PvcDelete (namespace cs) id) in
      match r with
      | Ok _ => Ret (Ok ())
      | Err err => if errors.IsNotFound err then Ret (Ok ()) else
          Ret (Err (StatusErr Internal
            ("Failed to delete PVC " +:+ id +:+ ": " +:+ Error err)))
      end) s (fun o s' => o = Returned (Ok tt) ->
        gone (vrrs s') (namespace cs, id) /\ gone (pvcs s') (namespace cs, id)).
Proof.
  intros Hr. cbn. intros r s5 Hs5.
  pose proof (dom_None _ _ _ (vrr_frame _ _ _ _ Hs5) Hr) as Hr5.
  apply pvc_delete in Hs5. unfold delete_reply in Hs5. simpl in *.
  destruct r as [u|e5]; cbn; [|destruct (errors.IsNotFound e5); cbn; [|done]];
    intros _; (split; [unfold gone; by rewrite Hr5|]); [done|]. unfold gone. by rewrite Hs5.
Qed.

(** The part of DeleteVolume after the restore object was not found *)
Lemma delete_claim_releases cs id s :
  vrrs s !! (namespace cs, id) = None ->
  swp step (let* r := send (PvcGet (namespace cs) id) in
      match r with
      | Err err =>
          if errors.IsNotFound err then Ret (Ok tt)
          else Ret (Err (StatusErr Internal ("Failed to get PVC " +:+ id +:+ ": " +:+ Error err)))
      | Ok resPVC =>
          let* isRWX := isLHRWXVolume resPVC in
          let? _ := (if isRWX then deleteNetworkFilesystem (VolumeName (pvc_Spec resPVC))
                     else Ret (Ok tt)) in
          let* r := send (PvcDelete (namespace cs) id) in
          match r with
          | Err err =>
              if errors.IsNotFound err then Ret (Ok tt)
              else Ret (Err (StatusErr Internal
                     ("Failed to delete PVC " +:+ id +:+ ": " +:+ Error err)))
          | Ok _ => Ret (Ok tt)
          end
      end) s (fun o s' => o = Returned (Ok tt) ->
        gone (vrrs s') (namespace cs, id) /\ gone (pvcs s') (namespace cs, id)).
Proof.
  intros Hr. cbn.
  intros [pvc|e2] s2 Hs2; cbn; pose proof (dom_None _ _ _ (vrr_frame _ _ _ _ Hs2) Hr) as Hr2.
  2: { destruct (errors.IsNotFound e2) eqn:He2; cbn; [|done]. intros _.
       apply pvc_get in Hs2 as Hp. specialize (Hp He2).
       pose proof (dom_None _ _ _ (pvc_frame _ _ _ _ Hs2) Hp) as Hp2.
       unfold gone. by rewrite Hr2, Hp2. }
  eapply swp_bind_use; [apply swp_read_only_doms, isLHRWXVolume_ro| |done]. simpl.
  intros rwx s3 [_ Hf3]. apply (dom_None _ _ _ Hf3) in Hr2 as Hr3.
  eapply (swp_bind_use step _ _ s3 (fun _ s' => vrrs s' !! (namespace cs, id) = None)); [| |done].
  { destruct rwx; [|done]. cbn. intros r s4 Hs4.
    pose proof (dom_None _ _ _ (vrr_frame _ _ _ _ Hs4) Hr3) as Hr4.
    destruct r; cbn; [|by case_match]. intros r s5 Hs5.
    pose proof (dom_None _ _ _ (vrr_frame _ _ _ _ Hs5) Hr4). by destruct r. }
  intros [u|e] s4 Hr4; [|done]. by apply delete_pvc_releases.
Qed.

(** The part of DeleteVolume that looks for a restore object *)
Lemma delete_restore_releases cs id s :
  swp (traced step) (deleteVolumeRemoteRestoreIfExists cs id) (s, [])
    (fun o (s' : S * trace reply) =>
      match o with
      | Returned (Ok true) => gone (vrrs s'.1) (namespace cs, id)
          /\ is_Some (vrrs s !! (namespace cs, id))
          /\ In (ev (VrrDelete (namespace cs) id) (Ok tt)) s'.2
      | Returned (Ok false) => vrrs s'.1 !! (namespace cs, id) = None
      | _ => True
      end).
Proof.
  cbn. intros [vrr|e] [s1 t1] [Hs1 Ht1]; cbn in *; apply vrr_get in Hs1 as Hr; simpl in Hr.
  - intros [[]|e] [s2 t2] [Hs2 Ht2]; cbn in *; [|done].
    apply vrr_delete in Hs2. subst. split_and!; [done|eauto|auto with csi].
  - destruct (errors.IsNotFound e); cbn; [|done].
    exact (dom_None _ _ _ (vrr_frame _ _ _ _ Hs1) (Hr eq_refl)).
Qed.

(** C11: when DeleteVolume succeeds the volume is released, as long as no
    other client adds or removes claims and restores meanwhile.  The restore
    object of that name is gone, which means absent or marked for deletion;
    and either there was such an object and this call deleted it (the host
    accepted its VrrDelete; the PVC then goes by cascade), or the PVC is gone
    in the same sense. *)
Theorem DeleteVolume_releases cs id s :
  swp (traced step) (DeleteVolume cs id) (s, []) (fun o (s' : S * trace reply) =>
    o = Returned (Ok tt) ->
    gone (vrrs s'.1) (namespace cs, id)
    /\ (is_Some (vrrs s !! (namespace cs, id))
          /\ In (ev (VrrDelete (namespace cs) id) (Ok tt)) s'.2
        \/ gone (pvcs s'.1) (namespace cs, id))).
Proof.
  unfold DeleteVolume. case_match; [done|]. case_match; [|done].
  eapply swp_bind_use; [apply (delete_restore_releases cs id s)| |done].
  intros [[]|e] [s1 t1] H1; [| |done]; cbn [fst snd] in *.
  { intros _. destruct H1 as (? & ? & ?). auto. }
  eapply swp_mono.
  - apply (swp_traced step _ s1 t1 (fun _ _ => True) (fun o s' => o = Returned (Ok tt) ->
      gone (vrrs s') (namespace cs, id) /\ gone (pvcs s') (namespace cs, id))).
    { by apply wp_iff. }
    by apply delete_claim_releases.
  - naive_solver.
Qed.

(** C39: CreateVolume does not adopt an existing claim: once a claim of the
    requested name is on the host, and no other client removes it meanwhile,
    a CreateVolume (that is not a backup restore) never succeeds. *)
Theorem CreateVolume_exists cs req s :
  isBackupSnapshotRestore req = false ->
  is_Some (pvcs s !! (namespace cs, cv_Name req)) ->
  swp step (CreateVolume cs req) s (fun o _ => forall v, o <> Returned (Ok v)).
Proof.
  intros Hb Hex. unfold CreateVolume. rewrite Hb.
  eapply swp_bind_use.
  { eapply swp_wp; [apply validateCreateVolReq_spec|].
    apply (swp_read_only_doms (validateCreateVolReq cs req)). apply validateCreateVolReq_ro. }
  2: done.
  intros [v|e] s1 [[tr [-> Hv]] [Hd _]]; [|done]. destruct Hv as [_ ->].
  eapply swp_bind_use.
  { eapply swp_wp; [apply buildHostPVC_spec|]. apply swp_read_only_doms, buildHostPVC_ro. }
  2: by intros w s2 [[? [_ []]] _].
  intros [p|e] s2 [[tr2 [_ Hm]] [Hd2 _]]; [|done]. cbn.
  intros r s3 Hs3. apply pvc_create in Hs3 as [e ->]; [done|].
  rewrite (manifest_key _ _ _ _ Hm).
  eapply dom_Some; [|exact Hex]. congruence.
Qed.

End Server.

Lemma DeleteVolume_releases_witness :
  let run := exec mem_serve (DeleteVolume sample_cs "vol1") sample_cluster in
  run.1.1 = Returned (Ok tt) /\ gone (cl_pvcs run.1.2) ("guest", "vol1").
Proof.
  cbv zeta. split; [vm_compute; reflexivity|].
  destruct (exec_tpost mem_serve (DeleteVolume sample_cs "vol1") sample_cluster _
    (DeleteVolume_releases sample_cs "vol1" sample_cluster) ltac:(vm_compute; reflexivity))
    as [_ [[[x H] _]|H]]; [vm_compute in H; discriminate H|exact H].
Defined.

Lemma CreateVolume_exists_witness :
  let run := exec mem_serve (CreateVolume sample_cs (sample_create "vol1" None)) sample_cluster in
  is_Some (cl_pvcs sample_cluster !! ("guest", "vol1")) /\ forall v, run.1.1 <> Returned (Ok v).
Proof.
  cbv zeta. split; [by vm_compute; eexists|].
  apply (exec_spost mem_serve (CreateVolume sample_cs (sample_create "vol1" None)) sample_cluster _
    (CreateVolume_exists sample_cs (sample_create "vol1" None) sample_cluster eq_refl
       ltac:(by vm_compute; eexists))).
Defined.
