(* ===== verification/Attach.v ===== *)
(** * Attachment of volumes: publish and unpublish

    ControllerPublishVolume and ControllerUnpublishVolume attach a block
    volume to the virtual machine that is the guest's node (declaratively,
    by a JSON patch of the machine, or through the legacy subresource) and
    enable or disable the network file system of a Longhorn RWX volume. *)

From S2P Require Import Prelude Go Prog Kube Csi Api Utils CsiUtil Controller Volumes.

(** ** Polling (k8s.io/apimachinery/pkg/util/wait)

    The condition is evaluated once per tick until it holds, fails, or the
    context expires; with [immediate] also once before the first tick. *)

Definition ctxDeadlineExceeded : error := OtherErr "context deadline exceeded".

Fixpoint loopCondition (condition : Fallible bool) (rounds : nat) : Fallible unit :=
  match rounds with
  | O => Ret (Err ctxDeadlineExceeded)
  | S rounds =>
      let? ok := condition in
      if ok : bool then Ret (Ok tt) else loopCondition condition rounds
  end.

Definition PollUntilContextTimeout (interval timeout : Z) (immediate : bool)
    (condition : Fallible bool) : Fallible unit :=
  let? ok := (if immediate then condition else Ret (Ok false)) in
  if ok : bool then Ret (Ok tt)
  else
    let* rounds := send (PollRounds interval timeout) in
    loopCondition condition rounds.

(** ** Where a volume is attached *)

Definition hasVolume (volumeID : string) (t : VMTemplateSpec) : bool :=
  existsb (fun v => (vol_Name v =? volumeID)%string) (Volumes t).

Definition hasDisk (volumeID : string) (t : VMTemplateSpec) : bool :=
  existsb (fun d => (disk_Name d =? volumeID)%string) (Disks t).

Definition hasHotplug (volumeID : string) (vmi : VirtualMachineInstance) : bool :=
  existsb (fun vs => (vs_Name vs =? volumeID)%string && vs_HotplugVolume vs) (vmi_VolumeStatus vmi).

Definition checkVolumeExistsInVM (cs : ControllerServer) (nodeID volumeID : string)
    : Fallible bool :=
  let* r := send (VmGet (namespace cs) nodeID) in
  match r with
  | Err err =>
      if errors.IsNotFound err then Ret (Ok false)
      else Ret (Err (WrapErr ("failed to get VM " +:+ nodeID +:+ ": " +:+ Error err) err))
  | Ok vm =>
      let* template := deref (vm_Template vm) in
      Ret (Ok (hasVolume volumeID template))
  end.

Definition checkVolumeExistsInVMI (cs : ControllerServer) (nodeID volumeID : string)
    : Fallible bool :=
  let* r := send (VmiGet (namespace cs) nodeID) in
  match r with
  | Err err =>
      if errors.IsNotFound err then Ret (Ok false)
      else Ret (Err (WrapErr ("failed to get VMI " +:+ nodeID +:+ ": " +:+ Error err) err))
  | Ok vmi => Ret (Ok (hasHotplug volumeID vmi))
  end.

Definition isVolAttached (cs : ControllerServer) (nodeID volumeID : string) : Fallible bool :=
  let? volInVM := checkVolumeExistsInVM cs nodeID volumeID in
  let? volInVMI := checkVolumeExistsInVMI cs nodeID volumeID in
  Ret (Ok (volInVM && volInVMI)).

(** ** Hot plugging *)

(** The volume and the disk the driver adds to a machine *)
Definition hotplugVolume (volumeID : string) : VMVolume :=
  {| vol_Name := volumeID;
     vol_PersistentVolumeClaim := Some {| ClaimName := volumeID; Hotpluggable := true |};
     vol_source := "" |}.

Definition hotplugDisk (volumeID : string) : VMDisk :=
  {| disk_Name := volumeID; disk_Bus := Some "scsi"; disk_device := "" |}.

(** The operations of the patch that adds a volume *)
Definition addOps (resourceVersion volumeID : string) (volumeExists diskExists : bool)
    : list patchOp :=
  [mkPatchOp "test" "/metadata/resourceVersion" (PVString resourceVersion)]
  ++ (if negb volumeExists
      then [mkPatchOp "add" "/spec/template/spec/volumes/-" (PVVolume (hotplugVolume volumeID))]
      else [])
  ++ (if negb diskExists
      then [mkPatchOp "add" "/spec/template/spec/domain/devices/disks/-"
              (PVDisk (hotplugDisk volumeID))]
      else []).

Definition addVolumeToVM (cs : ControllerServer) (nodeID volumeID : string) : Fallible unit :=
  let* r := send (VmGet (namespace cs) nodeID) in
  match r with
  | Err err => Ret (Err (WrapErr ("failed to get VM " +:+ nodeID +:+ ": " +:+ Error err) err))
  | Ok vm =>
      let* template := deref (vm_Template vm) in
      let volumeExists := hasVolume volumeID template in
      let diskExists := hasDisk volumeID template in
      if volumeExists && diskExists then Ret (Ok tt)
      else
        let ops := addOps (ResourceVersion (meta vm)) volumeID volumeExists diskExists in
        let* r := send (VmPatch (namespace cs) nodeID ops) in
        match r with
        | Err err => Ret (Err (WrapErr ("failed to patch VM " +:+ nodeID +:+ ": " +:+ Error err) err))
        | Ok _ => Ret (Ok tt)
        end
  end.

(** The operations of the patch that removes a volume *)
Definition removeOps (resourceVersion volumeID : string) (t : VMTemplateSpec) : list patchOp :=
  let volumes := List.filter (fun v => negb (vol_Name v =? volumeID)%string) (Volumes t) in
  let disks := List.filter (fun d => negb (disk_Name d =? volumeID)%string) (Disks t) in
  [ mkPatchOp "test" "/metadata/resourceVersion" (PVString resourceVersion);
    mkPatchOp "replace" "/spec/template/spec/volumes" (PVVolumes volumes);
    mkPatchOp "replace" "/spec/template/spec/domain/devices/disks" (PVDisks disks) ].

Definition removeVolumeFromVM (cs : ControllerServer) (nodeID volumeID : string) : Fallible unit :=
  let* r := send (VmGet (namespace cs) nodeID) in
  match r with
  | Err err => Ret (Err (WrapErr ("failed to get VM " +:+ nodeID +:+ ": " +:+ Error err) err))
  | Ok vm =>
      let* template := deref (vm_Template vm) in
      let ops := removeOps (ResourceVersion (meta vm)) volumeID template in
      let* r := send (VmPatch (namespace cs) nodeID ops) in
      match r with
      | Err err => Ret (Err (WrapErr ("failed to patch VM " +:+ nodeID +:+ ": " +:+ Error err) err))
      | Ok _ => Ret (Ok tt)
      end
  end.

Definition addVolumeToVMLegacy (cs : ControllerServer) (nodeID volumeID : string) : Fallible unit :=
  send (VmAddVolume (namespace cs) nodeID
          {| avo_Name := volumeID; avo_Bus := "scsi"; avo_ClaimName := volumeID |}).

Definition hotplugVolumeToVM (cs : ControllerServer) (nodeID volumeID : string) : Fallible unit :=
  if useDeclarativeHotplug cs then addVolumeToVM cs nodeID volumeID
  else addVolumeToVMLegacy cs nodeID volumeID.

Definition unplugVolumeFromVMLegacy (cs : ControllerServer) (nodeID volumeID : string)
    (volumeInVM volumeInVMI : bool) : Fallible bool :=
  if volumeInVMI then
    let* r := send (VmiRemoveVolume (namespace cs) nodeID volumeID) in
    match r with
    | Err err => Ret (Err (WrapErr ("failed to remove volume " +:+ volumeID +:+ " from VMI "
                                    +:+ nodeID +:+ ": " +:+ Error err) err))
    | Ok _ => Ret (Ok true)
    end
  else if volumeInVM then
    let* r := send (VmRemoveVolume (namespace cs) nodeID volumeID) in
    match r with
    | Err err => Ret (Err (WrapErr ("failed to remove volume " +:+ volumeID +:+ " from VM "
                                    +:+ nodeID +:+ ": " +:+ Error err) err))
    | Ok _ => Ret (Ok true)
    end
  else Ret (Ok false).

Definition unplugVolumeFromVM (cs : ControllerServer) (nodeID volumeID : string)
    (volumeInVM volumeInVMI : bool) : Fallible bool :=
  if useDeclarativeHotplug cs then
    let* r := removeVolumeFromVM cs nodeID volumeID in
    match r with
    | Err err => Ret (Err (WrapErr ("failed to remove volume " +:+ volumeID +:+ " from VM "
                                    +:+ nodeID +:+ ": " +:+ Error err) err))
    | Ok _ => Ret (Ok true)
    end
  else unplugVolumeFromVMLegacy cs nodeID volumeID volumeInVM volumeInVMI.

(** Whether a removal was requested; false: the volume is nowhere. *)
Definition removeVolumeFromHostVM (cs : ControllerServer) (nodeID volumeID : string)
    : Fallible bool :=
  let? volumeInVMI := checkVolumeExistsInVMI cs nodeID volumeID in
  let? volumeInVM := checkVolumeExistsInVM cs nodeID volumeID in
  if negb volumeInVM && negb volumeInVMI then Ret (Ok false)
  else
    let? _ := unplugVolumeFromVM cs nodeID volumeID volumeInVM volumeInVMI in
    Ret (Ok true).

(** ** Waiting for attachments *)

(** An error of the check is logged and counts as not attached. *)
Definition volumeAttachedCheck (cs : ControllerServer) (nodeID volumeID : string) : Fallible bool :=
  let* attached := isVolAttached cs nodeID volumeID in
  match attached with
  | Err _ => Ret (Ok false)
  | Ok attached => Ret (Ok attached)
  end.

Definition waitForVolumeAttached (cs : ControllerServer) (nodeID volumeID : string)
    : Fallible unit :=
  let* r := PollUntilContextTimeout attachCheckInterval attachCheckTimeout false
              (volumeAttachedCheck cs nodeID volumeID) in
  match r with
  | Err err => Ret (Err (StatusErr Aborted ("Volume " +:+ volumeID
      +:+ " not yet attached to VM/VMI " +:+ nodeID +:+ ", err: " +:+ Error err)))
  | Ok _ => Ret (Ok tt)
  end.

(** The loop over the host attachments dereferences each source. *)
Fixpoint checkHostVA_loop (hostVolumeID targetHostNodeID : string) (vas : list VolumeAttachment)
    : Fallible bool :=
  match vas with
  | [] => Ret (Ok true)
  | va :: rest =>
      let* pvName := deref (va_PersistentVolumeName va) in
      if (pvName =? hostVolumeID)%string && negb (va_NodeName va =? targetHostNodeID)%string
      then Ret (Ok false)
      else checkHostVA_loop hostVolumeID targetHostNodeID rest
  end.

Definition checkHostVA (cs : ControllerServer) (pvc : PersistentVolumeClaim) (nodeID : string)
    (hostVAs : list VolumeAttachment) : Fallible bool :=
  let* r := send (VmiGet (namespace cs) nodeID) in
  match r with
  | Err err => Ret (Err (StatusErr Internal ("Failed to get VMI " +:+ nodeID +:+ ": " +:+ Error err)))
  | Ok vmi => checkHostVA_loop (VolumeName (pvc_Spec pvc)) (vmi_NodeName vmi) hostVAs
  end.

(** The guest attachments that are not attached are skipped before their
    source is dereferenced. *)
Fixpoint checkGuestVA_loop (guestVolumeID nodeID : string) (vas : list VolumeAttachment)
    : Fallible bool :=
  match vas with
  | [] => Ret (Ok true)
  | va :: rest =>
      if negb (va_Attached va) then checkGuestVA_loop guestVolumeID nodeID rest
      else
        let* pvName := deref (va_PersistentVolumeName va) in
        if (pvName =? guestVolumeID)%string && negb (va_NodeName va =? nodeID)%string
        then Ret (Ok false)
        else checkGuestVA_loop guestVolumeID nodeID rest
  end.

Definition checkGuestVA (pvc : PersistentVolumeClaim) (nodeID : string) : Fallible bool :=
  let* r := send GuestVaList in
  match r with
  | Err err => Ret (Err (StatusErr Internal
      ("Failed to list guest VolumeAttachments: " +:+ Error err)))
  | Ok guestVAs => checkGuestVA_loop (name_of pvc) nodeID guestVAs
  end.

Definition waitForVASettled (cs : ControllerServer) (pvc : PersistentVolumeClaim)
    (nodeID : string) : Fallible bool :=
  let* r := send HostVaList in
  match r with
  | Err _ => Ret (Ok true)
  | Ok hostVAs =>
      let isFilesystem := match VolumeMode (pvc_Spec pvc) with
                          | None => true
                          | Some m => (m =? PersistentVolumeFilesystem)%string
                          end in
      if isFilesystem then Ret (Ok true)
      else
        let? settled := checkHostVA cs pvc nodeID hostVAs in
        if negb settled then Ret (Ok settled) else checkGuestVA pvc nodeID
  end.

(** ** RWX volumes *)

(** The second half of publishRWXVolume: request the enabled state unless it
    is requested or being reached. *)
Definition enableNetworkFilesystem (pv : string) (networkfs : NetworkFilesystem) : Fallible unit :=
  if (DesiredState networkfs =? NetworkFSStateEnabled)%string
     || (nfs_State networkfs =? NetworkFSStateEnabling)%string then Ret (Ok tt)
  else
    let* r := send (NfsUpdate HarvesterNS (set_DesiredState NetworkFSStateEnabled networkfs)) in
    match r with
    | Err err => Ret (Err (StatusErr Internal
        ("Failed to enable NetworkFileSystem " +:+ pv +:+ ": " +:+ Error err)))
    | Ok _ => Ret (Ok tt)
    end.

(** When the network file system is not found and the PVC is being deleted
    the code goes on with the zero object the client returned. *)
Definition publishRWXVolume (pvc : PersistentVolumeClaim) : Fallible unit :=
  let pv := VolumeName (pvc_Spec pvc) in
  let* r := send (NfsGet HarvesterNS pv) in
  match r with
  | Err err =>
      if negb (errors.IsNotFound err) then
        Ret (Err (StatusErr Internal
          ("Failed to get NetworkFileSystem " +:+ pv +:+ ": " +:+ Error err)))
      else if isNil (DeletionTimestamp (meta pvc)) then
        let* r := createNetworkFilesystem pv in
        match r with
        | Err err => Ret (Err (StatusErr Internal
            ("Failed to create NetworkFileSystem for volume " +:+ name_of pvc
             +:+ ": " +:+ Error err)))
        | Ok _ => Ret (Err (StatusErr Internal
            ("NetworkFileSystem " +:+ pv +:+ " is being recreated, retry in next reconciliation")))
        end
      else enableNetworkFilesystem pv emptyNFS
  | Ok networkfs => enableNetworkFilesystem pv networkfs
  end.

(** The error is returned before it is tested for not-found, so that test
    never succeeds. *)
Definition unpublishRWXVolume (pvc : PersistentVolumeClaim) : Fallible unit :=
  let pv := VolumeName (pvc_Spec pvc) in
  let* r := send (NfsGet HarvesterNS pv) in
  match r with
  | Err err => Ret (Err (StatusErr Internal
      ("Failed to get NetworkFileSystem " +:+ pv +:+ ": " +:+ Error err)))
  | Ok networkfs =>
      if (DesiredState networkfs =? NetworkFSStateDisabled)%string
         || (nfs_State networkfs =? NetworkFSStateDisabling)%string then Ret (Ok tt)
      else
        let* r := send (GuestPvGet (name_of pvc)) in
        match r with
        | Err err => Ret (Err (StatusErr Internal
            ("Failed to get local PV " +:+ pv +:+ ": " +:+ Error err)))
        | Ok localPV =>
            let* claim := deref (pv_ClaimRef localPV) in
            let '(localPVCNS, localPVCName) := claim in
            let index := localPVCNS +:+ "-" +:+ localPVCName in
            let* pods := send (GuestPodsByIndex IndexPodByPVC index) in
            let inUse := match pods with
                         | Ok l => 0 <? Z.of_nat (length l)
                         | Err _ => false
                         end in
            if inUse then Ret (Ok tt)
            else
              let* r := send (NfsUpdate HarvesterNS
                                (set_DesiredState NetworkFSStateDisabled networkfs)) in
              match r with
              | Err err => Ret (Err (StatusErr Internal
                  ("Failed to disable NetworkFileSystem " +:+ pv +:+ ": " +:+ Error err)))
              | Ok _ => Ret (Ok tt)
              end
        end
  end.

(** ** The two RPCs *)

(** The steps of ControllerPublishVolume after the PVC was read, for a
    volume that is not RWX *)
Definition publishBlockVolume (cs : ControllerServer) (pvc : PersistentVolumeClaim)
    (nodeID volumeID : string) : Fallible unit :=
  let* r := PollUntilContextTimeout genericTickTime genericTimeout true
              (waitForVASettled cs pvc nodeID) in
  match r with
  | Err err => Ret (Err (StatusErr DeadlineExceeded ("Failed to wait the volume "
      +:+ volumeID +:+ " status to settled, err: " +:+ Error err)))
  | Ok _ =>
      let* r := isVolAttached cs nodeID volumeID in
      match r with
      | Err err => Ret (Err (StatusErr Internal ("Failed to check volume " +:+ volumeID
          +:+ " in VM/VMI " +:+ nodeID +:+ ": " +:+ Error err)))
      | Ok true => Ret (Ok tt)
      | Ok false =>
          let* r := hotplugVolumeToVM cs nodeID volumeID in
          match r with
          | Err err => Ret (Err (StatusErr Internal
              ("Failed to add volume to node " +:+ nodeID +:+ ": " +:+ Error err)))
          | Ok _ => waitForVolumeAttached cs nodeID volumeID
          end
      end
  end.

Definition ControllerPublishVolume (cs : ControllerServer) (req : ControllerPublishVolumeRequest)
    : Fallible unit :=
  let volumeID := cp_VolumeId req in
  let nodeID := cp_NodeId req in
  if (nodeID =? "")%string then
    Ret (Err (StatusErr InvalidArgument "missing node id in request"))
  else
    match cp_VolumeCapability req with
    | None => Ret (Err (StatusErr InvalidArgument "Missing volume capability in request"))
    | Some volumeCapability =>
        let* r := send (PvcGet (namespace cs) volumeID) in
        match r with
        | Err err => Ret (Err (StatusErr Internal
            ("Failed to get PVC " +:+ volumeID +:+ ": " +:+ Error err)))
        | Ok pvc =>
            if negb (pvc_Phase pvc =? ClaimBound)%string then
              Ret (Err (StatusErr Aborted ("The PVC " +:+ volumeID +:+ " in phase "
                +:+ pvc_Phase pvc +:+ " is not ready to be attached")))
            else if Mode_eqb (GetMode volumeCapability) MULTI_NODE_MULTI_WRITER then
              let* isRWX := isLHRWXVolume pvc in
              if isRWX : bool then publishRWXVolume pvc else Ret (Ok tt)
            else publishBlockVolume cs pvc nodeID volumeID
        end
    end.

Definition ControllerUnpublishVolume (cs : ControllerServer)
    (req : ControllerUnpublishVolumeRequest) : Fallible unit :=
  let volumeID := cu_VolumeId req in
  let nodeID := cu_NodeId req in
  if (volumeID =? "")%string then
    Ret (Err (StatusErr InvalidArgument "Missing volume ID in request"))
  else
    let* r := send (PvcGet (namespace cs) volumeID) in
    match r with
    | Err err => Ret (Err (StatusErr Internal
        ("Failed to get PVC " +:+ volumeID +:+ ": " +:+ Error err)))
    | Ok pvc =>
        if negb (pvc_Phase pvc =? ClaimBound)%string then
          Ret (Err (StatusErr Aborted
            ("The PVC " +:+ volumeID +:+ " is in phase " +:+ pvc_Phase pvc)))
        else
          let* isRWX := isLHRWXVolume pvc in
          if isRWX : bool then unpublishRWXVolume pvc
          else
            let* r := removeVolumeFromHostVM cs nodeID volumeID in
            match r with
            | Err err => Ret (Err (StatusErr Internal ("Failed to remove volume " +:+ volumeID
                +:+ " from host VM/VMI: " +:+ Error err)))
            | Ok true => Ret (Err (StatusErr Aborted ("Volume " +:+ volumeID
                +:+ " removal in progress from VM/VMI " +:+ nodeID +:+ ", waiting for completion")))
            | Ok false => Ret (Ok tt)
            end
    end.
