(* ===== verification/AttachSpec.v ===== *)
(** * What publish and unpublish observe and write *)

From S2P Require Import Prelude Go Prog Kube Csi Api Store Utils CsiUtil Controller Volumes VolumesSpec Attach.

(** ** Polling *)

(** An observation made in a trace is still there in a longer one. *)
Definition grows (Q : trace reply -> Prop) : Prop :=
  forall tr tr', incl tr tr' -> Q tr -> Q tr'.

Lemma grows_app_r Q tr tr' : grows Q -> Q tr' -> Q (tr ++ tr').
Proof. intros HQ. apply HQ. auto with datatypes. Qed.

Lemma grows_app_l Q tr tr' : grows Q -> Q tr -> Q (tr ++ tr').
Proof. intros HQ. apply HQ. auto with datatypes. Qed.

Section Poll.

Context (condition : Fallible bool) (Q : trace reply -> Prop).
Context (Hgrows : grows Q).
Context (Hcond : wp condition (fun tr o =>
           writes tr = [] /\ (o = Returned (Ok true) -> Q tr))).

Lemma loopCondition_spec rounds :
  wp (loopCondition condition rounds) (fun tr o =>
    writes tr = [] /\ (o = Returned (Ok tt) -> Q tr)).
Proof.
  induction rounds as [|n IH]; cbn [loopCondition]; [done|].
  eapply wp_bind_use; [exact Hcond| |]; cbn beta iota.
  - intros tr [[]|e] [Hw HQ]; cbn.
    + rewrite app_nil_r. auto.
    + eapply wp_mono; [exact IH|]. intros tr' o [Hw' HQ']. split; [by writes_simpl|].
      intros Ho. apply grows_app_r; auto.
    + by rewrite app_nil_r.
  - intros tr w [Hw _]. done.
Qed.

(** A poll that succeeds has seen the condition hold; it writes nothing when
    the condition does not. *)
Lemma PollUntilContextTimeout_spec interval timeout immediate :
  wp (PollUntilContextTimeout interval timeout immediate condition) (fun tr o =>
    writes tr = [] /\ (o = Returned (Ok tt) -> Q tr)).
Proof.
  unfold PollUntilContextTimeout.
  assert (Hloop : forall tr, writes tr = [] ->
    wp (let* rounds := send (PollRounds interval timeout) in loopCondition condition rounds)
      (fun tr' o => writes (tr ++ tr') = [] /\ (o = Returned (Ok tt) -> Q (tr ++ tr')))).
  { intros tr Hw. cbn. intros n. eapply wp_mono; [apply loopCondition_spec|].
    intros tr' o [Hw' HQ]. split; [by writes_simpl|].
    intros Ho. apply grows_app_r, (Hgrows tr'); auto with datatypes. }
  destruct immediate; [|by apply (Hloop [])].
  eapply wp_bind_use; [exact Hcond| |]; cbn beta iota.
  - intros tr [[]|e] [Hw HQ]; [|by apply Hloop|]; cbn; rewrite app_nil_r; auto.
    by split.
  - intros tr w [Hw _]. done.
Qed.

End Poll.

(** ** Observations *)

Section Observations.

Context (cs : ControllerServer) (node vol : string).

(** The machine was read with the volume in its specification. *)
Definition seen_in_VM (tr : trace reply) : Prop :=
  exists vm t, In (ev (VmGet (namespace cs) node) (Ok vm)) tr
    /\ vm_Template vm = Some t /\ hasVolume vol t = true.

(** The instance was read with the volume hot-plugged. *)
Definition seen_in_VMI (tr : trace reply) : Prop :=
  exists vmi, In (ev (VmiGet (namespace cs) node) (Ok vmi)) tr /\ hasHotplug vol vmi = true.

(** The machine was read without the volume, or not found. *)
Definition absent_in_VM (tr : trace reply) : Prop :=
  (exists vm t, In (ev (VmGet (namespace cs) node) (Ok vm)) tr
    /\ vm_Template vm = Some t /\ hasVolume vol t = false)
  \/ exists e, In (ev (VmGet (namespace cs) node) (Err e)) tr /\ errors.IsNotFound e = true.

Definition absent_in_VMI (tr : trace reply) : Prop :=
  (exists vmi, In (ev (VmiGet (namespace cs) node) (Ok vmi)) tr /\ hasHotplug vol vmi = false)
  \/ exists e, In (ev (VmiGet (namespace cs) node) (Err e)) tr /\ errors.IsNotFound e = true.

Definition seen_attached (tr : trace reply) : Prop := seen_in_VM tr /\ seen_in_VMI tr.

Lemma seen_in_VM_grows : grows seen_in_VM.
Proof. unfold grows, incl, seen_in_VM. naive_solver. Qed.

Lemma seen_in_VMI_grows : grows seen_in_VMI.
Proof. unfold grows, incl, seen_in_VMI. naive_solver. Qed.

Lemma absent_in_VM_grows : grows absent_in_VM.
Proof. unfold grows, incl, absent_in_VM. naive_solver. Qed.

Lemma absent_in_VMI_grows : grows absent_in_VMI.
Proof. unfold grows, incl, absent_in_VMI. naive_solver. Qed.

Lemma seen_attached_grows : grows seen_attached.
Proof.
  intros tr tr' Hi [H1 H2].
  split; [eapply seen_in_VM_grows|eapply seen_in_VMI_grows]; eauto.
Qed.

Lemma checkVolumeExistsInVM_spec :
  wp (checkVolumeExistsInVM cs node vol) (fun tr o =>
    writes tr = [] /\
    match o with
    | Returned (Ok b) => if b : bool then seen_in_VM tr else absent_in_VM tr
    | _ => True
    end).
Proof.
  unfold checkVolumeExistsInVM. cbn. intros [vm|e]; cbn.
  - destruct (vm_Template vm) as [t|] eqn:E; cbn; (split; [by writes_simpl|]); [|done].
    destruct (hasVolume vol t) eqn:Eh; [|left]; exists vm, t; auto with csi.
  - destruct (errors.IsNotFound e) eqn:E; cbn; (split; [by writes_simpl|]); [|done].
    right. exists e. auto with csi.
Qed.

Lemma checkVolumeExistsInVMI_spec :
  wp (checkVolumeExistsInVMI cs node vol) (fun tr o =>
    writes tr = [] /\
    match o with
    | Returned (Ok b) => if b : bool then seen_in_VMI tr else absent_in_VMI tr
    | Panicked _ => False
    | _ => True
    end).
Proof.
  unfold checkVolumeExistsInVMI. cbn. intros [vmi|e]; cbn.
  - split; [by writes_simpl|].
    destruct (hasHotplug vol vmi) eqn:Eh; [|left]; exists vmi; auto with csi.
  - destruct (errors.IsNotFound e) eqn:E; cbn; (split; [by writes_simpl|]); [|done].
    right. exists e. auto with csi.
Qed.

Lemma isVolAttached_spec :
  wp (isVolAttached cs node vol) (fun tr o =>
    writes tr = [] /\ (o = Returned (Ok true) -> seen_attached tr)).
Proof.
  unfold isVolAttached. eapply wp_bind_use; [apply checkVolumeExistsInVM_spec| |]; cbn beta iota.
  2: { intros tr w [Hw _]. done. }
  intros tr [b|e] [Hw H]; [|by cbn; rewrite app_nil_r].
  eapply wp_bind_use; [apply checkVolumeExistsInVMI_spec| |]; cbn beta iota.
  2: { intros tr' w [_ []]. }
  intros tr' [b'|e] [Hw' H']; cbn; rewrite app_nil_r; (split; [by writes_simpl|]); [|done].
  intros [= Hb]. destruct b, b'; try done. split.
  - by apply grows_app_l; [apply seen_in_VM_grows|].
  - by apply grows_app_r; [apply seen_in_VMI_grows|].
Qed.

Lemma waitForVolumeAttached_spec :
  wp (waitForVolumeAttached cs node vol) (fun tr o =>
    writes tr = [] /\ (o = Returned (Ok tt) -> seen_attached tr)).
Proof.
  unfold waitForVolumeAttached.
  eapply wp_bind_use;
    [apply (PollUntilContextTimeout_spec _ seen_attached); [apply seen_attached_grows|]| |].
  - unfold volumeAttachedCheck. eapply wp_bind_use; [apply isVolAttached_spec| |]; cbn beta iota.
    + intros tr [b|e] [Hw H]; cbn; rewrite app_nil_r; auto. by split.
    + intros tr w [Hw _]. done.
  - cbn beta iota. intros tr [[]|e] [Hw H]; cbn; rewrite app_nil_r; auto. by split.
  - intros tr w [Hw _]. done.
Qed.

(** ** Settled attachments *)

Context (pvc : PersistentVolumeClaim).

(** The attachments of the volume were read and none points elsewhere: the
    host ones point to the host of the instance, the attached guest ones to
    the node.  A host that does not let the guest list attachments and a
    file-system volume are not checked. *)
Definition settled (tr : trace reply) : Prop :=
  (exists e, In (ev HostVaList (Err e)) tr)
  \/ VolumeMode (pvc_Spec pvc) = None
  \/ VolumeMode (pvc_Spec pvc) = Some PersistentVolumeFilesystem
  \/ exists hostVAs vmi guestVAs,
       In (ev HostVaList (Ok hostVAs)) tr
       /\ In (ev (VmiGet (namespace cs) node) (Ok vmi)) tr
       /\ In (ev GuestVaList (Ok guestVAs)) tr
       /\ (forall va, In va hostVAs ->
             va_PersistentVolumeName va = Some (VolumeName (pvc_Spec pvc)) ->
             va_NodeName va = vmi_NodeName vmi)
       /\ (forall va, In va guestVAs -> va_Attached va = true ->
             va_PersistentVolumeName va = Some (name_of pvc) -> va_NodeName va = node).

Lemma settled_grows : grows settled.
Proof.
  intros tr tr' Hi [[e H]|[H|[H|(h & v & g & H1 & H2 & H3 & H)]]].
  - left. eauto.
  - by right; left.
  - by right; right; left.
  - do 3 right. exists h, v, g. split_and!; try apply H; auto.
Qed.

Lemma checkHostVA_loop_spec volumeID target vas :
  wp (checkHostVA_loop volumeID target vas) (fun tr o =>
    tr = [] /\
    match o with
    | Returned (Ok true) => forall va, In va vas ->
        va_PersistentVolumeName va = Some volumeID -> va_NodeName va = target
    | Returned (Ok false) => exists va, In va vas
        /\ va_PersistentVolumeName va = Some volumeID /\ va_NodeName va <> target
    | Returned (Err _) => False
    | Panicked _ => exists va, In va vas /\ va_PersistentVolumeName va = None
    end).
Proof.
  induction vas as [|va vas IH]; cbn [checkHostVA_loop]; [by split|].
  destruct (va_PersistentVolumeName va) as [pv|] eqn:Ep; cbn; [|by eauto with csi].
  destruct (_ && _) eqn:E; bool_to_prop; cbn.
  - split; [done|]. exists va. subst. auto with csi.
  - eapply wp_mono; [exact IH|]. intros tr [[[]|e]|w] [-> H]; (split; [done|]).
    + intros va' [<-|Hin]; [|by auto]. rewrite Ep. intros [= ->].
      destruct E as [E|E]; bool_to_prop; done.
    + destruct H as (va' & ? & ? & ?). exists va'. auto with csi.
    + done.
    + destruct H as (va' & ? & ?). exists va'. auto with csi.
Qed.

Lemma checkGuestVA_loop_spec volumeID target vas :
  wp (checkGuestVA_loop volumeID target vas) (fun tr o =>
    tr = [] /\
    match o with
    | Returned (Ok true) => forall va, In va vas -> va_Attached va = true ->
        va_PersistentVolumeName va = Some volumeID -> va_NodeName va = target
    | Returned (Ok false) => exists va, In va vas /\ va_Attached va = true
        /\ va_PersistentVolumeName va = Some volumeID /\ va_NodeName va <> target
    | Returned (Err _) => False
    | Panicked _ => exists va, In va vas /\ va_PersistentVolumeName va = None
    end).
Proof.
  induction vas as [|va vas IH]; cbn [checkGuestVA_loop]; [by split|].
  assert (Hrest : (va_Attached va = true -> va_PersistentVolumeName va = Some volumeID ->
                   va_NodeName va = target) ->
    wp (checkGuestVA_loop volumeID target vas) (fun tr o => tr = [] /\
    match o with
    | Returned (Ok true) => forall va', In va' (va :: vas) -> va_Attached va' = true ->
        va_PersistentVolumeName va' = Some volumeID -> va_NodeName va' = target
    | Returned (Ok false) => exists va', In va' (va :: vas) /\ va_Attached va' = true
        /\ va_PersistentVolumeName va' = Some volumeID /\ va_NodeName va' <> target
    | Returned (Err _) => False
    | Panicked _ => exists va', In va' (va :: vas) /\ va_PersistentVolumeName va' = None
    end)).
  { intros Hva. eapply wp_mono; [exact IH|]. intros tr [[[]|e]|w] [-> H]; (split; [done|]).
    - intros va' [<-|Hin]; [done|by auto].
    - destruct H as (va' & ? & ? & ? & ?). exists va'. auto with csi.
    - done.
    - destruct H as (va' & ? & ?). exists va'. auto with csi. }
  destruct (va_Attached va) eqn:Ea; cbn [negb]; [|by apply Hrest].
  destruct (va_PersistentVolumeName va) as [pv|] eqn:Ep; cbn; [|by eauto with csi].
  destruct (_ && _) eqn:E; bool_to_prop; cbn.
  - split; [done|]. exists va. subst. auto with csi.
  - apply Hrest. intros _ [= ->]. destruct E as [E|E]; bool_to_prop; done.
Qed.

Lemma waitForVASettled_spec :
  wp (waitForVASettled cs pvc node) (fun tr o =>
    writes tr = [] /\ (o = Returned (Ok true) -> settled tr)).
Proof.
  unfold waitForVASettled. cbn. intros [hostVAs|e]; cbn.
  2: { split; [by writes_simpl|]. intros _. left. eauto with csi. }
  destruct (VolumeMode (pvc_Spec pvc)) as [m|] eqn:Em; cbn.
  2: { split; [by writes_simpl|]. intros _. by right; left. }
  destruct (m =? PersistentVolumeFilesystem)%string eqn:E; bool_to_prop; cbn.
  { split; [by writes_simpl|]. intros _. right; right; left. by rewrite Em, E. }
  intros [vmi|e]; cbn; [|by writes_simpl].
  apply wp_bind. eapply wp_mono; [apply checkHostVA_loop_spec|].
  intros tr [[[]|e]|w] [-> H]; cbn; try by writes_simpl.
  intros [guestVAs|e]; cbn; [|by writes_simpl].
  eapply wp_mono; [apply checkGuestVA_loop_spec|].
  intros tr o [-> H']. split; [by writes_simpl|]. intros ->.
  do 3 right. exists hostVAs, vmi, guestVAs. split_and!; auto with csi.
Qed.

End Observations.

(** ** The patches *)

(** A template with the volume and its disk plugged in, and without them *)
Definition plug (vol : string) (t : VMTemplateSpec) : VMTemplateSpec :=
  mkVMTemplate
    (if hasVolume vol t then Volumes t else Volumes t ++ [hotplugVolume vol])
    (if hasDisk vol t then Disks t else Disks t ++ [hotplugDisk vol]).

Definition unplug (vol : string) (t : VMTemplateSpec) : VMTemplateSpec :=
  mkVMTemplate (List.filter (fun v => negb (vol_Name v =? vol)%string) (Volumes t))
               (List.filter (fun d => negb (disk_Name d =? vol)%string) (Disks t)).

Lemma apply_test rv vm ops vm' :
  apply_patch (mkPatchOp "test" "/metadata/resourceVersion" (PVString rv) :: ops) vm = Some vm'
  <-> ResourceVersion (meta vm) = rv /\ apply_patch ops vm = Some vm'.
Proof.
  rewrite apply_patch_cons. unfold apply_op. cbn [PatchValue Op Path].
  change (rvPath) with "/metadata/resourceVersion". rewrite !String.eqb_refl. cbn [andb].
  destruct (rv =? ResourceVersion (meta vm))%string eqn:E; bool_to_prop; simpl; naive_solver.
Qed.

Lemma set_Template_same vm t : vm_Template vm = Some t -> set_Template t vm = vm.
Proof. destruct vm. unfold set_Template. simpl. by intros ->. Qed.

(** The effect of each of the other operations the driver sends *)
Section Ops.

Context (vm : VirtualMachine) (t : VMTemplateSpec) (Ht : vm_Template vm = Some t).

Lemma apply_add_volume v :
  apply_op (mkPatchOp "add" "/spec/template/spec/volumes/-" (PVVolume v)) vm =
  match Volumes t with
  | [] => None
  | _ => Some (set_Template (mkVMTemplate (Volumes t ++ [v]) (Disks t)) vm)
  end.
Proof. unfold apply_op. cbn [PatchValue Op Path]. rewrite Ht. by destruct (Volumes t). Qed.

Lemma apply_add_disk d :
  apply_op (mkPatchOp "add" "/spec/template/spec/domain/devices/disks/-" (PVDisk d)) vm =
  match Disks t with
  | [] => None
  | _ => Some (set_Template (mkVMTemplate (Volumes t) (Disks t ++ [d])) vm)
  end.
Proof. unfold apply_op. cbn [PatchValue Op Path]. rewrite Ht. by destruct (Disks t). Qed.

Lemma apply_replace_volumes vs :
  apply_op (mkPatchOp "replace" "/spec/template/spec/volumes" (PVVolumes vs)) vm =
  match Volumes t with
  | [] => None
  | _ => Some (set_Template (mkVMTemplate vs (Disks t)) vm)
  end.
Proof. unfold apply_op. cbn [PatchValue Op Path]. rewrite Ht. by destruct (Volumes t). Qed.

Lemma apply_replace_disks ds :
  apply_op (mkPatchOp "replace" "/spec/template/spec/domain/devices/disks" (PVDisks ds)) vm =
  match Disks t with
  | [] => None
  | _ => Some (set_Template (mkVMTemplate (Volumes t) ds) vm)
  end.
Proof. unfold apply_op. cbn [PatchValue Op Path]. rewrite Ht. by destruct (Disks t). Qed.

End Ops.

Lemma Template_set t vm : vm_Template (set_Template t vm) = Some t.
Proof. reflexivity. Qed.

Lemma apply_patch_nil vm : apply_patch [] vm = Some vm.
Proof. reflexivity. Qed.

(** A patch that adds the volume is applied only to a machine with the
    version it was computed from, and then plugs the volume in. *)
Lemma apply_addOps rv vol vm vm' t :
  vm_Template vm = Some t ->
  apply_patch (addOps rv vol (hasVolume vol t) (hasDisk vol t)) vm = Some vm' ->
  ResourceVersion (meta vm) = rv /\ vm' = set_Template (plug vol t) vm.
Proof.
  intros Ht. unfold addOps. cbn [app]. rewrite apply_test. intros [Hv Hp]. split; [done|].
  unfold plug. revert Hp. destruct (hasVolume vol t), (hasDisk vol t); cbn [negb app];
    rewrite ?apply_patch_cons, ?(apply_add_volume vm t Ht), ?(apply_add_disk vm t Ht).
  - rewrite apply_patch_nil. destruct t. rewrite (set_Template_same vm) by done. congruence.
  - destruct (Disks t) eqn:E; simpl; rewrite ?apply_patch_nil; congruence.
  - destruct (Volumes t) eqn:E; simpl; rewrite ?apply_patch_nil; congruence.
  - destruct (Volumes t) eqn:E; cbn [mbind option_bind]; [done|].
    rewrite apply_patch_cons, (apply_add_disk _ _ (Template_set _ _)). cbn [Disks Volumes].
    destruct (Disks t) eqn:E2; simpl; rewrite ?apply_patch_nil; [done|]. by intros [= <-].
Qed.

Lemma apply_addOps_ok vol vm t :
  vm_Template vm = Some t -> Volumes t <> [] -> Disks t <> [] ->
  apply_patch (addOps (ResourceVersion (meta vm)) vol (hasVolume vol t) (hasDisk vol t)) vm
  = Some (set_Template (plug vol t) vm).
Proof.
  intros Ht Hv Hd. unfold addOps. cbn [app]. apply apply_test. split; [done|]. unfold plug.
  destruct (hasVolume vol t), (hasDisk vol t); cbn [negb app];
    rewrite ?apply_patch_cons, ?(apply_add_volume vm t Ht), ?(apply_add_disk vm t Ht).
  - destruct t. by rewrite (set_Template_same vm).
  - by destruct (Disks t).
  - by destruct (Volumes t).
  - destruct (Volumes t); [done|]. cbn [mbind option_bind].
    rewrite apply_patch_cons, (apply_add_disk _ _ (Template_set _ _)). cbn [Disks Volumes].
    by destruct (Disks t).
Qed.

(** A patch that replaces both lists *)
Lemma apply_replaceOps rv vs ds vm vm' t :
  vm_Template vm = Some t ->
  apply_patch [ mkPatchOp "test" "/metadata/resourceVersion" (PVString rv);
                mkPatchOp "replace" "/spec/template/spec/volumes" (PVVolumes vs);
                mkPatchOp "replace" "/spec/template/spec/domain/devices/disks" (PVDisks ds) ] vm
    = Some vm' ->
  ResourceVersion (meta vm) = rv /\ vm' = set_Template (mkVMTemplate vs ds) vm.
Proof.
  intros Ht. rewrite apply_test. intros [Hv Hp]. split; [done|].
  revert Hp. rewrite apply_patch_cons, (apply_replace_volumes vm t Ht).
  destruct (Volumes t) eqn:E; cbn [mbind option_bind]; [done|].
  rewrite apply_patch_cons, (apply_replace_disks _ _ (Template_set _ _)). cbn [Disks Volumes].
  destruct (Disks t) eqn:E2; simpl; rewrite ?apply_patch_nil; [done|]. by intros [= <-].
Qed.

Lemma apply_replaceOps_ok vs ds vm t :
  vm_Template vm = Some t -> Volumes t <> [] -> Disks t <> [] ->
  apply_patch [ mkPatchOp "test" "/metadata/resourceVersion" (PVString (ResourceVersion (meta vm)));
                mkPatchOp "replace" "/spec/template/spec/volumes" (PVVolumes vs);
                mkPatchOp "replace" "/spec/template/spec/domain/devices/disks" (PVDisks ds) ] vm
  = Some (set_Template (mkVMTemplate vs ds) vm).
Proof.
  intros Ht Hv Hd. apply apply_test. split; [done|].
  rewrite apply_patch_cons, (apply_replace_volumes vm t Ht).
  destruct (Volumes t); [done|]. cbn [mbind option_bind].
  rewrite apply_patch_cons, (apply_replace_disks _ _ (Template_set _ _)). cbn [Disks Volumes].
  by destruct (Disks t).
Qed.

Lemma apply_removeOps rv vol vm vm' t :
  vm_Template vm = Some t ->
  apply_patch (removeOps rv vol t) vm = Some vm' ->
  ResourceVersion (meta vm) = rv /\ vm' = set_Template (unplug vol t) vm.
Proof. apply apply_replaceOps. Qed.

Lemma apply_removeOps_ok vol vm t :
  vm_Template vm = Some t -> Volumes t <> [] -> Disks t <> [] ->
  apply_patch (removeOps (ResourceVersion (meta vm)) vol t) vm
  = Some (set_Template (unplug vol t) vm).
Proof. apply apply_replaceOps_ok. Qed.

Lemma hasVolume_In vol t : hasVolume vol t = true <-> exists v, In v (Volumes t) /\ vol_Name v = vol.
Proof.
  unfold hasVolume. rewrite existsb_exists. split; intros (v & Hin & H); exists v; split; try done.
  - by apply String.eqb_eq.
  - by apply String.eqb_eq.
Qed.

Lemma plug_hasVolume vol t : hasVolume vol (plug vol t) = true.
Proof.
  unfold plug. destruct (hasVolume vol t) eqn:E.
  - by apply hasVolume_In in E as (v & ? & ?); apply hasVolume_In; exists v.
  - apply hasVolume_In. exists (hotplugVolume vol). simpl. auto with csi.
Qed.

(** Unplugging undoes plugging of a volume that was not there. *)
Lemma unplug_plug vol t :
  hasVolume vol t = false -> hasDisk vol t = false -> unplug vol (plug vol t) = t.
Proof.
  intros Hv Hd. unfold unplug, plug. rewrite Hv, Hd. destruct t as [vs ds]; simpl in *.
  rewrite !List.filter_app. cbn [List.filter vol_Name disk_Name hotplugVolume hotplugDisk].
  rewrite String.eqb_refl. cbn [negb]. rewrite !app_nil_r. f_equal; apply filter_all_true.
  - intros v Hin. unfold hasVolume in Hv. rewrite existsb_false_forall in Hv.
    by rewrite (Hv v Hin).
  - intros d Hin. unfold hasDisk in Hd. rewrite existsb_false_forall in Hd.
    by rewrite (Hd d Hin).
Qed.

Lemma unplug_spec vol t :
  (forall v, In v (Volumes (unplug vol t)) <-> In v (Volumes t) /\ vol_Name v <> vol)
  /\ (forall d, In d (Disks (unplug vol t)) <-> In d (Disks t) /\ disk_Name d <> vol).
Proof.
  unfold unplug. simpl. split; intros x; rewrite filter_In, negb_true_iff, String.eqb_neq; done.
Qed.

(** ** Publish *)

(** The request that plugs the volume in: the legacy subresource, or the
    patch computed from the machine as it was read. *)
Definition hotplug_call (cs : ControllerServer) (node vol : string)
    (before : trace reply) (c : call) : Prop :=
  if useDeclarativeHotplug cs then
    exists vm t, In (ev (VmGet (namespace cs) node) (Ok vm)) before
      /\ vm_Template vm = Some t /\ (hasVolume vol t && hasDisk vol t)%bool = false
      /\ c = VmPatch (namespace cs) node
               (addOps (ResourceVersion (meta vm)) vol (hasVolume vol t) (hasDisk vol t))
  else c = VmAddVolume (namespace cs) node (mkAddVolumeOptions vol "scsi" vol).

Lemma hotplugVolumeToVM_spec cs node vol :
  wp (hotplugVolumeToVM cs node vol) (fun tr _ =>
    writes tr = []
    \/ exists before e, tr = before ++ [e] /\ writes before = []
         /\ mutating (projT1 e) = true /\ hotplug_call cs node vol before (projT1 e)).
Proof.
  unfold hotplugVolumeToVM, hotplug_call. destruct (useDeclarativeHotplug cs).
  - unfold addVolumeToVM. cbn. intros [vm|e]; cbn; [|left; by writes_simpl].
    destruct (vm_Template vm) as [t|] eqn:Et; cbn; [|left; by writes_simpl].
    destruct (_ && _) eqn:E; cbn; [left; by writes_simpl|].
    intros r. set (g := ev (VmGet (namespace cs) node) (Ok vm)).
    destruct r; cbn; right; exists [g]; eexists; (split; [reflexivity|]);
      (split_and!; [by writes_simpl|done|exists vm, t; auto with csi]).
  - cbn. intros r. right. exists []. eexists. split; [reflexivity|]. done.
Qed.

(** What a publish of a block volume has done when it stops: on success the
    volume was seen attached, and at most one write was made, the hot plug,
    after the attachments were seen settled. *)
Definition publish_block_post (cs : ControllerServer) (node vol : string)
    (pvc : PersistentVolumeClaim) (tr : trace reply) (o : outcome (result unit)) : Prop :=
  (o = Returned (Ok tt) -> seen_attached cs node vol tr)
  /\ (writes tr = []
      \/ exists before e after, tr = before ++ e :: after
         /\ writes before = [] /\ mutating (projT1 e) = true /\ writes after = []
         /\ settled cs node pvc before /\ hotplug_call cs node vol before (projT1 e)).

Lemma hotplug_call_grows cs node vol c : grows (fun tr => hotplug_call cs node vol tr c).
Proof.
  unfold grows, incl, hotplug_call. intros tr tr' Hi. case_match; [|done].
  intros (vm & t & Hin & Ht). exists vm, t. auto.
Qed.

Lemma publishBlockVolume_spec cs node vol pvc :
  wp (publishBlockVolume cs pvc node vol) (publish_block_post cs node vol pvc).
Proof.
  unfold publishBlockVolume, publish_block_post. eapply wp_bind_use.
  { apply (PollUntilContextTimeout_spec _ (settled cs node pvc));
      [apply settled_grows|apply waitForVASettled_spec]. }
  2: { intros tr w [Hw _]. split; [done|by left]. }
  intros tr [[]|e] [Hw Hs]; [|cbn; rewrite app_nil_r; by split; [|left]].
  specialize (Hs eq_refl). eapply wp_bind_use; [apply isVolAttached_spec| |].
  2: { intros tr1 w [Hw1 _]. split; [done|left; by writes_simpl]. }
  intros tr1 [[]|e] [Hw1 Ha]; cbn beta iota.
  1, 3: cbn; rewrite app_nil_r; (split; [|left; by writes_simpl]).
  { intros _. apply grows_app_r, Ha; [apply seen_attached_grows|done]. }
  { done. }
  assert (Hplug : forall tr2 tr3, writes tr3 = [] ->
    (writes tr2 = [] \/ exists before e, tr2 = before ++ [e] /\ writes before = []
       /\ mutating (projT1 e) = true /\ hotplug_call cs node vol before (projT1 e)) ->
    let t := tr ++ tr1 ++ tr2 ++ tr3 in
    writes t = [] \/ exists before e after, t = before ++ e :: after
      /\ writes before = [] /\ mutating (projT1 e) = true /\ writes after = []
      /\ settled cs node pvc before /\ hotplug_call cs node vol before (projT1 e)).
  { intros tr2 tr3 Hw3 [Hw2|(b & e & -> & Hb & Hm & Hc)]; cbn zeta; [left; by writes_simpl|].
    right. exists (tr ++ tr1 ++ b), e, tr3. split_and!; try done.
    - by rewrite <- !(assoc_L (++)).
    - by writes_simpl.
    - eapply settled_grows; [|exact Hs]. auto with datatypes.
    - eapply hotplug_call_grows; [|exact Hc]. auto with datatypes. }
  eapply wp_bind_use; [apply hotplugVolumeToVM_spec| |]; cbn beta iota.
  2: { intros tr2 w H2. split; [done|].
       pose proof (Hplug tr2 [] eq_refl H2) as HP. by rewrite app_nil_r in HP. }
  intros tr2 [[]|e] H2.
  2: { cbn. rewrite app_nil_r. split; [done|].
       pose proof (Hplug tr2 [] eq_refl H2) as HP. by rewrite app_nil_r in HP. }
  eapply wp_mono; [apply waitForVolumeAttached_spec|]. intros tr3 o [Hw3 H3]. split.
  - intros Ho. do 3 (apply grows_app_r; [apply seen_attached_grows|]). auto.
  - exact (Hplug tr2 tr3 Hw3 H2).
Qed.

Lemma publish_spec cs req cap :
  cp_VolumeCapability req = Some cap -> GetMode cap <> MULTI_NODE_MULTI_WRITER ->
  wp (ControllerPublishVolume cs req) (fun tr o =>
    (o = Returned (Ok tt) -> seen_attached cs (cp_NodeId req) (cp_VolumeId req) tr)
    /\ (writes tr = []
        \/ exists pvc before e after, tr = before ++ e :: after
             /\ In (ev (PvcGet (namespace cs) (cp_VolumeId req)) (Ok pvc)) before
             /\ pvc_Phase pvc = ClaimBound
             /\ settled cs (cp_NodeId req) pvc before
             /\ writes tr = [projT1 e]
             /\ hotplug_call cs (cp_NodeId req) (cp_VolumeId req) before (projT1 e))).
Proof.
  intros Hcap Hmode. unfold ControllerPublishVolume. rewrite Hcap.
  case_match; [by split; [|left]|]. cbn -[publishBlockVolume]. intros [pvc|e]; cbn -[publishBlockVolume].
  2: { split; [done|left; by writes_simpl]. }
  destruct (pvc_Phase pvc =? ClaimBound)%string eqn:Eb; cbn -[publishBlockVolume]; bool_to_prop.
  2: { split; [done|left; by writes_simpl]. }
  rewrite (proj2 (Mode_eqb_neq _ _) Hmode).
  eapply wp_mono; [apply publishBlockVolume_spec|].
  intros tr o [Ha Hw]. set (g := ev (PvcGet _ _) (Ok pvc)). split.
  { intros Ho. apply (grows_app_r _ [g]); [apply seen_attached_grows|auto]. }
  destruct Hw as [Hw|(b & e & a & -> & Hb & Hm & Ha' & Hs & Hc)]; [left; by writes_simpl|].
  right. exists pvc, (g :: b), e, a. split_and!; try done; [auto with csi| | |].
  - by apply (grows_app_r _ [g]); [apply settled_grows|].
  - writes_simpl. by rewrite Hm.
  - by apply (grows_app_r (fun tr => hotplug_call cs _ _ tr _) [g]); [apply hotplug_call_grows|].
Qed.

(** ** Unpublish *)

(** The request that takes the volume out: the patch computed from the
    machine as it was read, or the legacy subresource of the instance when
    the instance has the volume, else of the machine. *)
Definition unplug_call (cs : ControllerServer) (node vol : string)
    (before : trace reply) (c : call) : Prop :=
  if useDeclarativeHotplug cs then
    exists vm t, In (ev (VmGet (namespace cs) node) (Ok vm)) before
      /\ vm_Template vm = Some t
      /\ c = VmPatch (namespace cs) node (removeOps (ResourceVersion (meta vm)) vol t)
  else (seen_in_VMI cs node vol before /\ c = VmiRemoveVolume (namespace cs) node vol)
    \/ (absent_in_VMI cs node vol before /\ seen_in_VM cs node vol before
        /\ c = VmRemoveVolume (namespace cs) node vol).

Lemma unplug_call_grows cs node vol c : grows (fun tr => unplug_call cs node vol tr c).
Proof.
  unfold unplug_call. intros tr tr' Hi. case_match.
  - intros (vm & t & Hin & Ht). exists vm, t. auto.
  - intros [[Hs ->]|(Ha & Hs & ->)]; [left|right].
    + split; [by eapply seen_in_VMI_grows|done].
    + split_and!; [by eapply absent_in_VMI_grows|by eapply seen_in_VM_grows|done].
Qed.

Definition remove_post (cs : ControllerServer) (node vol : string)
    (tr : trace reply) (o : outcome (result bool)) : Prop :=
  (o = Returned (Ok false) ->
     writes tr = [] /\ absent_in_VM cs node vol tr /\ absent_in_VMI cs node vol tr)
  /\ (writes tr = []
      \/ exists before e, tr = before ++ [e] /\ writes before = []
           /\ mutating (projT1 e) = true /\ unplug_call cs node vol before (projT1 e)
           /\ (seen_in_VM cs node vol before \/ seen_in_VMI cs node vol before)
           /\ exists r, o = Returned r).

Lemma removeVolumeFromHostVM_spec cs node vol :
  wp (removeVolumeFromHostVM cs node vol) (remove_post cs node vol).
Proof.
  unfold removeVolumeFromHostVM, remove_post.
  eapply wp_bind_use; [apply checkVolumeExistsInVMI_spec| |]; cbn beta iota.
  2: { intros tr w [_ []]. }
  intros tr1 [inVMI|e] [Hw1 H1]; [|cbn; rewrite app_nil_r; by split; [|left]].
  eapply wp_bind_use; [apply checkVolumeExistsInVM_spec| |]; cbn beta iota.
  2: { intros tr2 w [Hw2 _]. split; [done|left; by writes_simpl]. }
  intros tr2 [inVM|e] [Hw2 H2]; [|cbn; rewrite app_nil_r; split; [done|left; by writes_simpl]].
  assert (H1' : if inVMI : bool then seen_in_VMI cs node vol (tr1 ++ tr2)
                else absent_in_VMI cs node vol (tr1 ++ tr2)).
  { destruct inVMI; apply grows_app_l; auto using seen_in_VMI_grows, absent_in_VMI_grows. }
  assert (H2' : if inVM : bool then seen_in_VM cs node vol (tr1 ++ tr2)
                else absent_in_VM cs node vol (tr1 ++ tr2)).
  { destruct inVM; apply grows_app_r; auto using seen_in_VM_grows, absent_in_VM_grows. }
  destruct (negb inVM && negb inVMI) eqn:E; cbn beta iota.
  { destruct inVM, inVMI; try done. cbn. rewrite app_nil_r.
    split; [|left; by writes_simpl]. intros _. split; [by writes_simpl|by split]. }
  assert (Hseen : seen_in_VM cs node vol (tr1 ++ tr2) \/ seen_in_VMI cs node vol (tr1 ++ tr2)).
  { destruct inVM, inVMI; auto; done. }
  assert (Hw12 : writes (tr1 ++ tr2) = []) by by writes_simpl.
  unfold unplugVolumeFromVM, unplug_call. destruct (useDeclarativeHotplug cs).
  - unfold removeVolumeFromVM. cbn. intros [vm|e]; cbn.
    2: { split; [done|left; by writes_simpl]. }
    destruct (vm_Template vm) as [t|] eqn:Et; cbn.
    2: { split; [done|left; by writes_simpl]. }
    set (g := ev (VmGet (namespace cs) node) (Ok vm)).
    intros [x|e]; cbn; (split; [done|]); right; exists (tr1 ++ tr2 ++ [g]); eexists;
      (split; [by rewrite <- !(assoc_L (++))|]);
      (split_and!; [by writes_simpl|done|exists vm, t; auto 10 with csi| |by eexists]);
      rewrite (assoc_L (++));
      destruct Hseen; [left|right|left|right]; apply grows_app_l;
      auto using seen_in_VMI_grows, seen_in_VM_grows.
  - unfold unplugVolumeFromVMLegacy. destruct inVMI; [|destruct inVM; [|done]]; cbn;
      intros [x|e]; cbn; (split; [done|]); right; exists (tr1 ++ tr2); eexists;
      (split; [by rewrite <- (assoc_L (++))|]); by split_and!; eauto.
Qed.

(** How a run of ControllerUnpublishVolume ends, once the PVC was read as
    bound *)
Definition unpublish_post (cs : ControllerServer) (req : ControllerUnpublishVolumeRequest)
    (tr : trace reply) (o : outcome (result unit)) : Prop :=
  let node := cu_NodeId req in
  let vol := cu_VolumeId req in
  (o = Returned (Ok tt) ->
     writes tr = [] /\ absent_in_VM cs node vol tr /\ absent_in_VMI cs node vol tr)
  /\ (writes tr = []
      \/ exists before e, tr = before ++ [e]
           /\ writes tr = [projT1 e] /\ unplug_call cs node vol before (projT1 e)
           /\ (seen_in_VM cs node vol before \/ seen_in_VMI cs node vol before)
           /\ exists err, o = Returned (Err err)).

(** No pod was found for the claim the guest's volume is bound to, or the
    index could not be read. *)
Definition no_users (pvc : PersistentVolumeClaim) (tr : trace reply) : Prop :=
  exists pv ns name, In (ev (GuestPvGet (name_of pvc)) (Ok pv)) tr
    /\ pv_ClaimRef pv = Some (ns, name)
    /\ (In (ev (GuestPodsByIndex IndexPodByPVC (ns +:+ "-" +:+ name)) (Ok [])) tr
        \/ exists e, In (ev (GuestPodsByIndex IndexPodByPVC (ns +:+ "-" +:+ name)) (Err e)) tr).

Definition unpublish_rwx_post (pvc : PersistentVolumeClaim)
    (tr : trace reply) (o : outcome (result unit)) : Prop :=
  (o = Returned (Ok tt) ->
     exists n, In (ev (NfsGet HarvesterNS (VolumeName (pvc_Spec pvc))) (Ok n)) tr)
  /\ (writes tr = []
      \/ exists n, In (ev (NfsGet HarvesterNS (VolumeName (pvc_Spec pvc))) (Ok n)) tr
           /\ DesiredState n <> NetworkFSStateDisabled
           /\ no_users pvc tr
           /\ writes tr = [NfsUpdate HarvesterNS (set_DesiredState NetworkFSStateDisabled n)]).

Lemma unpublishRWXVolume_spec pvc :
  wp (unpublishRWXVolume pvc) (unpublish_rwx_post pvc).
Proof.
  unfold unpublishRWXVolume, unpublish_rwx_post. cbn -[IndexPodByPVC].
  intros [n|e]; cbn -[IndexPodByPVC]; [|split; [done|left; by writes_simpl]].
  assert (Hn : forall tr : trace reply, exists n',
    In (ev (NfsGet HarvesterNS (VolumeName (pvc_Spec pvc))) (Ok n'))
       (ev (NfsGet HarvesterNS (VolumeName (pvc_Spec pvc))) (Ok n) :: tr)) by eauto with csi.
  destruct (_ || _) eqn:E; cbn -[IndexPodByPVC]; [split; [auto|left; by writes_simpl]|].
  bool_to_prop. intros [pv|e']; cbn -[IndexPodByPVC]; [|split; [done|left; by writes_simpl]].
  destruct (pv_ClaimRef pv) as [[ns name]|] eqn:Ec; cbn -[IndexPodByPVC];
    [|split; [done|left; by writes_simpl]].
  intros pods. set (idx := GuestPodsByIndex _ _) in *. cbn [reply idx] in pods.
  destruct (match pods with Ok l => _ | Err _ => _ end) eqn:Eu; cbn;
    [split; [auto|left; by writes_simpl]|].
  assert (Hu : forall tr tr' : trace reply, no_users pvc
     (tr ++ ev (GuestPvGet (name_of pvc)) (Ok pv) :: ev idx pods :: tr')).
  { intros tr tr'. exists pv, ns, name. split_and!; [auto with csi|done|].
    destruct pods as [[|p l]|e]; [left| |right; exists e]; auto with csi.
    by bool_to_prop; simpl in Eu. }
  set (g := ev (NfsGet _ _) _) in *.
  intros [x|e]; cbn; (split; [auto|]); right; exists n;
    (split_and!; [auto with csi|done|apply (Hu [g])|by writes_simpl]).
Qed.

(** Both posts hold with calls that only read before. *)
Lemma unpublish_rwx_post_after pvc pre tr o :
  writes pre = [] -> unpublish_rwx_post pvc tr o -> unpublish_rwx_post pvc (pre ++ tr) o.
Proof.
  intros Hw [Hn Hu]. split.
  { intros Ho. destruct (Hn Ho) as [n ?]. exists n. auto with csi. }
  destruct Hu as [Hu|(n & ? & ? & (pv & ns & name & ? & ? & Hp) & Hw')]; [left; by writes_simpl|].
  right. exists n. split_and!; [auto with csi|done| |by writes_simpl].
  exists pv, ns, name. split_and!; [auto with csi|done|].
  destruct Hp as [?|[e ?]]; [left|right; exists e]; auto with csi.
Qed.

Lemma remove_unpublish cs req pre tr r o :
  writes pre = [] -> remove_post cs (cu_NodeId req) (cu_VolumeId req) tr (Returned r) ->
  (o = Returned (Ok tt) -> r = Ok false) -> (r <> Ok false -> exists err, o = Returned (Err err)) ->
  unpublish_post cs req (pre ++ tr) o.
Proof.
  intros Hpre [Hr1 Hr2] Hok Herr. split.
  - intros Ho. rewrite (Hok Ho) in Hr1. destruct (Hr1 eq_refl) as (Hw' & Ha & Hb).
    split; [by writes_simpl|]. split.
    + eapply absent_in_VM_grows; [|exact Ha]. auto with datatypes.
    + eapply absent_in_VMI_grows; [|exact Hb]. auto with datatypes.
  - destruct Hr2 as [Hw'|(b & e & -> & Hb & Hm & Hc & Hs & _)]; [left; by writes_simpl|].
    right. exists (pre ++ b), e. assert (Hincl : incl b (pre ++ b)) by auto with datatypes.
    split_and!; [by rewrite (assoc_L (++))|writes_simpl; by rewrite Hm| | |].
    + eapply unplug_call_grows; [exact Hincl|exact Hc].
    + destruct Hs; [left; eapply seen_in_VM_grows|right; eapply seen_in_VMI_grows]; eauto.
    + apply Herr. intros ->. destruct (Hr1 eq_refl) as [Hw' _]. revert Hw'.
      writes_simpl. by rewrite Hm.
Qed.

Lemma ControllerUnpublishVolume_spec cs req :
  wp (ControllerUnpublishVolume cs req) (fun tr o =>
    (writes tr = [] /\ o <> Returned (Ok tt))
    \/ exists pvc, In (ev (PvcGet (namespace cs) (cu_VolumeId req)) (Ok pvc)) tr
         /\ pvc_Phase pvc = ClaimBound
         /\ (unpublish_post cs req tr o
             \/ rwx_claim tr pvc /\ unpublish_rwx_post pvc tr o)).
Proof.
  unfold ControllerUnpublishVolume. case_match; [by left|].
  cbn -[isLHRWXVolume unpublishRWXVolume removeVolumeFromHostVM].
  intros [pvc|e]; cbn -[isLHRWXVolume unpublishRWXVolume removeVolumeFromHostVM];
    [|left; by writes_simpl].
  destruct (pvc_Phase pvc =? ClaimBound)%string eqn:Eb;
    cbn -[isLHRWXVolume unpublishRWXVolume removeVolumeFromHostVM]; bool_to_prop;
    [|left; by writes_simpl].
  set (g := ev (PvcGet _ _) (Ok pvc)).
  eapply wp_bind_use; [apply isLHRWXVolume_spec| |].
  2: { intros tr w [Hw _]. left. by writes_simpl. }
  intros tr isRWX [Hw Hrwx]. assert (Hg : writes (g :: tr) = []) by by writes_simpl.
  destruct isRWX; cbn beta iota.
  - eapply wp_mono; [apply unpublishRWXVolume_spec|]. intros tr' o Hu. right. exists pvc.
    split_and!; [auto with csi|done|]. right. split.
    { eapply rwx_claim_mono; [|exact Hrwx]. apply incl_tl, incl_appl, incl_refl. } by apply (unpublish_rwx_post_after pvc (g :: tr)).
  - eapply wp_bind_use; [apply removeVolumeFromHostVM_spec| |].
    2: { intros tr' w [_ Hw']. right. exists pvc. split_and!; [auto with csi|done|]. left.
         split; [done|]. destruct Hw' as [Hw'|(b & e & _ & _ & _ & _ & _ & r & ?)]; [|done].
         left. by writes_simpl. }
    intros tr' r Hr. destruct r as [[]|e]; cbn; rewrite app_nil_r; right; exists pvc;
      (split_and!; [auto with csi|done|]); left;
      eapply (remove_unpublish cs req (g :: tr)); eauto; done.
Qed.
