(* ===== verification/AttachThm.v ===== *)
(** * Properties of publish and unpublish *)

From S2P Require Import Prelude Go Prog Kube Csi Api Store Utils CsiUtil Controller Volumes VolumesSpec Attach AttachSpec Samples.

(** ** Publish *)

(** C2: ControllerPublishVolume of a volume that is not RWX attaches it to
    this node only, and says so only when it is there.  It makes at most one
    write, the hot plug of this volume into this machine, after the PVC was
    read as bound and the attachments were settled: for a block volume whose
    host lets the guest list attachments, the host attachments of the volume
    were read, all pointing to the host of this machine, and so were the
    attached guest ones, all pointing to this node, so that a volume still
    attached elsewhere is not plugged in.  (A volume in file-system mode, and
    a host whose attachments cannot be listed, are not checked.)  With
    declarative hot plug the write is the patch computed from the machine
    read before.  It succeeds only after the volume was read both in the
    specification of the machine and, hot-plugged, in its instance. *)
Theorem ControllerPublishVolume_exclusive cs req cap :
  cp_VolumeCapability req = Some cap -> GetMode cap <> MULTI_NODE_MULTI_WRITER ->
  all_runs (ControllerPublishVolume cs req) (fun tr o =>
    (o = Returned (Ok tt) -> seen_attached cs (cp_NodeId req) (cp_VolumeId req) tr)
    /\ (writes tr = []
        \/ exists pvc before e after, tr = before ++ e :: after
             /\ In (ev (PvcGet (namespace cs) (cp_VolumeId req)) (Ok pvc)) before
             /\ pvc_Phase pvc = ClaimBound
             /\ settled cs (cp_NodeId req) pvc before
             /\ writes tr = [projT1 e]
             /\ hotplug_call cs (cp_NodeId req) (cp_VolumeId req) before (projT1 e))).
Proof.
  intros Hcap Hmode. apply wp_iff. eapply wp_mono; [by eapply publish_spec|].
  intros tr o [Ho [?|H]]; (split; [naive_solver|]); [by left|right; exact H].
Qed.

Lemma ControllerPublishVolume_exclusive_witness :
  let req := mkPublishRequest "vol1" "node1" (Some (sample_cap SINGLE_NODE_WRITER)) in
  let run := exec mem_serve (ControllerPublishVolume sample_cs req) sample_cluster in
  let run' := exec mem_serve (ControllerPublishVolume sample_cs req) sample_attached in
  length (writes run.2) = 1%nat
  /\ (exists before e after, run.2 = before ++ e :: after
       /\ hotplug_call sample_cs "node1" "vol1" before (projT1 e))
  /\ run'.1.1 = Returned (Ok tt) /\ seen_attached sample_cs "node1" "vol1" run'.2.
Proof.
  cbv zeta. pose proof (ControllerPublishVolume_exclusive sample_cs
    (mkPublishRequest "vol1" "node1" (Some (sample_cap SINGLE_NODE_WRITER)))
    (sample_cap SINGLE_NODE_WRITER) eq_refl ltac:(done)) as H.
  split; [vm_compute; reflexivity|]. split; [|split; [vm_compute; reflexivity|]].
  - destruct (proj2 (exec_post mem_serve _ sample_cluster _ H))
      as [Hw|(pvc & before & e & after & Htr & _ & _ & _ & _ & Hc)].
    + vm_compute in Hw. discriminate Hw.
    + exists before, e, after. split; [exact Htr|exact Hc].
  - apply (proj1 (exec_post mem_serve _ sample_attached _ H)). vm_compute. reflexivity.
Defined.

(** ** Unpublish *)

(** C9: ControllerUnpublishVolume of a volume whose claim was not found to be
    a Longhorn RWX one succeeds only when nothing is left to do: the volume was read as absent from the
    machine and from its instance (or they do not exist) and nothing was
    written.  Otherwise at most one removal of this volume from this machine
    is requested, only after the volume was seen there, and the call then
    ends with an error so that it is retried. *)
Theorem ControllerUnpublishVolume_detached cs req :
  all_runs (ControllerUnpublishVolume cs req) (fun tr o =>
    (forall pvc, In (ev (PvcGet (namespace cs) (cu_VolumeId req)) (Ok pvc)) tr -> ~ rwx_claim tr pvc) ->
    unpublish_post cs req tr o).
Proof.
  apply wp_iff. eapply wp_mono; [apply ControllerUnpublishVolume_spec|].
  intros tr o [[Hw Ho]|(pvc & Hin & _ & [H|[H _]])] Hrwx; [|done|by destruct (Hrwx pvc Hin)].
  split; [done|by left].
Qed.

(** C17: ControllerUnpublishVolume disables a network file system only when no
    pod uses it: every update it sends is for a claim found to be a Longhorn
    RWX one, sets the desired state of the network file system of the claim
    to disabled, and was preceded by the look-up of
    the pods of the bound guest claim, which found none (or failed). *)
Theorem ControllerUnpublishVolume_rwx_users cs req :
  all_runs (ControllerUnpublishVolume cs req) (fun tr o => forall ns n,
    In (NfsUpdate ns n) (calls tr) ->
    exists pvc n0, In (ev (PvcGet (namespace cs) (cu_VolumeId req)) (Ok pvc)) tr
      /\ rwx_claim tr pvc /\ no_users pvc tr
      /\ In (ev (NfsGet HarvesterNS (VolumeName (pvc_Spec pvc))) (Ok n0)) tr
      /\ n = set_DesiredState NetworkFSStateDisabled n0).
Proof.
  apply wp_iff. eapply wp_mono; [apply ControllerUnpublishVolume_spec|].
  intros tr o H ns n Hin%In_writes_mutating; [|done].
  destruct H as [[Hw _]|(pvc & Hp & _ & [[_ Hu]|[Hr [_ Hu]]])].
  - rewrite Hw in Hin. inv_In Hin.
  - destruct Hu as [Hw|(b & e & _ & Hw & Hc & _)]; rewrite Hw in Hin; inv_In Hin.
    unfold unplug_call in Hc. rewrite Hin in Hc. case_match; naive_solver.
  - destruct Hu as [Hw|(n0 & H1 & _ & H2 & Hw)]; rewrite Hw in Hin; inv_In Hin.
    exists pvc, n0. by split_and!.
Qed.

(** ** The machines, against a server that follows the laws *)

(** C26: plugging a volume in and taking it out again are inverse: on a machine
    that has volumes and disks but not this one, the patch that adds the
    volume applies and leaves a machine with the volume, and the patch that
    removes it, computed from that machine, applies and restores it. *)
Theorem plug_unplug vm t vol :
  vm_Template vm = Some t -> Volumes t <> [] -> Disks t <> [] ->
  hasVolume vol t = false -> hasDisk vol t = false ->
  exists vm1 t1,
    apply_patch (addOps (ResourceVersion (meta vm)) vol false false) vm = Some vm1
    /\ vm_Template vm1 = Some t1 /\ hasVolume vol t1 = true
    /\ apply_patch (removeOps (ResourceVersion (meta vm1)) vol t1) vm1 = Some vm.
Proof.
  intros Ht Hv Hd Hnv Hnd. exists (set_Template (plug vol t) vm), (plug vol t).
  pose proof (apply_addOps_ok vol vm t Ht Hv Hd) as Ha. rewrite Hnv, Hnd in Ha.
  split_and!; [done|done|apply plug_hasVolume|].
  rewrite (apply_removeOps_ok vol _ (plug vol t)); [|done|unfold plug; simpl..].
  - rewrite unplug_plug by done. f_equal. by apply (set_Template_same vm t).
  - rewrite Hnv. by destruct (Volumes t).
  - rewrite Hnd. by destruct (Disks t).
Qed.

Lemma plug_unplug_witness :
  exists vm1 t1,
    apply_patch (addOps "7" "vol1" false false) sample_vm = Some vm1
    /\ vm_Template vm1 = Some t1 /\ hasVolume "vol1" t1 = true
    /\ apply_patch (removeOps (ResourceVersion (meta vm1)) "vol1" t1) vm1 = Some sample_vm.
Proof. by apply (plug_unplug sample_vm _ "vol1" eq_refl). Defined.

Section Machines.

Context {S : Type} {step : forall c, S -> reply c -> S -> Prop} `{!VmLaws S step}.
Implicit Types s : S.

(** When addVolumeToVM succeeds, the machine stored at the moment of its last call either had the volume and
    its disk already, or was changed by the patch exactly by plugging the
    volume in, every other field and every other machine being kept. *)
Lemma addVolumeToVM_plugs cs node vol s :
  swp (logged step) (addVolumeToVM cs node vol) (s, []) (fun o sl =>
    o = Returned (Ok tt) ->
    exists s1 vm t, last sl.2 = Some s1
      /\ vms s1 !! (namespace cs, node) = Some vm /\ vm_Template vm = Some t
      /\ ((hasVolume vol t && hasDisk vol t)%bool = true
          \/ exists vm', vms sl.1 = <[(namespace cs, node) := vm']> (vms s1)
               /\ same_spec vm' (set_Template (plug vol t) vm))).
Proof.
  unfold addVolumeToVM. cbn. intros [vm|e] [s1 l] [Hs1 Hl]; cbn in *; subst l; [|done].
  pose proof (vm_get _ _ _ _ _ Hs1) as Hget. cbn in Hget.
  destruct (vm_Template vm) as [t|] eqn:Et; cbn; [|done].
  destruct (_ && _) eqn:E; cbn; [by intros _; eauto 10|].
  intros r [s2 l] [Hs2 Hl]; cbn in *; subst l. pose proof (vm_patch _ _ _ _ _ _ Hs2) as Hp.
  destruct r as [vm'|e]; cbn; [|done]. intros _.
  destruct Hp as (vm1 & vm2 & Hvm1 & Hap & Hss & Hst).
  assert (vm1 = vm) as ->.
  { eapply (vm_version _ _ _ _ _ _ Hs1); [exact Hvm1|]. by apply apply_test in Hap as [? _]. }
  apply (apply_addOps _ _ _ _ _ Et) in Hap as [_ ->].
  exists s1, vm, t. split_and!; eauto.
Qed.

(** When removeVolumeFromVM succeeds, the machine stored at the moment of the
    patch was changed exactly by dropping the volumes and disks of that
    name. *)
Lemma removeVolumeFromVM_unplugs cs node vol s :
  swp (logged step) (removeVolumeFromVM cs node vol) (s, []) (fun o sl =>
    o = Returned (Ok tt) ->
    exists s1 vm t vm', last sl.2 = Some s1
      /\ vms s1 !! (namespace cs, node) = Some vm /\ vm_Template vm = Some t
      /\ vms sl.1 = <[(namespace cs, node) := vm']> (vms s1)
      /\ same_spec vm' (set_Template (unplug vol t) vm)).
Proof.
  unfold removeVolumeFromVM. cbn -[removeOps]. intros [vm|e] [s1 l] [Hs1 Hl];
    cbn -[removeOps] in *; subst l; [|done].
  pose proof (vm_get _ _ _ _ _ Hs1) as Hget. cbn in Hget.
  destruct (vm_Template vm) as [t|] eqn:Et; cbn -[removeOps]; [|done].
  intros r [s2 l] [Hs2 Hl]; cbn -[removeOps] in *; subst l.
  pose proof (vm_patch _ _ _ _ _ _ Hs2) as Hp.
  destruct r as [vm'|e]; cbn; [|done]. intros _.
  destruct Hp as (vm1 & vm2 & Hvm1 & Hap & Hss & Hst).
  assert (vm1 = vm) as ->.
  { eapply (vm_version _ _ _ _ _ _ Hs1); [exact Hvm1|]. by apply apply_test in Hap as [? _]. }
  apply (apply_removeOps _ _ _ _ _ Et) in Hap as [_ ->].
  exists s1, vm, t, vm'. split_and!; eauto.
Qed.

(** C4: hot plugging loses no update of another client.  When addVolumeToVM
    succeeds, the machine stored at the moment of its last call either had
    the volume and its disk already, or was changed by the patch exactly by
    plugging the volume in; when removeVolumeFromVM succeeds, although it
    replaces whole lists, the machine stored at the moment of its patch was
    changed exactly by dropping the volumes and disks of that name, the
    others being kept in order.  Every other field and every other machine
    is kept. *)
Theorem hotplug_updates cs node vol s :
  swp (logged step) (addVolumeToVM cs node vol) (s, []) (fun o sl =>
    o = Returned (Ok tt) ->
    exists s1 vm t, last sl.2 = Some s1
      /\ vms s1 !! (namespace cs, node) = Some vm /\ vm_Template vm = Some t
      /\ ((hasVolume vol t && hasDisk vol t)%bool = true
          \/ exists vm', vms sl.1 = <[(namespace cs, node) := vm']> (vms s1)
               /\ same_spec vm' (set_Template (plug vol t) vm)))
  /\ swp (logged step) (removeVolumeFromVM cs node vol) (s, []) (fun o sl =>
    o = Returned (Ok tt) ->
    exists s1 vm t vm', last sl.2 = Some s1
      /\ vms s1 !! (namespace cs, node) = Some vm /\ vm_Template vm = Some t
      /\ vms sl.1 = <[(namespace cs, node) := vm']> (vms s1)
      /\ same_spec vm' (set_Template (unplug vol t) vm)).
Proof. split; [apply addVolumeToVM_plugs|apply removeVolumeFromVM_unplugs]. Qed.

End Machines.

Lemma hotplug_updates_witness :
  (exec mem_serve (addVolumeToVM sample_cs "node1" "vol1") sample_cluster).1.1 = Returned (Ok tt)
  /\ (exec mem_serve (removeVolumeFromVM sample_cs "node1" "vol1") sample_attached).1.1
     = Returned (Ok tt)
  /\ swp (logged mem_step) (addVolumeToVM sample_cs "node1" "vol1") (sample_cluster, [])
      (fun o sl => o = Returned (Ok tt) -> exists s1 vm t, last sl.2 = Some s1
        /\ cl_vms s1 !! ("guest", "node1") = Some vm /\ vm_Template vm = Some t
        /\ ((hasVolume "vol1" t && hasDisk "vol1" t)%bool = true
            \/ exists vm', cl_vms sl.1 = <[("guest", "node1") := vm']> (cl_vms s1)
                 /\ same_spec vm' (set_Template (plug "vol1" t) vm)))
  /\ swp (logged mem_step) (removeVolumeFromVM sample_cs "node1" "vol1") (sample_attached, [])
      (fun o sl => o = Returned (Ok tt) -> exists s1 vm t vm', last sl.2 = Some s1
        /\ cl_vms s1 !! ("guest", "node1") = Some vm /\ vm_Template vm = Some t
        /\ cl_vms sl.1 = <[("guest", "node1") := vm']> (cl_vms s1)
        /\ same_spec vm' (set_Template (unplug "vol1" t) vm)).
Proof.
  split; [vm_compute; reflexivity|]. split; [vm_compute; reflexivity|]. split.
  - exact (proj1 (hotplug_updates sample_cs "node1" "vol1" sample_cluster)).
  - exact (proj2 (hotplug_updates sample_cs "node1" "vol1" sample_attached)).
Defined.
