(* ===== verification/Liveness.v ===== *)
(** * Publish completes on a cluster that cooperates

    ControllerPublishVolume polls: first until the attachments of the volume
    have settled, then, after the hot plug, until the instance shows the
    volume.  Here it is shown that on a cluster that answers, on which the
    machine is not changed by others, and whose attachments and instance
    catch up before the polling deadline, the call returns success. *)

From S2P Require Import Prelude Go Prog Kube Csi Api Store Utils CsiUtil Controller Volumes VolumesSpec Attach AttachSpec Samples.

(** No attachment in the list keeps the volume [pv] on another node; each
    one names its volume. *)
Definition all_settled (pv node : string) (vas : list VolumeAttachment) : Prop :=
  Forall (fun va => exists n, va_PersistentVolumeName va = Some n
                       /\ (n = pv -> va_NodeName va = node)) vas.

Definition all_named (vas : list VolumeAttachment) : Prop :=
  Forall (fun va => va_PersistentVolumeName va <> None) vas.

(** [machine s] is the machine of the node; [pending s] bounds how many
    polling rounds will still find something that has not caught up. *)
Class FairCluster (cs : ControllerServer) (node : string) (claim : PersistentVolumeClaim)
    (S : Type) (step : forall c, S -> reply c -> S -> Prop) := {
  machine : S -> VirtualMachine;
  pending : S -> nat;
  host : string;
  fair_answers : forall c s, exists r s', step c s r s';
  fair_pvc : forall s r s', step (PvcGet (namespace cs) (name_of claim)) s r s' -> r = Ok claim;
  fair_host_va : forall s r s', step HostVaList s r s' -> exists l, r = Ok l /\ all_named l
    /\ (all_settled (VolumeName (pvc_Spec claim)) host l \/ (pending s' < pending s)%nat);
  fair_guest_va : forall s r s', step GuestVaList s r s' -> exists l, r = Ok l /\ all_named l
    /\ (all_settled (name_of claim) node l \/ (pending s' < pending s)%nat);
  fair_vm : forall s r s', step (VmGet (namespace cs) node) s r s' -> r = Ok (machine s);
  fair_vmi : forall s r s', step (VmiGet (namespace cs) node) s r s' ->
    exists vmi, r = Ok vmi /\ vmi_NodeName vmi = host
      /\ (forall t, vm_Template (machine s) = Some t -> hasVolume (name_of claim) t = true ->
          hasHotplug (name_of claim) vmi = true \/ (pending s' < pending s)%nat);
  fair_rounds : forall i t s n s', step (PollRounds i t) s n s' -> (pending s' < n)%nat;
  fair_patch : forall ops s r s' vm1, step (VmPatch (namespace cs) node ops) s r s' ->
    apply_patch ops (machine s) = Some vm1 ->
    exists vm', r = Ok vm' /\ vm_Template (machine s') = vm_Template vm1;
  fair_add : forall opts s r s', step (VmAddVolume (namespace cs) node opts) s r s' ->
    r = Ok tt /\ exists t, vm_Template (machine s') = Some t /\ hasVolume (avo_Name opts) t = true;
  fair_quiet : forall c s r s', step c s r s' -> mutating c = false ->
    machine s' = machine s /\ (pending s' <= pending s)%nat;
}.

Section Fair.

Context {cs : ControllerServer} {node : string} {claim : PersistentVolumeClaim}.
Context {S : Type} {step : forall c, S -> reply c -> S -> Prop}.
Context `{!FairCluster cs node claim S step}.
Implicit Types s : S.

(** From [s] to [s'] the machine is kept and nothing falls behind. *)
Definition forth (s s' : S) : Prop := machine s' = machine s /\ (pending s' <= pending s)%nat.

Lemma forth_refl s : forth s s.
Proof. by split. Qed.

Lemma forth_trans s1 s2 s3 : forth s1 s2 -> forth s2 s3 -> forth s1 s3.
Proof. intros [H1 H2] [H3 H4]. split; [congruence|lia]. Qed.

(** A check that, when it answers no, brings the cluster closer to yes *)
Definition progresses (s : S) (o : outcome (result bool)) (s' : S) : Prop :=
  forth s s' /\ (o = Returned (Ok true) \/ o = Returned (Ok false) /\ (pending s' < pending s)%nat).

(** ** Polling *)

Lemma loop_completes (I : S -> Prop) condition rounds s :
  (forall s1, I s1 -> swp step condition s1 (progresses s1)) ->
  (forall s1 s2, forth s1 s2 -> I s1 -> I s2) ->
  I s -> (pending s < rounds)%nat ->
  swp step (loopCondition condition rounds) s (fun o s' => o = Returned (Ok tt) /\ forth s s').
Proof.
  intros Hc Hi. revert s. induction rounds as [|n IH]; intros s Hs Hp; [lia|]. cbn [loopCondition].
  eapply swp_bind_use; [by apply Hc| |by intros w s1 [_ [|[? _]]]].
  intros a s1 [Hf [[= ->]|[[= ->] Hlt]]]; cbn; [done|].
  eapply swp_mono; [apply IH; [by eapply Hi|lia]|]. intros o s2 [-> Hf2]. split; [done|].
  by eapply forth_trans.
Qed.

Lemma poll_completes (I : S -> Prop) condition i t imm s :
  (forall s1, I s1 -> swp step condition s1 (progresses s1)) ->
  (forall s1 s2, forth s1 s2 -> I s1 -> I s2) -> I s ->
  swp step (PollUntilContextTimeout i t imm condition) s
    (fun o s' => o = Returned (Ok tt) /\ forth s s').
Proof.
  intros Hc Hi Hs. unfold PollUntilContextTimeout.
  eapply (swp_bind_use _ _ _ _ (fun o s' => forth s s' /\ exists b, o = Returned (Ok b))).
  - destruct imm; [|cbn; split; [apply forth_refl|eauto]].
    eapply swp_mono; [by apply Hc|]. intros o s1 [Hf [->|[-> _]]]; eauto.
  - intros a s1 [Hf [b [= ->]]]. destruct b; cbn; [done|]. intros n s2 Hn.
    apply fair_rounds in Hn as Hlt. apply fair_quiet in Hn; [|done].
    pose proof (forth_trans _ _ _ Hf Hn) as Hf2.
    eapply swp_mono; [eapply (loop_completes I); [done|done|by eapply Hi|done]|].
    intros o s3 [-> Hf3]. split; [done|]. by eapply forth_trans.
  - by intros w s1 [_ [b ?]].
Qed.

(** ** The two conditions *)

Lemma host_loop pv h vas :
  all_named vas -> exists b, checkHostVA_loop pv h vas = Ret (Ok b) /\ (all_settled pv h vas -> b = true).
Proof.
  induction vas as [|va vas IH]; intros Hn; [by exists true|]. apply Forall_cons in Hn as [Hva Hn].
  destruct (IH Hn) as (b & Hb & Hs). cbn [checkHostVA_loop].
  destruct (va_PersistentVolumeName va) as [n|] eqn:E; [|done]. cbn [deref bind].
  destruct (_ && _) eqn:Ec; [|exists b; split; [done|by intros [_ H]%Forall_cons; apply Hs]].
  exists false. split; [done|]. intros [(n' & Hn' & Hnode) _]%Forall_cons.
  apply andb_prop in Ec as [->%String.eqb_eq Hne]. rewrite E in Hn'. injection Hn' as <-.
  by rewrite Hnode, String.eqb_refl in Hne.
Qed.

Lemma guest_loop pv h vas :
  all_named vas -> exists b, checkGuestVA_loop pv h vas = Ret (Ok b) /\ (all_settled pv h vas -> b = true).
Proof.
  induction vas as [|va vas IH]; intros Hn; [by exists true|]. apply Forall_cons in Hn as [Hva Hn].
  destruct (IH Hn) as (b & Hb & Hs). cbn [checkGuestVA_loop].
  destruct (va_Attached va); [|exists b; split; [done|by intros [_ H]%Forall_cons; apply Hs]].
  destruct (va_PersistentVolumeName va) as [n|] eqn:E; [|done]. cbn [deref bind negb].
  destruct (_ && _) eqn:Ec; [|exists b; split; [done|by intros [_ H]%Forall_cons; apply Hs]].
  exists false. split; [done|]. intros [(n' & Hn' & Hnode) _]%Forall_cons.
  apply andb_prop in Ec as [->%String.eqb_eq Hne]. rewrite E in Hn'. injection Hn' as <-.
  by rewrite Hnode, String.eqb_refl in Hne.
Qed.

Lemma settled_progresses s : swp step (waitForVASettled cs claim node) s (progresses s).
Proof.
  unfold waitForVASettled, checkHostVA, checkGuestVA. cbn. intros r s1 Hs1.
  destruct (fair_host_va _ _ _ Hs1) as (l & -> & Hn & Hl). apply fair_quiet in Hs1 as Hf1; [|done].
  cbn. match goal with |- context [if ?b then _ else _] => destruct b end; cbn; [by split; [|left]|].
  intros r s2 Hs2. destruct (fair_vmi _ _ _ Hs2) as (vmi & -> & Hh & _).
  apply fair_quiet in Hs2 as Hf2; [|done]. pose proof (forth_trans _ _ _ Hf1 Hf2) as Hf12. cbn.
  destruct (host_loop (VolumeName (pvc_Spec claim)) (vmi_NodeName vmi) l Hn) as (b & -> & Hb).
  destruct b; cbn.
  2: { split; [done|]. right. split; [done|]. destruct Hl as [Hl|Hl]; [|destruct Hf2; lia].
       rewrite Hh in Hb. by specialize (Hb Hl). }
  intros r s3 Hs3. destruct (fair_guest_va _ _ _ Hs3) as (l' & -> & Hn' & Hl').
  apply fair_quiet in Hs3 as Hf3; [|done]. pose proof (forth_trans _ _ _ Hf12 Hf3) as Hf. cbn.
  destruct (guest_loop (name_of claim) node l' Hn') as (b & -> & Hb'). cbn. split; [done|].
  destruct b; [by left|]. right. split; [done|]. destruct Hl' as [Hl'|Hl']; [by specialize (Hb' Hl')|].
  destruct Hf12. lia.
Qed.

(** The machine has the volume. *)
Definition has_volume (s : S) : Prop :=
  exists t, vm_Template (machine s) = Some t /\ hasVolume (name_of claim) t = true.

Lemma has_volume_forth s1 s2 : forth s1 s2 -> has_volume s1 -> has_volume s2.
Proof. intros [Hm _] (t & Ht & Hv). exists t. by rewrite Hm. Qed.

(** What isVolAttached answers *)
Lemma isVolAttached_answers t s :
  vm_Template (machine s) = Some t ->
  swp step (isVolAttached cs node (name_of claim)) s (fun o s' => forth s s' /\ exists b,
    o = Returned (Ok b)
    /\ (hasVolume (name_of claim) t = true -> b = true \/ (pending s' < pending s)%nat)).
Proof.
  intros Ht. unfold isVolAttached, checkVolumeExistsInVM, checkVolumeExistsInVMI. cbn. intros r s1 Hs1.
  rewrite (fair_vm _ _ _ Hs1). apply fair_quiet in Hs1 as Hf1; [|done]. cbn. rewrite Ht. cbn.
  intros r' s2 Hs2. destruct (fair_vmi _ _ _ Hs2) as (vmi & -> & _ & Hh).
  apply fair_quiet in Hs2 as Hf2; [|done]. cbn. split; [by eapply forth_trans|].
  eexists. split; [done|]. intros Hv. destruct Hf1 as [Hm Hp]. rewrite <- Hm in Ht.
  destruct (Hh _ Ht Hv) as [->|Hlt]; [left; by rewrite Hv|right; lia].
Qed.

Lemma attached_progresses s :
  has_volume s -> swp step (volumeAttachedCheck cs node (name_of claim)) s (progresses s).
Proof.
  intros (t & Ht & Hv). unfold volumeAttachedCheck.
  eapply swp_bind_use; [by apply isVolAttached_answers| |by intros w s1 [_ (b & ? & _)]].
  intros a s1 (Hf & b & [= ->] & Hb). cbn. split; [done|]. destruct b; [by left|].
  right. split; [done|]. by destruct (Hb Hv).
Qed.

(** ** The hot plug *)

Lemma hotplug_completes t s :
  vm_Template (machine s) = Some t -> Volumes t <> [] -> Disks t <> [] ->
  swp step (hotplugVolumeToVM cs node (name_of claim)) s
    (fun o s' => o = Returned (Ok tt) /\ has_volume s').
Proof.
  intros Ht Hvs Hds. unfold hotplugVolumeToVM. destruct (useDeclarativeHotplug cs).
  - unfold addVolumeToVM. cbn -[addOps]. intros r s1 Hs1. rewrite (fair_vm _ _ _ Hs1).
    apply fair_quiet in Hs1 as [Hm _]; [|done]. cbn -[addOps]. rewrite Ht. cbn -[addOps].
    destruct (_ && _) eqn:E; cbn -[addOps].
    + split; [done|]. exists t. rewrite Hm. by apply andb_prop in E as [? _].
    + intros r' s2 Hs2. pose proof (apply_addOps_ok (name_of claim) _ _ Ht Hvs Hds) as Ha.
      rewrite <- Hm in Ha at 2. destruct (fair_patch _ _ _ _ _ Hs2 Ha) as (vm' & -> & Ht2). cbn.
      split; [done|]. exists (plug (name_of claim) t). rewrite Ht2. split; [done|]. apply plug_hasVolume.
  - cbn. intros r s1 Hs1. destruct (fair_add _ _ _ _ Hs1) as [-> Hv]. by split.
Qed.

Lemma publishBlock_completes t s :
  vm_Template (machine s) = Some t -> Volumes t <> [] -> Disks t <> [] ->
  swp step (publishBlockVolume cs claim node (name_of claim)) s (fun o _ => o = Returned (Ok tt)).
Proof.
  intros Ht Hvs Hds. unfold publishBlockVolume.
  eapply swp_bind_use;
    [apply (poll_completes (fun _ => True)); [intros; apply settled_progresses|done|done]| |by intros w s1 [? _]].
  intros a s1 [[= ->] [Hm _]]. rewrite <- Hm in Ht.
  eapply swp_bind_use; [by apply isVolAttached_answers| |by intros w s2 (_ & b & ? & _)].
  intros a s2 ([Hm2 _] & b & [= ->] & _). rewrite <- Hm2 in Ht. destruct b; [done|].
  eapply swp_bind_use; [by eapply hotplug_completes| |by intros w s3 [? _]].
  intros a s3 [[= ->] Hv]. unfold waitForVolumeAttached.
  eapply swp_bind_use;
    [apply (poll_completes has_volume); [apply attached_progresses|apply has_volume_forth|done]
    | |by intros w s4 [? _]].
  by intros a s4 [[= ->] _].
Qed.

(** C3: ControllerPublishVolume completes.  On a cluster that answers every
    call, with the claim bound, the machine of the node not changed by
    others and holding at least one volume and one disk, and whose attachments and instance catch up within the rounds
    that polling allows (each round that finds something stale brings the
    cluster closer), every run of the call for a volume that is not RWX ends
    with success, with either way of hot plugging, and there is such a run. *)
Theorem ControllerPublishVolume_completes req cap t s :
  cp_VolumeId req = name_of claim -> cp_NodeId req = node -> node <> "" ->
  cp_VolumeCapability req = Some cap -> GetMode cap <> MULTI_NODE_MULTI_WRITER ->
  pvc_Phase claim = ClaimBound ->
  vm_Template (machine s) = Some t -> Volumes t <> [] -> Disks t <> [] ->
  swp step (ControllerPublishVolume cs req) s (fun o _ => o = Returned (Ok tt))
  /\ exists s', srun step (ControllerPublishVolume cs req) s (Returned (Ok tt)) s'.
Proof.
  intros Hid Hnode Hne Hcap Hmode Hph Ht Hvs Hds.
  assert (swp step (ControllerPublishVolume cs req) s (fun o _ => o = Returned (Ok tt))) as Hall.
  { unfold ControllerPublishVolume. rewrite Hid, Hnode, (proj2 (String.eqb_neq _ _) Hne), Hcap.
    cbn -[publishBlockVolume isLHRWXVolume]. intros r s1 Hs1. rewrite (fair_pvc _ _ _ Hs1).
    apply fair_quiet in Hs1 as [Hm _]; [|done]. cbn -[publishBlockVolume isLHRWXVolume].
    rewrite Hph, (proj2 (Mode_eqb_neq _ _) Hmode). cbn -[publishBlockVolume].
    rewrite <- Hm in Ht. by eapply publishBlock_completes. }
  split; [done|]. destruct (srun_exists step (ControllerPublishVolume cs req) s fair_answers)
    as (o & s' & Hr). exists s'. by rewrite <- (proj1 (swp_iff _ _ _ _) Hall _ _ Hr).
Qed.

End Fair.

(** ** A cluster that lags behind

    The host shows an attachment to another node for [lc_stale] more reads;
    the instance shows the volume after [lc_lag] more reads once the machine
    has it. *)

Record LagCluster := mkLag { lc_vm : VirtualMachine; lc_stale : nat; lc_lag : nat }.

Definition lag_claim : PersistentVolumeClaim := sample_pvc "vol1" PersistentVolumeBlock 10485760.

Definition lag_has (vm : VirtualMachine) : bool :=
  match vm_Template vm with Some t => hasVolume "vol1" t | None => false end.

Definition lag_va (node : string) : VolumeAttachment := mkVA (newMeta "" "va1") (Some "pv-vol1") node true.

Definition lag_serve (c : call) : LagCluster -> reply c * LagCluster :=
  match c return LagCluster -> reply c * LagCluster with
  | PvcGet _ _ => fun s => (Ok lag_claim, s)
  | HostVaList => fun s =>
      match lc_stale s with
      | O => (Ok [lag_va "host1"], s)
      | S n => (Ok [lag_va "host2"], mkLag (lc_vm s) n (lc_lag s))
      end
  | GuestVaList => fun s => (Ok [], s)
  | VmGet _ _ => fun s => (Ok (lc_vm s), s)
  | VmiGet _ _ => fun s =>
      if lag_has (lc_vm s) then
        match lc_lag s with
        | O => (Ok (sample_vmi ["vol1"]), s)
        | S n => (Ok (sample_vmi []), mkLag (lc_vm s) (lc_stale s) n)
        end
      else (Ok (sample_vmi []), s)
  | VmPatch _ _ ops => fun s =>
      match apply_patch ops (lc_vm s) with
      | Some vm => (Ok (bump vm), mkLag (bump vm) (lc_stale s) (lc_lag s))
      | None => (Err (OtherErr "invalid"), s)
      end
  | VmAddVolume _ _ opts => fun s =>
      (Ok tt, mkLag (set_Template (mkVMTemplate [hotplugVolume (avo_Name opts)] []) (lc_vm s))
                (lc_stale s) (lc_lag s))
  | PollRounds _ _ => fun s => (S (lc_stale s + lc_lag s), s)
  | c => fun s => ((mem_serve c sample_cluster).1, s)
  end.

#[export] Program Instance lag_FairCluster :
    FairCluster sample_cs "node1" lag_claim LagCluster (step_of lag_serve) := {|
  machine := lc_vm; pending := fun s => (lc_stale s + lc_lag s)%nat; host := "host1";
|}.
Next Obligation. intros c s. eexists _, _. apply surjective_pairing. Qed.
Next Obligation. by intros s r s' [= <- _]. Qed.
Next Obligation.
  intros s r s'. unfold step_of. cbn. destruct (lc_stale s) eqn:E; intros [= <- <-];
    eexists; (split_and!; [done|by repeat constructor|]).
  - left. repeat constructor. by exists "pv-vol1".
  - right. cbn. lia.
Qed.
Next Obligation. intros s r s' [= <- _]. eexists; split_and!; [done|constructor|left; constructor]. Qed.
Next Obligation. by intros s r s' [= <- _]. Qed.
Next Obligation.
  intros s r s'. unfold step_of. cbn. unfold lag_has. destruct (vm_Template (lc_vm s)) as [t|] eqn:Et.
  - destruct (hasVolume "vol1" t) eqn:Eh; [destruct (lc_lag s) eqn:El|]; intros [= <- <-]; eexists;
      (split_and!; [done|done|]); intros t' [= <-]; [by left|right; cbn; lia|].
    intros H. by rewrite H in Eh.
  - intros [= <- <-]. by eexists.
Qed.
Next Obligation. intros i t s n s' [= <- <-]. lia. Qed.
Next Obligation.
  intros ops s r s' vm1. unfold step_of. cbn. intros Hs Ha. rewrite Ha in Hs. injection Hs as <- <-. eauto.
Qed.
Next Obligation.
  intros opts s r s' [= <- <-]. split; [done|]. eexists. split; [done|]. cbn. by rewrite String.eqb_refl.
Qed.
Next Obligation.
  intros c s r s'. unfold step_of. destruct c; try done; cbn; try by intros [= _ <-].
  - destruct (lc_stale s) eqn:E; intros [= _ <-] _; cbn; split; done || lia.
  - destruct (lag_has _); [destruct (lc_lag s) eqn:E|]; intros [= _ <-] _; cbn; split; done || lia.
Qed.

Lemma ControllerPublishVolume_completes_witness :
  let req := mkPublishRequest "vol1" "node1" (Some (sample_cap SINGLE_NODE_WRITER)) in
  let s := mkLag sample_vm 2 3 in
  swp (step_of lag_serve) (ControllerPublishVolume sample_cs req) s (fun o _ => o = Returned (Ok tt))
  /\ exists s', srun (step_of lag_serve) (ControllerPublishVolume sample_cs req) s (Returned (Ok tt)) s'.
Proof.
  cbv zeta. by apply (ControllerPublishVolume_completes (claim := lag_claim) (node := "node1")
    (mkPublishRequest "vol1" "node1" (Some (sample_cap SINGLE_NODE_WRITER)))
    (sample_cap SINGLE_NODE_WRITER)
    (mkVMTemplate [mkVMVolume "root" None "containerDisk"] [mkVMDisk "root" (Some "virtio") "disk"])).
Defined.
