(* ===== verification/Rwx.v ===== *)
(** * Shared (RWX) volumes on the host: switching a network file system

    publishRWXVolume asks for the network file system of a volume to be
    enabled, unpublishRWXVolume for it to be disabled once no pod of the
    guest uses the volume.  Both read the object, decide, and write it back
    whole.  Here they are related to the objects a server stores: what
    success means for the stored object, that no update of another client is
    lost, and which errors and panics there are. *)

From S2P Require Import Prelude Go Prog Kube Csi Api Store CsiUtil Controller Volumes Attach Samples.

(** ** What the API servers promise for network file systems *)

(** The two objects differ in their metadata other than the name at most. *)
Definition same_fs (a b : NetworkFilesystem) : Prop :=
  name_of a = name_of b
  /\ (NetworkFSName a, DesiredState a, nfs_Provisioner a, nfs_State a, nfs_Status a,
      nfs_Endpoint a, nfs_MountOpts a)
     = (NetworkFSName b, DesiredState b, nfs_Provisioner b, nfs_State b, nfs_Status b,
        nfs_Endpoint b, nfs_MountOpts b).

(** [known s k x]: the version [x] of the object [k] was read before the
    state [s] was reached.  Objects are stored under their name; an update
    is refused unless the object it carries has the resource version that is
    stored, and an object without a name cannot be updated.  Other clients
    may act between any two calls. *)
Class NfsLaws (S : Type) (step : forall c, S -> reply c -> S -> Prop) := {
  filesystems : S -> gmap key NetworkFilesystem;
  guest_volumes : S -> gmap string PersistentVolume;
  pods_using : S -> string -> list Pod;
  known : S -> key -> NetworkFilesystem -> Prop;
  nfs_get : forall ns n s r s', step (NfsGet ns n) s r s' -> read_reply (filesystems s) (ns, n) r;
  nfs_get_known : forall ns n s x s', step (NfsGet ns n) s (Ok x) s' ->
    known s' (ns, n) x /\ name_of x = n;
  known_step : forall c s r s' k x, step c s r s' -> known s k x -> known s' k x;
  known_version : forall s k x y, known s k x -> filesystems s !! k = Some y ->
    ResourceVersion (meta y) = ResourceVersion (meta x) -> y = x;
  nfs_update : forall ns x s y s', step (NfsUpdate ns x) s (Ok y) s' ->
    name_of x <> "" /\ same_fs y x
    /\ (exists x0, filesystems s !! (ns, name_of x) = Some x0
          /\ ResourceVersion (meta x0) = ResourceVersion (meta x))
    /\ filesystems s' = <[(ns, name_of x) := y]> (filesystems s);
  guest_pv_get : forall n s pv s', step (GuestPvGet n) s (Ok pv) s' ->
    guest_volumes s !! n = Some pv;
  guest_pods : forall k s l s', step (GuestPodsByIndex IndexPodByPVC k) s (Ok l) s' ->
    pods_using s k = l;
}.

(** ** The switch *)

Section Switch.

Context {S : Type} {step : forall c, S -> reply c -> S -> Prop} `{!NfsLaws S step}.
Implicit Types s : S.

(** The object has the desired state asked for, or is on its way to it. *)
Definition switched (want busy : string) (x : NetworkFilesystem) : Prop :=
  DesiredState x = want \/ nfs_State x = busy.

(** The write of this call: the object stored when it was served was not
    switched, and was changed in its desired state only. *)
Definition switches (k : key) (want busy : string) (sl : S * list S) : Prop :=
  exists s1 x y, last sl.2 = Some s1 /\ filesystems s1 !! k = Some x /\ ~ switched want busy x
    /\ same_fs y (set_DesiredState want x) /\ filesystems sl.1 = <[k := y]> (filesystems s1).

(** The guest's claim for the volume has pods *)
Definition in_use (name : string) (l : list S) : Prop :=
  exists s1 s2 pv ns n, In s1 l /\ In s2 l /\ guest_volumes s1 !! name = Some pv
    /\ pv_ClaimRef pv = Some (ns, n) /\ pods_using s2 (ns +:+ "-" +:+ n) <> [].

(** How a run from the state [s] ends: a success started from a stored
    object, which was switched already, was switched by this call, or was
    left alone because it is in use; every error is Internal; a panic needs
    a guest volume that is not bound. *)
Definition switch_post (k : key) (want busy : string) (use : list S -> Prop)
    (unbound : list S -> Prop) (s : S) (o : outcome (result unit)) (sl : S * list S) : Prop :=
  match o with
  | Returned (Ok _) =>
      exists x, filesystems s !! k = Some x
        /\ (switched want busy x \/ use sl.2 \/ switches k want busy sl)
  | Returned (Err e) => exists msg, e = StatusErr Internal msg
  | Panicked _ => unbound sl.2
  end.

Definition unbound_volume (name : string) (l : list S) : Prop :=
  exists s1 pv, In s1 l /\ guest_volumes s1 !! name = Some pv /\ pv_ClaimRef pv = None.

(** An update that was accepted switches the stored object. *)
Lemma update_switches k want busy x s1 y s2 l :
  known s1 k x -> name_of x = k.2 -> ~ switched want busy x ->
  step (NfsUpdate k.1 (set_DesiredState want x)) s1 (Ok y) s2 ->
  switches k want busy (s2, l ++ [s1]).
Proof.
  intros Hk Hn Hsw Hu. destruct k as [ns n]; cbn in *; subst n.
  destruct (nfs_update _ _ _ _ _ Hu) as (_ & Hy & (x0 & Hx0 & Hv) & Hs2).
  exists s1, x, y. split_and!; [apply last_snoc| |done|done|done].
  rewrite <- (f_equal Some (known_version _ _ _ _ Hk Hx0 Hv)). exact Hx0.
Qed.

Lemma not_switched want busy x :
  (DesiredState x =? want)%string || (nfs_State x =? busy)%string = false -> ~ switched want busy x.
Proof. intros [H1 H2]%orb_false_elim [H|H]; by rewrite H, String.eqb_refl in *. Qed.

Lemma is_switched want busy x :
  (DesiredState x =? want)%string || (nfs_State x =? busy)%string = true -> switched want busy x.
Proof. intros [H%String.eqb_eq|H%String.eqb_eq]%orb_prop; [by left|by right]. Qed.

Lemma publish_switches pvc s :
  swp (logged step) (publishRWXVolume pvc) (s, [])
    (switch_post (HarvesterNS, VolumeName (pvc_Spec pvc)) NetworkFSStateEnabled NetworkFSStateEnabling
       (fun _ => False) (fun _ => False) s).
Proof.
  unfold publishRWXVolume, enableNetworkFilesystem, createNetworkFilesystem.
  cbn -[HarvesterNS]. intros [x|e] [s1 l1] [Hs1 Hl1]; cbn -[HarvesterNS] in *; subst l1.
  - pose proof (nfs_get _ _ _ _ _ Hs1) as Hx. cbn in Hx.
    destruct (_ || _) eqn:E; cbn -[HarvesterNS]; [exists x; split; [done|]; left; by apply is_switched|].
    intros [y|e] [s2 l2] [Hs2 Hl2]; cbn -[HarvesterNS] in *; subst l2; [|by eexists].
    exists x. split; [done|]. right; right.
    destruct (nfs_get_known _ _ _ _ _ Hs1) as [Hk Hn].
    apply (update_switches _ _ _ x s1 y s2 [s]); [done|done|by apply not_switched|done].
  - destruct (errors.IsNotFound e); cbn -[HarvesterNS]; [|by eexists].
    destruct (isNil _); cbn -[HarvesterNS].
    + intros [y|e'] [s2 l2] _; cbn; [by eexists|]. destruct (errors.IsAlreadyExists e'); cbn; by eexists.
    + intros [y|e'] [s2 l2] [Hs2 _]; cbn -[HarvesterNS]; [|by eexists].
      by destruct (nfs_update _ _ _ _ _ Hs2) as [[] _].
Qed.

Lemma unpublish_switches pvc s :
  swp (logged step) (unpublishRWXVolume pvc) (s, [])
    (switch_post (HarvesterNS, VolumeName (pvc_Spec pvc)) NetworkFSStateDisabled NetworkFSStateDisabling
       (in_use (name_of pvc)) (unbound_volume (name_of pvc)) s).
Proof.
  unfold unpublishRWXVolume. cbn -[HarvesterNS IndexPodByPVC].
  intros [x|e] [s1 l1] [Hs1 Hl1]; cbn -[HarvesterNS IndexPodByPVC] in *; subst l1; [|by eexists].
  pose proof (nfs_get _ _ _ _ _ Hs1) as Hx. cbn in Hx.
  destruct (_ || _) eqn:E; cbn -[HarvesterNS IndexPodByPVC];
    [exists x; split; [done|]; left; by apply is_switched|].
  intros [pv|e] [s2 l2] [Hs2 Hl2]; cbn -[HarvesterNS IndexPodByPVC] in *; subst l2; [|by eexists].
  apply guest_pv_get in Hs2 as Hpv.
  destruct (pv_ClaimRef pv) as [[ns n]|] eqn:Ec; cbn -[HarvesterNS IndexPodByPVC];
    [|exists s1, pv; auto with csi].
  intros pods [s3 l3] [Hs3 Hl3]; cbn -[HarvesterNS IndexPodByPVC] in *; subst l3.
  destruct (match pods with Ok l => _ | Err _ => _ end) eqn:Eu; cbn -[HarvesterNS IndexPodByPVC].
  - exists x. split; [done|]. right; left. exists s1, s2, pv, ns, n.
    destruct pods as [pods|]; [|done]. apply guest_pods in Hs3 as Hp.
    split_and!; auto with csi. rewrite Hp. by destruct pods.
  - intros [y|e] [s4 l4] [Hs4 Hl4]; cbn -[HarvesterNS IndexPodByPVC] in *; subst l4; [|by eexists].
    exists x. split; [done|]. right; right. apply (update_switches _ _ _ x s3 y s4 [s; s1; s2]).
    + eapply known_step, known_step; [eassumption..|]. by eapply nfs_get_known.
    + by eapply nfs_get_known.
    + by apply not_switched.
    + done.
Qed.

(** C18: switching a shared volume on and off does what it says to the stored
    network file system.  When publishRWXVolume succeeds the object of the
    claim's volume was stored when the call started and was enabled (or being
    enabled) already, or the object stored when the update was served was
    changed by it in its desired state only, so that no update of another
    client is lost although the whole object is written; likewise for
    unpublishRWXVolume and the disabled state, which also succeeds, and
    writes nothing, when the guest's claim has pods.  A missing object is an
    error in both directions; every error is Internal; only an unbound volume
    of the guest makes unpublishRWXVolume panic. *)
Theorem rwx_switch pvc s :
  let k := (HarvesterNS, VolumeName (pvc_Spec pvc)) in
  swp (logged step) (publishRWXVolume pvc) (s, [])
    (switch_post k NetworkFSStateEnabled NetworkFSStateEnabling (fun _ => False) (fun _ => False) s)
  /\ swp (logged step) (unpublishRWXVolume pvc) (s, [])
       (switch_post k NetworkFSStateDisabled NetworkFSStateDisabling
          (in_use (name_of pvc)) (unbound_volume (name_of pvc)) s).
Proof. split; [apply publish_switches|apply unpublish_switches]. Qed.

End Switch.

(** ** An in-memory host for network file systems

    Every write stores the object under the next revision. *)

Record RwxHost := mkRwxHost {
  rh_fs : gmap key NetworkFilesystem;
  rh_rev : nat;
  rh_pvs : gmap string PersistentVolume;
  rh_pods : gmap string (list Pod);
}.

Fixpoint tally (n : nat) : string :=
  match n with O => "" | S n => String "1" (tally n) end.

Definition stamp (rev : nat) (x : NetworkFilesystem) : NetworkFilesystem :=
  let m := nfs_meta x in
  mkNFS (mkMeta (Name m) (Namespace m) (Labels m) (Annotations m) (tally rev)
           (DeletionTimestamp m) (CreationTimestamp m))
    (NetworkFSName x) (DesiredState x) (nfs_Provisioner x) (nfs_State x) (nfs_Status x)
    (nfs_Endpoint x) (nfs_MountOpts x).

Definition store_fs (ns : string) (x : NetworkFilesystem) (s : RwxHost)
    : result NetworkFilesystem * RwxHost :=
  let y := stamp (S (rh_rev s)) x in
  (Ok y, mkRwxHost (<[(ns, name_of x) := y]> (rh_fs s)) (S (rh_rev s)) (rh_pvs s) (rh_pods s)).

Definition rwx_serve (c : call) : RwxHost -> reply c * RwxHost :=
  match c return RwxHost -> reply c * RwxHost with
  | NfsGet ns n => fun s => (lookup_reply (rh_fs s) (ns, n), s)
  | NfsCreate ns x => fun s =>
      match rh_fs s !! (ns, name_of x) with
      | Some _ => (Err (APIErr "AlreadyExists" 409 (name_of x +:+ " already exists")), s)
      | None => store_fs ns x s
      end
  | NfsUpdate ns x => fun s =>
      if (name_of x =? "")%string then (Err (OtherErr "resource name may not be empty"), s)
      else
        match rh_fs s !! (ns, name_of x) with
        | None => (notFound (name_of x), s)
        | Some x0 =>
            if (ResourceVersion (meta x0) =? ResourceVersion (meta x))%string then store_fs ns x s
            else (Err (APIErr "Conflict" 409 "the object has been modified"), s)
        end
  | NfsDelete ns n => fun s =>
      (Ok tt, mkRwxHost (delete (ns, n) (rh_fs s)) (rh_rev s) (rh_pvs s) (rh_pods s))
  | GuestPvGet n => fun s =>
      (match rh_pvs s !! n with Some pv => Ok pv | None => notFound n end, s)
  | GuestPodsByIndex _ k => fun s => (Ok (default [] (rh_pods s !! k)), s)
  | c => fun s => ((mem_serve c sample_cluster).1, s)
  end.

(** The states of the host: an object is stored under its name, with a
    revision that was given out. *)
Definition rwx_state (s : RwxHost) : Prop :=
  map_Forall (fun k x => name_of x = k.2
    /\ String.length (ResourceVersion (meta x)) <= rh_rev s)%nat (rh_fs s).

Definition rwx_step (c : call) (s : RwxHost) (r : reply c) (s' : RwxHost) : Prop :=
  rwx_state s /\ step_of rwx_serve c s r s'.

Definition rwx_known (s : RwxHost) (k : key) (x : NetworkFilesystem) : Prop :=
  (String.length (ResourceVersion (meta x)) <= rh_rev s)%nat
  /\ forall y, rh_fs s !! k = Some y -> ResourceVersion (meta y) = ResourceVersion (meta x) -> y = x.

Lemma length_tally n : String.length (tally n) = n.
Proof. induction n as [|n IH]; [done|]. exact (f_equal Datatypes.S IH). Qed.

Lemma store_fs_known ns x s k z :
  rwx_known s k z -> rwx_known (store_fs ns x s).2 k z.
Proof.
  intros [Hl Hu]. split; cbn; [lia|]. intros y [[<- <-]|[_ Hy]]%lookup_insert_Some Hv; [|by apply Hu].
  cbn in Hv. rewrite <- Hv in Hl. change (String "1" (tally (rh_rev s))) with (tally (S (rh_rev s))) in Hl.
  rewrite length_tally in Hl. lia.
Qed.

#[export] Program Instance rwx_NfsLaws : NfsLaws RwxHost rwx_step := {|
  filesystems := rh_fs; guest_volumes := rh_pvs; known := rwx_known;
  pods_using := fun s k => default [] (rh_pods s !! k);
|}.
Next Obligation. intros ns n s r s' [_ [= <- <-]]. apply read_reply_lookup. Qed.
Next Obligation.
  intros ns n s x s' [Hst [= Hr <-]]. unfold lookup_reply in Hr.
  destruct (rh_fs s !! (ns, n)) as [x'|] eqn:E; [|done]. injection Hr as ->.
  destruct (Hst _ _ E) as [Hn Hl]. split; [|done]. split; [done|]. intros y. rewrite E. by intros [= ->].
Qed.
Next Obligation.
  intros c s r s' k x [_ Hst] Hk. unfold step_of in Hst. apply (f_equal snd) in Hst. cbn in Hst. subst s'.
  destruct c; cbn -[store_fs]; repeat case_match; try done; try by apply store_fs_known.
  destruct Hk as [Hl Hu]. split; [done|]. cbn. intros y [_ Hy]%lookup_delete_Some. by apply Hu.
Qed.
Next Obligation. intros s k x y [_ Hu]. apply Hu. Qed.
Next Obligation.
  intros ns x s y s' [_ Hst]. unfold step_of in Hst. cbn -[store_fs] in Hst.
  destruct (name_of x =? "")%string eqn:En; [done|]. apply String.eqb_neq in En.
  destruct (rh_fs s !! _) as [x0|] eqn:E; [|done]. destruct (_ =? _)%string eqn:Ev; [|done].
  apply String.eqb_eq in Ev. injection Hst as <- <-. split_and!; [done|done|by exists x0|done].
Qed.
Next Obligation. intros n s pv s' [_ [= Hr _]]. by destruct (rh_pvs s !! n); simplify_eq. Qed.
Next Obligation. by intros k s l s' [_ [= <- _]]. Qed.

(** A volume whose network file system is off, with one pod that uses it *)
Definition rwx_host (desired : string) (pods : list Pod) : RwxHost :=
  mkRwxHost
    (<[(HarvesterNS, "pv-nfs1") := stamp 3 (set_DesiredState desired (newNetworkFilesystem "pv-nfs1"))]> ∅) 3
    (<["nfs1" := mkPV (newMeta "" "nfs1") (Some ("default", "data"))]> ∅)
    (<["default-data" := pods]> ∅).

Lemma rwx_switch_witness :
  let pvc := sample_pvc "nfs1" PersistentVolumeFilesystem 10485760 in
  let k := (HarvesterNS, "pv-nfs1") in
  let on := rwx_host NetworkFSStateEnabled [] in
  let off := rwx_host NetworkFSStateDisabled [] in
  (exec rwx_serve (publishRWXVolume pvc) off).1.1 = Returned (Ok tt)
  /\ (DesiredState <$> rh_fs (exec rwx_serve (publishRWXVolume pvc) off).1.2 !! k)
     = Some NetworkFSStateEnabled
  /\ (DesiredState <$> rh_fs (exec rwx_serve (unpublishRWXVolume pvc) on).1.2 !! k)
     = Some NetworkFSStateDisabled
  /\ swp (logged rwx_step) (publishRWXVolume pvc) (off, [])
       (switch_post k NetworkFSStateEnabled NetworkFSStateEnabling (fun _ => False) (fun _ => False) off)
  /\ swp (logged rwx_step) (unpublishRWXVolume pvc) (on, [])
       (switch_post k NetworkFSStateDisabled NetworkFSStateDisabling
          (in_use "nfs1") (unbound_volume "nfs1") on).
Proof.
  cbv zeta. split_and!; [by vm_compute..| |].
  - exact (proj1 (rwx_switch (sample_pvc "nfs1" PersistentVolumeFilesystem 10485760) _)).
  - exact (proj2 (rwx_switch (sample_pvc "nfs1" PersistentVolumeFilesystem 10485760) _)).
Defined.
