(* ===== verification/NodeController.v ===== *)
(** * pkg/controller/node/controller.go: the node controller

    The controller watches the nodes of the guest cluster.  When a node and
    its virtual machine are both down it taints the node as out of service
    and then unplugs the hot-plugged volumes of the machine, so that they can
    be attached elsewhere; when both are healthy again it removes the
    taint. *)

From S2P Require Import Prelude Go Prog Kube Csi Api.

Record Controller := mkController {
  ctl_nodeName : string;
  ctl_namespace : string;
  ctl_useDeclarativeHotplug : bool;
}.

(** The controller Register sets up; its handler for node changes is
    [OnNodesChange] below. *)
Definition Register (nodeName namespace : string) (useDeclarativeHotplug : bool) : Controller :=
  {| ctl_nodeName := nodeName; ctl_namespace := namespace;
     ctl_useDeclarativeHotplug := useDeclarativeHotplug |}.

Definition nonGracefulTaintKey : string := "node.kubernetes.io/out-of-service".
Definition NodeReady : string := "Ready".
Definition VirtualMachineReady : string := "Ready".
Definition ConditionTrue : string := "True".
Definition VirtualMachineStatusRunning : string := "Running".
Definition TaintEffectNoExecute : string := "NoExecute".

(** Go's pair of an object and an error, either of which may be set. *)
Abbreviation NodeResult := (option Node * option error)%type.

(** The zero object a client returns next to an error *)
Definition emptyNode : Node := mkNode (newMeta "" "") [] [].

(** ** Look-ups: the first element of that type or key *)

Definition getNodeCondition (conditions : list Condition) (conditionType : string)
    : option Condition :=
  List.find (fun c => (cond_Type c =? conditionType)%string) conditions.

Definition getVMCondition (conditions : list Condition) (conditionType : string)
    : option Condition :=
  List.find (fun c => (cond_Type c =? conditionType)%string) conditions.

Definition getNodeTaint (taints : list Taint) (taintKey : string) : option Taint :=
  List.find (fun t => (taint_Key t =? taintKey)%string) taints.

Definition taintWithNoExecute (taint : option Taint) : bool :=
  match taint with
  | None => false
  | Some t => (taint_Effect t =? TaintEffectNoExecute)%string
  end.

(** ** Health *)

Definition getNodeAndVMHealth (c : Controller) (node : Node)
    : Fallible (bool * bool * VirtualMachine) :=
  match getNodeCondition (node_Conditions node) NodeReady with
  | None => Ret (Err (FmtErr ("can't find " +:+ NodeReady +:+ " condition in node "
                              +:+ name_of node)))
  | Some cond =>
      let nodeHealthy := (cond_Status cond =? ConditionTrue)%string in
      let* r := send (VmGet (ctl_namespace c) (name_of node)) in
      match r with
      | Err err => Ret (Err (WrapErr ("failed to get VM " +:+ Namespace (meta node) +:+ "/"
                                      +:+ name_of node +:+ ": " +:+ Error err) err))
      | Ok vm =>
          match getVMCondition (vm_Conditions vm) VirtualMachineReady with
          | None => Ret (Err (FmtErr ("can't find " +:+ VirtualMachineReady +:+ " condition in VM "
                                      +:+ Namespace (meta vm) +:+ "/" +:+ name_of vm)))
          | Some vmCond =>
              let vmHealthy := (cond_Status vmCond =? ConditionTrue)%string
                && (vm_PrintableStatus vm =? VirtualMachineStatusRunning)%string in
              Ret (Ok (nodeHealthy, vmHealthy, vm))
          end
      end
  end.

(** ** Taints *)

(** [c.Nodes.Update]: the client returns an object next to the error. *)
Definition updateNode (node : Node) : P NodeResult :=
  let* r := send (GuestNodeUpdate node) in
  match r with
  | Ok n => Ret (Some n, None)
  | Err e => Ret (Some emptyNode, Some e)
  end.

(** The slice is made with capacity [len-1], which panics on an empty list. *)
Definition removeTaint (node : Node) : P NodeResult :=
  if Z.of_nat (length (Taints node)) - 1 <? 0 then Panic "makeslice: cap out of range"
  else
    let newTaints := List.filter (fun t => negb (taint_Key t =? nonGracefulTaintKey)%string)
                       (Taints node) in
    updateNode (set_Taints newTaints node).

Definition addTaint (node : Node) : P NodeResult :=
  let newTaint := mkTaint nonGracefulTaintKey "" TaintEffectNoExecute in
  updateNode (set_Taints (Taints node ++ [newTaint]) node).

(** ** Hot-plugged volumes *)

Definition isHotplug (v : VMVolume) : bool :=
  match vol_PersistentVolumeClaim v with
  | Some src => Hotpluggable src
  | None => false
  end.

(** The keys of the map hotplugNames *)
Definition hotplugNames (volumes : list VMVolume) : gset string :=
  list_to_set (map vol_Name (List.filter isHotplug volumes)).

Definition removeAllOps (resourceVersion : string) (names : gset string) (t : VMTemplateSpec)
    : list patchOp :=
  let volumes := List.filter (fun v => negb (bool_decide (vol_Name v ∈ names))) (Volumes t) in
  let disks := List.filter (fun d => negb (bool_decide (disk_Name d ∈ names))) (Disks t) in
  [ mkPatchOp "test" "/metadata/resourceVersion" (PVString resourceVersion);
    mkPatchOp "replace" "/spec/template/spec/volumes" (PVVolumes volumes);
    mkPatchOp "replace" "/spec/template/spec/domain/devices/disks" (PVDisks disks) ].

Definition removeAllHotplugVolumesByPatch (c : Controller) (vm : VirtualMachine)
    (names : gset string) : Fallible unit :=
  let* template := deref (vm_Template vm) in
  let ops := removeAllOps (ResourceVersion (meta vm)) names template in
  let* r := send (VmPatch (ctl_namespace c) (name_of vm) ops) in
  match r with
  | Err err => Ret (Err (WrapErr ("failed to patch VM " +:+ Namespace (meta vm) +:+ "/"
      +:+ name_of vm +:+ " to remove hotplug volumes: " +:+ Error err) err))
  | Ok _ => Ret (Ok tt)
  end.

(** The order in which Go ranges over the keys is any permutation of them. *)
Definition rangeOrder (keys answer : list string) : list string :=
  if bool_decide (answer ≡ₚ keys) then answer else keys.

Fixpoint removeBySubresource_loop (c : Controller) (vm : VirtualMachine) (names : list string)
    : Fallible unit :=
  match names with
  | [] => Ret (Ok tt)
  | name :: rest =>
      let* r := send (VmRemoveVolume (ctl_namespace c) (name_of vm) name) in
      match r with
      | Err err => Ret (Err (WrapErr ("failed to remove hotplug volume " +:+ name +:+ " from VM "
          +:+ Namespace (meta vm) +:+ "/" +:+ name_of vm +:+ ": " +:+ Error err) err))
      | Ok _ => removeBySubresource_loop c vm rest
      end
  end.

Definition removeAllHotplugVolumesBySubresource (c : Controller) (vm : VirtualMachine)
    (names : gset string) : Fallible unit :=
  let* order := send (RangeOrder (elements names)) in
  removeBySubresource_loop c vm (rangeOrder (elements names) order).

Definition removeAllHotplugVolumes (c : Controller) (vm : VirtualMachine) : Fallible unit :=
  let* r := send (VmGet (ctl_namespace c) (name_of vm)) in
  match r with
  | Err err => Ret (Err (WrapErr ("failed to get latest VM " +:+ Namespace (meta vm) +:+ "/"
                                  +:+ name_of vm +:+ ": " +:+ Error err) err))
  | Ok latestVM =>
      let* template := deref (vm_Template latestVM) in
      let names := hotplugNames (Volumes template) in
      if Z.of_nat (size names) =? 0 then Ret (Ok tt)
      else if ctl_useDeclarativeHotplug c then removeAllHotplugVolumesByPatch c latestVM names
      else removeAllHotplugVolumesBySubresource c latestVM names
  end.

(** ** The handler *)

Definition handleNodeAndVMHealth (c : Controller) (node : Node) (vm : VirtualMachine)
    (nodeHealthy vmHealthy : bool) : P NodeResult :=
  let taint := getNodeTaint (Taints node) nonGracefulTaintKey in
  let taHasNoExecute := taintWithNoExecute taint in
  if negb nodeHealthy && vmHealthy then Ret (None, None)
  else if nodeHealthy && vmHealthy && taHasNoExecute then removeTaint node
  else if negb nodeHealthy && negb vmHealthy && negb taHasNoExecute then addTaint node
  else if negb nodeHealthy && negb vmHealthy then
    let* r := removeAllHotplugVolumes c vm in
    match r with
    | Err err => Ret (Some node, Some (WrapErr
        ("failed to remove all hotplug volumes from VM " +:+ Namespace (meta node) +:+ "/"
         +:+ name_of node +:+ ": " +:+ Error err) err))
    | Ok _ => Ret (None, None)
    end
  else Ret (None, None).

Definition OnNodesChange (c : Controller) (node : option Node) : P NodeResult :=
  match node with
  | None => Ret (None, None)
  | Some node =>
      match DeletionTimestamp (meta node) with
      | Some _ => Ret (Some node, None)
      | None =>
          let* r := getNodeAndVMHealth c node in
          match r with
          | Err err => Ret (Some node, Some err)
          | Ok (nodeHealthy, vmHealthy, vm) =>
              handleNodeAndVMHealth c node vm nodeHealthy vmHealthy
          end
      end
  end.
