(* ===== verification/NodeControllerThm.v ===== *)
(** * Properties of the node controller *)

From S2P Require Import Prelude Go Prog Kube Csi Api Store Controller Samples Attach AttachSpec NodeController.

(** ** Health and taints *)

Definition node_ready (node : Node) : bool :=
  match getNodeCondition (node_Conditions node) NodeReady with
  | Some c => (cond_Status c =? ConditionTrue)%string
  | None => false
  end.

Definition vm_ready (vm : VirtualMachine) : bool :=
  match getVMCondition (vm_Conditions vm) VirtualMachineReady with
  | Some c => (cond_Status c =? ConditionTrue)%string
              && (vm_PrintableStatus vm =? VirtualMachineStatusRunning)%string
  | None => false
  end.

(** The out-of-service taint of the node, the first one of that key, evicts. *)
Definition out_of_service (node : Node) : bool :=
  taintWithNoExecute (getNodeTaint (Taints node) nonGracefulTaintKey).

Definition outOfServiceTaint : Taint := mkTaint nonGracefulTaintKey "" TaintEffectNoExecute.

(** The node with [n] more out-of-service taints, and without any *)
Definition tainted (n : nat) (node : Node) : Node :=
  set_Taints (Taints node ++ repeat outOfServiceTaint n) node.

Definition untainted (node : Node) : Node :=
  set_Taints (List.filter (fun t => negb (taint_Key t =? nonGracefulTaintKey)%string) (Taints node)) node.

(** The only writes the controller may make, and when *)
Definition allowed (c : Controller) (node : Node) (vm : VirtualMachine) (tr : trace reply)
    (w : call) : Prop :=
  match w with
  | GuestNodeUpdate n =>
      (node_ready node = true /\ vm_ready vm = true /\ out_of_service node = true
       /\ n = untainted node)
      \/ (node_ready node = false /\ vm_ready vm = false /\ out_of_service node = false
          /\ n = tainted 1 node)
  | VmPatch ns name _ | VmRemoveVolume ns name _ =>
      node_ready node = false /\ vm_ready vm = false /\ out_of_service node = true
      /\ ns = ctl_namespace c
      /\ exists latest, In (ev (VmGet ns (name_of vm)) (Ok latest)) tr /\ name = name_of latest
  | _ => False
  end.

Lemma find_none {A} (f : A -> bool) l : List.find f l = None -> List.filter f l = [].
Proof.
  induction l as [|x l IH]; simpl; [done|]. destruct (f x); [done|auto].
Qed.

Lemma getNodeTaint_app l l' :
  getNodeTaint (l ++ l') nonGracefulTaintKey =
  match getNodeTaint l nonGracefulTaintKey with
  | Some t => Some t
  | None => getNodeTaint l' nonGracefulTaintKey
  end.
Proof.
  unfold getNodeTaint. induction l as [|t l IH]; simpl; [done|].
  by destruct (taint_Key t =? nonGracefulTaintKey)%string.
Qed.

Lemma updateNode_spec n :
  wp (updateNode n) (fun tr o => writes tr = [GuestNodeUpdate n] /\ exists r, o = Returned r).
Proof. cbn. intros [x|e]; cbn; (split; [by writes_simpl|eauto]). Qed.

(** A node that is out of service has a taint, so its list is not empty and
    the removal does not panic. *)
Lemma removeTaint_spec node :
  out_of_service node = true ->
  wp (removeTaint node) (fun tr o =>
    writes tr = [GuestNodeUpdate (untainted node)] /\ exists r, o = Returned r).
Proof.
  unfold out_of_service, removeTaint. intros H. destruct (Taints node) as [|t ts] eqn:E; [done|].
  case_match; bool_to_prop; [simpl in *; lia|]. unfold untainted. rewrite E. apply updateNode_spec.
Qed.

(** ** Unplugging *)

Definition unplugAll (t : VMTemplateSpec) : VMTemplateSpec :=
  let names := hotplugNames (Volumes t) in
  mkVMTemplate (List.filter (fun v => negb (bool_decide (vol_Name v ∈ names))) (Volumes t))
               (List.filter (fun d => negb (bool_decide (disk_Name d ∈ names))) (Disks t)).

Lemma hotplugNames_spec vs name :
  name ∈ hotplugNames vs <-> exists v, In v vs /\ isHotplug v = true /\ vol_Name v = name.
Proof.
  unfold hotplugNames. rewrite elem_of_list_to_set, list_elem_of_fmap. split.
  - intros (v & -> & [Hin Hv]%list_elem_of_In%filter_In). eauto.
  - intros (v & Hin & Hv & <-). exists v. split; [done|]. apply list_elem_of_In, filter_In. done.
Qed.

(** No hot-plugged volume is left. *)
Lemma unplugAll_none t v : In v (Volumes (unplugAll t)) -> isHotplug v = false.
Proof.
  unfold unplugAll. simpl. rewrite filter_In. intros [Hin Hn].
  destruct (isHotplug v) eqn:E; [|done]. exfalso.
  rewrite negb_true_iff, bool_decide_eq_false in Hn. apply Hn, hotplugNames_spec. eauto.
Qed.

Lemma hotplugNames_empty vs :
  Z.of_nat (size (hotplugNames vs)) =? 0 = true -> forall v, In v vs -> isHotplug v = false.
Proof.
  intros H v Hin. destruct (isHotplug v) eqn:E; [|done]. exfalso.
  apply Z.eqb_eq in H. assert (Hs : size (hotplugNames vs) = O) by lia.
  apply size_empty_inv in Hs. apply (not_elem_of_empty (C := gset string) (vol_Name v)), (Hs (vol_Name v)), hotplugNames_spec.
  eauto.
Qed.

Lemma removeBySubresource_loop_spec c vm names :
  wp (removeBySubresource_loop c vm names) (fun tr o =>
    exists done_ rest, names = done_ ++ rest
      /\ writes tr = map (VmRemoveVolume (ctl_namespace c) (name_of vm)) done_
      /\ (exists r, o = Returned r) /\ (o = Returned (Ok tt) -> rest = [])).
Proof.
  induction names as [|n ns IH]; cbn [removeBySubresource_loop].
  { cbn. exists [], []. by split_and!; eauto. }
  cbn. intros [u|e]; cbn.
  - eapply wp_mono; [exact IH|]. intros tr o (d & rest & -> & Hw & Ho & Hr).
    exists (n :: d), rest. split_and!; [done|by writes_simpl|done|done].
  - exists [n], ns. split_and!; [done|by writes_simpl|eauto|done].
Qed.

Lemma rangeOrder_perm keys answer : rangeOrder keys answer ≡ₚ keys.
Proof. unfold rangeOrder. by case_bool_decide. Qed.

(** What removeAllHotplugVolumes sends *)
Lemma removeAllHotplugVolumes_spec c vm :
  wp (removeAllHotplugVolumes c vm) (fun tr o =>
    (writes tr = [] /\ (forall w, o = Panicked w -> exists latest,
       In (ev (VmGet (ctl_namespace c) (name_of vm)) (Ok latest)) tr /\ vm_Template latest = None))
    \/ exists latest t, In (ev (VmGet (ctl_namespace c) (name_of vm)) (Ok latest)) tr
         /\ vm_Template latest = Some t /\ (exists r, o = Returned r)
         /\ if ctl_useDeclarativeHotplug c then
              writes tr = [VmPatch (ctl_namespace c) (name_of latest)
                (removeAllOps (ResourceVersion (meta latest)) (hotplugNames (Volumes t)) t)]
            else exists names rest,
              names ++ rest ≡ₚ elements (hotplugNames (Volumes t))
              /\ writes tr = map (VmRemoveVolume (ctl_namespace c) (name_of latest)) names
              /\ (o = Returned (Ok tt) -> rest = [])).
Proof.
  unfold removeAllHotplugVolumes. cbn -[removeAllOps]. intros [latest|e]; cbn -[removeAllOps].
  2: { left. by writes_simpl. }
  destruct (vm_Template latest) as [t|] eqn:Et; cbn -[removeAllOps].
  2: { left. split; [by writes_simpl|]. intros w _. exists latest. auto with csi. }
  case_match eqn:E; cbn -[removeAllOps]; [left; by writes_simpl|].
  destruct (ctl_useDeclarativeHotplug c).
  - unfold removeAllHotplugVolumesByPatch. rewrite Et. cbn -[removeAllOps].
    intros [x|e]; cbn -[removeAllOps]; right; exists latest, t;
      (split_and!; [auto with csi|done|eauto|by writes_simpl]).
  - unfold removeAllHotplugVolumesBySubresource. cbn. intros order.
    eapply wp_mono; [apply removeBySubresource_loop_spec|].
    intros tr o (d & rest & Hperm & Hw & Ho & Hr). right. exists latest, t.
    split_and!; [auto with csi|done|done|]. exists d, rest.
    split_and!; [|by writes_simpl|done]. rewrite <- Hperm. apply rangeOrder_perm.
Qed.

(** ** Decisions *)

Lemma handleNodeAndVMHealth_spec c node vm :
  wp (handleNodeAndVMHealth c node vm (node_ready node) (vm_ready vm)) (fun tr o =>
    (forall w, In w (writes tr) -> allowed c node vm tr w)
    /\ forall why, o = Panicked why -> exists latest,
         In (ev (VmGet (ctl_namespace c) (name_of vm)) (Ok latest)) tr /\ vm_Template latest = None).
Proof.
  unfold handleNodeAndVMHealth. fold (out_of_service node).
  destruct (node_ready node) eqn:En, (vm_ready vm) eqn:Ev, (out_of_service node) eqn:Eo;
    cbn [negb andb]; try (cbn; split; [intros w Hin; inv_In Hin|done]).
  - eapply wp_mono; [by apply removeTaint_spec|]. intros tr o [Hw [r ->]].
    split; [|done]. rewrite Hw. intros w Hin. inv_In Hin. left. by rewrite Eo.
  - apply wp_bind. eapply wp_mono; [apply removeAllHotplugVolumes_spec|].
    intros tr o [[Hw Hp]|(latest & t & Hin & Ht & [r ->] & Hw)].
    + destruct o as [[u|e]|w]; cbn; rewrite ?app_nil_r, ?Hw;
        (split; [intros w' Hin; inv_In Hin|naive_solver]).
    + assert (Hall : forall w, In w (writes tr) -> allowed c node vm tr w).
      { intros w Hinw. destruct (ctl_useDeclarativeHotplug c).
        - rewrite Hw in Hinw. inv_In Hinw. unfold allowed. rewrite En, Ev, Eo.
          split_and!; eauto.
        - destruct Hw as (names & rest & _ & Hw & _). rewrite Hw in Hinw.
          apply in_map_iff in Hinw as (n & <- & _). unfold allowed. rewrite En, Ev, Eo.
          split_and!; eauto. }
      destruct r as [u|e]; cbn; rewrite ?app_nil_r; by split.
  - eapply wp_mono; [apply updateNode_spec|]. intros tr o [Hw [r ->]].
    split; [|done]. rewrite Hw. intros w Hin. inv_In Hin. right. by rewrite Eo.
Qed.

Definition sample_ctl (declarative : bool) : Controller := mkController "node1" "guest" declarative.

Definition sample_node (ready : string) (taints : list Taint) : Node :=
  mkNode (newMeta "" "node1") taints [mkCondition "Ready" ready].

(** C7: the node controller acts only when node and machine agree: it removes
    the out-of-service taint only when the node is ready and its machine is
    ready and running, adds it only when both are down, and unplugs volumes
    only from the machine of a node that is down, whose machine is down and
    which already carries the evicting taint; it writes nothing else, and
    panics only on a machine without a template. *)
Theorem OnNodesChange_decision c node :
  all_runs (OnNodesChange c (Some node)) (fun tr o =>
    (writes tr = []
     \/ (DeletionTimestamp (meta node) = None
         /\ exists vm, In (ev (VmGet (ctl_namespace c) (name_of node)) (Ok vm)) tr
              /\ forall w, In w (writes tr) -> allowed c node vm tr w))
    /\ forall why, o = Panicked why -> exists ns name latest,
         In (ev (VmGet ns name) (Ok latest)) tr /\ vm_Template latest = None).
Proof.
  apply wp_iff. unfold OnNodesChange. destruct (DeletionTimestamp (meta node)) eqn:Ed.
  { cbn. split; [by left|done]. }
  unfold getNodeAndVMHealth. destruct (getNodeCondition _ _) as [cond|] eqn:En; cbn.
  2: { split; [by left|done]. }
  intros [vm|e]; cbn; [|split; [left; by writes_simpl|done]].
  destruct (getVMCondition _ _) as [vmCond|] eqn:Ev; cbn; [|split; [left; by writes_simpl|done]].
  pose proof (handleNodeAndVMHealth_spec c node vm) as Hs.
  unfold node_ready in Hs at 1. unfold vm_ready in Hs at 1. rewrite En, Ev in Hs.
  eapply wp_mono; [exact Hs|]. intros tr o [Hw Hp]. set (g := ev (VmGet _ _) _). split.
  - right. split; [done|]. exists vm. split; [auto with csi|].
    intros w Hin. assert (Hin' : In w (writes tr)) by (revert Hin; by writes_simpl).
    specialize (Hw w Hin'). unfold allowed in *. destruct w; try done;
      destruct Hw as (? & ? & ? & ? & latest & ? & ?); split_and!; try done;
      exists latest; auto with csi.
  - intros why Ho. destruct (Hp why Ho) as (latest & Hin & Ht).
    do 3 eexists. split; [right; exact Hin|done].
Qed.

(** C27: tainting converges and is undone exactly: on a node without an
    out-of-service taint whose machine is down too, the controller sends one
    update, which adds the taint; on the updated node it sends no further
    update while both stay down; and when both are healthy it sends one
    update, which gives the node back as it was. *)
Theorem taint_cycle c node vm :
  getNodeTaint (Taints node) nonGracefulTaintKey = None ->
  all_runs (handleNodeAndVMHealth c node vm false false) (fun tr _ =>
    writes tr = [GuestNodeUpdate (tainted 1 node)])
  /\ all_runs (handleNodeAndVMHealth c (tainted 1 node) vm false false) (fun tr _ =>
       forall n, ~ In (GuestNodeUpdate n) (writes tr))
  /\ all_runs (handleNodeAndVMHealth c (tainted 1 node) vm true true) (fun tr _ =>
       writes tr = [GuestNodeUpdate node]).
Proof.
  intros Hn.
  assert (Ho : out_of_service (tainted 1 node) = true).
  { unfold out_of_service, tainted, set_Taints. cbn [Taints repeat].
    by rewrite getNodeTaint_app, Hn. }
  assert (Hu : untainted (tainted 1 node) = node).
  { unfold untainted, tainted, set_Taints. destruct node as [m ts cs]. simpl in *. f_equal.
    rewrite List.filter_app. simpl. rewrite app_nil_r. apply filter_all_true.
    intros t Hin. apply find_none, existsb_ext_filter in Hn.
    rewrite existsb_false_forall in Hn. by rewrite (Hn t Hin). }
  unfold handleNodeAndVMHealth. fold (out_of_service (tainted 1 node)). rewrite Hn, Ho.
  cbn [taintWithNoExecute negb andb]. split_and!; apply wp_iff.
  - eapply wp_mono; [apply updateNode_spec|]. by intros tr o [Hw _].
  - eapply wp_bind_use; [apply removeAllHotplugVolumes_spec| |].
    + intros tr r [[Hw _]|(l & t & _ & _ & _ & Hw)].
      * destruct r; cbn; rewrite app_nil_r, Hw; intros n Hin; inv_In Hin.
      * assert (Hno : forall n, ~ In (GuestNodeUpdate n) (writes tr)).
        { intros n Hin. case_match.
          - rewrite Hw in Hin. inv_In Hin.
          - destruct Hw as (names & _ & _ & Hw & _). rewrite Hw in Hin.
            by apply in_map_iff in Hin as (? & ? & _). }
        destruct r; cbn; rewrite app_nil_r; done.
    + intros tr w [[Hw _]|(l & t & _ & _ & [r Hr] & _)]; [|done].
      rewrite Hw. intros n Hin. inv_In Hin.
  - eapply wp_mono; [by apply removeTaint_spec|]. rewrite Hu. by intros tr o [Hw _].
Qed.

Lemma taint_cycle_witness :
  let node := sample_node "False" [mkTaint "dedicated" "x" "NoSchedule"] in
  getNodeTaint (Taints node) nonGracefulTaintKey = None
  /\ all_runs (handleNodeAndVMHealth (sample_ctl true) (tainted 1 node) sample_vm true true)
       (fun tr _ => writes tr = [GuestNodeUpdate node]).
Proof.
  cbv zeta. split; [reflexivity|].
  apply (taint_cycle (sample_ctl true) (sample_node "False" [mkTaint "dedicated" "x" "NoSchedule"])
           sample_vm eq_refl).
Defined.

(** C40: an out-of-service taint with another effect blocks the recovery: the
    controller then appends one more copy of the evicting taint at every
    reconciliation, however many it has appended before, and never reaches
    the step that unplugs the volumes. *)
Theorem taint_diverges c node vm t k :
  getNodeTaint (Taints node) nonGracefulTaintKey = Some t ->
  taint_Effect t <> TaintEffectNoExecute ->
  all_runs (handleNodeAndVMHealth c (tainted k node) vm false false) (fun tr _ =>
    writes tr = [GuestNodeUpdate (tainted (k + 1) node)]).
Proof.
  intros Ht He. unfold handleNodeAndVMHealth.
  assert (Hf : getNodeTaint (Taints (tainted k node)) nonGracefulTaintKey = Some t).
  { unfold tainted, set_Taints. cbn [Taints]. by rewrite getNodeTaint_app, Ht. }
  rewrite Hf. cbn [taintWithNoExecute]. rewrite (proj2 (String.eqb_neq _ _) He).
  cbn [negb andb]. apply wp_iff. eapply wp_mono; [apply updateNode_spec|].
  intros tr o [Hw _]. rewrite Hw. unfold tainted, set_Taints. cbn [Taints node_meta node_Conditions].
  by rewrite repeat_app, (assoc_L (++)).
Qed.

Lemma taint_diverges_witness :
  let node := sample_node "False" [mkTaint nonGracefulTaintKey "" "NoSchedule"] in
  all_runs (handleNodeAndVMHealth (sample_ctl true) (tainted 3 node) sample_vm false false)
    (fun tr _ => writes tr = [GuestNodeUpdate (tainted 4 node)]).
Proof.
  apply (taint_diverges (sample_ctl true)
    (sample_node "False" [mkTaint nonGracefulTaintKey "" "NoSchedule"]) sample_vm
    (mkTaint nonGracefulTaintKey "" "NoSchedule") 3 eq_refl). done.
Defined.

(** With the legacy subresource, a successful removal has asked for every
    hot-plugged volume of the machine exactly once, in some order. *)
Theorem removeAllHotplugVolumes_legacy c vm :
  ctl_useDeclarativeHotplug c = false ->
  all_runs (removeAllHotplugVolumes c vm) (fun tr o =>
    o = Returned (Ok tt) ->
    exists latest t names, In (ev (VmGet (ctl_namespace c) (name_of vm)) (Ok latest)) tr
      /\ vm_Template latest = Some t
      /\ writes tr = map (VmRemoveVolume (ctl_namespace c) (name_of latest)) names
      /\ NoDup names
      /\ forall n, n ∈ names <-> exists v, In v (Volumes t) /\ isHotplug v = true /\ vol_Name v = n).
Proof.
  intros Hd. apply wp_iff. unfold removeAllHotplugVolumes. rewrite Hd. cbn.
  intros [latest|e]; cbn; [|done].
  destruct (vm_Template latest) as [t|] eqn:Et; cbn; [|done].
  case_match eqn:E; cbn.
  { intros _. exists latest, t, []. split_and!; [auto with csi|done|by writes_simpl|constructor|].
    intros n. split; [intros Hn; inversion Hn|]. intros (v & Hin & Hv & _).
    by rewrite (hotplugNames_empty _ E v Hin) in Hv. }
  intros order. eapply wp_mono; [apply removeBySubresource_loop_spec|].
  intros tr o (names & rest & Hp & Hw & _ & Hr) Ho. rewrite (Hr Ho), app_nil_r in Hp.
  pose proof (rangeOrder_perm (elements (hotplugNames (Volumes t))) order) as Hperm.
  rewrite Hp in Hperm. exists latest, t, names.
  split_and!; [auto with csi|done|by writes_simpl|rewrite Hperm; apply NoDup_elements|].
  intros n. by rewrite Hperm, elem_of_elements, hotplugNames_spec.
Qed.

Lemma removeAllHotplugVolumes_legacy_witness :
  let p := removeAllHotplugVolumes (sample_ctl false) sample_vm_plugged in
  ctl_useDeclarativeHotplug (sample_ctl false) = false
  /\ all_runs p (fun tr o => o = Returned (Ok tt) -> exists latest t names,
       In (ev (VmGet "guest" "node1") (Ok latest)) tr /\ vm_Template latest = Some t
       /\ writes tr = map (VmRemoveVolume "guest" (name_of latest)) names
       /\ NoDup names
       /\ forall n, n ∈ names <-> exists v, In v (Volumes t) /\ isHotplug v = true /\ vol_Name v = n).
Proof.
  split; [reflexivity|].
  exact (removeAllHotplugVolumes_legacy (sample_ctl false) sample_vm_plugged eq_refl).
Defined.

(** ** The machine, against a server that follows the laws *)
Section Machines.

Context {S : Type} {step : forall c, S -> reply c -> S -> Prop} `{!VmLaws S step}.
Implicit Types s : S.

(** C16: with declarative hot plug, a successful removal leaves no hot-plugged
    volume: the machine stored at the moment of the patch had none, or was
    changed exactly by dropping the volumes and disks with the name of a
    hot-plugged volume, all else being kept, so no update of another client
    is lost. *)
Theorem removeAllHotplugVolumes_unplugs c vm s :
  ctl_useDeclarativeHotplug c = true ->
  (forall vm', vms s !! (ctl_namespace c, name_of vm) = Some vm' -> name_of vm' = name_of vm) ->
  swp (logged step) (removeAllHotplugVolumes c vm) (s, []) (fun o sl =>
    o = Returned (Ok tt) ->
    exists s1 vm1 t, last sl.2 = Some s1
      /\ vms s1 !! (ctl_namespace c, name_of vm) = Some vm1 /\ vm_Template vm1 = Some t
      /\ ((forall v, In v (Volumes t) -> isHotplug v = false)
          \/ exists vm', vms sl.1 = <[(ctl_namespace c, name_of vm) := vm']> (vms s1)
               /\ same_spec vm' (set_Template (unplugAll t) vm1)
               /\ forall v, In v (Volumes (unplugAll t)) -> isHotplug v = false)).
Proof.
  intros Hd Hname. unfold removeAllHotplugVolumes. rewrite Hd. cbn -[removeAllOps].
  intros [latest|e] [s1 l] [Hs1 Hl]; cbn -[removeAllOps] in *; subst l; [|done].
  pose proof (vm_get _ _ _ _ _ Hs1) as Hget. cbn in Hget. specialize (Hname _ Hget).
  destruct (vm_Template latest) as [t|] eqn:Et; cbn -[removeAllOps]; [|done].
  case_match eqn:E; cbn -[removeAllOps].
  { intros _. exists s, latest, t. split_and!; [done..|]. left. by apply hotplugNames_empty. }
  unfold removeAllHotplugVolumesByPatch. rewrite Et, Hname. cbn -[removeAllOps].
  intros r [s2 l] [Hs2 Hl]; cbn -[removeAllOps] in *; subst l.
  pose proof (vm_patch _ _ _ _ _ _ Hs2) as Hp.
  destruct r as [vm'|e]; cbn; [|done]. intros _.
  destruct Hp as (vm1 & vm2 & Hvm1 & Hap & Hss & Hst).
  assert (vm1 = latest) as ->.
  { eapply (vm_version _ _ _ _ _ _ Hs1); [exact Hvm1|]. by apply apply_test in Hap as [? _]. }
  apply (apply_replaceOps _ _ _ _ _ _ Et) in Hap as [_ ->].
  exists s1, latest, t. split_and!; [done..|]. right. exists vm'.
  split_and!; [done|exact Hss|apply unplugAll_none].
Qed.

End Machines.

Lemma removeAllHotplugVolumes_unplugs_witness :
  (exec mem_serve (removeAllHotplugVolumes (sample_ctl true) sample_vm_plugged) sample_attached).1.1
    = Returned (Ok tt)
  /\ swp (logged mem_step) (removeAllHotplugVolumes (sample_ctl true) sample_vm_plugged)
      (sample_attached, []) (fun o sl => o = Returned (Ok tt) ->
        exists s1 vm1 t, last sl.2 = Some s1
          /\ cl_vms s1 !! ("guest", "node1") = Some vm1 /\ vm_Template vm1 = Some t
          /\ ((forall v, In v (Volumes t) -> isHotplug v = false)
              \/ exists vm', cl_vms sl.1 = <[("guest", "node1") := vm']> (cl_vms s1)
                   /\ same_spec vm' (set_Template (unplugAll t) vm1)
                   /\ forall v, In v (Volumes (unplugAll t)) -> isHotplug v = false)).
Proof.
  split; [vm_compute; reflexivity|].
  refine (removeAllHotplugVolumes_unplugs (step := mem_step) (sample_ctl true) sample_vm_plugged
            sample_attached eq_refl _).
  intros vm' H. vm_compute in H. injection H as <-. reflexivity.
Defined.
