(* ===== verification/Json.v ===== *)
(** * encoding/json, as far as the driver uses it

    The driver decodes the csi-driver-config setting into a map from
    provisioner names to [CSIDriverInfo].  This file models that call of
    json.Unmarshal: the scanner (tokens, then a push-down automaton over the
    tokens, with Go's limit on the nesting), the unquoting of strings (escape
    sequences, surrogate pairs, replacement of invalid UTF-8) and the rules
    by which the value is stored into the map (case-insensitive field names,
    null, duplicate keys, type errors). *)

From S2P Require Import Prelude Go Kube.

Module json.

Inductive value :=
| JNull
| JBool (b : bool)
| JNumber (literal : string)
| JString (s : string)
| JArray (l : list value)
| JObject (fields : list (string * value)).

(** ** Bytes *)

Definition byte_of (c : ascii) : Z := Z.of_nat (nat_of_ascii c).
Definition chr (b : Z) : ascii := ascii_of_nat (Z.to_nat b).
Definition between (lo hi : Z) (c : ascii) : bool := (lo <=? byte_of c) && (byte_of c <=? hi).

Definition isSpace (c : ascii) : bool :=
  existsb (Z.eqb (byte_of c)) [32; 9; 13; 10].
Definition isDigit (c : ascii) : bool := between 48 57 c.
Definition isLower (c : ascii) : bool := between 97 122 c.
Definition isNumberChar (c : ascii) : bool :=
  isDigit c || existsb (Z.eqb (byte_of c)) [43; 45; 46; 69; 101].

Definition rev_string (s : string) : string :=
  String.string_of_list_ascii (rev (String.list_ascii_of_string s)).

(** ** Tokens *)

Inductive token :=
| TPunct (c : ascii)       (* braces, brackets, comma, colon *)
| TString (raw : string)   (* between the quotes, escapes not yet decoded *)
| TNumber (raw : string)
| TWord (raw : string).

(** Where the scanner is: between tokens, in a string (with the bytes so
    far, reversed), after a backslash in a string, in a number, in a word. *)
Inductive lexMode := MStart | MString (acc : string) | MEscape (acc : string)
| MNumber (acc : string) | MWord (acc : string).

Definition isPunct (c : ascii) : bool :=
  existsb (Ascii.eqb c) ["{"; "}"; "["; "]"; ","; ":"]%char.

(** The mode after the first byte of a token, and the token that is complete
    already; None on a byte that starts no token. *)
Definition startToken (c : ascii) : option (lexMode * list token) :=
  if isSpace c then Some (MStart, [])
  else if isPunct c then Some (MStart, [TPunct c])
  else if (byte_of c =? 34) then Some (MString "", [])
  else if isDigit c || (byte_of c =? 45) then Some (MNumber (String c ""), [])
  else if isLower c then Some (MWord (String c ""), [])
  else None.

Definition lexStep (m : lexMode) (c : ascii) : option (lexMode * list token) :=
  match m with
  | MStart => startToken c
  | MString acc =>
      if byte_of c =? 34 then Some (MStart, [TString (rev_string acc)])
      else if byte_of c =? 92 then Some (MEscape (String c acc), [])
      else if byte_of c <? 32 then None
      else Some (MString (String c acc), [])
  | MEscape acc => Some (MString (String c acc), [])
  | MNumber acc =>
      if isNumberChar c then Some (MNumber (String c acc), [])
      else match startToken c with
           | Some (m', ts) => Some (m', TNumber (rev_string acc) :: ts)
           | None => None
           end
  | MWord acc =>
      if isLower c then Some (MWord (String c acc), [])
      else match startToken c with
           | Some (m', ts) => Some (m', TWord (rev_string acc) :: ts)
           | None => None
           end
  end.

Fixpoint lex (m : lexMode) (s : string) : option (list token) :=
  match s with
  | EmptyString =>
      match m with
      | MStart => Some []
      | MNumber acc => Some [TNumber (rev_string acc)]
      | MWord acc => Some [TWord (rev_string acc)]
      | MString _ | MEscape _ => None
      end
  | String c s' =>
      match lexStep m c with
      | None => None
      | Some (m', ts) => option_map (app ts) (lex m' s')
      end
  end.

(** ** Numbers: an optional minus, digits without a superfluous leading
    zero, an optional fraction, an optional exponent *)

Fixpoint digits (s : string) : string * string :=
  match s with
  | String c s' => if isDigit c then let '(d, r) := digits s' in (String c d, r) else ("", s)
  | EmptyString => ("", "")
  end.

Definition validExponent (s : string) : bool :=
  match s with
  | EmptyString => true
  | String c s' =>
      if (byte_of c =? 101) || (byte_of c =? 69) then
        let s'' := match s' with
                   | String sg r => if (byte_of sg =? 43) || (byte_of sg =? 45) then r else s'
                   | EmptyString => s'
                   end in
        let '(d, r) := digits s'' in negb (d =? "")%string && (r =? "")%string
      else false
  end.

Definition validFraction (s : string) : bool :=
  match s with
  | String c s' =>
      if byte_of c =? 46 then
        let '(d, r) := digits s' in negb (d =? "")%string && validExponent r
      else validExponent s
  | EmptyString => true
  end.

Definition validNumber (s : string) : bool :=
  let s := match s with
           | String c r => if byte_of c =? 45 then r else s
           | EmptyString => s
           end in
  match s with
  | String c r =>
      if byte_of c =? 48 then validFraction r
      else if isDigit c then validFraction (digits s).2
      else false
  | EmptyString => false
  end.

(** ** Strings *)

Definition hexDigit (c : ascii) : option Z :=
  if isDigit c then Some (byte_of c - 48)
  else if between 97 102 c then Some (byte_of c - 87)
  else if between 65 70 c then Some (byte_of c - 55)
  else None.

(** The UTF-8 encoding of a code point *)
Definition encodeRune (r : Z) : string :=
  if r <? 128 then String (chr r) ""
  else if r <? 2048 then String (chr (192 + r / 64)) (String (chr (128 + r mod 64)) "")
  else if r <? 65536 then
    String (chr (224 + r / 4096)) (String (chr (128 + r / 64 mod 64)) (String (chr (128 + r mod 64)) ""))
  else
    String (chr (240 + r / 262144)) (String (chr (128 + r / 4096 mod 64))
      (String (chr (128 + r / 64 mod 64)) (String (chr (128 + r mod 64)) ""))).

Definition replacementChar : string := encodeRune 65533.

(** The length of the valid UTF-8 sequence of several bytes at the head of
    the string, 1 when there is none *)
Definition runeLength (s : string) : nat :=
  match s with
  | String a (String b rest) =>
      let x := byte_of a in
      let cont c := between 128 191 c in
      if between 194 223 a then if cont b then 2%nat else 1%nat
      else if between 224 239 a then
        let lo := if x =? 224 then 160 else 128 in
        let hi := if x =? 237 then 159 else 191 in
        match rest with
        | String c _ => if between lo hi b && cont c then 3%nat else 1%nat
        | EmptyString => 1%nat
        end
      else if between 240 244 a then
        let lo := if x =? 240 then 144 else 128 in
        let hi := if x =? 244 then 143 else 191 in
        match rest with
        | String c (String d _) => if between lo hi b && cont c && cont d then 4%nat else 1%nat
        | _ => 1%nat
        end
      else 1%nat
  | _ => 1%nat
  end.

(** The code unit after a backslash-u *)
Definition getu4 (s : string) : option (Z * string) :=
  match s with
  | String a (String b (String c (String d r))) =>
      match hexDigit a, hexDigit b, hexDigit c, hexDigit d with
      | Some a, Some b, Some c, Some d => Some (4096 * a + 256 * b + 16 * c + d, r)
      | _, _, _, _ => None
      end
  | _ => None
  end.

Definition isSurrogate (r : Z) : bool := (55296 <=? r) && (r <? 57344).

(** The low half of a surrogate pair, when the string goes on with one *)
Definition lowSurrogate (s : string) : option (Z * string) :=
  match s with
  | String bs (String u r) =>
      if (byte_of bs =? 92) && (byte_of u =? 117) then
        match getu4 r with
        | Some (lo, r') => if (56320 <=? lo) && (lo <? 57344) then Some (lo, r') else None
        | None => None
        end
      else None
  | _ => None
  end.

Definition simpleEscape (c : ascii) : option ascii :=
  match byte_of c with
  | 34 => Some (chr 34) | 92 => Some (chr 92) | 47 => Some (chr 47)
  | 98 => Some (chr 8) | 102 => Some (chr 12) | 110 => Some (chr 10)
  | 114 => Some (chr 13) | 116 => Some (chr 9)
  | _ => None
  end.

Definition cons_string (p : string) (r : option string) : option string :=
  option_map (String.append p) r.

(** unquoteBytes; [fuel] is the length of the string, and each step
    consumes a byte at least. *)
Fixpoint unquote_fuel (fuel : nat) (s : string) : option string :=
  match fuel, s with
  | _, EmptyString => Some ""
  | O, _ => None
  | S fuel, String c r =>
      if byte_of c =? 92 then
        match r with
        | EmptyString => None
        | String e r' =>
            if byte_of e =? 117 then
              match getu4 r' with
              | None => None
              | Some (u, r'') =>
                  if isSurrogate u then
                    match lowSurrogate r'' with
                    | Some (lo, r3) =>
                        if u <? 56320 then
                          cons_string (encodeRune ((u - 55296) * 1024 + (lo - 56320) + 65536))
                            (unquote_fuel fuel r3)
                        else cons_string replacementChar (unquote_fuel fuel r'')
                    | None => cons_string replacementChar (unquote_fuel fuel r'')
                    end
                  else cons_string (encodeRune u) (unquote_fuel fuel r'')
              end
            else match simpleEscape e with
                 | Some x => cons_string (String x "") (unquote_fuel fuel r')
                 | None => None
                 end
        end
      else if byte_of c <? 128 then cons_string (String c "") (unquote_fuel fuel r)
      else
        let n := runeLength s in
        if (n =? 1)%nat then cons_string replacementChar (unquote_fuel fuel r)
        else cons_string (String.substring 0 n s) (unquote_fuel fuel (strings.skip n s))
  end.

Definition unquote (s : string) : option string := unquote_fuel (String.length s) s.

(** ** The automaton over the tokens *)

(** An open array or object: what it holds so far and, in an object, the
    key whose value comes next *)
Inductive frame :=
| FArray (acc : list value)
| FObject (acc : list (string * value)) (key : string).

(** What the automaton expects *)
Inductive expect :=
| EValue              (* a value *)
| EValueOrEnd         (* after an opening bracket *)
| EKeyOrEnd           (* after an opening brace *)
| EKey                (* after a comma in an object *)
| EColon
| EMore               (* after a value in an array or object *)
| EEnd (v : value).   (* after the top-level value *)

Definition maxNestingDepth : Z := 10000.

Definition push (f : frame) (stack : list frame) : option (list frame) :=
  if maxNestingDepth <? Z.of_nat (length (f :: stack)) then None else Some (f :: stack).

(** A value is complete. *)
Definition reduce (v : value) (stack : list frame) : list frame * expect :=
  match stack with
  | [] => ([], EEnd v)
  | FArray acc :: st => (FArray (acc ++ [v]) :: st, EMore)
  | FObject acc k :: st => (FObject (acc ++ [(k, v)]) k :: st, EMore)
  end.

Definition atom (t : token) : option value :=
  match t with
  | TString raw => option_map JString (unquote raw)
  | TNumber raw => if validNumber raw then Some (JNumber raw) else None
  | TWord w =>
      if (w =? "null")%string then Some JNull
      else if (w =? "true")%string then Some (JBool true)
      else if (w =? "false")%string then Some (JBool false)
      else None
  | TPunct _ => None
  end.

Definition close (stack : list frame) (brace : bool) : option (list frame * expect) :=
  match stack with
  | FObject acc _ :: st => if brace then Some (reduce (JObject acc) st) else None
  | FArray acc :: st => if brace then None else Some (reduce (JArray acc) st)
  | [] => None
  end.

Definition isP (t : token) (c : ascii) : bool :=
  match t with TPunct d => Ascii.eqb c d | _ => false end.

Definition startValue (stack : list frame) (t : token) : option (list frame * expect) :=
  if isP t "{" then option_map (fun st => (st, EKeyOrEnd)) (push (FObject [] "") stack)
  else if isP t "[" then option_map (fun st => (st, EValueOrEnd)) (push (FArray []) stack)
  else option_map (fun v => reduce v stack) (atom t).

Definition startKey (stack : list frame) (t : token) : option (list frame * expect) :=
  match t, stack with
  | TString raw, FObject acc _ :: st =>
      option_map (fun k => (FObject acc k :: st, EColon)) (unquote raw)
  | _, _ => None
  end.

Definition step (s : list frame * expect) (t : token) : option (list frame * expect) :=
  let '(stack, e) := s in
  match e with
  | EValue => startValue stack t
  | EValueOrEnd => if isP t "]" then close stack false else startValue stack t
  | EKeyOrEnd => if isP t "}" then close stack true else startKey stack t
  | EKey => startKey stack t
  | EColon => if isP t ":" then Some (stack, EValue) else None
  | EMore =>
      if isP t "," then
        match stack with
        | FArray _ :: _ => Some (stack, EValue)
        | FObject _ _ :: _ => Some (stack, EKey)
        | [] => None
        end
      else if isP t "]" then close stack false
      else if isP t "}" then close stack true
      else None
  | EEnd _ => None
  end.

Definition parseTokens (ts : list token) : option value :=
  match foldl (fun s t => s ≫= fun s => step s t) (Some ([], EValue)) ts with
  | Some ([], EEnd v) => Some v
  | _ => None
  end.

Definition parse (s : string) : option value := lex MStart s ≫= parseTokens.

(** ** Storing into map[string]CSIDriverInfo *)

(** foldName: ASCII letters to upper case; the long s and the Kelvin sign
    fold to the letters S and K. *)
Fixpoint foldName (s : string) : string :=
  match s with
  | EmptyString => ""
  | String c r =>
      let here := String (if isLower c then chr (byte_of c - 32) else c) (foldName r) in
      match r with
      | String d r2 =>
          if (byte_of c =? 197) && (byte_of d =? 191) then String "S" (foldName r2)
          else match r2 with
               | String e r3 =>
                   if (byte_of c =? 226) && (byte_of d =? 132) && (byte_of e =? 170)
                   then String "K" (foldName r3) else here
               | EmptyString => here
               end
      | EmptyString => here
      end
  end.

(** One member of the object stored into the struct: a string is stored, a
    null is skipped, anything else is a type error; a member that names no
    field is skipped. *)
Definition storeField (info : CSIDriverInfo) (kv : string * value) : option CSIDriverInfo :=
  let store upd := match kv.2 with
                   | JString s => Some (upd s)
                   | JNull => Some info
                   | _ => None
                   end in
  if (foldName kv.1 =? foldName "volumeSnapshotClassName")%string then
    store (fun s => mkCSIDriverInfo s (BackupVolumeSnapshotClassName info))
  else if (foldName kv.1 =? foldName "backupVolumeSnapshotClassName")%string then
    store (fun s => mkCSIDriverInfo (VolumeSnapshotClassName info) s)
  else Some info.

Definition zeroInfo : CSIDriverInfo := mkCSIDriverInfo "" "".

Definition decodeInfo (v : value) : option CSIDriverInfo :=
  match v with
  | JObject fields => foldl (fun i kv => i ≫= fun i => storeField i kv) (Some zeroInfo) fields
  | JNull => Some zeroInfo
  | _ => None
  end.

(** A later entry of the same key replaces the earlier one. *)
Definition storeEntry (m : gmap string CSIDriverInfo) (kv : string * value)
    : option (gmap string CSIDriverInfo) :=
  option_map (fun i => <[kv.1 := i]> m) (decodeInfo kv.2).

(** json.Unmarshal into an empty map[string]CSIDriverInfo; None is an
    error. *)
Definition Unmarshal (s : string) : option (gmap string CSIDriverInfo) :=
  match parse s with
  | Some (JObject fields) => foldl (fun m kv => m ≫= fun m => storeEntry m kv) (Some ∅) fields
  | Some JNull => Some ∅
  | _ => None
  end.

(** ** Every string of the scanner is unquoted within its fuel *)

Lemma runeLength_pos s : (1 <= runeLength s)%nat.
Proof. unfold runeLength. repeat case_match; lia. Qed.

Lemma length_skip n s : (String.length (strings.skip n s) <= String.length s - n)%nat.
Proof.
  revert s. induction n as [|n IH]; intros [|c s]; simpl; try lia. apply IH.
Qed.

Lemma getu4_length s u r : getu4 s = Some (u, r) -> (String.length r < String.length s)%nat.
Proof. unfold getu4. repeat case_match; try done. intros [= _ <-]. simpl. lia. Qed.

Lemma lowSurrogate_length s u r :
  lowSurrogate s = Some (u, r) -> (String.length r < String.length s)%nat.
Proof.
  unfold lowSurrogate. repeat case_match; try done. intros [= _ <-].
  match goal with H : getu4 _ = _ |- _ => apply getu4_length in H end. simpl. lia.
Qed.

(** More fuel than the length of the string changes nothing. *)
Lemma unquote_fuel_enough n m s :
  (String.length s <= n)%nat -> (String.length s <= m)%nat ->
  unquote_fuel n s = unquote_fuel m s.
Proof.
  revert m s. induction n as [|n IH]; intros m s Hn Hm.
  - destruct s; simpl in Hn; [by destruct m|lia].
  - destruct s as [|c r]; [by destruct m|].
    destruct m as [|m]; [simpl in Hm; lia|]. cbn [unquote_fuel]. simpl in Hn, Hm.
    assert (Hrec : forall r', (String.length r' <= String.length r)%nat ->
              unquote_fuel n r' = unquote_fuel m r') by (intros; apply IH; lia).
    assert (Hskip : forall k, (1 <= k)%nat ->
              (String.length (strings.skip k (String c r)) <= String.length r)%nat).
    { intros k Hk. pose proof (length_skip k (String c r)) as Hl. simpl String.length in Hl. lia. }
    pose proof (Hskip _ (runeLength_pos (String c r))) as Hrune.
    repeat case_match; try done; f_equal; apply Hrec; try exact Hrune; try done;
      repeat match goal with
      | H : getu4 _ = _ |- _ => apply getu4_length in H
      | H : lowSurrogate _ = _ |- _ => apply lowSurrogate_length in H
      end; simpl in *; lia.
Qed.

End json.

(** Test documents are written with apostrophes for the quotes. *)
Definition quoted (s : string) : string :=
  String.string_of_list_ascii
    (map (fun c => if json.byte_of c =? 39 then json.chr 34 else c) (String.list_ascii_of_string s)).

Definition defaultCSIDriverConfig : string := quoted
  "{'driver.longhorn.io':{'volumeSnapshotClassName':'longhorn-snapshot','backupVolumeSnapshotClassName':'longhorn'}}".

Example Unmarshal_default :
  json.Unmarshal defaultCSIDriverConfig
  = Some {["driver.longhorn.io" := mkCSIDriverInfo "longhorn-snapshot" "longhorn"]}.
Proof. vm_compute. reflexivity. Qed.

(** Field names are compared without case, unknown members and nulls are
    skipped, escapes are decoded, a later entry wins. *)
Example Unmarshal_samples :
  json.Unmarshal (quoted " {'a' : {'VOLUMESNAPSHOTCLASSNAME':'x\u0041\n', 'other':[1,-2.5e+3,{}], 'backupVolumeSnapshotClassName':null}} ")
    = Some {["a" := mkCSIDriverInfo ("xA" +:+ String (json.chr 10) "") ""]}
  /\ json.Unmarshal (quoted "{'a':{'volumeSnapshotClassName':'1'},'a':{'backupVolumeSnapshotClassName':'2'}}")
    = Some {["a" := mkCSIDriverInfo "" "2"]}
  /\ json.Unmarshal "null" = Some ∅.
Proof. vm_compute. auto. Qed.

(** Syntax errors and type errors *)
Example Unmarshal_errors :
  List.forallb (fun s => match json.Unmarshal (quoted s) with None => true | Some _ => false end)
    [""; "{"; "{}}"; "[]"; "{'a':1}"; "{'a':{'volumeSnapshotClassName':1}}"; "{'a':{},}";
     "{'a' {}}"; "{'a':{'x':01}}"; "{'a':{'x':tru}}"; "{'a\x':{}}"; "'a'"] = true.
Proof. vm_compute. reflexivity. Qed.
