(* ===== verification/Snapshots.v ===== *)
(** * Snapshots and remote backups of the controller server

    CreateSnapshot, DeleteSnapshot and ListSnapshots for the two kinds of
    snapshot: a VolumeSnapshot of the host, whose id is its name, and a
    VolumeRemoteBackup, whose id is "backup:namespace/name". *)

From S2P Require Import Prelude Go Prog Kube Csi Api Utils CsiUtil Json Controller Volumes.

(** ** Snapshot class *)

(** The error of the JSON decoder; its text is not modelled. *)
Definition jsonError : error := OtherErr "invalid JSON".

Definition unmarshalFailed {A} : Fallible A :=
  Ret (Err (WrapErr ("unmarshal failed, error: " +:+ Error jsonError +:+ ", value: "
                     +:+ defaultCSIDriverConfig) jsonError)).

(** The class of the provisioner in one of the two maps, unless it is empty *)
Definition snapClassOf (csiInfo : gmap string CSIDriverInfo) (provisioner : string)
    : option string :=
  match csiInfo !! provisioner with
  | Some info => if negb (VolumeSnapshotClassName info =? "")%string
                 then Some (VolumeSnapshotClassName info) else None
  | None => None
  end.

Definition getHostSnapClass (hostPVC : PersistentVolumeClaim) : Fallible string :=
  let? csiConfig := getHarvCSIConfig in
  match json.Unmarshal (set_Default csiConfig) with
  | None => unmarshalFailed
  | Some csiInfo =>
      let provisioner := map_get (Annotations (meta hostPVC)) AnnStorageProvisioner in
      match snapClassOf csiInfo provisioner with
      | Some c => Ret (Ok c)
      | None =>
          match json.Unmarshal (set_Value csiConfig) with
          | None => unmarshalFailed
          | Some csiInfo =>
              match snapClassOf csiInfo provisioner with
              | Some c => Ret (Ok c)
              | None => Ret (Err (FmtErr
                  ("no VolumeSnapshotClassName found for provisioner " +:+ provisioner)))
              end
          end
      end
  end.

Definition generateHostSnapManifest (cs : ControllerServer) (name hostSnapClass : string)
    (hostPVC : PersistentVolumeClaim) : result VolumeSnapshot :=
  match StorageClassName (pvc_Spec hostPVC) with
  | None => Err (FmtErr "host PVC is nil or does not have a StorageClassName")
  | Some sc =>
      let volumeMode := default PersistentVolumeBlock (VolumeMode (pvc_Spec hostPVC)) in
      let labels := <[labelSnapHostVolumeMode := volumeMode]> {[labelSnapHostSC := sc]} in
      Ok {| snap_meta := set_Labels (Some labels) (newMeta (namespace cs) name);
            snap_PersistentVolumeClaimName := Some (name_of hostPVC);
            snap_VolumeSnapshotClassName := Some hostSnapClass;
            snap_Status := None |}
  end.

(** ** Conversion to CSI *)

(** The status is read through a pointer that may be nil. *)
Definition convertVolumeSnapshotToCSI (hostSnap : VolumeSnapshot) (vol : string)
    : Fallible Snapshot :=
  if (name_of hostSnap =? "")%string then Ret (Err (FmtErr "snapshot name cannot be empty"))
  else if (vol =? "")%string then Ret (Err (FmtErr "source volume ID cannot be empty"))
  else
    let* st := deref (snap_Status hostSnap) in
    Ret (Ok {| SnapshotId := name_of hostSnap;
               SourceVolumeId := vol;
               SizeBytes := default 0 (RestoreSize st);
               snapshot_CreationTime := CreationTime st;
               snapshot_ReadyToUse := default false (ReadyToUse st) |}).

Definition convertVolumeRemoteBackupToCSI (vrb : VolumeRemoteBackup) (vol : string)
    : result Snapshot :=
  if (name_of vrb =? "")%string then Err (FmtErr "VolumeRemoteBackup name cannot be empty")
  else if (vol =? "")%string then Err (FmtErr "source volume ID cannot be empty")
  else
    let creationTime := if IsZero (CreationTimestamp (meta vrb)) then None
                        else Some (CreationTimestamp (meta vrb)) in
    let sizeBytes := match Requests (vrb_SourceSpec vrb) with
                     | Some _ => Storage (Requests (vrb_SourceSpec vrb))
                     | None => 0
                     end in
    Ok {| SnapshotId := formatBackupSnapshotID (Namespace (meta vrb)) (name_of vrb);
          SourceVolumeId := vol;
          SizeBytes := sizeBytes;
          snapshot_CreationTime := creationTime;
          snapshot_ReadyToUse := vrb_Success vrb |}.

(** ** Readiness *)

(** The message of the error and the restore size are dereferenced without
    a test. *)
Definition checkSnapsReadiness (cs : ControllerServer) (hostSnap : string) : P bool :=
  let* r := getHostSnap (namespace cs) hostSnap in
  match r with
  | Err _ => Ret false
  | Ok currentHostSnap =>
      match snap_Status currentHostSnap with
      | None => Ret false
      | Some st =>
          match StatusError st with
          | Some message => let* _ := deref message in Ret false
          | None =>
              if default false (ReadyToUse st) then
                let* _ := deref (RestoreSize st) in Ret true
              else Ret false
          end
      end
  end.

Definition prepareSnapshotResponse (cs : ControllerServer) (hostSnap vol : string)
    : Fallible Snapshot :=
  let* ready := checkSnapsReadiness cs hostSnap in
  if negb ready then
    Ret (Err (StatusErr Internal ("host snap " +:+ hostSnap +:+ " is not ready")))
  else
    let? readyHostSnap := getHostSnap (namespace cs) hostSnap in
    check! validateHostSnapLabels readyHostSnap in
    convertVolumeSnapshotToCSI readyHostSnap vol.

Definition checkVolumeRemoteBackupReadiness (cs : ControllerServer) (name : string) : P bool :=
  let* vrb := getHostVolumeRemoteBackup (namespace cs) name in
  match vrb with
  | Err _ => Ret false
  | Ok vrb => if vrb_Success vrb then Ret true else Ret false
  end.

Definition prepareBackupSnapResponse (cs : ControllerServer) (name sourceVolumeID : string)
    : Fallible Snapshot :=
  let* ready := checkVolumeRemoteBackupReadiness cs name in
  if negb ready then
    Ret (Err (StatusErr Internal ("VolumeRemoteBackup " +:+ name +:+ " is not ready")))
  else
    let* r := getHostVolumeRemoteBackup (namespace cs) name in
    match r with
    | Err err => Ret (Err (StatusErr Internal
        ("Failed to get VolumeRemoteBackup " +:+ name +:+ ": " +:+ Error err)))
    | Ok readyVrb => Ret (convertVolumeRemoteBackupToCSI readyVrb sourceVolumeID)
    end.

(** ** CreateSnapshot *)

Definition validateCreateSnapshotRequest (req : CreateSnapshotRequest) : result unit :=
  if (cs_Name req =? "")%string then
    Err (StatusErr InvalidArgument "Snapshot name cannot be empty")
  else if (cs_SourceVolumeId req =? "")%string then
    Err (StatusErr InvalidArgument "Source volume ID cannot be empty")
  else Ok tt.

Definition buildHostVolumeRemoteBackup (cs : ControllerServer) (name sourceVolumeID : string)
    (backupType : string) : VolumeRemoteBackup :=
  {| vrb_meta := set_Labels (Some {[labelBackupSrcVol := sourceVolumeID]})
                   (newMeta (namespace cs) name);
     vrb_Type := backupType;
     vrb_Source := sourceVolumeID;
     vrb_SourceSpec := emptyPVCSpec;
     vrb_Success := false |}.

Definition generateHostVolumeRemoteBackup (cs : ControllerServer) (name sourceVolumeID : string)
    : Fallible VolumeRemoteBackup :=
  createHostVolumeRemoteBackup (buildHostVolumeRemoteBackup cs name sourceVolumeID LHBackup).

Definition createHostVolumeRemoteBackupFromReq (cs : ControllerServer)
    (name sourceVolumeID : string) : Fallible Snapshot :=
  let? createdVrb := generateHostVolumeRemoteBackup cs name sourceVolumeID in
  prepareBackupSnapResponse cs (name_of createdVrb) sourceVolumeID.

Definition handleExistingBackupSnap (cs : ControllerServer) (name sourceVolumeID : string)
    : Fallible Snapshot :=
  let? existingVrb := getHostVolumeRemoteBackup (namespace cs) name in
  prepareBackupSnapResponse cs (name_of existingVrb) sourceVolumeID.

Definition handleExistingLocalSnap (cs : ControllerServer) (name vol : string)
    : Fallible Snapshot :=
  let? existingHostSnap := getHostSnap (namespace cs) name in
  check! validateHostSnapLabels existingHostSnap in
  prepareSnapshotResponse cs (name_of existingHostSnap) vol.

Definition generateHostSnap (cs : ControllerServer) (name : string)
    (hostPVC : PersistentVolumeClaim) : Fallible VolumeSnapshot :=
  let? hostSnapClass := getHostSnapClass hostPVC in
  match generateHostSnapManifest cs name hostSnapClass hostPVC with
  | Err err => Ret (Err err)
  | Ok hostSnap => createHostSnap hostSnap
  end.

Definition createSnapFromVolume (cs : ControllerServer) (name vol : string) : Fallible Snapshot :=
  let? hostPVC := getHostPVC (namespace cs) vol in
  let? createdHostSnap := generateHostSnap cs name hostPVC in
  prepareSnapshotResponse cs (name_of createdHostSnap) vol.

Definition handleBackupSnap (cs : ControllerServer) (name sourceVolumeID : string)
    : Fallible Snapshot :=
  let* r := handleExistingBackupSnap cs name sourceVolumeID in
  match r with
  | Ok response => Ret (Ok response)
  | Err err =>
      if negb (errors.IsNotFound err) then Ret (Err err)
      else createHostVolumeRemoteBackupFromReq cs name sourceVolumeID
  end.

Definition handleLocalSnap (cs : ControllerServer) (name sourceVolumeID : string)
    : Fallible Snapshot :=
  let* r := handleExistingLocalSnap cs name sourceVolumeID in
  match r with
  | Ok response => Ret (Ok response)
  | Err err =>
      if negb (errors.IsNotFound err) then Ret (Err err)
      else createSnapFromVolume cs name sourceVolumeID
  end.

Definition CreateSnapshot (cs : ControllerServer) (req : CreateSnapshotRequest)
    : Fallible Snapshot :=
  check! validateCreateSnapshotRequest req in
  let isBackupSnapshot := negb (isNil (cs_Parameters req))
    && (map_get (cs_Parameters req) paramSnapshotType =? snapshotTypeBackup)%string in
  if isBackupSnapshot then handleBackupSnap cs (cs_Name req) (cs_SourceVolumeId req)
  else handleLocalSnap cs (cs_Name req) (cs_SourceVolumeId req).

(** ** DeleteSnapshot *)

Definition validateDeleteSnapshotRequest (snapshotId : string) : result unit :=
  if (snapshotId =? "")%string then
    Err (StatusErr InvalidArgument "Snapshot ID cannot be empty")
  else Ok tt.

Definition handleBackupSnapDeletion (ns name : string) : Fallible unit :=
  let* r := deleteHostVolumeRemoteBackup ns name in
  match r with
  | Err err =>
      if errors.IsNotFound err then Ret (Ok tt)
      else Ret (Err (StatusErr Internal ("Failed to delete VolumeRemoteBackup " +:+ ns +:+ "/"
                                         +:+ name +:+ ": " +:+ Error err)))
  | Ok _ => Ret (Ok tt)
  end.

(** A deletion that was accepted is reported as an error, so that the caller
    asks again until the snapshot is gone. *)
Definition handleLocalSnapDeletion (cs : ControllerServer) (name : string) : Fallible unit :=
  let* r := deleteHostSnap (namespace cs) name in
  match r with
  | Err err => if errors.IsNotFound err then Ret (Ok tt) else Ret (Err err)
  | Ok _ => Ret (Err (FmtErr ("host snapshot " +:+ name +:+ " deletion not confirmed")))
  end.

Definition DeleteSnapshot (cs : ControllerServer) (snapshotId : string) : Fallible unit :=
  check! validateDeleteSnapshotRequest snapshotId in
  let '(isBackup, ns, name) := parseSnapshotID snapshotId in
  if isBackup : bool then handleBackupSnapDeletion ns name
  else handleLocalSnapDeletion cs name.

(** ** ListSnapshots *)

Definition validateListSnapshotsRequest (req : ListSnapshotsRequest) : result ListOptions :=
  if ls_MaxEntries req <? 0 then
    Err (StatusErr InvalidArgument "MaxEntries cannot be negative")
  else
    Ok {| LabelSelector := "";
          Continue := if negb (ls_StartingToken req =? "")%string
                      then ls_StartingToken req else "";
          Limit := if 0 <? ls_MaxEntries req then ls_MaxEntries req else 0 |}.

Definition shouldIncludeSnapshot (hostSnap : VolumeSnapshot) (req : ListSnapshotsRequest) : bool :=
  match validateHostSnapLabels hostSnap with
  | Err _ => false
  | Ok _ =>
      if negb (ls_SnapshotId req =? "")%string
         && negb (name_of hostSnap =? ls_SnapshotId req)%string then false
      else if negb (ls_SourceVolumeId req =? "")%string then
        match snap_PersistentVolumeClaimName hostSnap with
        | None => false
        | Some claim => negb (negb (claim =? ls_SourceVolumeId req)%string)
        end
      else true
  end.

Definition convertHostSnapshotToEntry (hostSnap : VolumeSnapshot) : Fallible Snapshot :=
  let vol := default "" (snap_PersistentVolumeClaimName hostSnap) in
  let* r := convertVolumeSnapshotToCSI hostSnap vol in
  match r with
  | Err err => Ret (Err (WrapErr ("failed to convert snapshot " +:+ name_of hostSnap
                                  +:+ " to CSI format: " +:+ Error err) err))
  | Ok csiSnapshot => Ret (Ok csiSnapshot)
  end.

Fixpoint processHostSnapshots (items : list VolumeSnapshot) (req : ListSnapshotsRequest)
    : P (list Snapshot) :=
  match items with
  | [] => Ret []
  | hostSnap :: rest =>
      if negb (shouldIncludeSnapshot hostSnap req) then processHostSnapshots rest req
      else
        let* entry := convertHostSnapshotToEntry hostSnap in
        match entry with
        | Err _ => processHostSnapshots rest req
        | Ok entry =>
            let* entries := processHostSnapshots rest req in
            Ret (entry :: entries)
        end
  end.

(** The snapshot id of the request is not compared. *)
Definition shouldIncludeBackupSnapshot (vrb : VolumeRemoteBackup) (req : ListSnapshotsRequest)
    : bool :=
  match Labels (meta vrb) with
  | None => false
  | Some labels =>
      match labels !! labelBackupSrcVol with
      | None => false
      | Some sourceVol =>
          if negb (ls_SourceVolumeId req =? "")%string
             && negb (sourceVol =? ls_SourceVolumeId req)%string then false
          else true
      end
  end.

Definition convertVolumeRemoteBackupToEntry (vrb : VolumeRemoteBackup) : result Snapshot :=
  let sourceVol := map_get (Labels (meta vrb)) labelBackupSrcVol in
  match convertVolumeRemoteBackupToCSI vrb sourceVol with
  | Err err => Err (WrapErr ("failed to convert VolumeRemoteBackup " +:+ name_of vrb
                             +:+ " to CSI format: " +:+ Error err) err)
  | Ok csiSnapshot => Ok csiSnapshot
  end.

(** The loop over the backups *)
Fixpoint backupEntries (items : list VolumeRemoteBackup) (req : ListSnapshotsRequest)
    : list Snapshot :=
  match items with
  | [] => []
  | vrb :: rest =>
      if negb (shouldIncludeBackupSnapshot vrb req) then backupEntries rest req
      else match convertVolumeRemoteBackupToEntry vrb with
           | Err _ => backupEntries rest req
           | Ok entry => entry :: backupEntries rest req
           end
  end.

Definition processHostVolumeRemoteBackups (req : ListSnapshotsRequest) : Fallible (list Snapshot) :=
  let listOptions :=
    {| LabelSelector := if negb (ls_SourceVolumeId req =? "")%string
                        then labelBackupSrcVol +:+ "=" +:+ ls_SourceVolumeId req else "";
       Continue := ""; Limit := 0 |} in
  let? vrbList := listHostVolumeRemoteBackups "" listOptions in
  Ret (Ok (backupEntries vrbList req)).

(** Returns the entries and the continuation token. *)
Definition listLocalSnaps (cs : ControllerServer) (listOptions : ListOptions)
    (req : ListSnapshotsRequest) : Fallible (list Snapshot * string) :=
  let* r := listHostSnaps (namespace cs) listOptions in
  match r with
  | Err err => Ret (Err (StatusErr Internal
      ("Failed to list host VolumeSnapshots: " +:+ Error err)))
  | Ok hostSnaps =>
      let* entries := processHostSnapshots (snap_Items hostSnaps) req in
      Ret (Ok (entries, snap_Continue hostSnaps))
  end.

Definition listBackupSnaps (req : ListSnapshotsRequest) : Fallible (list Snapshot) :=
  let* r := processHostVolumeRemoteBackups req in
  match r with
  | Err err => Ret (Err (StatusErr Internal
      ("Failed to list host VolumeRemoteBackups: " +:+ Error err)))
  | Ok entries => Ret (Ok entries)
  end.

Definition ListSnapshots (cs : ControllerServer) (req : ListSnapshotsRequest)
    : Fallible ListSnapshotsResponse :=
  match validateListSnapshotsRequest req with
  | Err err => Ret (Err err)
  | Ok listOptions =>
      let? local := listLocalSnaps cs listOptions req in
      let '(localSnaps, nextToken) := local in
      let* r := listBackupSnaps req in
      let backupSnaps := match r with Ok l => l | Err _ => [] end in
      Ret (Ok {| Entries := localSnaps ++ backupSnaps; NextToken := nextToken |})
  end.
