(* ===== verification/SnapshotsSpec.v ===== *)
(** * What the snapshot handlers read and write *)

From S2P Require Import Prelude Go Prog Kube Csi Api Store Utils CsiUtil Json Controller Samples Volumes VolumesSpec Attach AttachSpec Snapshots.

(** ** Reads *)

(** A snapshot read as ready: no error, ready to use, with a size *)
Definition ready_snapshot (snap : VolumeSnapshot) : Prop :=
  exists st size, snap_Status snap = Some st /\ StatusError st = None
    /\ ReadyToUse st = Some true /\ RestoreSize st = Some size.

(** The snapshot objects on which the readiness check or the conversion
    dereferences a nil pointer *)
Definition malformed_snapshot (snap : VolumeSnapshot) : Prop :=
  match snap_Status snap with
  | None => True
  | Some st => StatusError st = Some None
               \/ (StatusError st = None /\ ReadyToUse st = Some true /\ RestoreSize st = None)
  end.

Lemma checkSnapsReadiness_spec cs n :
  wp (checkSnapsReadiness cs n) (fun tr o =>
    writes tr = [] /\
    match o with
    | Returned true => exists snap, tr = [ev (SnapGet (namespace cs) n) (Ok snap)] /\ ready_snapshot snap
    | Returned false => True
    | Panicked _ => exists snap, In (ev (SnapGet (namespace cs) n) (Ok snap)) tr /\ malformed_snapshot snap
    end).
Proof.
  unfold checkSnapsReadiness, malformed_snapshot, ready_snapshot. cbn.
  intros [snap|e]; cbn; [|by writes_simpl].
  destruct (snap_Status snap) as [st|] eqn:Es; cbn; [|by writes_simpl].
  destruct (StatusError st) as [[m|]|] eqn:Ee; cbn; [by writes_simpl| |].
  { split; [by writes_simpl|]. exists snap. rewrite Es. auto with csi. }
  destruct (ReadyToUse st) as [[]|] eqn:Er; cbn; [|by writes_simpl..].
  destruct (RestoreSize st) as [sz|] eqn:Ez; cbn; (split; [by writes_simpl|]);
    exists snap; [by split; [|exists st, sz]|].
  split; [auto with csi|]. rewrite Es. auto.
Qed.

(** What a converted snapshot says of the object *)
Definition describes (snap : VolumeSnapshot) (vol : string) (s : Snapshot) : Prop :=
  exists st, snap_Status snap = Some st
  /\ s = mkSnapshot (name_of snap) vol (default 0 (RestoreSize st)) (CreationTime st)
           (default false (ReadyToUse st)).

(** ** CreateSnapshot of a VolumeSnapshot *)

(** The names CreateSnapshot of [name] looks up: the one requested, and the
    one of the object the server answered with for it. *)
Definition snap_named (cs : ControllerServer) (name : string) (tr : trace reply) (n : string) : Prop :=
  n = name
  \/ (exists x, In (ev (SnapGet (namespace cs) name) (Ok x)) tr /\ n = name_of x)
  \/ (exists snap x, key_of snap = (namespace cs, name)
       /\ In (ev (SnapCreate snap) (Ok x)) tr /\ n = name_of x).

(** A successful run ends with two reads of the snapshot: one that finds it
    ready and one, the last, that the response describes. *)
Definition local_response (cs : ControllerServer) (name vol : string) (tr : trace reply)
    (s : Snapshot) : Prop :=
  exists n before ready final,
    tr = before ++ [ev (SnapGet (namespace cs) n) (Ok ready); ev (SnapGet (namespace cs) n) (Ok final)]
    /\ snap_named cs name before n /\ ready_snapshot ready
    /\ validateHostSnapLabels final = Ok tt /\ describes final vol s.

Definition malformed_read (cs : ControllerServer) (name : string) (tr : trace reply) : Prop :=
  exists n snap, snap_named cs name tr n
    /\ In (ev (SnapGet (namespace cs) n) (Ok snap)) tr /\ malformed_snapshot snap.

(** The snapshot was answered not found. *)
Definition snap_missing (cs : ControllerServer) (name : string) (tr : trace reply) : Prop :=
  exists n e, snap_named cs name tr n
    /\ In (ev (SnapGet (namespace cs) n) (Err e)) tr /\ errors.IsNotFound e = true.

Lemma snap_named_grows cs name n : grows (fun tr => snap_named cs name tr n).
Proof.
  unfold grows, incl, snap_named.
  intros tr tr' Hi [?|[(x & ? & ?)|(snap & x & ? & ? & ?)]]; [auto|right; left|right; right]; eauto 10.
Qed.

Lemma malformed_read_grows cs name : grows (malformed_read cs name).
Proof.
  intros tr tr' Hi (n & s & Hn & ? & ?). exists n, s. split; [|auto].
  by eapply (snap_named_grows cs name n).
Qed.

Lemma snap_missing_grows cs name : grows (snap_missing cs name).
Proof.
  intros tr tr' Hi (n & e & Hn & ? & ?). exists n, e. split; [|auto].
  by eapply (snap_named_grows cs name n).
Qed.

(** The reads of a response, for the snapshot [n] *)
Lemma prepareSnapshotResponse_spec cs n vol :
  wp (prepareSnapshotResponse cs n vol) (fun tr o =>
    writes tr = [] /\
    match o with
    | Returned (Ok s) => exists ready final,
        tr = [ev (SnapGet (namespace cs) n) (Ok ready); ev (SnapGet (namespace cs) n) (Ok final)]
        /\ ready_snapshot ready /\ validateHostSnapLabels final = Ok tt /\ describes final vol s
    | Returned (Err e) => errors.IsNotFound e = true ->
        exists e', In (ev (SnapGet (namespace cs) n) (Err e')) tr /\ errors.IsNotFound e' = true
    | Panicked _ => exists snap, In (ev (SnapGet (namespace cs) n) (Ok snap)) tr
        /\ malformed_snapshot snap
    end).
Proof.
  unfold prepareSnapshotResponse.
  eapply wp_bind_use; [apply checkSnapsReadiness_spec| |].
  2: { intros tr w [Hw (snap & Hin & Hm)]. split; [done|]. by exists snap. }
  intros tr [] [Hw H]; cbn; [|split; [by writes_simpl|done]].
  destruct H as (ready & -> & Hr). intros [snap|e]; cbn.
  2: { split; [by writes_simpl|]. intros He. exists e. auto with csi. }
  destruct (validateHostSnapLabels snap) as [[]|e] eqn:El; cbn.
  2: { split; [by writes_simpl|]. unfold validateHostSnapLabels in El.
       by repeat case_match; simplify_eq. }
  unfold convertVolumeSnapshotToCSI.
  case_match; cbn; [split; [by writes_simpl|done]|].
  case_match; cbn; [split; [by writes_simpl|done]|].
  destruct (snap_Status snap) as [st|] eqn:Es; cbn; (split; [by writes_simpl|]).
  - exists ready, snap. split_and!; try done. by exists st.
  - exists snap. split; [auto with csi|]. unfold malformed_snapshot. by rewrite Es.
Qed.

(** The same, after a run that gave the name *)
Lemma prepareSnapshotResponse_after cs name n vol before :
  snap_named cs name before n ->
  wp (prepareSnapshotResponse cs n vol) (fun tr o =>
    writes tr = [] /\
    match o with
    | Returned (Ok s) => local_response cs name vol (before ++ tr) s
    | Returned (Err e) => errors.IsNotFound e = true -> snap_missing cs name (before ++ tr)
    | Panicked _ => malformed_read cs name (before ++ tr)
    end).
Proof.
  intros Hn. assert (Hn' : forall t, snap_named cs name (before ++ t) n).
  { intros t. eapply (snap_named_grows cs name n); [|exact Hn]. auto with datatypes. }
  eapply wp_mono; [apply prepareSnapshotResponse_spec|].
  intros tr [[s|e]|w] [Hw H]; (split; [done|]).
  - destruct H as (ready & final & -> & H). by exists n, before, ready, final.
  - intros He. destruct (H He) as (e' & Hin & He'). exists n, e'. auto with csi.
  - destruct H as (snap & Hin & Hm). exists n, snap. auto with csi.
Qed.

(** The snapshot object CreateSnapshot submits for the claim [pvc] *)
Definition snap_object (cs : ControllerServer) (name : string) (pvc : PersistentVolumeClaim)
    (snap : VolumeSnapshot) : Prop :=
  key_of snap = (namespace cs, name)
  /\ snap_PersistentVolumeClaimName snap = Some (name_of pvc)
  /\ (exists sc, StorageClassName (pvc_Spec pvc) = Some sc
        /\ map_lookup (Labels (meta snap)) labelSnapHostSC = Some sc)
  /\ map_lookup (Labels (meta snap)) labelSnapHostVolumeMode
     = Some (default PersistentVolumeBlock (VolumeMode (pvc_Spec pvc))).

Lemma generateHostSnapManifest_spec cs name cls pvc snap :
  generateHostSnapManifest cs name cls pvc = Ok snap -> snap_object cs name pvc snap.
Proof.
  unfold generateHostSnapManifest. destruct (StorageClassName (pvc_Spec pvc)) as [sc|] eqn:E; [|done].
  intros [= <-]. unfold snap_object. cbn -[insert singletonM lookup]. split_and!; try done.
  exists sc. split; [done|]. rewrite lookup_insert_ne by done. by rewrite lookup_singleton_eq.
Qed.

(** How a creation of a VolumeSnapshot ends: it begins with a look-up of the
    requested name. *)
Definition local_post (cs : ControllerServer) (name vol : string)
    (tr : trace reply) (o : outcome (result Snapshot)) : Prop :=
  List.hd_error (calls tr) = Some (SnapGet (namespace cs) name)
  /\ (writes tr = []
   \/ exists pvc snap, In (ev (PvcGet (namespace cs) vol) (Ok pvc)) tr
        /\ snap_object cs name pvc snap /\ writes tr = [SnapCreate snap]
        /\ snap_missing cs name tr)
  /\ match o with
     | Returned (Ok s) => local_response cs name vol tr s
     | Returned (Err _) => True
     | Panicked _ => malformed_read cs name tr
     end.

Lemma handleExistingLocalSnap_spec cs name vol :
  wp (handleExistingLocalSnap cs name vol) (fun tr o =>
    List.hd_error (calls tr) = Some (SnapGet (namespace cs) name) /\
    writes tr = [] /\
    match o with
    | Returned (Ok s) => local_response cs name vol tr s
    | Returned (Err e) => errors.IsNotFound e = true -> snap_missing cs name tr
    | Panicked _ => malformed_read cs name tr
    end).
Proof.
  unfold handleExistingLocalSnap. cbn -[prepareSnapshotResponse].
  intros [snap|e]; cbn -[prepareSnapshotResponse].
  2: { split_and!; [done|by writes_simpl|]. intros He. exists name, e.
       split; [by left|auto with csi]. }
  destruct (validateHostSnapLabels snap) as [[]|e] eqn:El; cbn -[prepareSnapshotResponse].
  2: { split_and!; [done|by writes_simpl|]. unfold validateHostSnapLabels in El.
       by repeat case_match; simplify_eq. }
  set (g := ev (SnapGet _ _) (Ok snap)).
  eapply wp_mono; [apply (prepareSnapshotResponse_after cs name _ vol [g])|].
  { right; left. exists snap. split; [by left|done]. }
  intros tr o [Hw H]. split_and!; [done|by writes_simpl|exact H].
Qed.

Lemma getHostSnapClass_spec pvc :
  wp (getHostSnapClass pvc) (fun tr o => writes tr = [] /\ exists r, o = Returned r).
Proof.
  cbn. intros [c|e]; cbn; repeat case_match; cbn; (split; [by writes_simpl|eauto]).
Qed.

(** A snapshot is submitted for the claim given, after its class was found. *)
Lemma generateHostSnap_spec cs name pvc :
  wp (generateHostSnap cs name pvc) (fun tr o =>
    (writes tr = [] /\ exists e, o = Returned (Err e))
    \/ exists snap r, snap_object cs name pvc snap /\ writes tr = [SnapCreate snap]
       /\ In (ev (SnapCreate snap) r) tr /\ o = Returned r).
Proof.
  unfold generateHostSnap. eapply wp_bind_use; [apply getHostSnapClass_spec| |].
  2: { by intros tr w [_ [r ?]]. }
  intros tr [cls|e] [Hw _]; [|cbn; rewrite app_nil_r; left; eauto].
  destruct (generateHostSnapManifest cs name cls pvc) as [snap|e] eqn:E;
    [|cbn; rewrite app_nil_r; left; eauto].
  cbn. intros r. right. exists snap, r.
  split_and!; [by eapply generateHostSnapManifest_spec|by writes_simpl|auto with csi|done].
Qed.

Lemma handleLocalSnap_spec cs name vol :
  wp (handleLocalSnap cs name vol) (local_post cs name vol).
Proof.
  unfold handleLocalSnap, local_post.
  eapply wp_bind_use; [apply handleExistingLocalSnap_spec| |].
  2: { intros tr w (Hh & Hw & H). auto. }
  intros tr [s|e] (Hh & Hw & H); [cbn; rewrite app_nil_r; auto|].
  destruct (errors.IsNotFound e) eqn:He; cbn [negb]; [|cbn; rewrite app_nil_r; auto].
  specialize (H eq_refl).
  assert (Hh' : forall t, List.hd_error (calls (tr ++ t)) = Some (SnapGet (namespace cs) name)).
  { intros t. by destruct tr. }
  unfold createSnapFromVolume. cbn -[prepareSnapshotResponse generateHostSnap].
  intros [pvc|e1]; cbn -[prepareSnapshotResponse generateHostSnap];
    [|split_and!; [apply Hh'|left; by writes_simpl|done]].
  set (g := ev (PvcGet _ _) (Ok pvc)).
  eapply wp_bind_use; [apply generateHostSnap_spec| |].
  2: { intros tr1 w [[_ [? ?]]|(? & ? & _ & _ & _ & ?)]; done. }
  intros tr1 r [[Hw1 [e1 [= ->]]]|(snap & r' & Hs & Hw1 & Hr & [= ->])].
  { cbn. rewrite app_nil_r. split_and!; [apply Hh'|left; by writes_simpl|done]. }
  assert (Hc : forall tr2, writes tr2 = [] ->
    exists pvc snap, In (ev (PvcGet (namespace cs) vol) (Ok pvc)) (tr ++ g :: tr1 ++ tr2)
      /\ snap_object cs name pvc snap /\ writes (tr ++ g :: tr1 ++ tr2) = [SnapCreate snap]
      /\ snap_missing cs name (tr ++ g :: tr1 ++ tr2)).
  { intros tr2 Hw2. exists pvc, snap. split_and!; [auto with csi|done|by writes_simpl|].
    eapply (snap_missing_grows cs name); [|exact H]. auto with datatypes. }
  destruct r' as [created|e1];
    [|cbn; split_and!; [apply Hh'|right; by apply (Hc [])|done]].
  eapply wp_mono; [apply (prepareSnapshotResponse_after cs name _ vol (tr ++ g :: tr1))|].
  { right; right. exists snap, created. split_and!; [apply Hs|auto with csi|done]. }
  intros tr2 o [Hw2 H2]. rewrite <- app_assoc in H2. cbn [app] in H2.
  split_and!; [apply Hh'|right; by apply Hc|]. by destruct o as [[s|e2]|w].
Qed.

(** ** CreateSnapshot of a VolumeRemoteBackup *)

(** The names CreateSnapshot of the backup [name] looks up *)
Definition backup_named (cs : ControllerServer) (name vol : string) (tr : trace reply)
    (n : string) : Prop :=
  (exists x, In (ev (VrbGet (namespace cs) name) (Ok x)) tr /\ n = name_of x)
  \/ (exists x, In (ev (VrbCreate (buildHostVolumeRemoteBackup cs name vol LHBackup)) (Ok x)) tr
       /\ n = name_of x).

(** A successful run ends with two reads of the backup: one that finds it
    successful and one, the last, that the response describes. *)
Definition backup_response (cs : ControllerServer) (name vol : string) (tr : trace reply)
    (s : Snapshot) : Prop :=
  exists n before ready final,
    tr = before ++ [ev (VrbGet (namespace cs) n) (Ok ready); ev (VrbGet (namespace cs) n) (Ok final)]
    /\ backup_named cs name vol before n /\ vrb_Success ready = true
    /\ convertVolumeRemoteBackupToCSI final vol = Ok s.

Lemma convertVolumeRemoteBackupToCSI_err vrb vol e :
  convertVolumeRemoteBackupToCSI vrb vol = Err e -> errors.IsNotFound e = false.
Proof. unfold convertVolumeRemoteBackupToCSI. by repeat case_match; intros [= <-]. Qed.

Lemma prepareBackupSnapResponse_spec cs n vol :
  wp (prepareBackupSnapResponse cs n vol) (fun tr o =>
    writes tr = [] /\
    match o with
    | Returned (Ok s) => exists ready final,
        tr = [ev (VrbGet (namespace cs) n) (Ok ready); ev (VrbGet (namespace cs) n) (Ok final)]
        /\ vrb_Success ready = true /\ convertVolumeRemoteBackupToCSI final vol = Ok s
    | Returned (Err e) => errors.IsNotFound e = false
    | Panicked _ => False
    end).
Proof.
  unfold prepareBackupSnapResponse. cbn. intros [ready|e]; cbn; [|by writes_simpl].
  destruct (vrb_Success ready) eqn:Er; cbn; [|by writes_simpl].
  intros [final|e]; cbn; [|by writes_simpl].
  split; [by writes_simpl|].
  destruct (convertVolumeRemoteBackupToCSI final vol) as [s|e] eqn:Ec.
  - by exists ready, final.
  - by eapply convertVolumeRemoteBackupToCSI_err.
Qed.

(** How a creation of a backup ends: it begins with a look-up of the
    requested name. *)
Definition backup_post (cs : ControllerServer) (name vol : string)
    (tr : trace reply) (o : outcome (result Snapshot)) : Prop :=
  List.hd_error (calls tr) = Some (VrbGet (namespace cs) name)
  /\ (writes tr = []
   \/ writes tr = [VrbCreate (buildHostVolumeRemoteBackup cs name vol LHBackup)]
      /\ exists e, In (ev (VrbGet (namespace cs) name) (Err e)) tr /\ errors.IsNotFound e = true)
  /\ match o with
     | Returned (Ok s) => backup_response cs name vol tr s
     | Returned (Err _) => True
     | Panicked _ => False
     end.

Lemma handleBackupSnap_spec cs name vol :
  wp (handleBackupSnap cs name vol) (backup_post cs name vol).
Proof.
  unfold handleBackupSnap, handleExistingBackupSnap, backup_post.
  cbn -[prepareBackupSnapResponse createHostVolumeRemoteBackupFromReq].
  intros [existing|e]; cbn -[prepareBackupSnapResponse createHostVolumeRemoteBackupFromReq].
  - set (g := ev (VrbGet _ _) (Ok existing)).
    eapply wp_bind_use; [apply prepareBackupSnapResponse_spec| |]; [|by intros tr w [_ []]].
    intros tr [s|e] [Hw H]; cbn -[createHostVolumeRemoteBackupFromReq].
    + rewrite app_nil_r. split_and!; [done|left; by writes_simpl|].
      destruct H as (ready & final & -> & ? & ?). exists (name_of existing), [g], ready, final.
      split_and!; try done. left. exists existing. split; [by left|done].
    + rewrite H. cbn. rewrite app_nil_r. split_and!; [done|left; by writes_simpl|done].
  - destruct (errors.IsNotFound e) eqn:He; cbn [negb];
      [|cbn; split_and!; [done|left; by writes_simpl|done]].
    unfold createHostVolumeRemoteBackupFromReq.
    cbn -[prepareBackupSnapResponse buildHostVolumeRemoteBackup].
    set (g := ev (VrbGet _ _) (Err e)).
    assert (Hc : forall r tr2, writes tr2 = [] ->
      let t := g :: ev (VrbCreate (buildHostVolumeRemoteBackup cs name vol LHBackup)) r :: tr2 in
      writes t = [VrbCreate (buildHostVolumeRemoteBackup cs name vol LHBackup)]
      /\ exists e, In (ev (VrbGet (namespace cs) name) (Err e)) t /\ errors.IsNotFound e = true).
    { intros r tr2 Hw2. cbn zeta. split; [by writes_simpl|]. exists e. auto with csi. }
    intros [created|e']; cbn -[prepareBackupSnapResponse buildHostVolumeRemoteBackup];
      [|split_and!; [done|right; by apply Hc|done]].
    eapply wp_mono; [apply prepareBackupSnapResponse_spec|].
    intros tr o [Hw H]. split_and!; [done|right; by apply Hc|]. destruct o as [[s|e2]|w]; [|done..].
    destruct H as (ready & final & -> & ? & ?).
    exists (name_of created), [g; ev (VrbCreate (buildHostVolumeRemoteBackup cs name vol LHBackup)) (Ok created)],
      ready, final.
    split_and!; try done. right. exists created. split; [right; by left|done].
Qed.

(** ** ListSnapshots *)

(** The snapshots a request asks for *)
Definition matches (req : ListSnapshotsRequest) (snap : VolumeSnapshot) : Prop :=
  validateHostSnapLabels snap = Ok tt
  /\ (ls_SnapshotId req <> "" -> name_of snap = ls_SnapshotId req)
  /\ (ls_SourceVolumeId req <> "" ->
      snap_PersistentVolumeClaimName snap = Some (ls_SourceVolumeId req)).

Lemma shouldIncludeSnapshot_spec req snap :
  shouldIncludeSnapshot snap req = true <-> matches req snap.
Proof.
  unfold shouldIncludeSnapshot, matches.
  destruct (validateHostSnapLabels snap) as [[]|e]; [|naive_solver].
  destruct (ls_SnapshotId req =? "")%string eqn:E1, (name_of snap =? ls_SnapshotId req)%string eqn:E2,
    (ls_SourceVolumeId req =? "")%string eqn:E3; cbn [negb andb]; bool_to_prop;
    destruct (snap_PersistentVolumeClaimName snap) as [c|];
    rewrite ?negb_involutive, ?String.eqb_eq; naive_solver.
Qed.

(** The backups the code selects for a request: those of the source volume
    asked for, if any.  The snapshot id of the request is not compared, so
    this is not what the request asks for when it names a snapshot. *)
Definition selected_backup (req : ListSnapshotsRequest) (vrb : VolumeRemoteBackup) (src : string) : Prop :=
  map_lookup (Labels (meta vrb)) labelBackupSrcVol = Some src
  /\ (ls_SourceVolumeId req <> "" -> src = ls_SourceVolumeId req).

Lemma shouldIncludeBackupSnapshot_spec req vrb :
  shouldIncludeBackupSnapshot vrb req = true <-> exists src, selected_backup req vrb src.
Proof.
  unfold shouldIncludeBackupSnapshot, selected_backup, map_lookup.
  destruct (Labels (meta vrb)) as [ls|]; [|naive_solver].
  destruct (ls !! labelBackupSrcVol) as [src|] eqn:El; [|naive_solver].
  destruct (ls_SourceVolumeId req =? "")%string eqn:E1, (src =? ls_SourceVolumeId req)%string eqn:E2;
    cbn [negb andb]; bool_to_prop; naive_solver.
Qed.

(** The entry of a listed snapshot, for a snapshot that can be converted *)
Definition entry_of (snap : VolumeSnapshot) (s : Snapshot) : Prop :=
  exists vol, name_of snap <> "" /\ snap_PersistentVolumeClaimName snap = Some vol /\ vol <> ""
    /\ describes snap vol s.

(** A snapshot whose conversion dereferences a nil status *)
Definition no_status (snap : VolumeSnapshot) : Prop :=
  name_of snap <> "" /\ default "" (snap_PersistentVolumeClaimName snap) <> ""
  /\ snap_Status snap = None.

Lemma convertHostSnapshotToEntry_spec snap :
  wp (convertHostSnapshotToEntry snap) (fun tr o => tr = [] /\
    match o with
    | Returned (Ok s) => forall s', entry_of snap s' <-> s' = s
    | Returned (Err _) => (forall s', ~ entry_of snap s') /\ ~ no_status snap
    | Panicked _ => no_status snap
    end).
Proof.
  unfold convertHostSnapshotToEntry, convertVolumeSnapshotToCSI, entry_of, no_status, describes.
  destruct (name_of snap =? "")%string eqn:E1; bool_to_prop; cbn; [naive_solver|].
  destruct (snap_PersistentVolumeClaimName snap) as [v|]; cbn; [|naive_solver].
  destruct (v =? "")%string eqn:E2; bool_to_prop; cbn; [naive_solver|].
  destruct (snap_Status snap) as [st|]; cbn; [|done]. naive_solver.
Qed.

Lemma processHostSnapshots_spec items req :
  wp (processHostSnapshots items req) (fun tr o => tr = [] /\
    match o with
    | Returned l => (forall s, In s l <-> exists snap, In snap items /\ matches req snap /\ entry_of snap s)
        /\ (forall snap, In snap items -> matches req snap -> ~ no_status snap)
    | Panicked _ => exists snap, In snap items /\ matches req snap /\ no_status snap
    end).
Proof.
  induction items as [|snap items IH]; cbn [processHostSnapshots].
  { cbn. split; [done|]. split; [|by intros ? []]. intros s. split; [by intros []|by intros (? & [] & _)]. }
  destruct (shouldIncludeSnapshot snap req) eqn:Ei; cbn [negb].
  2: { assert (Hn : ~ matches req snap) by (rewrite <- shouldIncludeSnapshot_spec; congruence).
       eapply wp_mono; [exact IH|]. intros tr [l|w] [-> H]; (split; [done|]).
       - destruct H as [H1 H2]. split.
         + intros s. rewrite H1. split; intros (x & Hin & Hm & He); exists x;
             (split; [|done]); [by right|]. by destruct Hin as [<-|?].
         + intros x [<-|Hin]; [done|auto].
       - destruct H as (x & Hin & Hm). exists x. auto with csi. }
  apply shouldIncludeSnapshot_spec in Ei.
  eapply wp_bind_use; [apply convertHostSnapshotToEntry_spec| |].
  2: { intros tr w [-> H]. split; [done|]. exists snap. auto with csi. }
  intros tr [s0|e] [-> H]; cbn [app].
  - eapply wp_bind_use; [exact IH| |].
    2: { intros tr w [-> (x & Hin & Hm)]. split; [done|]. exists x. auto with csi. }
    intros tr l [-> [H1 H2]]. cbn. split; [done|]. split.
    + intros s. split.
      * intros [<-|Hin]; [exists snap; split_and!; auto with csi; by apply H|].
        apply H1 in Hin as (x & ? & ? & ?). exists x. auto with csi.
      * intros (x & [<-|Hin] & Hm & He); [left; symmetry; by apply H|].
        right. apply H1. by exists x.
    + intros x [<-|Hin]; [|auto]. intros _ (_ & _ & Hs).
      destruct (proj2 (H s0) eq_refl) as (v & _ & _ & _ & st & Hst & _). congruence.
  - eapply wp_mono; [exact IH|]. intros tr [l|w] [-> H1]; (split; [done|]).
    + destruct H1 as [H1 H2]. destruct H as [Hno Hns]. split.
      * intros s. rewrite H1. split; intros (x & Hin & Hm & He); exists x;
          (split; [|done]); [by right|]. destruct Hin as [<-|?]; [by destruct (Hno s)|done].
      * intros x [<-|Hin]; [done|auto].
    + destruct H1 as (x & Hin & Hm). exists x. auto with csi.
Qed.

Lemma backupEntries_spec items req s :
  In s (backupEntries items req) <->
  exists vrb src, In vrb items /\ selected_backup req vrb src
    /\ convertVolumeRemoteBackupToCSI vrb src = Ok s.
Proof.
  induction items as [|vrb items IH]; cbn [backupEntries].
  { split; [by intros []|by intros (? & ? & [] & _)]. }
  destruct (shouldIncludeBackupSnapshot vrb req) eqn:Ei; cbn [negb].
  - apply shouldIncludeBackupSnapshot_spec in Ei as [src Hm].
    unfold convertVolumeRemoteBackupToEntry, map_get. rewrite (proj1 Hm). change (default "" (Some src)) with src.
    assert (Hsrc : forall src', selected_backup req vrb src' -> src' = src).
    { intros src' [H' _]. destruct Hm as [H _]. congruence. }
    destruct (convertVolumeRemoteBackupToCSI vrb src) as [s0|e] eqn:Ec.
    + split.
      * intros [<-|Hin]; [by exists vrb, src; auto with csi|].
        apply IH in Hin as (x & y & ? & ? & ?). exists x, y. auto with csi.
      * intros (x & y & [<-|Hin] & Hy & Hc); [left|right; apply IH; eauto].
        rewrite (Hsrc y Hy) in Hc. congruence.
    + rewrite IH. split; intros (x & y & Hin & Hy & Hc); exists x, y; split_and!; auto with csi.
      destruct Hin as [<-|?]; [|done]. rewrite (Hsrc y Hy) in Hc. congruence.
  - assert (Hn : forall src, ~ selected_backup req vrb src).
    { intros src Hm. assert (shouldIncludeBackupSnapshot vrb req = true); [|congruence].
      apply shouldIncludeBackupSnapshot_spec. eauto. }
    rewrite IH. split; intros (x & y & Hin & Hy & Hc); exists x, y; split_and!; auto with csi.
    destruct Hin as [<-|?]; [by destruct (Hn y)|done].
Qed.
