(* ===== verification/SnapshotsThm.v ===== *)
(** * Theorems on snapshots and remote backups *)

From S2P Require Import Prelude Go Prog Kube Csi Api Store Utils CsiUtil Json Controller Samples Volumes VolumesSpec Attach AttachSpec Snapshots SnapshotsSpec.

(** ** Samples *)

Definition sample_snap (name vol : string) (st : option VolumeSnapshotStatus) : VolumeSnapshot :=
  mkSnap (set_Labels (Some (<[labelSnapHostVolumeMode := PersistentVolumeBlock]>
                              {[labelSnapHostSC := "harvester-longhorn"]})) (newMeta "guest" name))
    (Some vol) (Some "longhorn-snapshot") st.

Definition sample_status : VolumeSnapshotStatus :=
  mkSnapStatus (Some (mkTime 1700000000 0)) (Some true) (Some (20 * 1024 * 1024)) None.

Definition sample_snapshots : Cluster :=
  upd_snaps <[("guest", "s1") := sample_snap "s1" "vol1" (Some sample_status)]> sample_cluster.

Definition sample_labelled_vrb : VolumeRemoteBackup :=
  mkVRB (set_Labels (Some {[labelBackupSrcVol := "vol1"]}) (newMeta "guest" "b1")) LHBackup "vol1"
    (mkPVCSpec [ReadWriteMany] None None "" (newResourceList (20 * 1024 * 1024)) None) true.

(** ** CreateSnapshot *)

(** The request asks for a remote backup. *)
Definition wants_backup (req : CreateSnapshotRequest) : Prop :=
  map_lookup (cs_Parameters req) paramSnapshotType = Some snapshotTypeBackup.

(** C15: CreateSnapshot routes by the type parameter and is safe to repeat: a
    request without name or source makes no call.  Any other begins with a
    look-up of the requested name, of a backup or of a snapshot by the type.
    A backup request makes at most one write, the creation of the backup of
    this name and source, and any other request at most one, the creation of
    a snapshot under this name of the claim that was read, labelled with its
    storage class and volume mode; both only after the object was answered
    not found.  A success ends with two reads of the object found or created
    for that name: one that finds it ready, and one, the last call of the
    run, which the response describes. *)
Theorem CreateSnapshot_spec cs req :
  all_runs (CreateSnapshot cs req) (fun tr o =>
    ((cs_Name req = "" \/ cs_SourceVolumeId req = "")
     /\ tr = [] /\ exists msg, o = Returned (Err (StatusErr InvalidArgument msg)))
    \/ (wants_backup req /\ backup_post cs (cs_Name req) (cs_SourceVolumeId req) tr o)
    \/ (~ wants_backup req /\ local_post cs (cs_Name req) (cs_SourceVolumeId req) tr o)).
Proof.
  apply wp_iff. unfold CreateSnapshot, validateCreateSnapshotRequest.
  destruct (cs_Name req =? "")%string eqn:E1; bool_to_prop; [cbn; left; eauto|].
  destruct (cs_SourceVolumeId req =? "")%string eqn:E2; bool_to_prop; [cbn; left; eauto|].
  assert (Hb : negb (isNil (cs_Parameters req))
    && (map_get (cs_Parameters req) paramSnapshotType =? snapshotTypeBackup)%string = true
    <-> wants_backup req).
  { unfold wants_backup, map_get, map_lookup. destruct (cs_Parameters req) as [m|]; [|done].
    simpl. destruct (m !! paramSnapshotType) as [v|]; simpl; rewrite ?String.eqb_eq; naive_solver. }
  destruct (_ && _) eqn:Eb.
  - eapply wp_mono; [apply handleBackupSnap_spec|]. right; left. by split; [apply Hb|].
  - eapply wp_mono; [apply handleLocalSnap_spec|]. right; right. split; [|done].
    intros Hx%Hb. congruence.
Qed.

(** A snapshot that is ready is reported without a write. *)
Lemma CreateSnapshot_spec_witness :
  let req := mkCreateSnapshotRequest "s1" "vol1" None in
  let run := exec mem_serve (CreateSnapshot sample_cs req) sample_snapshots in
  (exists s, run.1.1 = Returned (Ok s) /\ SnapshotId s = "s1") /\ writes run.2 = []
  /\ ((("s1" = "" \/ "vol1" = "") /\ run.2 = []
       /\ exists msg, run.1.1 = Returned (Err (StatusErr InvalidArgument msg)))
      \/ (wants_backup req /\ backup_post sample_cs "s1" "vol1" run.2 run.1.1)
      \/ (~ wants_backup req /\ local_post sample_cs "s1" "vol1" run.2 run.1.1)).
Proof.
  cbv zeta. split; [eexists; split; [vm_compute; reflexivity|reflexivity]|].
  split; [vm_compute; reflexivity|].
  exact (exec_post mem_serve _ sample_snapshots _
    (CreateSnapshot_spec sample_cs (mkCreateSnapshotRequest "s1" "vol1" None))).
Defined.

(** ** Identifiers *)

(** C21: the identifier reported for a remote backup in a namespace without a
    slash names that backup again: DeleteSnapshot of it deletes exactly this
    object, and CreateVolume from it reads exactly this object. *)
Theorem backup_id_roundtrip cs vrb vol s :
  convertVolumeRemoteBackupToCSI vrb vol = Ok s ->
  strings.Contains (Namespace (meta vrb)) "/" = false ->
  all_runs (DeleteSnapshot cs (SnapshotId s)) (fun tr _ =>
    calls tr = [VrbDelete (Namespace (meta vrb)) (name_of vrb)])
  /\ forall req vp, cv_VolumeContentSource req = Some (Source_Snapshot (SnapshotId s)) ->
     isBackupSnapshotRestore req = true
     /\ all_runs (buildHostVolumeRemoteRestore cs req vp) (fun tr _ =>
          List.hd_error (calls tr) = Some (VrbGet (Namespace (meta vrb)) (name_of vrb))).
Proof.
  intros Hc Hns. assert (Hid : SnapshotId s = formatBackupSnapshotID (Namespace (meta vrb)) (name_of vrb)).
  { unfold convertVolumeRemoteBackupToCSI in Hc. by repeat case_match; simplify_eq. }
  pose proof (parse_format _ (name_of vrb) Hns) as Hp. rewrite <- Hid in Hp. split.
  - apply wp_iff. unfold DeleteSnapshot, validateDeleteSnapshotRequest. rewrite Hp.
    destruct (SnapshotId s =? "")%string eqn:E; bool_to_prop; [by rewrite Hid in E|].
    cbn. intros [u|e]; cbn; [done|]. by case_match.
  - intros req vp Hreq. unfold isBackupSnapshotRestore, buildHostVolumeRemoteRestore, requestSnapshotId.
    rewrite Hreq. cbn [GetSnapshot mbind option_bind].
    change (default "" (Some (SnapshotId s))) with (SnapshotId s). rewrite Hp.
    split; [done|]. cbn [negb]. apply wp_iff.
    match goal with |- wp (bind ?p ?f) _ => change (wp (bind p f)) with (wp (Call
      (VrbGet (Namespace (meta vrb)) (name_of vrb)) (fun r => bind (Ret r) f))) end.
    intros r. apply wp_iff. by intros tr o _.
Qed.

Lemma backup_id_roundtrip_witness :
  exists s, convertVolumeRemoteBackupToCSI sample_labelled_vrb "vol1" = Ok s
  /\ SnapshotId s = "backup:guest/b1"
  /\ all_runs (DeleteSnapshot sample_cs "backup:guest/b1") (fun tr _ =>
       calls tr = [VrbDelete "guest" "b1"]).
Proof.
  eexists. split; [vm_compute; reflexivity|]. split; [reflexivity|].
  exact (proj1 (backup_id_roundtrip sample_cs sample_labelled_vrb "vol1" _ eq_refl eq_refl)).
Defined.

(** C22: DeleteSnapshot makes one call, the deletion of the object its id
    denotes, and is idempotent: a snapshot that is already gone is a success.
    A local snapshot is reported as deleted only when it is not found, an
    accepted deletion being reported as an error; a backup also when the
    deletion was accepted. *)
Theorem DeleteSnapshot_exact cs id isBackup ns name :
  id <> "" -> parseSnapshotID id = (isBackup, ns, name) ->
  all_runs (DeleteSnapshot cs id) (fun tr o => exists e r,
    tr = [e] /\ o = Returned r
    /\ projT1 e = (if isBackup : bool then VrbDelete ns name else SnapDelete (namespace cs) id)
    /\ (r = Ok tt <->
        match reply_error e with
        | Some err => errors.IsNotFound err = true
        | None => isBackup = true
        end)).
Proof.
  intros Hid Hp. apply wp_iff. unfold DeleteSnapshot, validateDeleteSnapshotRequest. rewrite Hp.
  rewrite (proj2 (String.eqb_neq _ _) Hid). apply parse_inv in Hp.
  destruct isBackup; [|destruct Hp as [-> ->]]; cbn; intros [[]|e]; cbn.
  1, 3: do 2 eexists; split_and!; try done.
  all: destruct (errors.IsNotFound e) eqn:E; cbn; do 2 eexists; split_and!; try done; cbn;
       rewrite E; done.
Qed.

Lemma DeleteSnapshot_exact_witness :
  parseSnapshotID "s1" = (false, "", "s1") /\
  all_runs (DeleteSnapshot sample_cs "s1") (fun tr o => exists e r,
    tr = [e] /\ o = Returned r /\ projT1 e = SnapDelete "guest" "s1"
    /\ (r = Ok tt <-> match reply_error e with
                      | Some err => errors.IsNotFound err = true
                      | None => false = true
                      end)).
Proof.
  split; [reflexivity|]. apply (DeleteSnapshot_exact sample_cs "s1" false "" "s1"); [done|reflexivity].
Defined.

(** ** ListSnapshots *)

(** The options of the two listings of a request *)
Definition snap_options (req : ListSnapshotsRequest) : ListOptions :=
  mkListOptions "" (ls_StartingToken req) (ls_MaxEntries req).
Definition backup_options (req : ListSnapshotsRequest) : ListOptions :=
  mkListOptions (if decide (ls_SourceVolumeId req = "") then ""
                 else labelBackupSrcVol +:+ "=" +:+ ls_SourceVolumeId req) "" 0.

(** C20: ListSnapshots makes two listings and selects from them.  A negative
    limit makes no call and is InvalidArgument.  Otherwise the snapshots of
    the namespace are listed with the token and the limit of the request and
    the backups of every namespace by the label of the source volume; when
    the call succeeds, the entries are exactly those of the listed snapshots
    that carry the labels and match the snapshot id and the source volume of
    the request, together with those of the listed backups (none when that
    listing failed) that carry the source label and match the source volume.
    The backups are not restricted by the snapshot id of the request.  The
    token is the one of the listing of the snapshots.  It fails otherwise
    only when the listing of the snapshots does (Internal), and panics only on
    a listed snapshot that the request selects and that has no status yet. *)
Theorem ListSnapshots_exact cs req :
  all_runs (ListSnapshots cs req) (fun tr o =>
    match o with
    | Returned (Ok resp) => 0 <= ls_MaxEntries req /\
        exists snaps r,
        tr = [ev (SnapList (namespace cs) (snap_options req)) (Ok snaps);
              ev (VrbList "" (backup_options req)) r]
        /\ NextToken resp = snap_Continue snaps
        /\ forall s, In s (Entries resp) <->
             (exists snap, In snap (snap_Items snaps) /\ matches req snap /\ entry_of snap s)
             \/ (exists backups vrb src, r = Ok backups /\ In vrb backups /\ selected_backup req vrb src
                   /\ convertVolumeRemoteBackupToCSI vrb src = Ok s)
    | Returned (Err err) =>
        (ls_MaxEntries req < 0 /\ tr = [] /\ status_Code err = InvalidArgument)
        \/ (0 <= ls_MaxEntries req /\ status_Code err = Internal
            /\ exists e, tr = [ev (SnapList (namespace cs) (snap_options req)) (Err e)])
    | Panicked _ => exists snaps snap,
        tr = [ev (SnapList (namespace cs) (snap_options req)) (Ok snaps)]
        /\ In snap (snap_Items snaps) /\ matches req snap /\ no_status snap
    end).
Proof.
  apply wp_iff. unfold ListSnapshots, validateListSnapshotsRequest.
  destruct (Z.ltb_spec (ls_MaxEntries req) 0) as [El|El]; [by left|].
  replace (mkListOptions _ _ _) with (snap_options req).
  2: { unfold snap_options. f_equal.
       { destruct (ls_StartingToken req =? "")%string eqn:E; bool_to_prop; simpl; congruence. }
       destruct (Z.ltb_spec 0 (ls_MaxEntries req)); lia. }
  cbn -[processHostSnapshots]. intros [snaps|e]; cbn -[processHostSnapshots]; [|by right; eauto].
  apply wp_bind. eapply wp_bind_use; [apply processHostSnapshots_spec| |].
  2: { intros tr w [-> (snap & ? & ? & ?)]. by exists snaps, snap. }
  intros tr l [-> [Hl _]].
  unfold listBackupSnaps, processHostVolumeRemoteBackups.
  replace (mkListOptions _ "" 0) with (backup_options req).
  2: { unfold backup_options. f_equal. destruct (ls_SourceVolumeId req =? "")%string eqn:E;
         bool_to_prop; destruct (decide (ls_SourceVolumeId req = "")); done. }
  cbn. intros r. destruct r as [backups|e] eqn:Er; cbn; (split; [done|]);
    exists snaps, r; subst; cbn; (split_and!; [done..|]).
  - intros s. rewrite in_app_iff, Hl, backupEntries_spec. split.
    + intros [?|(vrb & src & ?)]; [by left|right]. by exists backups, vrb, src.
    + intros [?|(b & vrb & src & [= <-] & ?)]; [by left|right]. by exists vrb, src.
  - intros s. rewrite in_app_iff, Hl. split; [by intros [?|[]]; left|].
    intros [?|(? & ? & ? & ? & _)]; [by left|done].
Qed.

(** The snapshot id of a ListSnapshots request does not restrict the
    backups: whatever id is asked for, a labelled backup with another id is
    listed. *)
Theorem ListSnapshots_other_backup cs id vrb src s :
  map_lookup (Labels (meta vrb)) labelBackupSrcVol = Some src ->
  convertVolumeRemoteBackupToCSI vrb src = Ok s -> SnapshotId s <> id ->
  exists tr resp,
    runs (ListSnapshots cs (mkListSnapshotsRequest 0 "" "" id)) tr (Returned (Ok resp))
    /\ In (ev (VrbList "" (mkListOptions "" "" 0)) (Ok [vrb])) tr
    /\ In s (Entries resp) /\ SnapshotId s <> id.
Proof.
  intros Hl Hc Hid.
  set (req := mkListSnapshotsRequest 0 "" "" id).
  exists [ev (SnapList (namespace cs) (mkListOptions "" "" 0)) (Ok (mkSnapList [] ""));
          ev (VrbList "" (mkListOptions "" "" 0)) (Ok [vrb])].
  exists (mkListSnapshotsResponse (backupEntries [vrb] req) "").
  split; [|split; [auto with csi|split; [|exact Hid]]].
  - cbn -[backupEntries]. do 2 eexists. split; [reflexivity|]. cbn -[backupEntries].
    do 2 eexists. split; [reflexivity|]. done.
  - cbn [Entries]. apply backupEntries_spec. exists vrb, src. split_and!; [auto with csi| |done].
    by split.
Qed.

Lemma ListSnapshots_other_backup_witness :
  exists tr resp,
    runs (ListSnapshots sample_cs (mkListSnapshotsRequest 0 "" "" "backup:guest/b2")) tr (Returned (Ok resp))
    /\ exists s, In s (Entries resp) /\ SnapshotId s = "backup:guest/b1".
Proof.
  destruct (ListSnapshots_other_backup sample_cs "backup:guest/b2" sample_labelled_vrb "vol1"
    (mkSnapshot "backup:guest/b1" "vol1" (20 * 1024 * 1024) None true) eq_refl eq_refl ltac:(done))
    as (tr & resp & Hr & _ & Hin & _).
  exists tr, resp. split; [exact Hr|]. eexists. split; [exact Hin|reflexivity].
Defined.

(** ListSnapshots panics exactly when the listing holds a snapshot that
    the request selects, with a name and a claim, whose status is not set
    yet: the loop over the listed snapshots makes no call, and ends in a
    panic for such a list and only for such a list. *)
Theorem processHostSnapshots_panics items req :
  all_runs (processHostSnapshots items req) (fun tr o =>
    tr = [] /\
    ((exists why, o = Panicked why) <->
     exists snap, In snap items /\ matches req snap /\ no_status snap)).
Proof.
  apply wp_iff. eapply wp_mono; [apply processHostSnapshots_spec|].
  intros tr [l|w] [-> H]; (split; [done|]).
  - split; [by intros [? ?]|]. intros (snap & Hin & Hm & Hs). by destruct H as [_ H]; destruct (H snap).
  - split; [done|]. eauto.
Qed.

(** ** Restoring *)

Section Restore.

Context {S : Type} {step : forall c, S -> reply c -> S -> Prop} `{!SnapLaws S step}.
Implicit Types s : S.

(** C23: a snapshot carries what a restore needs: a claim built from a stored
    snapshot that kept the labels of the manifest CreateSnapshot submitted
    has the storage class of the claim the snapshot was taken of, the snapshot
    as its data source, and, when the volume mode of that claim was set, the
    same volume mode.  The mode of a claim without one, for which Kubernetes
    implies a file system, is restored as Block. *)
Theorem snapshot_restore_roundtrip cs name cls pvc snap stored volName size s :
  generateHostSnapManifest cs name cls pvc = Ok snap ->
  snaps s !! (namespace cs, name) = Some stored ->
  Labels (meta stored) = Labels (meta snap) ->
  swp step (buildHostPVCFromSnap cs volName name size) s (fun o _ => forall p,
    o = Returned (Ok p) ->
    StorageClassName (pvc_Spec p) = StorageClassName (pvc_Spec pvc)
    /\ (forall m, VolumeMode (pvc_Spec pvc) = Some m -> VolumeMode (pvc_Spec p) = Some m)
    /\ (VolumeMode (pvc_Spec pvc) = None -> VolumeMode (pvc_Spec p) = Some PersistentVolumeBlock)
    /\ Storage (Requests (pvc_Spec p)) = size
    /\ DataSource (pvc_Spec p) = Some (mkRef (Some snapshotGroupName) VolumeSnapshotKind (name_of stored))).
Proof.
  intros (_ & _ & (sc & Hsc & Hl1) & Hl2)%generateHostSnapManifest_spec Hst Hlab.
  rewrite <- Hlab in Hl1, Hl2. unfold buildHostPVCFromSnap. cbn.
  intros [snap'|e] s1 Hs1; cbn; [|done].
  apply snap_get in Hs1. cbn in Hs1. rewrite Hst in Hs1. injection Hs1 as <-.
  destruct (validateHostSnapLabels stored) as [[]|e]; cbn; [|done].
  unfold map_get. rewrite Hl1, Hl2. cbn. intros [c|e] s2 Hs2; cbn; [|done].
  case_match; cbn; [|done]. intros p [= <-]. cbn. rewrite Storage_new, Hsc.
  split_and!; try done; [by intros m ->|by intros ->].
Qed.

End Restore.

Lemma snapshot_restore_roundtrip_witness :
  let pvc := sample_pvc "vol1" PersistentVolumeBlock (20 * 1024 * 1024) in
  exists p, (exec mem_serve (buildHostPVCFromSnap sample_cs "new1" "s1" 10485760) sample_snapshots).1.1
    = Returned (Ok p)
  /\ StorageClassName (pvc_Spec p) = StorageClassName (pvc_Spec pvc).
Proof.
  cbv zeta. eexists. split; [vm_compute; reflexivity|].
  refine (proj1 (exec_spost mem_serve (buildHostPVCFromSnap sample_cs "new1" "s1" 10485760)
    sample_snapshots _ (snapshot_restore_roundtrip (step := mem_step) sample_cs "s1"
      "longhorn-snapshot" (sample_pvc "vol1" PersistentVolumeBlock (20 * 1024 * 1024))
      (mkSnap (set_Labels (Some (<[labelSnapHostVolumeMode := PersistentVolumeBlock]>
                {[labelSnapHostSC := "harvester-longhorn"]})) (newMeta "guest" "s1"))
              (Some "vol1") (Some "longhorn-snapshot") None)
      (sample_snap "s1" "vol1" (Some sample_status)) "new1" 10485760 sample_snapshots
      eq_refl _ eq_refl) _ _)).
  - vm_compute. reflexivity.
  - vm_compute. reflexivity.
Defined.
