(* ===== verification/NodeServer.v ===== *)
(** * pkg/csi/node_server.go: the node server

    Runs inside the guest's virtual machines: stages and publishes volumes
    (mounts), undoes it, reports statistics and grows file systems. *)

From S2P Require Import Prelude Go Prog Kube Csi Api CsiUtil Controller.

Record NodeServer := mkNodeServer {
  ns_namespace : string;
  nodeID : string;
  ns_caps : list NodeServiceCapability;
  vip : string;
}.

Definition getNodeServiceCapabilities (l : list Node_RPC_Type) : list NodeServiceCapability :=
  map mkNSC l.

Definition NewNodeServer (nodeID ns vip : string) : NodeServer :=
  {| ns_namespace := ns;
     nodeID := nodeID;
     ns_caps := getNodeServiceCapabilities
                  [NRPC_GET_VOLUME_STATS; NRPC_STAGE_UNSTAGE_VOLUME; NRPC_EXPAND_VOLUME];
     vip := vip |}.

Definition resize2fsCmd : string := "resize2fs".
Definition xfsGrowfsCmd : string := "xfs_growfs".
Definition failedStatErr : string := "failed to stat volume path".
Definition failedMountCheckErr : string := "failed to check mount point".
Definition failedDevicePathErr : string := "failed to get device path for volume".
Definition failedResizeErr : string := "failed to resize fs on volume".
Definition VolumeReady : string := "Ready".

(** The verb %q, for strings of printable characters without quotes *)
Definition quote (s : string) : string := String "034" s +:+ String "034" "".

Definition fail {A} (c : code) (msg : string) : Fallible A := Ret (Err (StatusErr c msg)).

(** ** Stage and unstage *)

Definition nodeStageRWXVolume (ns : NodeServer) (req : NodeStageVolumeRequest) : Fallible unit :=
  let stagingTargetPath := nst_StagingTargetPath req in
  if (stagingTargetPath =? "")%string then
    fail InvalidArgument "staging target path missing in request"
  else
    match nst_VolumeCapability req with
    | None => fail InvalidArgument "volume capability missing in request"
    | Some _ =>
        let volName := nst_VolumeId req in
        let* r := send (PvcGet (ns_namespace ns) volName) in
        match r with
        | Err err => fail Internal ("Failed to get PVC " +:+ volName +:+ ": " +:+ Error err)
        | Ok pvc =>
            let lhVolName := VolumeName (pvc_Spec pvc) in
            let* r := send (NfsGet HarvesterNS lhVolName) in
            match r with
            | Err err => fail Internal ("Failed to get NetworkFS " +:+ lhVolName +:+ ": " +:+ Error err)
            | Ok networkfs =>
                if negb (nfs_Status networkfs =? EndpointStatusReady)%string then
                  fail Internal ("NetworkFS " +:+ lhVolName +:+ " is not ready")
                else
                  let mountOpts := if negb (nfs_MountOpts networkfs =? "")%string
                                   then nfs_MountOpts networkfs else "vers=4" in
                  let export := nfs_Endpoint networkfs +:+ ":/" +:+ lhVolName in
                  let args := ["-t"; "nfs"; "-o"; mountOpts; export; stagingTargetPath] in
                  let* nspace := send (HostNamespacePath "/proc") in
                  let* r := send (NewExecutorWithNS nspace) in
                  match r with
                  | Err err => fail Internal ("Could not create executor: " +:+ Error err)
                  | Ok _ =>
                      let* r := send (Execute "mount" args) in
                      match r with
                      | Err err => fail Internal ("Could not mount " +:+ export
                                     +:+ " for global path: " +:+ Error err)
                      | Ok _ => Ret (Ok tt)
                      end
                  end
            end
        end
    end.

Definition NodeStageVolume (ns : NodeServer) (req : NodeStageVolumeRequest) : Fallible unit :=
  match nst_VolumeCapability req with
  | None => fail InvalidArgument "Missing volume capability in request"
  | Some volCaps =>
      if Mode_eqb (GetMode volCaps) MULTI_NODE_MULTI_WRITER then nodeStageRWXVolume ns req
      else Ret (Ok tt)
  end.

Definition NodeUnstageVolume (ns : NodeServer) (req : NodeUnstageVolumeRequest) : Fallible unit :=
  let stagingTargetPath := nus_StagingTargetPath req in
  if (stagingTargetPath =? "")%string then
    fail InvalidArgument "staging target path missing in request"
  else
    let* nspace := send (HostNamespacePath "/proc") in
    let* r := send (NewExecutorWithNS nspace) in
    match r with
    | Err err => fail Internal ("Could not create executor: " +:+ Error err)
    | Ok _ =>
        let* r := send (Execute "mountpoint" [stagingTargetPath]) in
        match r with
        | Err err =>
            if strings.Contains (Error err) "is not a mountpoint" then Ret (Ok tt)
            else fail Internal ("Could not check mountpoint " +:+ stagingTargetPath
                                +:+ ": " +:+ Error err)
        | Ok out =>
            if negb (strings.Contains out "is a mountpoint") then Ret (Ok tt)
            else
              let* r := send (Execute "umount" [stagingTargetPath]) in
              match r with
              | Err err => fail Internal ("Could not unmount " +:+ stagingTargetPath
                                          +:+ ": " +:+ Error err)
              | Ok _ => Ret (Ok tt)
              end
        end
    end.

(** ** Publish *)

(** An error of the mount point test other than not-exist is not looked at. *)
Definition nodePublishRWXVolume (req : NodePublishVolumeRequest) (targetPath : string)
    : Fallible unit :=
  let stagingTargetPath := np_StagingTargetPath req in
  if (stagingTargetPath =? "")%string then
    fail InvalidArgument "staging target path missing in request"
  else
    let* m := send (IsMountPoint targetPath) in
    let '(mounted, err) := m in
    let? _ :=
      (if match err with Some e => errors.IsNotExist e | None => false end then
         let* r := send (OsMkdirAll targetPath 488) in    (* 0750 *)
         match r with
         | Err err => fail Internal ("Could not create target dir " +:+ targetPath
                                     +:+ ": " +:+ Error err)
         | Ok _ => Ret (Ok tt)
         end
       else Ret (Ok tt)) in
    if mounted : bool then Ret (Ok tt)
    else
      let* r := send (Mount stagingTargetPath targetPath "" ["bind"]) in
      match r with
      | Err err => fail Internal ("failed to bind mount volume " +:+ np_VolumeId req
                     +:+ " to target path " +:+ targetPath +:+ ": " +:+ Error err)
      | Ok _ => Ret (Ok tt)
      end.

(** The first file of the directory whose name contains the volume id *)
Definition getDevicePathByVolumeID (volumeID : string) : Fallible string :=
  let? files := send (OsReadDir deviceByIDDirectory) in
  match List.find (fun name => strings.Contains name volumeID) files with
  | None => Ret (Err (FmtErr ("no matching disk for volume " +:+ volumeID)))
  | Some name =>
      let? target := send (OsEvalSymlinks (filepath.Join deviceByIDDirectory name)) in
      if (target =? "")%string then
        Ret (Err (FmtErr ("no matching disk for volume " +:+ volumeID)))
      else Ret (Ok target)
  end.

(** If the mount of the device fails, the file made for it is removed. *)
Definition nodePublishBlockVolume (volumeName devicePath targetPath : string) : Fallible unit :=
  let targetDir := filepath.Dir targetPath in
  let* r := send (PathExists targetDir) in
  match r with
  | Err err => fail Internal (Error err)
  | Ok exists_ =>
      let? _ :=
        (if negb exists_ then
           let* r := makeDir targetDir in
           match r with
           | Err err => fail Internal ("Could not create dir " +:+ quote targetDir
                                       +:+ ": " +:+ Error err)
           | Ok _ => Ret (Ok tt)
           end
         else Ret (Ok tt)) in
      let* r := makeFile targetPath in
      match r with
      | Err err => fail Internal ("Error in making file " +:+ Error err)
      | Ok _ =>
          let* r := send (Mount devicePath targetPath "" ["bind"]) in
          match r with
          | Err err =>
              let* removed := send (OsRemove targetPath) in
              match removed with
              | Err _ => fail Internal ("Could not remove mount target " +:+ quote targetPath
                                        +:+ ": " +:+ Error err)
              | Ok _ => fail Internal ("Could not mount " +:+ quote devicePath +:+ " at "
                                       +:+ quote targetPath +:+ ": " +:+ Error err)
              end
          | Ok _ => Ret (Ok tt)
          end
      end
  end.

(** Returns whether the path is likely not a mount point, and the error; a
    missing path is created. *)
Definition isLikelyNotMountPointAttach (targetpath : string) : P (bool * option error) :=
  let* r := send (IsLikelyNotMountPoint targetpath) in
  let '(notMnt, err) := r in
  match err with
  | None => Ret (notMnt, None)
  | Some e =>
      if errors.IsNotExist e then
        let* r := send (OsMkdirAll targetpath 488) in
        match r with
        | Ok _ => Ret (true, None)
        | Err e' => Ret (notMnt, Some e')
        end
      else Ret (notMnt, Some e)
  end.

Definition resizeFilesystem (targetPath fsType : string) : Fallible unit :=
  let run cmd :=
    let* r := send (RunCommand cmd [targetPath]) in
    let '(output, err) := r in
    match err with
    | Some e => Ret (Err (FmtErr (cmd +:+ " failed: " +:+ Error e +:+ ", output: " +:+ output)))
    | None => Ret (Ok tt)
    end in
  if (fsType =? fsTypeExt4)%string then run resize2fsCmd
  else if (fsType =? fsTypeXFS)%string then run xfsGrowfsCmd
  else Ret (Err (FmtErr ("unsupported filesystem type: " +:+ fsType))).

Definition nodePublishMountVolume (volumeName devicePath targetPath fsType : string)
    (mountFlags : list string) : Fallible unit :=
  let* m := isLikelyNotMountPointAttach targetPath in
  let '(notMnt, err) := m in
  match err with
  | Some e => fail Internal (Error e)
  | None =>
      if negb notMnt then Ret (Ok tt)
      else
        let* r := send (FormatAndMount devicePath targetPath fsType mountFlags) in
        match r with
        | Err err => fail Internal (Error err)
        | Ok _ =>
            let* r := resizeFilesystem devicePath fsType in
            match r with
            | Err err => fail Internal ("Failed to resize filesystem for volume " +:+ volumeName
                           +:+ " at " +:+ devicePath +:+ ": " +:+ Error err)
            | Ok _ => Ret (Ok tt)
            end
        end
  end.

(** The volume is reported as a hot-plugged disk that is ready. *)
Definition hotPlugDiskReady (volumeID : string) (vmi : VirtualMachineInstance) : bool :=
  existsb (fun vs => (vs_Name vs =? volumeID)%string && vs_HotplugVolume vs
                     && (vs_Phase vs =? VolumeReady)%string && negb (vs_Target vs =? "")%string)
    (vmi_VolumeStatus vmi).

Definition nodePublishRWOVolume (ns : NodeServer) (req : NodePublishVolumeRequest)
    (targetPath : string) (volCaps : VolumeCapability) : Fallible unit :=
  let volumeID := np_VolumeId req in
  let* r := send (VmiGet (ns_namespace ns) (nodeID ns)) in
  match r with
  | Err err => fail Internal ("Failed to get VMI " +:+ nodeID ns +:+ ": " +:+ Error err)
  | Ok vmi =>
      if negb (hotPlugDiskReady volumeID vmi) then
        fail Aborted ("The hot-plug volume " +:+ volumeID +:+ " is not ready")
      else
        let* r := getDevicePathByVolumeID volumeID in
        match r with
        | Err err => fail Internal ("Failed to get device path for volume " +:+ volumeID
                                    +:+ ": " +:+ Error err)
        | Ok devicePath =>
            if negb (isNil (GetBlock volCaps)) then
              nodePublishBlockVolume volumeID devicePath targetPath
            else
              match GetMount volCaps with
              | Some (fsType, mountFlags) =>
                  let fsType := if (fsType =? "")%string then "ext4" else fsType in
                  nodePublishMountVolume volumeID devicePath targetPath fsType mountFlags
              | None => fail InvalidArgument "Invalid volume capability, neither Mount nor Block"
              end
        end
  end.

Definition NodePublishVolume (ns : NodeServer) (req : NodePublishVolumeRequest) : Fallible unit :=
  let targetPath := np_TargetPath req in
  if (targetPath =? "")%string then fail InvalidArgument "Missing target path in request"
  else
    match np_VolumeCapability req with
    | None => fail InvalidArgument "Missing volume capability in request"
    | Some volumeCapability =>
        let volAccessMode := GetMode volumeCapability in
        if Mode_eqb volAccessMode MULTI_NODE_MULTI_WRITER then nodePublishRWXVolume req targetPath
        else if Mode_eqb volAccessMode SINGLE_NODE_WRITER then
          nodePublishRWOVolume ns req targetPath volumeCapability
        else fail InvalidArgument "Invalid Access Mode, neither RWX nor RWO"
    end.

(** ** Unpublish *)

(** The loop that unmounts every layer of the mount point.  It has no bound
    of its own: [fuel] bounds the iterations of the model, and None means
    that the loop is still running after that many. *)
Fixpoint unmountLayers (fuel : nat) (targetPath : string) : P (option (result unit)) :=
  match fuel with
  | O => Ret None
  | S fuel =>
      let* r := send (Unmount targetPath) in
      match r with
      | Err err =>
          if strings.Contains (Error err) "not mounted"
             || strings.Contains (Error err) "no mount point specified" then Ret (Some (Ok tt))
          else Ret (Some (Err (StatusErr Internal (Error err))))
      | Ok _ =>
          let* m := send (IsLikelyNotMountPoint targetPath) in
          let '(notMnt, err) := m in
          match err with
          | Some e => Ret (Some (Err (StatusErr Internal (Error e))))
          | None => if notMnt : bool then Ret (Some (Ok tt)) else unmountLayers fuel targetPath
          end
      end
  end.

Definition NodeUnpublishVolume (fuel : nat) (req : NodeUnpublishVolumeRequest)
    : P (option (result unit)) :=
  let targetPath := nup_TargetPath req in
  if (nup_VolumeId req =? "")%string then
    Ret (Some (Err (StatusErr InvalidArgument "Missing volume ID in request")))
  else if (targetPath =? "")%string then
    Ret (Some (Err (StatusErr InvalidArgument "Missing target path in request")))
  else
    let* r := unmountLayers fuel targetPath in
    match r with
    | None => Ret None
    | Some (Err err) => Ret (Some (Err err))
    | Some (Ok _) =>
        let* r := send (CleanupMountPoint targetPath false) in
        match r with
        | Err err => Ret (Some (Err (StatusErr Internal (Error err))))
        | Ok _ => Ret (Some (Ok tt))
        end
    end.

(** ** Statistics *)

Definition NodeGetVolumeStats (ns : NodeServer) (req : NodeGetVolumeStatsRequest)
    : Fallible (list VolumeUsage) :=
  let volumePath := ngs_VolumePath req in
  if (ngs_VolumeId req =? "")%string then fail InvalidArgument "Missing volume ID in request"
  else if (volumePath =? "")%string then fail InvalidArgument "Missing volume path in request"
  else
    let* r := isBlockDevice volumePath in
    match r with
    | Err err =>
        if errors.IsNotExist err then
          fail NotFound ("volume path " +:+ volumePath +:+ " is not mounted")
        else fail Internal ("failed to check volume mode for volume path " +:+ volumePath
                            +:+ ": " +:+ Error err)
    | Ok isBlockVolume =>
        let* r := send (PvcGet (ns_namespace ns) (ngs_VolumeId req)) in
        match r with
        | Err err => fail Internal ("Failed to get PVC " +:+ ngs_VolumeId req +:+ ":" +:+ Error err)
        | Ok pvc =>
            if isBlockVolume : bool then
              Ret (Ok [{| Available := 0; Total := Storage (pvc_Capacity pvc); Used := 0;
                          Unit := VolumeUsage_BYTES |}])
            else
              let* r := getFilesystemStatistics volumePath in
              match r with
              | Err err =>
                  if errors.IsNotExist err then
                    fail NotFound ("volume path " +:+ volumePath +:+ " is not mounted")
                  else fail Internal ("failed to retrieve capacity statistics for volume path "
                                      +:+ volumePath +:+ ": " +:+ Error err)
              | Ok stats =>
                  Ret (Ok [{| Available := availableBytes stats; Total := totalBytes stats;
                              Used := usedBytes stats; Unit := VolumeUsage_BYTES |};
                           {| Available := availableInodes stats; Total := totalInodes stats;
                              Used := usedInodes stats; Unit := VolumeUsage_INODES |}])
              end
        end
    end.

(** ** Expansion *)

(** Returns the capacity of the response. *)
Definition NodeExpandVolume (ns : NodeServer) (req : NodeExpandVolumeRequest) : Fallible Z :=
  check! validateNodeExpandReq req in
  if nodeExpandRWX req then fail Internal "rwx volume expansion is not supported"
  else
    let* r := send (SettingGet csiOnlineExpandValidation) in
    match r with
    | Err err => fail Internal ("Failed to get online expansion validation: " +:+ Error err)
    | Ok _ =>
        let volumeID := ne_VolumeId req in
        let volumePath := ne_VolumePath req in
        let capacity := default 0 (ne_RequiredBytes req) in
        let* r := send (OsStatIsDir volumePath) in
        match r with
        | Err err => fail Internal (failedStatErr +:+ " " +:+ quote volumePath +:+ ": " +:+ Error err)
        | Ok isDir =>
            if negb isDir then Ret (Ok capacity)
            else
              let* m := isLikelyNotMountPointAttach volumePath in
              let '(notMnt, err) := m in
              match err with
              | Some e => fail Internal (failedMountCheckErr +:+ " " +:+ quote volumePath
                                         +:+ ": " +:+ Error e)
              | None =>
                  if notMnt : bool then
                    fail FailedPrecondition ("volume " +:+ volumeID +:+ " is not mounted at "
                                             +:+ quote volumePath)
                  else
                    let* r := getDevicePathByVolumeID volumeID in
                    match r with
                    | Err err => fail Internal (failedDevicePathErr +:+ " " +:+ volumeID
                                                +:+ ": " +:+ Error err)
                    | Ok devicePath =>
                        match getNodeFsType req with
                        | Err err => fail Internal ("failed to get filesystem type for volume "
                                       +:+ volumeID +:+ ": " +:+ Error err)
                        | Ok fstype =>
                            let* r := resizeFilesystem devicePath fstype in
                            match r with
                            | Err err => fail Internal (failedResizeErr +:+ " " +:+ volumeID
                                           +:+ " devPath " +:+ devicePath +:+ ": " +:+ Error err)
                            | Ok _ => Ret (Ok capacity)
                            end
                        end
                    end
              end
        end
    end.

(** ** Information *)

Definition NodeGetInfo (ns : NodeServer) : string := nodeID ns.
Definition NodeGetCapabilities (ns : NodeServer) : list NodeServiceCapability := ns_caps ns.
