(* ===== verification/NodeServerThm.v ===== *)
(** * Properties of the node server *)

From S2P Require Import Prelude Go Prog Kube Csi Api Store CsiUtil Controller VolumesSpec Samples Attach AttachSpec NodeServer.

(** ** Observations *)

(** The device was found: it is what a file of /dev/disk/by-id whose name
    contains the volume id points to. *)
Definition device_found (vol dev : string) (tr : trace reply) : Prop :=
  exists files name, In (ev (OsReadDir deviceByIDDirectory) (Ok files)) tr
    /\ In name files /\ strings.Contains name vol = true
    /\ In (ev (OsEvalSymlinks (filepath.Join deviceByIDDirectory name)) (Ok dev)) tr
    /\ dev <> "".

(** The path was seen not to be a mount point, or did not exist and was
    created. *)
Definition seen_unmounted (path : string) (tr : trace reply) : Prop :=
  In (ev (IsLikelyNotMountPoint path) (true, None)) tr
  \/ exists b e, In (ev (IsLikelyNotMountPoint path) (b, Some e)) tr
       /\ errors.IsNotExist e = true /\ In (ev (OsMkdirAll path 488) (Ok tt)) tr.

(** The instance of this node was read with the volume as a ready disk. *)
Definition disk_ready (ns : NodeServer) (vol : string) (tr : trace reply) : Prop :=
  exists vmi, In (ev (VmiGet (ns_namespace ns) (nodeID ns)) (Ok vmi)) tr
    /\ hotPlugDiskReady vol vmi = true.

Lemma device_found_grows vol dev : grows (device_found vol dev).
Proof. unfold grows, incl, device_found. intros tr tr' Hi (f & n & ? & ? & ? & ? & ?). exists f, n. auto 10. Qed.

Lemma seen_unmounted_grows path : grows (seen_unmounted path).
Proof. unfold grows, incl, seen_unmounted. intros tr tr' Hi [?|(b & e & ? & ? & ?)]; [auto|right; exists b, e; auto]. Qed.

Lemma getDevicePathByVolumeID_spec vol :
  wp (getDevicePathByVolumeID vol) (fun tr o =>
    writes tr = [] /\
    match o with
    | Returned (Ok dev) => device_found vol dev tr
    | Returned (Err _) => True
    | Panicked _ => False
    end).
Proof.
  unfold getDevicePathByVolumeID. cbn. intros [files|e]; cbn; [|by writes_simpl].
  destruct (List.find _ files) as [name|] eqn:Ef; cbn; [|by writes_simpl].
  apply find_some in Ef as [Hin Hc].
  intros [dev|e]; cbn; [|by writes_simpl].
  destruct (dev =? "")%string eqn:Ed; bool_to_prop; cbn; (split; [by writes_simpl|]); [done|].
  exists files, name. split_and!; auto with csi.
Qed.

Lemma isLikelyNotMountPointAttach_spec path :
  wp (isLikelyNotMountPointAttach path) (fun tr o =>
    exists b e, o = Returned (b, e)
    /\ (e = None -> b = true -> seen_unmounted path tr)
    /\ (e = None -> b = false ->
        In (ev (IsLikelyNotMountPoint path) (false, None)) tr /\ writes tr = [])
    /\ (writes tr = [] \/ writes tr = [OsMkdirAll path 488])).
Proof.
  unfold isLikelyNotMountPointAttach. cbn. intros [notMnt [e|]]; cbn.
  - destruct (errors.IsNotExist e) eqn:Ee; cbn.
    + intros [[]|e']; cbn; do 2 eexists; (split; [done|]);
        (split_and!; [|done|right; by writes_simpl]); [|done].
      intros _ _. right. exists notMnt, e. auto with csi.
    + do 2 eexists. split; [done|]. split_and!; [done|done|left; by writes_simpl].
  - do 2 eexists. split; [done|]. split_and!; [| |left; by writes_simpl].
    + intros _ ->. left. auto with csi.
    + intros _ ->. split; [auto with csi|by writes_simpl].
Qed.

(** ** Publish *)

(** The write of the call of [resizeFilesystem], for the supported types *)
Definition resizeCommand (fsType : string) : option string :=
  if (fsType =? fsTypeExt4)%string then Some resize2fsCmd
  else if (fsType =? fsTypeXFS)%string then Some xfsGrowfsCmd
  else None.

Lemma resizeFilesystem_spec dev fs :
  wp (resizeFilesystem dev fs) (fun tr o =>
    match resizeCommand fs with
    | Some cmd => writes tr = [RunCommand cmd [dev]]
        /\ exists r, o = Returned r
        /\ (r = Ok tt -> exists out, In (ev (RunCommand cmd [dev]) (out, None)) tr)
    | None => writes tr = [] /\ exists e, o = Returned (Err e)
    end).
Proof.
  unfold resizeFilesystem, resizeCommand.
  destruct (fs =? fsTypeExt4)%string; [|destruct (fs =? fsTypeXFS)%string].
  1, 2: cbn; intros [out [e|]]; cbn; (split; [by writes_simpl|]); eexists; (split; [done|]);
        [done|intros _; eexists; auto with csi].
  cbn. split; [done|eauto].
Qed.

(** How a publish of a mounted file system ends: either the target was
    already a mount point (or an error occurred) and no device was touched,
    or the device was formatted and mounted on a target seen unmounted, and
    then grown. *)
Definition mount_post (dev target fs : string) (flags : list string)
    (tr : trace reply) (o : outcome (result unit)) : Prop :=
  let mk := OsMkdirAll target 488 in
  let fmt := FormatAndMount dev target fs flags in
  ((writes tr = [] \/ writes tr = [mk])
   /\ exists r, o = Returned r /\
      (r = Ok tt -> In (ev (IsLikelyNotMountPoint target) (false, None)) tr /\ writes tr = []))
  \/ (seen_unmounted target tr
      /\ exists pre post, writes tr = pre ++ fmt :: post /\ (pre = [] \/ pre = [mk])
         /\ (forall w, In w post -> exists cmd, resizeCommand fs = Some cmd /\ w = RunCommand cmd [dev])
         /\ exists r, o = Returned r /\
            (r = Ok tt -> In (ev fmt (Ok tt)) tr
               /\ exists cmd out, resizeCommand fs = Some cmd
                  /\ In (ev (RunCommand cmd [dev]) (out, None)) tr)).

(** The device was formatted and its file system resized. *)
Lemma mount_post_resized dev target fs flags tr tr2 r r' :
  seen_unmounted target tr -> writes tr = [] \/ writes tr = [OsMkdirAll target 488] ->
  match resizeCommand fs with
  | Some cmd => writes tr2 = [RunCommand cmd [dev]]
      /\ exists r0, Returned r = Returned r0
      /\ (r0 = Ok tt -> exists out, In (ev (RunCommand cmd [dev]) (out, None)) tr2)
  | None => writes tr2 = [] /\ exists e, Returned r = Returned (Err e : result unit)
  end ->
  (r' = Ok tt -> r = Ok tt) ->
  mount_post dev target fs flags (tr ++ ev (FormatAndMount dev target fs flags) (Ok tt) :: tr2) (Returned r').
Proof.
  intros Hu Hw H2 Hr'. right. cbn zeta.
  split; [by apply grows_app_l; [apply seen_unmounted_grows|]|].
  exists (writes tr), (writes tr2). split_and!; [by rewrite writes_app, writes_cons|done| |].
  - intros w Hin. destruct (resizeCommand fs) as [cmd|];
      destruct H2 as [Hw2 _]; rewrite Hw2 in Hin; inv_In Hin. eauto.
  - exists r'. split; [done|]. intros Hok%Hr'. split; [auto with csi|].
    destruct (resizeCommand fs) as [cmd|].
    + destruct H2 as (_ & r0 & [= <-] & Hr0). destruct (Hr0 Hok) as [out Hin].
      exists cmd, out. auto with csi.
    + destruct H2 as (_ & e & [= ->]). done.
Qed.

Lemma nodePublishMountVolume_spec vol dev target fs flags :
  wp (nodePublishMountVolume vol dev target fs flags) (mount_post dev target fs flags).
Proof.
  unfold nodePublishMountVolume, mount_post.
  eapply wp_bind_use; [apply isLikelyNotMountPointAttach_spec| |].
  2: { by intros tr w (b & e & ? & _). }
  intros tr [notMnt err] (b & e & [= <- <-] & Hu & Hm & Hw). cbn zeta.
  destruct err as [e|]; cbn -[resizeFilesystem].
  { rewrite app_nil_r. left. split; [done|]. eexists. split; [done|]. done. }
  destruct notMnt; cbn -[resizeFilesystem].
  2: { rewrite app_nil_r. left. split; [done|]. eexists. split; [done|]. auto. }
  specialize (Hu eq_refl eq_refl).
  intros r. cbn [reply] in r. destruct r as [[]|e]; cbn -[resizeFilesystem].
  2: { right. split; [by apply grows_app_l; [apply seen_unmounted_grows|]|]. exists (writes tr), [].
       split_and!; [by rewrite writes_app|done|intros w Hin; inv_In Hin|]. eexists. by split. }
  eapply wp_bind_use; [apply resizeFilesystem_spec| |].
  2: { intros tr2 w. destruct (resizeCommand fs); [by intros (_ & r & ? & _)|by intros (_ & e & ?)]. }
  intros tr2 r H2. destruct r as [[]|e]; cbn; rewrite app_nil_r; by eapply mount_post_resized.
Qed.

Lemma mount_post_after dev target fs flags pre tr o :
  writes pre = [] -> mount_post dev target fs flags tr o -> mount_post dev target fs flags (pre ++ tr) o.
Proof.
  intros Hp. unfold mount_post. cbn zeta. rewrite writes_app, Hp. cbn [app].
  intros [[Hw (r & -> & Hr)]|[Hu (p & q & Hw & Hpre & Hq & r & -> & Hr)]]; [left|right].
  - split; [done|]. exists r. split; [done|]. intros Hok. destruct (Hr Hok). auto with csi.
  - split; [by apply grows_app_r; [apply seen_unmounted_grows|]|].
    exists p, q. split_and!; [done..|]. exists r. split; [done|]. intros Hok.
    destruct (Hr Hok) as [? (cmd & out & ? & ?)]. split; [auto with csi|].
    exists cmd, out. auto with csi.
Qed.

(** How a publish of a block device ends: on success the device was bound to
    the target; when that fails, the last step removes the target again. *)
Definition block_post (dev target : string) (tr : trace reply) (o : outcome (result unit)) : Prop :=
  let bind_ := Mount dev target "" ["bind"] in
  (forall w, In w (writes tr) ->
     In w [OsMkdirAll (filepath.Dir target) 493; OsCreateFile target 420; bind_; OsRemove target])
  /\ (exists r, o = Returned r /\ (r = Ok tt -> In (ev bind_ (Ok tt)) tr))
  /\ (forall e, In e tr -> projT1 e = bind_ -> reply_error e <> None ->
        last (calls tr) = Some (OsRemove target)).

Lemma nodePublishBlockVolume_spec vol dev target :
  wp (nodePublishBlockVolume vol dev target) (block_post dev target).
Proof.
  unfold nodePublishBlockVolume, makeDir, makeFile, block_post. cbn zeta.
  wp_exec; repeat match goal with u : unit |- _ => destruct u end; (split_and!;
    [ intros w Hin; revert Hin; writes_simpl; intros Hin; inv_In Hin; auto with csi
    | eexists; (split; [reflexivity|]); intros; simplify_eq; auto 10 with csi
    | intros e' Hin Hc Hr; inv_In Hin ]).
Qed.

Lemma block_post_after dev target pre tr o :
  writes pre = [] -> (forall e, In e pre -> projT1 e <> Mount dev target "" ["bind"]) ->
  block_post dev target tr o -> block_post dev target (pre ++ tr) o.
Proof.
  intros Hp Hn (Hw & (r & -> & Hr) & Hl). unfold block_post. cbn zeta. rewrite writes_app, Hp.
  split_and!; [exact Hw|exists r; auto with csi|].
  intros e [Hin|Hin]%in_app_iff Hc He; [by destruct (Hn e Hin)|].
  pose proof (Hl e Hin Hc He) as Hlast. by rewrite calls_app, last_app, Hlast.
Qed.

(** What a publish of a single-node volume has seen and done *)
Definition rwo_post (ns : NodeServer) (req : NodePublishVolumeRequest) (target : string)
    (cap : VolumeCapability) (tr : trace reply) (o : outcome (result unit)) : Prop :=
  (writes tr = [] /\ exists e, o = Returned (Err e))
  \/ exists dev, disk_ready ns (np_VolumeId req) tr /\ device_found (np_VolumeId req) dev tr
       /\ match GetAccessType cap with
          | AccessType_Block => block_post dev target tr o
          | AccessType_Mount fs flags =>
              mount_post dev target (if (fs =? "")%string then "ext4" else fs) flags tr o
          | AccessType_unset => False
          end.

Lemma getDevicePathByVolumeID_reads vol :
  wp (getDevicePathByVolumeID vol) (fun tr _ => forall e, In e tr ->
    match projT1 e with OsReadDir _ | OsEvalSymlinks _ => True | _ => False end).
Proof.
  unfold getDevicePathByVolumeID.
  wp_exec; unfold In in *; naive_solver.
Qed.

Lemma nodePublishRWOVolume_spec ns req target cap :
  wp (nodePublishRWOVolume ns req target cap) (rwo_post ns req target cap).
Proof.
  unfold nodePublishRWOVolume, rwo_post.
  cbn -[getDevicePathByVolumeID nodePublishBlockVolume nodePublishMountVolume].
  intros [vmi|e]; cbn -[getDevicePathByVolumeID nodePublishBlockVolume nodePublishMountVolume].
  2: { left. split; [by writes_simpl|eauto]. }
  destruct (hotPlugDiskReady _ vmi) eqn:Er;
    cbn -[getDevicePathByVolumeID nodePublishBlockVolume nodePublishMountVolume].
  2: { left. split; [by writes_simpl|eauto]. }
  set (g := ev (VmiGet _ _) (Ok vmi)).
  eapply wp_bind_use;
    [exact (wp_and _ _ _ (getDevicePathByVolumeID_spec _) (getDevicePathByVolumeID_reads _))| |].
  2: { by intros tr w [[_ []] _]. }
  intros tr [dev|e] [[Hw Hd] Hreads].
  2: { cbn. rewrite app_nil_r. left. split; [by writes_simpl|eauto]. }
  assert (Hgw : writes (g :: tr) = []) by by writes_simpl.
  assert (Hready : forall t, disk_ready ns (np_VolumeId req) (g :: tr ++ t)).
  { intros t. exists vmi. auto with csi. }
  assert (Hfound : forall t, device_found (np_VolumeId req) dev (g :: tr ++ t)).
  { intros t. eapply device_found_grows; [|exact Hd]. auto with datatypes. }
  destruct (GetAccessType cap) eqn:Ea; unfold GetBlock, GetMount; rewrite Ea; cbn [isNil negb].
  - eapply wp_mono; [apply nodePublishBlockVolume_spec|]. intros tr2 o H2. right. exists dev.
    split_and!; [done..|]. apply (block_post_after dev target (g :: tr)); [done| |done].
    intros e [<-|Hin]; [done|]. specialize (Hreads e Hin). by destruct (projT1 e).
  - eapply wp_mono; [apply nodePublishMountVolume_spec|]. intros tr2 o H2. right. exists dev.
    split_and!; [done..|]. by apply (mount_post_after dev target _ _ (g :: tr)).
  - cbn. left. rewrite app_nil_r. split; [done|eauto].
Qed.

(** C10: NodePublishVolume formats a device only when it is safe: any format
    belongs to a request for a single-node mount; the instance of this node
    was read with the volume as a ready hot-plugged disk, the device is the
    one a by-id file naming the volume points to, and the target was seen
    not to be a mount point (or did not exist and was created). *)
Theorem NodePublishVolume_format ns req :
  all_runs (NodePublishVolume ns req) (fun tr _ => forall dev target fs flags,
    In (FormatAndMount dev target fs flags) (calls tr) ->
    exists cap fs0, np_VolumeCapability req = Some cap /\ GetMode cap = SINGLE_NODE_WRITER
      /\ GetAccessType cap = AccessType_Mount fs0 flags
      /\ fs = (if (fs0 =? "")%string then "ext4" else fs0)
      /\ target = np_TargetPath req
      /\ disk_ready ns (np_VolumeId req) tr /\ device_found (np_VolumeId req) dev tr
      /\ seen_unmounted target tr).
Proof.
  apply wp_iff. unfold NodePublishVolume. case_match; [by intros ? ? ? ? []|].
  destruct (np_VolumeCapability req) as [cap|] eqn:Ec; [|by intros ? ? ? ? []].
  destruct (Mode_eqb _ MULTI_NODE_MULTI_WRITER).
  { unfold nodePublishRWXVolume. wp_exec; match goal with Hin : In _ _ |- _ => inv_In Hin end. }
  destruct (Mode_eqb _ SINGLE_NODE_WRITER) eqn:Em; [|by intros ? ? ? ? []].
  apply Mode_eqb_eq in Em. eapply wp_mono; [apply nodePublishRWOVolume_spec|].
  intros tr o Hpost dev target fs flags Hin%In_writes_mutating; [|done].
  destruct Hpost as [[Hw _]|(d & Hr & Hd & Hpost)]; [rewrite Hw in Hin; inv_In Hin|].
  destruct (GetAccessType cap) as [|fs0 fl0|] eqn:Ea; [| |done].
  { apply (proj1 Hpost) in Hin. inv_In Hin. }
  destruct Hpost as [[[Hw|Hw] _]|[Hu (p & q & Hw & Hp & Hq & _)]]; rewrite Hw in Hin; [inv_In Hin..|].
  apply in_app_iff in Hin as [Hin|[Hin|Hin]].
  - destruct Hp as [->| ->]; inv_In Hin.
  - injection Hin as <- <- <- <-. exists cap, fs0. by split_and!.
  - destruct (Hq _ Hin) as (cmd & _ & ?). done.
Qed.

(** C32: a successful NodePublishVolume of a single-node volume has put the
    volume in place: a block device was bound to the target, or the target
    was already a mount point and nothing was written, or the device was
    formatted and mounted there and its file system grown. *)
Theorem NodePublishVolume_success ns req cap :
  np_VolumeCapability req = Some cap -> GetMode cap = SINGLE_NODE_WRITER ->
  all_runs (NodePublishVolume ns req) (fun tr o => o = Returned (Ok tt) ->
    exists dev, disk_ready ns (np_VolumeId req) tr /\ device_found (np_VolumeId req) dev tr
      /\ let target := np_TargetPath req in
         match GetAccessType cap with
         | AccessType_Block => In (ev (Mount dev target "" ["bind"]) (Ok tt)) tr
         | AccessType_Mount fs0 flags =>
             let fs := if (fs0 =? "")%string then "ext4" else fs0 in
             (In (ev (IsLikelyNotMountPoint target) (false, None)) tr /\ writes tr = [])
             \/ (In (ev (FormatAndMount dev target fs flags) (Ok tt)) tr
                 /\ exists cmd out, resizeCommand fs = Some cmd
                      /\ In (ev (RunCommand cmd [dev]) (out, None)) tr)
         | AccessType_unset => False
         end).
Proof.
  intros Hc Hm. apply wp_iff. unfold NodePublishVolume. rewrite Hc, Hm. case_match; [done|].
  change (Mode_eqb SINGLE_NODE_WRITER MULTI_NODE_MULTI_WRITER) with false.
  change (Mode_eqb SINGLE_NODE_WRITER SINGLE_NODE_WRITER) with true. cbn iota.
  eapply wp_mono; [apply nodePublishRWOVolume_spec|].
  intros tr o [[_ [e ->]]|(d & Hr & Hd & Hpost)] Ho; [done|]. exists d. split_and!; [done..|].
  cbn zeta. destruct (GetAccessType cap) as [|fs0 fl0|]; [| |done].
  - destruct Hpost as (_ & (r & -> & Hr') & _). injection Ho as ->. auto.
  - destruct Hpost as [[_ (r & -> & Hr')]|[_ (p & q & _ & _ & _ & r & -> & Hr')]];
      injection Ho as ->; auto.
Qed.

Definition sample_ns : NodeServer := NewNodeServer "node1" "guest" "".

(** A node on which the disk of the volume [vol1] is plugged in *)
Definition node_serve (c : call) : Cluster -> reply c * Cluster :=
  match c return Cluster -> reply c * Cluster with
  | OsReadDir _ => fun s => (Ok ["scsi-0QEMU_vol1"], s)
  | OsEvalSymlinks _ => fun s => (Ok "/dev/sda", s)
  | FormatAndMount _ _ _ _ => fun s => (Ok tt, s)
  | UnixStatMode _ => fun s => (Ok 16877, s)    (* a directory *)
  | UnixStatfs _ => fun s => (Ok (mkStatfs 90 100 95 4096 7 10), s)
  | c => mem_serve c
  end.

Lemma NodePublishVolume_success_witness :
  let req := mkNodePublishRequest "vol1" "" "/target" (Some (sample_cap SINGLE_NODE_WRITER)) in
  let run := exec node_serve (NodePublishVolume sample_ns req) sample_attached in
  run.1.1 = Returned (Ok tt)
  /\ writes run.2 = [FormatAndMount "/dev/sda" "/target" "ext4" []; RunCommand "resize2fs" ["/dev/sda"]]
  /\ exists dev, disk_ready sample_ns "vol1" run.2 /\ device_found "vol1" dev run.2.
Proof.
  cbv zeta. split; [vm_compute; reflexivity|]. split; [vm_compute; reflexivity|].
  destruct (exec_post node_serve _ sample_attached _ (NodePublishVolume_success sample_ns
    (mkNodePublishRequest "vol1" "" "/target" (Some (sample_cap SINGLE_NODE_WRITER)))
    (sample_cap SINGLE_NODE_WRITER) eq_refl eq_refl) ltac:(vm_compute; reflexivity))
    as (dev & Hr & Hd & _).
  exists dev. split; [exact Hr|exact Hd].
Defined.

(** A device that could not be bound to its target leaves no target file
    behind: whenever the bind mount of a block volume fails, the last call is
    the removal of the target, and the call fails. *)
Theorem nodePublishBlockVolume_cleans vol dev target :
  all_runs (nodePublishBlockVolume vol dev target) (fun tr o => forall e,
    In e tr -> projT1 e = Mount dev target "" ["bind"] -> reply_error e <> None ->
    last (calls tr) = Some (OsRemove target)).
Proof.
  apply wp_iff. eapply wp_mono; [apply nodePublishBlockVolume_spec|]. by intros tr o (_ & _ & H).
Qed.

(** ** Unpublish *)

(** What the node's mount table promises for the path that is unmounted:
    each successful umount removes a layer, and a path without layers is not
    reported as a mount point. *)
Class MountLaws (S : Type) (step : forall c, S -> reply c -> S -> Prop) := {
  layers : S -> string -> nat;
  umount_layer : forall p s u s', step (Unmount p) s (Ok u) s' ->
    (layers s' p < layers s p \/ layers s' p = 0)%nat;
  mounted_layer : forall p s b s', step (IsLikelyNotMountPoint p) s (b, None) s' ->
    (layers s' p <= layers s p)%nat /\ (b = false -> layers s' p <> 0)%nat;
}.

Section Unpublish.

Context {S : Type} {step : forall c, S -> reply c -> S -> Prop} `{!MountLaws S step}.

Lemma unmountLayers_terminates p fuel s :
  (layers s p < fuel)%nat ->
  swp step (unmountLayers fuel p) s (fun o _ => exists r, o = Returned (Some r)).
Proof.
  revert s. induction fuel as [|fuel IH]; intros s Hf; [lia|]. cbn [unmountLayers]. cbn.
  intros [[]|e] s1 Hs1; cbn; [|case_match; cbn; eauto].
  apply umount_layer in Hs1.
  intros [b [e|]] s2 Hs2; cbn; [eauto|]. destruct b; cbn; [eauto|].
  apply mounted_layer in Hs2 as [Hle Hne]. specialize (Hne eq_refl). apply IH. lia.
Qed.

(** C31: NodeUnpublishVolume terminates: with more iterations than the path
    has mount layers, the loop has ended and the call has answered. *)
Theorem NodeUnpublishVolume_terminates fuel req s :
  (layers s (nup_TargetPath req) < fuel)%nat ->
  swp step (NodeUnpublishVolume fuel req) s (fun o _ => exists r, o = Returned (Some r)).
Proof.
  intros Hf. unfold NodeUnpublishVolume. case_match; [cbn; eauto|]. case_match; [cbn; eauto|].
  eapply swp_bind_use; [by apply unmountLayers_terminates| |].
  - intros r s1 [r' [= ->]]. destruct r' as [[]|e]; cbn; [|eauto].
    intros [u|e] s2 _; cbn; eauto.
  - by intros w s1 [r ?].
Qed.

End Unpublish.

(** A node whose only state is how often each path is mounted *)
Definition mount_serve (c : call) : gmap string nat -> reply c * gmap string nat :=
  match c return gmap string nat -> reply c * gmap string nat with
  | Unmount p => fun m =>
      match default O (m !! p) with
      | O => (Err (OtherErr (p +:+ ": not mounted")), m)
      | S n => (Ok tt, <[p := n]> m)
      end
  | IsLikelyNotMountPoint p => fun m => ((bool_decide (default O (m !! p) = O), None), m)
  | CleanupMountPoint _ _ => fun m => (Ok tt, m)
  | c => fun m => ((mem_serve c sample_cluster).1, m)
  end.

#[export] Program Instance mount_MountLaws : MountLaws (gmap string nat) (step_of mount_serve) := {|
  layers := fun m p => default O (m !! p)
|}.
Next Obligation.
  intros p s u s'. unfold step_of. simpl. destruct (default O (s !! p)) as [|n] eqn:E; [done|].
  intros [= _ <-]. left. rewrite lookup_insert_eq. simpl. lia.
Qed.
Next Obligation.
  intros p s b s'. unfold step_of. simpl. intros [= <- <-]. split; [lia|].
  by rewrite bool_decide_eq_false.
Qed.

Lemma NodeUnpublishVolume_terminates_witness :
  let req := mkNodeUnpublishRequest "vol1" "/target" in
  let m := <["/target" := 2%nat]> ∅ in
  (exec mount_serve (NodeUnpublishVolume 3 req) m).1.1 = Returned (Some (Ok tt))
  /\ swp (step_of mount_serve) (NodeUnpublishVolume 3 req) m (fun o _ => exists r, o = Returned (Some r)).
Proof.
  cbv zeta. split; [vm_compute; reflexivity|].
  apply (NodeUnpublishVolume_terminates (step := step_of mount_serve) 3).
  vm_compute. auto.
Defined.

(** ** Statistics *)

(** The counters of statfs(2) fit in an int64: no count is above its total,
    and neither the size in bytes nor a count overflows. *)
Definition representable (st : Statfs) : Prop :=
  0 <= Bavail st <= Blocks st /\ 0 <= Bfree st <= Blocks st
  /\ 0 < Bsize st < 2 ^ 63 /\ Blocks st * Bsize st < 2 ^ 63
  /\ 0 <= Ffree st <= Files st /\ Files st < 2 ^ 63.

(** No wrap-around in that range *)
Lemma statistics_representable st :
  representable st ->
  statistics st = mkStats (Bavail st * Bsize st) (Blocks st * Bsize st)
    ((Blocks st - Bfree st) * Bsize st) (Ffree st) (Files st) (Files st - Ffree st).
Proof.
  intros (Ha & Hf & Hs & Hb & Hi & Hn). assert (Hbl : Blocks st < 2 ^ 63) by nia.
  assert (0 <= Bavail st * Bsize st <= Blocks st * Bsize st) by nia.
  assert (0 <= (Blocks st - Bfree st) * Bsize st <= Blocks st * Bsize st) by nia.
  unfold statistics. cbn zeta.
  rewrite (wrap64_id (Bavail st)), (wrap64_id (Bsize st)), (wrap64_id (Blocks st)),
    (wrap64_id (Bfree st)), (wrap64_id (Ffree st)), (wrap64_id (Files st)) by (unfold in_int64; lia).
  rewrite (wrap64_id (Blocks st - Bfree st)) by (unfold in_int64; lia).
  by rewrite !wrap64_id by (unfold in_int64; lia).
Qed.

(** C34: NodeGetVolumeStats reports exactly what the node says.  For a path
    whose mode is that of a block device it reports the capacity recorded in
    the claim of the volume as total, and nothing else; for any other path
    it reports the statistics of the file system read there, and as long as
    these fit in an int64 every number is exact: available, total and used
    bytes are the available, total and not-free blocks times the block size,
    available, total and used inodes the free, total and not-free ones.  It
    writes nothing, and fails only on a request without volume or path or
    when one of the services it asks does. *)
Theorem NodeGetVolumeStats_exact ns req :
  all_runs (NodeGetVolumeStats ns req) (fun tr o => writes tr = [] /\
    match o with
    | Returned (Ok usage) => exists mode pvc,
        In (ev (UnixStatMode (ngs_VolumePath req)) (Ok mode)) tr
        /\ In (ev (PvcGet (ns_namespace ns) (ngs_VolumeId req)) (Ok pvc)) tr
        /\ (Z.land mode S_IFMT = S_IFBLK ->
              usage = [mkVolumeUsage 0 (Storage (pvc_Capacity pvc)) 0 VolumeUsage_BYTES])
        /\ (Z.land mode S_IFMT <> S_IFBLK ->
            exists st, In (ev (UnixStatfs (ngs_VolumePath req)) (Ok st)) tr
            /\ (representable st ->
                 usage = [mkVolumeUsage (Bavail st * Bsize st) (Blocks st * Bsize st)
                            ((Blocks st - Bfree st) * Bsize st) VolumeUsage_BYTES;
                          mkVolumeUsage (Ffree st) (Files st) (Files st - Ffree st)
                            VolumeUsage_INODES]))
    | Returned (Err e) =>
        (tr = [] /\ status_Code e = InvalidArgument
         /\ (ngs_VolumeId req = "" \/ ngs_VolumePath req = ""))
        \/ exists x err, In x tr /\ reply_error x = Some err
    | Panicked _ => False
    end).
Proof.
  apply wp_iff. unfold NodeGetVolumeStats.
  destruct (ngs_VolumeId req =? "")%string eqn:E1; bool_to_prop; [by cbn; auto 6|].
  destruct (ngs_VolumePath req =? "")%string eqn:E2; bool_to_prop; [by cbn; auto 6|].
  cbn -[statistics]. intros [mode|e]; cbn -[statistics].
  2: { case_match; (split; [by writes_simpl|right; eexists _, e; split; [by left|done]]). }
  intros [pvc|e]; cbn -[statistics].
  2: { split; [by writes_simpl|right]. eexists _, e. split; [right; by left|done]. }
  destruct (Z.eqb_spec (Z.land mode S_IFMT) S_IFBLK) as [Hb|Hb]; cbn -[statistics].
  - split; [by writes_simpl|]. exists mode, pvc. split_and!; auto with csi. done.
  - intros [st|e]; cbn -[statistics].
    2: { case_match; (split; [by writes_simpl|right; eexists _, e; split; [by do 2 right; left|done]]). }
    split; [by writes_simpl|]. exists mode, pvc. split_and!; auto with csi; [done|].
    intros _. exists st. split; [auto with csi|]. intros Hr.
    by rewrite (statistics_representable st Hr).
Qed.

Lemma NodeGetVolumeStats_exact_witness :
  let req := mkNodeStatsRequest "vol1" "/target" in
  let run := exec node_serve (NodeGetVolumeStats sample_ns req) sample_attached in
  writes run.2 = []
  /\ run.1.1 = Returned (Ok [mkVolumeUsage 368640 409600 20480 VolumeUsage_BYTES;
                             mkVolumeUsage 7 10 3 VolumeUsage_INODES]).
Proof.
  cbv zeta. split; [|vm_compute; reflexivity].
  exact (proj1 (exec_post node_serve _ sample_attached _
    (NodeGetVolumeStats_exact sample_ns (mkNodeStatsRequest "vol1" "/target")))).
Defined.

(** ** Stage and expand *)

(** NodeStageVolume mounts only RWX volumes, and only from a network file
    system read as ready: its single write is the NFS mount of the export of
    the claim's volume on the staging path. *)
Theorem NodeStageVolume_mounts ns req :
  all_runs (NodeStageVolume ns req) (fun tr o =>
    (writes tr = []
     \/ exists cap pvc n, nst_VolumeCapability req = Some cap
          /\ GetMode cap = MULTI_NODE_MULTI_WRITER
          /\ In (ev (PvcGet (ns_namespace ns) (nst_VolumeId req)) (Ok pvc)) tr
          /\ In (ev (NfsGet HarvesterNS (VolumeName (pvc_Spec pvc))) (Ok n)) tr
          /\ nfs_Status n = EndpointStatusReady
          /\ writes tr = [Execute "mount" ["-t"; "nfs"; "-o";
                (if (nfs_MountOpts n =? "")%string then "vers=4" else nfs_MountOpts n);
                nfs_Endpoint n +:+ ":/" +:+ VolumeName (pvc_Spec pvc); nst_StagingTargetPath req]])
    /\ (o = Returned (Ok tt) -> forall cap, nst_VolumeCapability req = Some cap ->
        GetMode cap = MULTI_NODE_MULTI_WRITER -> writes tr <> [])).
Proof.
  apply wp_iff. unfold NodeStageVolume. destruct (nst_VolumeCapability req) as [cap|] eqn:Ec.
  2: { cbn. split; [by left|done]. }
  destruct (Mode_eqb _ _) eqn:Em.
  2: { apply Mode_eqb_neq in Em. cbn. split; [by left|]. intros _ ? [= <-]. done. }
  apply Mode_eqb_eq in Em. unfold nodeStageRWXVolume. rewrite Ec. case_match.
  { cbn. split; [by left|done]. }
  cbn. intros [pvc|e]; cbn; [|split; [left; by writes_simpl|done]].
  intros [n|e]; cbn; [|split; [left; by writes_simpl|done]].
  destruct (nfs_Status n =? EndpointStatusReady)%string eqn:Er; cbn; bool_to_prop;
    [|split; [left; by writes_simpl|done]].
  intros nspace [u|e]; cbn; [|split; [left; by writes_simpl|done]].
  intros [out|e]; cbn;
    (split; [right; exists cap, pvc, n; split_and!; auto with csi; writes_simpl;
             by destruct (nfs_MountOpts n =? "")%string|]); [|done].
  intros _ _ _ _. by writes_simpl.
Qed.

(** What NodeExpandVolume may do: run the command that grows the file system
    of the request on the volume's device, for a volume that is not RWX and
    whose path is a directory on which something is mounted; on success it
    reports the requested size. *)
Definition node_expand_post (req : NodeExpandVolumeRequest) (tr : trace reply)
    (o : outcome (result Z)) : Prop :=
  (forall cmd args, In (RunCommand cmd args) (calls tr) ->
     nodeExpandRWX req = false
     /\ exists dev fs, device_found (ne_VolumeId req) dev tr /\ args = [dev]
        /\ getNodeFsType req = Ok fs /\ resizeCommand fs = Some cmd
        /\ In (ev (OsStatIsDir (ne_VolumePath req)) (Ok true)) tr
        /\ In (ev (IsLikelyNotMountPoint (ne_VolumePath req)) (false, None)) tr)
  /\ forall cap, o = Returned (Ok cap) -> cap = default 0 (ne_RequiredBytes req).

Lemma node_expand_leaf req tr o :
  (forall cmd args, ~ In (RunCommand cmd args) (writes tr)) ->
  (forall cap, o = Returned (Ok cap) -> cap = default 0 (ne_RequiredBytes req)) ->
  node_expand_post req tr o.
Proof.
  intros Hno Ho. split; [|done]. intros cmd args Hin.
  destruct (Hno cmd args). by apply In_writes_mutating.
Qed.

(** The file system was resized. *)
Lemma node_expand_resized req dev fs pre tr2 o (r : result unit) :
  nodeExpandRWX req = false -> getNodeFsType req = Ok fs -> writes pre = [] ->
  device_found (ne_VolumeId req) dev pre ->
  In (ev (OsStatIsDir (ne_VolumePath req)) (Ok true)) pre ->
  In (ev (IsLikelyNotMountPoint (ne_VolumePath req)) (false, None)) pre ->
  match resizeCommand fs with
  | Some cmd => writes tr2 = [RunCommand cmd [dev]]
      /\ exists r0, Returned r = Returned r0
      /\ (r0 = Ok tt -> exists out, In (ev (RunCommand cmd [dev]) (out, None)) tr2)
  | None => writes tr2 = [] /\ exists e, Returned r = Returned (Err e)
  end ->
  (forall cap, o = Returned (Ok cap) -> cap = default 0 (ne_RequiredBytes req)) ->
  node_expand_post req (pre ++ tr2) o.
Proof.
  intros Hrwx Hfs Hpre Hd Hdir Hmnt H2 Ho. split; [|done].
  intros cmd args Hin%In_writes_mutating; [|done]. split; [done|]. exists dev, fs.
  revert Hin. writes_simpl. intros Hin.
  destruct (resizeCommand fs) as [cmd'|]; destruct H2 as [Hw2 _]; rewrite Hw2 in Hin; inv_In Hin.
  split_and!; try done; auto with csi. eapply device_found_grows; [|exact Hd]. auto with datatypes.
Qed.

(** C33: NodeExpandVolume runs a command only to grow the file system of the
    request on the volume's device, and only for a volume that is not RWX and
    whose path is a directory on which something is mounted; on success it
    reports the requested size. *)
Theorem NodeExpandVolume_resizes ns req :
  all_runs (NodeExpandVolume ns req) (node_expand_post req).
Proof.
  apply wp_iff. unfold NodeExpandVolume.
  destruct (validateNodeExpandReq req); [|by apply node_expand_leaf; [intros ? ? Hin; inv_In Hin|]].
  destruct (nodeExpandRWX req) eqn:Erwx;
    [by apply node_expand_leaf; [intros ? ? Hin; inv_In Hin|]|].
  cbn -[isLikelyNotMountPointAttach getDevicePathByVolumeID resizeFilesystem].
  intros [st|e]; cbn -[isLikelyNotMountPointAttach getDevicePathByVolumeID resizeFilesystem];
    [|by apply node_expand_leaf; [writes_simpl; intros ? ? Hin; inv_In Hin|]].
  intros [isDir|e]; cbn -[isLikelyNotMountPointAttach getDevicePathByVolumeID resizeFilesystem];
    [|by apply node_expand_leaf; [writes_simpl; intros ? ? Hin; inv_In Hin|]].
  destruct isDir; cbn -[isLikelyNotMountPointAttach getDevicePathByVolumeID resizeFilesystem].
  2: { apply node_expand_leaf; [writes_simpl; intros ? ? Hin; inv_In Hin|naive_solver]. }
  eapply wp_bind_use; [apply isLikelyNotMountPointAttach_spec| |].
  2: { by intros tr w (b & e & ? & _). }
  intros tr [notMnt err] (b & e & [= <- <-] & _ & Hm & Hw).
  assert (Hno : forall cmd args, ~ In (RunCommand cmd args) (writes tr)).
  { intros cmd args Hin. destruct Hw as [Hw|Hw]; rewrite Hw in Hin; inv_In Hin. }
  destruct err as [e|]; [apply node_expand_leaf; [|done]; by writes_simpl; rewrite app_nil_r|].
  destruct notMnt; [apply node_expand_leaf; [|done]; by writes_simpl; rewrite app_nil_r|].
  destruct (Hm eq_refl eq_refl) as [Hmnt Hw0]. clear Hm Hw Hno.
  eapply wp_bind_use; [apply getDevicePathByVolumeID_spec| |]; [|by intros tr1 w [_ []]].
  intros tr1 [dev|e] [Hw1 Hd]; cbn -[resizeFilesystem].
  2: { apply node_expand_leaf; [writes_simpl; intros ? ? Hin; inv_In Hin|done]. }
  destruct (getNodeFsType req) as [fs|e] eqn:Efs; cbn -[resizeFilesystem].
  2: { apply node_expand_leaf; [writes_simpl; intros ? ? Hin; inv_In Hin|done]. }
  eapply wp_bind_use; [apply resizeFilesystem_spec| |].
  2: { intros tr2 w. destruct (resizeCommand fs); [by intros (_ & r & ? & _)|by intros (_ & e & ?)]. }
  intros tr2 r H2. set (g1 := ev (SettingGet _) _). set (g2 := ev (OsStatIsDir _) _).
  destruct r as [[]|e]; cbn; rewrite app_nil_r, (assoc_L (++));
    (eapply (node_expand_resized req dev fs (g1 :: g2 :: tr ++ tr1) tr2);
     [done|done|by writes_simpl| |auto with csi|auto with csi|exact H2|naive_solver]);
    (eapply device_found_grows; [|exact Hd]; auto with datatypes).
Qed.
