(* ===== verification/NodeCycle.v ===== *)
(** * The life of a shared volume on a node

    A shared (RWX) volume is staged once per node, by an NFS mount on the
    staging path, and published to each pod by a bind mount; unpublish and
    unstage undo this.  The four RPCs are related here to the mount table of
    the node. *)

From S2P Require Import Prelude Go Prog Kube Csi Api Store Utils CsiUtil Controller Volumes VolumesSpec Samples NodeServer.

(** ** What the node promises

    [table s p] lists what is mounted on the path [p], the last mount first.
    The laws speak about the paths [own] of the volume, which nobody else
    mounts on. *)
Class MountTable (own : string -> Prop) (S : Type)
    (step : forall c, S -> reply c -> S -> Prop) := {
  table : S -> string -> list string;
  (* mount -t nfs -o opts export target *)
  table_nfs : forall opts export target s out s',
    step (Execute "mount" ["-t"; "nfs"; "-o"; opts; export; target]) s (Ok out) s' ->
    forall p, own p -> table s' p = (if (p =? target)%string then [export] else []) ++ table s p;
  (* a bind mount shows what its source shows *)
  table_bind : forall source target s u s', own source ->
    step (Mount source target "" ["bind"]) s (Ok u) s' ->
    forall p, own p ->
      table s' p = (if (p =? target)%string then [hd "" (table s source)] else []) ++ table s p;
  table_test : forall p s b e s', own p -> step (IsMountPoint p) s (b, e) s' ->
    b = true -> table s p <> [];
  table_mountpoint : forall p s r s', own p -> step (Execute "mountpoint" [p]) s r s' ->
    match r with
    | Ok out => strings.Contains out "is a mountpoint" = false -> table s p = []
    | Err e => strings.Contains (Error e) "is not a mountpoint" = true -> table s p = []
    end;
  table_umount : forall p s out s', step (Execute "umount" [p]) s (Ok out) s' ->
    forall q, own q -> table s' q = (if (q =? p)%string then tl (table s q) else table s q);
  (* umount(2) takes the last mount off, or says that there is none *)
  table_unmount : forall p s r s', own p -> step (Unmount p) s r s' ->
    match r with
    | Ok _ => table s' p = tl (table s p)
    | Err e => table s' p = table s p
        /\ (strings.Contains (Error e) "not mounted"
             || strings.Contains (Error e) "no mount point specified" = true -> table s p = [])
    end;
  (* the quick test compares the device of the path with that of its parent,
     which differ under an NFS export *)
  table_not_mount : forall p s s', own p -> step (IsLikelyNotMountPoint p) s (true, None) s' ->
    table s p = [];
  (* the clean-up of a path that is not mounted removes the path at most *)
  table_cleanup : forall p b s r s', own p -> step (CleanupMountPoint p b) s r s' ->
    table s p = [] -> table s' p = [];
  (* every other call leaves the paths alone, except the one it is about *)
  table_frame : forall c s r s' q, own q -> step c s r s' ->
    match c with
    | Execute cmd _ => cmd = "mountpoint" -> table s' q = table s q
    | Unmount p | CleanupMountPoint p _ => q <> p -> table s' q = table s q
    | Mount _ _ _ _ | FormatAndMount _ _ _ _ => True
    | _ => table s' q = table s q
    end;
}.

Section Cycle.

Context {own : string -> Prop} {S : Type} {step : forall c, S -> reply c -> S -> Prop}.
Context `{!MountTable own S step}.
Implicit Types s : S.

(** The table changed on the path [p] at most, where it is [l] now. *)
Definition remounted (s s' : S) (p : string) (l : list string) : Prop :=
  forall q, own q -> table s' q = if (q =? p)%string then l else table s q.

(** The export of the network file system [n] of the volume [lh] *)
Definition export_of (n : NetworkFilesystem) (lh : string) : string := nfs_Endpoint n +:+ ":/" +:+ lh.

(** The run [tr] of the stage read the claim [pvc] of the volume and the
    network file system [n] of that claim, which was ready. *)
Definition staged_from (ns : NodeServer) (req : NodeStageVolumeRequest) (tr : trace reply)
    (pvc : PersistentVolumeClaim) (n : NetworkFilesystem) : Prop :=
  In (ev (PvcGet (ns_namespace ns) (nst_VolumeId req)) (Ok pvc)) tr
  /\ In (ev (NfsGet HarvesterNS (VolumeName (pvc_Spec pvc))) (Ok n)) tr
  /\ nfs_Status n = EndpointStatusReady.

Lemma remounted_push s s' p (d : string) l :
  (forall q, own q -> table s' q = (if (q =? p)%string then [d] else []) ++ table s q) ->
  own p -> table s p = l -> remounted s s' p (d :: l).
Proof.
  intros H Hp Hl q Hq. rewrite (H q Hq). destruct (q =? p)%string eqn:E; [|done].
  apply String.eqb_eq in E as ->. by rewrite Hl.
Qed.

Lemma remounted_same s s' p : (forall q, own q -> table s' q = table s q) -> remounted s s' p (table s p).
Proof.
  intros H q Hq. rewrite (H q Hq). destruct (q =? p)%string eqn:E; [|done]. by apply String.eqb_eq in E as ->.
Qed.

Lemma remounted_trans s1 s2 s3 p l1 l2 :
  remounted s1 s2 p l1 -> remounted s2 s3 p l2 -> remounted s1 s3 p l2.
Proof. intros H1 H2 q Hq. rewrite (H2 q Hq), (H1 q Hq). by destruct (q =? p)%string. Qed.

(** Take the calls that leave the table alone. *)
Ltac quiet := match goal with Hs : step _ ?s _ ?s' |- _ =>
  assert (forall q, own q -> table s' q = table s q)
    by (let Ho := fresh in intros ? Ho; exact (table_frame _ _ _ _ _ Ho Hs)); clear Hs end.

(** Follow the table back over the quiet calls. *)
Ltac still := repeat match goal with
  | H : forall q, own q -> table ?a q = table _ q, Ho : own ?p |- context [table ?a ?p] => rewrite (H p Ho)
  end.

Lemma stage_table ns req cap s :
  nst_VolumeCapability req = Some cap -> GetMode cap = MULTI_NODE_MULTI_WRITER ->
  own (nst_StagingTargetPath req) ->
  swp (traced step) (NodeStageVolume ns req) (s, []) (fun o (s' : S * trace reply) =>
    o = Returned (Ok tt) ->
    exists pvc n, staged_from ns req s'.2 pvc n
      /\ remounted s s'.1 (nst_StagingTargetPath req)
           (export_of n (VolumeName (pvc_Spec pvc)) :: table s (nst_StagingTargetPath req))).
Proof.
  intros Hc Hm Hown. unfold NodeStageVolume, nodeStageRWXVolume. rewrite Hc, (proj2 (Mode_eqb_eq _ _) Hm).
  case_match; [done|]. cbn. intros [pvc|e] [s1 t1] [Hs1 Ht1]; cbn in *; [|done]. quiet.
  intros [n|e] [s2 t2] [Hs2 Ht2]; cbn in *; [|done]. quiet.
  destruct (nfs_Status n =? EndpointStatusReady)%string eqn:Er; cbn; [|done].
  intros nspace [s3 t3] [Hs3 Ht3]. cbn in *. quiet.
  intros [u|e] [s4 t4] [Hs4 Ht4]; cbn in *; [|done]. quiet.
  intros [out|e] [s5 t5] [Hs5 Ht5]; cbn in *; [|done]. intros _.
  exists pvc, n. split.
  { subst. split_and!; [auto 10 with csi|auto 10 with csi|by apply String.eqb_eq]. }
  assert (forall q, own q -> table s4 q = table s q) as H4 by (intros q Hq; by still).
  pose proof (table_nfs _ _ _ _ _ _ Hs5) as Hn. apply remounted_push; [|done|done].
  intros q Hq. by rewrite (Hn q Hq), (H4 q Hq).
Qed.

Lemma publish_table ns req cap s :
  np_VolumeCapability req = Some cap -> GetMode cap = MULTI_NODE_MULTI_WRITER ->
  own (np_StagingTargetPath req) -> own (np_TargetPath req) -> table s (np_TargetPath req) = [] ->
  swp step (NodePublishVolume ns req) s (fun o s' => o = Returned (Ok tt) ->
    remounted s s' (np_TargetPath req) [hd "" (table s (np_StagingTargetPath req))]).
Proof.
  intros Hc Hm Hst Htg Hempty. unfold NodePublishVolume, nodePublishRWXVolume.
  case_match; [done|]. rewrite Hc, (proj2 (Mode_eqb_eq _ _) Hm). case_match; [done|].
  cbn. intros [b e] s1 Hs1. pose proof (table_test _ _ _ _ _ Htg Hs1) as Hb.
  destruct b; [by destruct (Hb eq_refl)|]. cbn. quiet.
  apply swp_bind.
  eapply (swp_mono _ _ _ (fun o s2 => forall q, own q -> table s2 q = table s q)).
  - case_match; cbn; [|done]. intros [u|e'] s2 Hs2; cbn; quiet; intros q Hq; by still.
  - intros [[u|e']|w] s2 H2; cbn; [|done|done]. intros [u'|e'] s3 Hs3; cbn; [|done]. intros _.
    pose proof (table_bind _ _ _ _ _ Hst Hs3) as Hb3. rewrite <- (H2 _ Hst).
    apply remounted_push; [|done|done]. intros q Hq. by rewrite (Hb3 q Hq), (H2 q Hq).
Qed.

(** The loop touches its own path only, and ends well only when every layer
    is off. *)
Lemma unmountLayers_table p fuel s :
  own p ->
  swp step (unmountLayers fuel p) s (fun o s' =>
    (forall q, own q -> q <> p -> table s' q = table s q)
    /\ (o = Returned (Some (Ok tt)) -> table s' p = [])).
Proof.
  intros Hp. revert s. induction fuel as [|fuel IH]; intros s; [done|]. cbn [unmountLayers]. cbn.
  intros r s1 Hs1. pose proof (table_unmount _ _ _ _ Hp Hs1) as Hu.
  assert (forall q, own q -> q <> p -> table s1 q = table s q) as H1
    by (intros q Hq; exact (table_frame _ _ _ _ _ Hq Hs1)).
  destruct r as [u|e]; cbn.
  2: { destruct Hu as [Hsame Hno]. destruct (_ || _) eqn:E; cbn; (split; [done|]); [|done].
       intros _. by rewrite Hsame, Hno. }
  intros [b oe] s2 Hs2; cbn. pose proof (table_frame _ _ _ _ _ Hp Hs2 : table s2 p = table s1 p) as Hf.
  assert (b = true -> oe = None -> table s2 p = []) as Hnot.
  { intros -> ->. rewrite Hf. exact (table_not_mount _ _ _ Hp Hs2). }
  quiet. destruct oe; cbn; [split; [intros; still; by apply H1|done]|].
  destruct b; cbn; [split; [intros; still; by apply H1|auto]|].
  eapply swp_mono; [apply IH|]. cbn. intros o s3 [H3 Ho]. split; [|done].
  intros q Hq Hne. rewrite H3 by done. still. by apply H1.
Qed.

Lemma unpublish_table fuel req s :
  own (nup_TargetPath req) ->
  swp step (NodeUnpublishVolume fuel req) s (fun o s' => o = Returned (Some (Ok tt)) ->
    remounted s s' (nup_TargetPath req) []).
Proof.
  intros Hown. unfold NodeUnpublishVolume. case_match; [done|]. case_match; [done|].
  eapply swp_bind_use; [by apply unmountLayers_table| |by intros w s1 [_ _]].
  intros [[[]|e]|] s1 [H1 Hoff]; cbn; [|done|done]. intros [u'|e] s2 Hs2; cbn; [|done].
  intros _ q Hq. destruct (q =? nup_TargetPath req)%string eqn:E.
  - apply String.eqb_eq in E as ->. eapply table_cleanup; [done|exact Hs2|auto].
  - apply String.eqb_neq in E. rewrite <- (H1 q Hq E). exact (table_frame _ _ _ _ _ Hq Hs2 E).
Qed.

Lemma unstage_table ns req s d l :
  own (nus_StagingTargetPath req) -> table s (nus_StagingTargetPath req) = d :: l ->
  swp step (NodeUnstageVolume ns req) s (fun o s' => o = Returned (Ok tt) ->
    remounted s s' (nus_StagingTargetPath req) l).
Proof.
  intros Hown Hl. unfold NodeUnstageVolume. case_match; [done|]. cbn.
  intros nspace s1 Hs1; cbn. quiet. intros [u|e] s2 Hs2; cbn; [|done]. quiet.
  assert (table s2 (nus_StagingTargetPath req) = d :: l) as Hl2 by by still.
  intros r s3 Hs3. pose proof (table_mountpoint _ _ _ _ Hown Hs3) as Ht.
  assert (forall q, own q -> table s3 q = table s q) as H3.
  { intros q Hq. pose proof (table_frame _ _ _ _ _ Hq Hs3 : _ -> _) as Hf. rewrite Hf by done. by still. }
  destruct r as [out|e]; cbn.
  - destruct (strings.Contains out _); cbn; [|by rewrite Ht in Hl2]. intros [out'|e] s4 Hs4; cbn; [|done].
    intros _ q Hq. rewrite (table_umount _ _ _ _ Hs4 q Hq), (H3 q Hq).
    destruct (q =? _)%string eqn:E; [|done]. apply String.eqb_eq in E as ->. by rewrite Hl.
  - destruct (strings.Contains (Error e) _); cbn; [by rewrite Ht in Hl2|done].
Qed.

(** C19: the life of a shared volume on a node leaves no mount behind and shows
    each pod the right export.  When staging succeeds it has read the claim
    of the volume and the network file system of that claim, as ready, and
    has mounted the export of just that file system, on top of whatever the
    staging path showed before, and nothing else of the volume; when
    publishing to a fresh target succeeds the pod sees that export; a
    successful unpublish has taken every layer off the target, and a
    successful unstage then brings the table of every path of the volume back
    to what it was. *)
Theorem node_rwx_cycle ns fuel stage publish unpublish unstage cap s :
  nst_VolumeCapability stage = Some cap -> np_VolumeCapability publish = Some cap ->
  GetMode cap = MULTI_NODE_MULTI_WRITER ->
  np_StagingTargetPath publish = nst_StagingTargetPath stage ->
  nus_StagingTargetPath unstage = nst_StagingTargetPath stage ->
  nup_TargetPath unpublish = np_TargetPath publish ->
  np_TargetPath publish <> nst_StagingTargetPath stage ->
  own (nst_StagingTargetPath stage) -> own (np_TargetPath publish) ->
  table s (np_TargetPath publish) = [] ->
  swp (traced step) (NodeStageVolume ns stage) (s, []) (fun o1 (s1 : S * trace reply) =>
    o1 = Returned (Ok tt) ->
    exists pvc n, staged_from ns stage s1.2 pvc n
    /\ remounted s s1.1 (nst_StagingTargetPath stage)
         (export_of n (VolumeName (pvc_Spec pvc)) :: table s (nst_StagingTargetPath stage))
    /\ swp step (NodePublishVolume ns publish) s1.1 (fun o2 s2 => o2 = Returned (Ok tt) ->
      remounted s1.1 s2 (np_TargetPath publish) [export_of n (VolumeName (pvc_Spec pvc))]
      /\ swp step (NodeUnpublishVolume fuel unpublish) s2 (fun o3 s3 =>
           o3 = Returned (Some (Ok tt)) ->
           remounted s2 s3 (np_TargetPath publish) []
           /\ swp step (NodeUnstageVolume ns unstage) s3 (fun o4 s4 => o4 = Returned (Ok tt) ->
             forall p, own p -> table s4 p = table s p)))).
Proof.
  intros Hc1 Hc2 Hm Hps Hus Hup Hne Host Hot Hempty.
  eapply swp_mono; [by eapply stage_table|]. intros o1 [s1 tr1] H1 Ho1. cbn [fst snd] in *.
  destruct (H1 Ho1) as (pvc & n & Hr & Hst). clear H1 Ho1. exists pvc, n. split_and!; [done|done|].
  set (lh := VolumeName (pvc_Spec pvc)) in *.
  pose proof (Hst _ Host) as Hs1. rewrite String.eqb_refl in Hs1.
  assert (table s1 (np_TargetPath publish) = []) as Ht1
    by (rewrite (Hst _ Hot); by apply String.eqb_neq in Hne as ->).
  eapply swp_mono; [by eapply publish_table; rewrite ?Hps|]. intros o2 s2 H2 Ho2.
  specialize (H2 Ho2). rewrite Hps, Hs1 in H2. split; [done|].
  eapply swp_mono; [apply unpublish_table; by rewrite Hup|]. intros o3 s3 H3 Ho3.
  specialize (H3 Ho3). rewrite Hup in H3. split; [done|]. pose proof (remounted_trans _ _ _ _ _ _ H2 H3) as H13.
  assert (table s3 (nst_StagingTargetPath stage)
          = export_of n lh :: table s (nst_StagingTargetPath stage)) as Hs3.
  { rewrite (H13 _ Host), <- Hs1. by rewrite (proj2 (String.eqb_neq _ _) (not_eq_sym Hne)). }
  rewrite <- Hus in Hs3, Host.
  eapply swp_mono; [by eapply unstage_table|]. intros o4 s4 H4 Ho4 p Hp.
  specialize (H4 Ho4 p Hp). rewrite Hus in H4. rewrite H4, (H13 p Hp), (Hst p Hp).
  destruct (p =? nst_StagingTargetPath stage)%string eqn:E; [by apply String.eqb_eq in E as ->|].
  destruct (p =? np_TargetPath publish)%string eqn:E2; [|done].
  by apply String.eqb_eq in E2 as ->.
Qed.

End Cycle.

(** ** A node with a mount table *)

Abbreviation Table := (gmap string (list string)).

Definition mounted_on (m : Table) (p : string) : list string := default [] (m !! p).

Definition push_mount (p d : string) (m : Table) : Table := <[p := d :: mounted_on m p]> m.

Definition run_mount_command (cmd : string) (args : list string) (m : Table) : result string * Table :=
  match args with
  | [_; _; _; _; export; target] =>
      if (cmd =? "mount")%string then (Ok "", push_mount target export m)
      else (Err (OtherErr "unknown command"), m)
  | [p] =>
      if (cmd =? "mountpoint")%string then
        match mounted_on m p with
        | [] => (Err (OtherErr "is not a mountpoint"), m)
        | _ => (Ok "is a mountpoint", m)
        end
      else if (cmd =? "umount")%string then
        match mounted_on m p with
        | [] => (Err (OtherErr "not mounted"), m)
        | _ :: l => (Ok "", <[p := l]> m)
        end
      else (Err (OtherErr "unknown command"), m)
  | _ => (Err (OtherErr "unknown command"), m)
  end.

Definition table_serve (c : call) : Table -> reply c * Table :=
  match c return Table -> reply c * Table with
  | NfsGet _ n => fun m =>
      (Ok (mkNFS (newMeta HarvesterNS n) n NetworkFSStateEnabled LHName NetworkFSStateEnabled
             EndpointStatusReady "10.0.0.1" ""), m)
  | NewExecutorWithNS _ => fun m => (Ok tt, m)
  | Execute cmd args => run_mount_command cmd args
  | IsMountPoint p => fun m => ((negb (bool_decide (mounted_on m p = [])), None), m)
  | Mount source target _ _ => fun m => (Ok tt, push_mount target (hd "" (mounted_on m source)) m)
  | Unmount p => fun m =>
      match mounted_on m p with
      | [] => (Err (OtherErr "not mounted"), m)
      | _ :: l => (Ok tt, <[p := l]> m)
      end
  | IsLikelyNotMountPoint p => fun m => ((bool_decide (mounted_on m p = []), None), m)
  | CleanupMountPoint _ _ => fun m => (Ok tt, m)
  | c => fun m => ((mem_serve c sample_cluster).1, m)
  end.

Lemma mounted_on_insert m p l q :
  mounted_on (<[p := l]> m) q = if (q =? p)%string then l else mounted_on m q.
Proof.
  unfold mounted_on. destruct (q =? p)%string eqn:E.
  - apply String.eqb_eq in E as ->. by rewrite lookup_insert_eq.
  - apply String.eqb_neq in E. by rewrite lookup_insert_ne.
Qed.

Lemma mounted_on_push m p d q :
  mounted_on (push_mount p d m) q = (if (q =? p)%string then [d] else []) ++ mounted_on m q.
Proof.
  unfold push_mount. rewrite mounted_on_insert. destruct (q =? p)%string eqn:E; [|done].
  by apply String.eqb_eq in E as ->.
Qed.

#[export] Program Instance table_MountTable : MountTable (fun _ => True) Table (step_of table_serve) := {|
  table := mounted_on;
|}.
Next Obligation. intros opts export target s out s' [= _ <-] p _. apply mounted_on_push. Qed.
Next Obligation. intros source target s u s' _ [= _ <-] p _. apply mounted_on_push. Qed.
Next Obligation. intros p s b e s' _ [= <- _ _] Hb. by apply negb_true_iff, bool_decide_eq_false in Hb. Qed.
Next Obligation.
  intros p s r s' _. unfold step_of. cbn. destruct (mounted_on s p); intros [= <- _]; [done|]. by vm_compute.
Qed.
Next Obligation.
  intros p s out s'. unfold step_of. cbn. destruct (mounted_on s p) as [|d l] eqn:E; [done|].
  intros [= _ <-] q _. rewrite mounted_on_insert. destruct (q =? p)%string eqn:Eq; [|done].
  apply String.eqb_eq in Eq as ->. by rewrite E.
Qed.
Next Obligation.
  intros p s r s' _. unfold step_of. cbn. destruct (mounted_on s p) as [|d l] eqn:E; intros [= <- <-].
  - by rewrite E.
  - by rewrite mounted_on_insert, String.eqb_refl.
Qed.
Next Obligation. intros p s s' _ [= H _]. by apply bool_decide_eq_true in H. Qed.
Next Obligation. by intros p b s r s' _ [= _ <-]. Qed.
Next Obligation.
  intros c s r s' q _. unfold step_of. destruct c; cbn -[run_mount_command]; try by intros [= _ <-].
  - destruct (mounted_on s target); intros [= _ <-]; [done|]. intros Hq.
    by rewrite mounted_on_insert, (proj2 (String.eqb_neq _ _) Hq).
  - intros H ->. revert H. unfold run_mount_command. repeat case_match; by intros [= _ <-].
Qed.

Definition cycle_cap : VolumeCapability := sample_cap MULTI_NODE_MULTI_WRITER.
Definition cycle_stage := mkNodeStageRequest "nfs1" "/staging" (Some cycle_cap).
Definition cycle_publish := mkNodePublishRequest "nfs1" "/staging" "/pod1" (Some cycle_cap).
Definition cycle_unpublish := mkNodeUnpublishRequest "nfs1" "/pod1".
Definition cycle_unstage := mkNodeUnstageRequest "nfs1" "/staging".
Definition cycle_ns : NodeServer := mkNodeServer "guest" "node1" [] "".

(** The states of the node after the stage, the publish and the unpublish *)
Definition cycle_staged : Table := (exec table_serve (NodeStageVolume cycle_ns cycle_stage) ∅).1.2.
Definition cycle_published : Table :=
  (exec table_serve (NodePublishVolume cycle_ns cycle_publish) cycle_staged).1.2.
Definition cycle_unpublished : Table :=
  (exec table_serve (NodeUnpublishVolume 2 cycle_unpublish) cycle_published).1.2.

Lemma node_rwx_cycle_witness :
  (exec table_serve (NodeStageVolume cycle_ns cycle_stage) ∅).1.1 = Returned (Ok tt)
  /\ (exec table_serve (NodePublishVolume cycle_ns cycle_publish) cycle_staged).1.1 = Returned (Ok tt)
  /\ (exec table_serve (NodeUnpublishVolume 2 cycle_unpublish) cycle_published).1.1 = Returned (Some (Ok tt))
  /\ (exec table_serve (NodeUnstageVolume cycle_ns cycle_unstage) cycle_unpublished).1.1 = Returned (Ok tt)
  /\ mounted_on cycle_published "/pod1" = ["10.0.0.1:/pv-nfs1"]
  /\ forall p, mounted_on (exec table_serve (NodeUnstageVolume cycle_ns cycle_unstage) cycle_unpublished).1.2 p
       = mounted_on ∅ p.
Proof.
  assert (H1 : (exec table_serve (NodeStageVolume cycle_ns cycle_stage) ∅).1.1 = Returned (Ok tt))
    by (by vm_compute).
  assert (H2 : (exec table_serve (NodePublishVolume cycle_ns cycle_publish) cycle_staged).1.1
               = Returned (Ok tt)) by (by vm_compute).
  assert (H3 : (exec table_serve (NodeUnpublishVolume 2 cycle_unpublish) cycle_published).1.1
               = Returned (Some (Ok tt))) by (by vm_compute).
  assert (H4 : (exec table_serve (NodeUnstageVolume cycle_ns cycle_unstage) cycle_unpublished).1.1
               = Returned (Ok tt)) by (by vm_compute).
  split; [exact H1|]. split; [exact H2|]. split; [exact H3|]. split; [exact H4|].
  split; [by vm_compute|].
  pose proof (node_rwx_cycle (own := fun _ => True) (step := step_of table_serve) cycle_ns 2
           cycle_stage cycle_publish cycle_unpublish cycle_unstage cycle_cap ∅
           eq_refl eq_refl eq_refl eq_refl eq_refl eq_refl ltac:(done) I I eq_refl) as H.
  apply exec_tpost in H. destruct (H H1) as (pvc & n & _ & _ & Hp). clear H. cbn [fst] in Hp.
  apply exec_spost in Hp. destruct (Hp H2) as [_ Hu]. clear Hp.
  apply exec_spost in Hu. destruct (Hu H3) as [_ Hs]. clear Hu.
  apply exec_spost in Hs. intros p. exact (Hs H4 p I).
Defined.
