(* ===== verification/Concurrent.v ===== *)
(** * Handlers that run at the same time

    The gRPC server runs every request in a goroutine of its own, the node
    controller runs beside it, and other clients of the host cluster change
    the virtual machines too.  This file models that: a configuration is a
    pool of running handlers over one server, and a step is one call of one
    handler, a change made by another client, or the arrival of a request.

    The handlers that patch a machine compute the patch from a version they
    read earlier.  A rely-guarantee predicate [safe] says of a program that
    each patch it sends is one of three abstract actions on a version it has
    read; with the law of resource versions each patch that is accepted then
    is that action on the version stored at that moment. *)

From S2P Require Import Prelude Go Prog Kube Csi Api Store CsiUtil Controller Volumes VolumesSpec Attach AttachSpec NodeController NodeControllerThm Snapshots.

(** ** Abstract actions on a machine *)

Inductive action := Plug (vol : string) | Unplug (vol : string) | UnplugAll.

Definition act (a : action) : VMTemplateSpec -> VMTemplateSpec :=
  match a with
  | Plug vol => plug vol
  | Unplug vol => unplug vol
  | UnplugAll => unplugAll
  end.

(** The patch the driver sends for an action on a machine it has read *)
Definition ops_of (a : action) (rv : string) (t : VMTemplateSpec) : list patchOp :=
  match a with
  | Plug vol => addOps rv vol (hasVolume vol t) (hasDisk vol t)
  | Unplug vol => removeOps rv vol t
  | UnplugAll => removeAllOps rv (hotplugNames (Volumes t)) t
  end.

Lemma apply_ops_of a rv vm vm' t :
  vm_Template vm = Some t -> apply_patch (ops_of a rv t) vm = Some vm' ->
  ResourceVersion (meta vm) = rv /\ vm' = set_Template (act a t) vm.
Proof.
  destruct a; cbn [ops_of act]; [apply apply_addOps|apply apply_removeOps|apply apply_replaceOps].
Qed.

(** The patch starts with the test of the version. *)
Lemma apply_ops_of_version a rv t vm vm' :
  apply_patch (ops_of a rv t) vm = Some vm' -> ResourceVersion (meta vm) = rv.
Proof.
  destruct a; cbn [ops_of]; unfold addOps, removeOps, removeAllOps; cbn [app];
    by intros [? _]%apply_test.
Qed.

(** ** Rely and guarantee

    A history holds every version of every machine that was ever stored, and
    only grows. *)
Abbreviation history_t := (list (key * VirtualMachine)).

Section Safe.

Context (may : string -> string -> action -> Prop).

(** What a program guarantees of a call *)
Definition offered (c : call) (h : history_t) : Prop :=
  match c with
  | VmPatch ns n ops => exists vm t a, In ((ns, n), vm) h /\ vm_Template vm = Some t
      /\ ops = ops_of a (ResourceVersion (meta vm)) t /\ may ns n a
  | _ => True
  end.

(** What it relies on: a machine that was read was stored, under its name *)
Definition answered (c : call) : reply c -> history_t -> Prop :=
  match c return reply c -> history_t -> Prop with
  | VmGet ns n => fun r h =>
      match r with Ok vm => In ((ns, n), vm) h /\ name_of vm = n | Err _ => True end
  | _ => fun _ _ => True
  end.

Fixpoint safe {A} (p : P A) (h : history_t) (Q : A -> history_t -> Prop) : Prop :=
  match p with
  | Ret a => Q a h
  | Panic _ => True
  | Call c k => offered c h /\ forall r h', incl h h' -> answered c r h' -> safe (k r) h' Q
  end.

Lemma safe_mono {A} (p : P A) h (Q Q' : A -> history_t -> Prop) :
  safe p h Q -> (forall a h', incl h h' -> Q a h' -> Q' a h') -> safe p h Q'.
Proof.
  revert h. induction p as [a|w|c k IH]; cbn [safe]; intros h Hp HQ.
  - apply HQ; [apply incl_refl|done].
  - done.
  - destruct Hp as [Ho Hk]. split; [done|]. intros r h' Hi Ha. eapply IH; [by apply Hk|].
    intros a h'' Hi'. apply HQ. by eapply incl_tran.
Qed.

Lemma safe_bind {A B} (p : P A) (f : A -> P B) h Q :
  safe p h (fun a h' => safe (f a) h' Q) -> safe (bind p f) h Q.
Proof.
  revert h. induction p as [a|w|c k IH]; cbn [safe bind]; intros h Hp; [done|done|].
  destruct Hp as [Ho Hk]. split; [done|]. intros r h' Hi Ha. by apply IH, Hk.
Qed.

(** A program stays safe when the history has grown. *)
Lemma safe_grows {A} (p : P A) h h' Q :
  (forall a h1 h2, incl h1 h2 -> Q a h1 -> Q a h2) ->
  incl h h' -> safe p h Q -> safe p h' Q.
Proof.
  intros HQ Hi. destruct p as [a|w|c k]; cbn [safe]; [by apply HQ|done|].
  intros [Ho Hk]. split.
  - destruct c; try done. destruct Ho as (vm & t & a & Hin & H). exists vm, t, a. auto.
  - intros r h2 Hi2. apply Hk. by eapply incl_tran.
Qed.

(** ** Programs that do not patch machines *)

Definition no_patch {A} (p : P A) : Prop :=
  only_calls (fun c => match c with VmPatch _ _ _ => False | _ => True end) p.

Lemma safe_no_patch {A} (p : P A) h Q :
  no_patch p -> (forall a h', incl h h' -> Q a h') -> safe p h Q.
Proof.
  revert h. induction p as [a|w|c k IH]; cbn [safe]; intros h Hp HQ.
  - apply HQ, incl_refl.
  - done.
  - destruct Hp as [Hc Hk]. split; [by destruct c|]. intros r h' Hi _. apply IH; [apply Hk|].
    intros a h'' Hi'. apply HQ. by eapply incl_tran.
Qed.

End Safe.

Lemma no_patch_bind {A B} (p : P A) (f : A -> P B) :
  no_patch p -> (forall a, no_patch (f a)) -> no_patch (bind p f).
Proof. apply only_calls_bind. Qed.

(** Programs that only read do not patch. *)
Lemma no_patch_read_only {A} (p : P A) : read_only p -> no_patch p.
Proof. intros H. eapply only_calls_mono; [exact H|]. by intros []. Qed.

Lemma no_patch_deref {A} (o : option A) : no_patch (deref o).
Proof. by destruct o. Qed.

#[export] Hint Resolve no_patch_bind no_patch_deref : csi.

(** Prove that a program sends no patch, by symbolic execution. *)
Ltac solve_no_patch :=
  repeat first
    [ progress intros
    | done
    | solve [auto with csi nocore]
    | apply no_patch_bind
    | case_goal
    | match goal with |- no_patch (Call _ _) => split; [done|] end
    | match goal with |- no_patch (send _) => split; [done|] end
    | progress (unfold no_patch; simpl only_calls) ].

(** ** Requests and their handlers *)

(** Where a request may change a machine, and how *)
Inductive request :=
| Publish (cs : ControllerServer) (req : ControllerPublishVolumeRequest)
| Unpublish (cs : ControllerServer) (req : ControllerUnpublishVolumeRequest)
| NodeChange (c : Controller) (node : option Node)
| Create (cs : ControllerServer) (req : CreateVolumeRequest)
| Delete (cs : ControllerServer) (volumeId : string)
| Expand (cs : ControllerServer) (req : ControllerExpandVolumeRequest)
| TakeSnapshot (cs : ControllerServer) (req : CreateSnapshotRequest)
| DropSnapshot (cs : ControllerServer) (snapshotId : string).

(** The program that serves a request; its answer is not looked at here. *)
Definition handler (rq : request) : P unit :=
  match rq with
  | Publish cs req => bind (ControllerPublishVolume cs req) (fun _ => Ret tt)
  | Unpublish cs req => bind (ControllerUnpublishVolume cs req) (fun _ => Ret tt)
  | NodeChange c node => bind (OnNodesChange c node) (fun _ => Ret tt)
  | Create cs req => bind (CreateVolume cs req) (fun _ => Ret tt)
  | Delete cs id => bind (DeleteVolume cs id) (fun _ => Ret tt)
  | Expand cs req => bind (ControllerExpandVolume cs req) (fun _ => Ret tt)
  | TakeSnapshot cs req => bind (CreateSnapshot cs req) (fun _ => Ret tt)
  | DropSnapshot cs id => bind (DeleteSnapshot cs id) (fun _ => Ret tt)
  end.

Definition allowed_action (rq : request) (ns n : string) (a : action) : Prop :=
  match rq with
  | Publish cs req => ns = namespace cs /\ n = cp_NodeId req /\ a = Plug (cp_VolumeId req)
  | Unpublish cs req => ns = namespace cs /\ n = cu_NodeId req /\ a = Unplug (cu_VolumeId req)
  | NodeChange c (Some node) => ns = ctl_namespace c /\ n = name_of node /\ a = UnplugAll
  | _ => False
  end.

(** ** The pool of running handlers *)

Section Pool.

Context {S : Type} (step : forall c, S -> reply c -> S -> Prop) (env : S -> S -> Prop).

(** A running handler: the request it serves and what is left of it *)
Record config := mkConfig { threads : list (request * P unit); server : S }.

(** One step, labelled with the thread and the event when it is a call *)
Inductive cstep : config -> option (nat * event reply) -> config -> Prop :=
| cstep_call ts s i rq c k r s' :
    ts !! i = Some (rq, Call c k) -> step c s r s' ->
    cstep (mkConfig ts s) (Some (i, ev c r)) (mkConfig (<[i := (rq, k r)]> ts) s')
| cstep_env ts s s' :
    env s s' -> cstep (mkConfig ts s) None (mkConfig ts s')
| cstep_arrive ts s rq :
    cstep (mkConfig ts s) None (mkConfig (ts ++ [(rq, handler rq)]) s).

(** The configurations that the driver reaches from an idle start *)
Inductive reachable (s0 : S) : config -> Prop :=
| reachable_idle : reachable s0 (mkConfig [] s0)
| reachable_step cf l cf' : reachable s0 cf -> cstep cf l cf' -> reachable s0 cf'.

End Pool.

Arguments mkConfig {S} threads server.
Arguments threads {S} c.
Arguments server {S} c.

(** ** What the API server promises for machines under concurrency

    Every version of a machine that was ever stored has a resource version
    of its own; an object is stored under its name; a patch is applied as a
    whole to the machine stored when it is processed.  [sane] describes the
    states of the server, [env] the changes other clients make. *)
Class HistoryLaws (S : Type) (step : forall c, S -> reply c -> S -> Prop)
    (env : S -> S -> Prop) := {
  machines : S -> gmap key VirtualMachine;
  history : S -> history_t;
  sane : S -> Prop;
  sane_step : forall c s r s', step c s r s' -> sane s -> sane s';
  sane_env : forall s s', env s s' -> sane s -> sane s';
  history_step : forall c s r s', step c s r s' -> sane s -> incl (history s) (history s');
  history_env : forall s s', env s s' -> sane s -> incl (history s) (history s');
  history_stored : forall s k vm, sane s -> machines s !! k = Some vm -> In (k, vm) (history s);
  history_version : forall s k a b, sane s -> In (k, a) (history s) -> In (k, b) (history s) ->
    ResourceVersion (meta a) = ResourceVersion (meta b) -> a = b;
  history_name : forall s k vm, sane s -> In (k, vm) (history s) -> name_of vm = k.2;
  machine_get : forall ns n s vm s', step (VmGet ns n) s (Ok vm) s' -> sane s ->
    machines s !! (ns, n) = Some vm;
  machine_patch : forall ns n ops s vm' s', step (VmPatch ns n ops) s (Ok vm') s' -> sane s ->
    exists vm vm1, machines s !! (ns, n) = Some vm /\ apply_patch ops vm = Some vm1
      /\ same_spec vm' vm1 /\ machines s' = <[(ns, n) := vm']> (machines s);
}.
