(* ===== verification/ConcurrentThm.v ===== *)
(** * Properties of concurrent handlers *)

From S2P Require Import Prelude Go Prog Kube Csi Api Store CsiUtil Controller Volumes VolumesSpec Attach AttachSpec NodeController NodeControllerThm Snapshots Samples Concurrent.

(** ** The parts of the handlers that send no patch *)

Lemma loopCondition_np condition rounds : no_patch condition -> no_patch (loopCondition condition rounds).
Proof. intros Hc. induction rounds as [|n IH]; cbn [loopCondition]; solve_no_patch. Qed.

Lemma Poll_np i t imm condition :
  no_patch condition -> no_patch (PollUntilContextTimeout i t imm condition).
Proof.
  intros Hc. unfold PollUntilContextTimeout. apply no_patch_bind; [by destruct imm|].
  intros [ok|e]; [|done]. destruct ok; [done|]. split; [done|]. intros r.
  by apply loopCondition_np.
Qed.

Lemma isVolAttached_np cs node vol : no_patch (isVolAttached cs node vol).
Proof. unfold isVolAttached, checkVolumeExistsInVM, checkVolumeExistsInVMI. solve_no_patch. Qed.

Lemma checkHostVA_loop_np a b vas : no_patch (checkHostVA_loop a b vas).
Proof. induction vas as [|va vas IH]; cbn [checkHostVA_loop]; solve_no_patch. Qed.

Lemma checkGuestVA_loop_np a b vas : no_patch (checkGuestVA_loop a b vas).
Proof. induction vas as [|va vas IH]; cbn [checkGuestVA_loop]; solve_no_patch. Qed.

#[export] Hint Resolve Poll_np loopCondition_np isVolAttached_np checkHostVA_loop_np checkGuestVA_loop_np : csi.

Lemma waitForVASettled_np cs pvc node : no_patch (waitForVASettled cs pvc node).
Proof. unfold waitForVASettled, checkHostVA, checkGuestVA. solve_no_patch. Qed.

Lemma waitForVolumeAttached_np cs node vol : no_patch (waitForVolumeAttached cs node vol).
Proof.
  assert (no_patch (volumeAttachedCheck cs node vol)) by (unfold volumeAttachedCheck; solve_no_patch).
  unfold waitForVolumeAttached. solve_no_patch.
Qed.

Lemma isLHRWXVolume_np pvc : no_patch (isLHRWXVolume pvc).
Proof. apply no_patch_read_only, isLHRWXVolume_ro. Qed.

Lemma publishRWXVolume_np pvc : no_patch (publishRWXVolume pvc).
Proof. unfold publishRWXVolume, enableNetworkFilesystem, createNetworkFilesystem. solve_no_patch. Qed.

Lemma unpublishRWXVolume_np pvc : no_patch (unpublishRWXVolume pvc).
Proof. unfold unpublishRWXVolume. solve_no_patch. Qed.

#[export] Hint Resolve waitForVASettled_np waitForVolumeAttached_np isLHRWXVolume_np
  publishRWXVolume_np unpublishRWXVolume_np : csi.

(** ** The handlers are safe *)

Lemma addVolumeToVM_safe may cs node vol h :
  may (namespace cs) node (Plug vol) ->
  safe may (addVolumeToVM cs node vol) h (fun _ _ => True).
Proof.
  intros Hm. unfold addVolumeToVM. cbn -[addOps]. split; [done|].
  intros [vm|e] h' _ Ha; [|done]. destruct Ha as [Hin _].
  destruct (vm_Template vm) as [t|] eqn:Et; cbn -[addOps]; [|done].
  case_match; [done|]. cbn -[addOps]. split; [by exists vm, t, (Plug vol)|].
  by intros [x|e] h2 _ _.
Qed.

Lemma removeVolumeFromVM_safe may cs node vol h :
  may (namespace cs) node (Unplug vol) ->
  safe may (removeVolumeFromVM cs node vol) h (fun _ _ => True).
Proof.
  intros Hm. unfold removeVolumeFromVM. cbn -[removeOps]. split; [done|].
  intros [vm|e] h' _ Ha; [|done]. destruct Ha as [Hin _].
  destruct (vm_Template vm) as [t|] eqn:Et; cbn -[removeOps]; [|done].
  split; [by exists vm, t, (Unplug vol)|]. by intros [x|e] h2 _ _.
Qed.

Lemma removeBySubresource_loop_np c vm names : no_patch (removeBySubresource_loop c vm names).
Proof. induction names as [|n ns IH]; cbn [removeBySubresource_loop]; solve_no_patch. Qed.

Lemma removeAllHotplugVolumes_safe may c vm h :
  may (ctl_namespace c) (name_of vm) UnplugAll ->
  safe may (removeAllHotplugVolumes c vm) h (fun _ _ => True).
Proof.
  intros Hm. unfold removeAllHotplugVolumes. cbn -[removeAllOps]. split; [done|].
  intros [latest|e] h' _ Ha; [|done]. destruct Ha as [Hin Hn].
  destruct (vm_Template latest) as [t|] eqn:Et; cbn -[removeAllOps]; [|done].
  case_match; [done|]. case_match.
  - unfold removeAllHotplugVolumesByPatch. rewrite Et. cbn -[removeAllOps].
    split; [|by intros [x|e] h2 _ _]. rewrite Hn. by exists latest, t, UnplugAll.
  - apply safe_no_patch; [|done]. unfold removeAllHotplugVolumesBySubresource. split; [done|].
    intros r. apply removeBySubresource_loop_np.
Qed.

Ltac np_call := match goal with |- safe _ (bind ?p _) _ _ =>
  apply safe_bind, safe_no_patch; [solve [auto with csi nocore]|intros ? ? ?] end.

Lemma publishBlockVolume_safe may cs pvc node vol h :
  may (namespace cs) node (Plug vol) ->
  safe may (publishBlockVolume cs pvc node vol) h (fun _ _ => True).
Proof.
  intros Hm. unfold publishBlockVolume. np_call. destruct a as [u|e]; [|done]. np_call.
  destruct a as [[]|e]; [done| |done]. apply safe_bind. eapply safe_mono.
  - unfold hotplugVolumeToVM. destruct (useDeclarativeHotplug cs); [by apply addVolumeToVM_safe|].
    by apply safe_no_patch.
  - cbn beta. intros [x|e] h2 _ _; [|done]. apply safe_no_patch; [auto with csi|done].
Qed.

Lemma unplugVolumeFromVM_safe may cs node vol a b h :
  may (namespace cs) node (Unplug vol) ->
  safe may (unplugVolumeFromVM cs node vol a b) h (fun _ _ => True).
Proof.
  intros Hm. unfold unplugVolumeFromVM. destruct (useDeclarativeHotplug cs).
  - apply safe_bind. eapply safe_mono; [by apply removeVolumeFromVM_safe|].
    by intros [x|e] h' _ _.
  - apply safe_no_patch; [|done]. unfold unplugVolumeFromVMLegacy. solve_no_patch.
Qed.

Lemma checkVolumeExists_np cs node vol :
  no_patch (checkVolumeExistsInVM cs node vol) /\ no_patch (checkVolumeExistsInVMI cs node vol).
Proof. unfold checkVolumeExistsInVM, checkVolumeExistsInVMI. split; solve_no_patch. Qed.

Lemma removeVolumeFromHostVM_safe may cs node vol h :
  may (namespace cs) node (Unplug vol) ->
  safe may (removeVolumeFromHostVM cs node vol) h (fun _ _ => True).
Proof.
  intros Hm. unfold removeVolumeFromHostVM. destruct (checkVolumeExists_np cs node vol).
  np_call. destruct a as [inVMI|e]; [|done]. np_call. destruct a as [inVM|e]; [|done].
  case_match; [done|]. apply safe_bind. eapply safe_mono; [by apply unplugVolumeFromVM_safe|].
  by intros [x|e] h2 _ _.
Qed.

Lemma OnNodesChange_safe may c node h :
  may (ctl_namespace c) (name_of node) UnplugAll ->
  safe may (OnNodesChange c (Some node)) h (fun _ _ => True).
Proof.
  intros Hm. unfold OnNodesChange. destruct (DeletionTimestamp (meta node)); [done|].
  unfold getNodeAndVMHealth. destruct (getNodeCondition _ _) as [cond|]; [|done].
  cbn -[handleNodeAndVMHealth]. split; [done|].
  intros [vm|e] h' _ Ha; [|done]. destruct Ha as [_ Hn].
  cbn -[handleNodeAndVMHealth]. destruct (getVMCondition _ _) as [vc|]; cbn -[handleNodeAndVMHealth]; [|done].
  unfold handleNodeAndVMHealth. case_match; [done|].
  case_match; [apply safe_no_patch; [unfold removeTaint, updateNode; solve_no_patch|done]|].
  case_match; [apply safe_no_patch; [unfold addTaint, updateNode; solve_no_patch|done]|].
  case_match; [|done]. apply safe_bind. eapply safe_mono.
  - apply removeAllHotplugVolumes_safe. by rewrite Hn.
  - by intros [x|e] h2 _ _.
Qed.

(** The other handlers send no patch at all. *)

Lemma validateCreateVolReq_np cs req : no_patch (validateCreateVolReq cs req).
Proof. apply no_patch_read_only, validateCreateVolReq_ro. Qed.

Lemma buildHostPVC_np cs req vp size : no_patch (buildHostPVC cs req vp size).
Proof. apply no_patch_read_only, buildHostPVC_ro. Qed.

Lemma waitForLHVolumeName_rounds_np cs n k : no_patch (waitForLHVolumeName_rounds cs n k).
Proof. induction k as [|k IH]; cbn [waitForLHVolumeName_rounds]; solve_no_patch. Qed.

Lemma waitForPVCState_rounds_np cs n pred k : no_patch (waitForPVCState_rounds cs n pred k).
Proof. induction k as [|k IH]; cbn [waitForPVCState_rounds]; solve_no_patch. Qed.

#[export] Hint Resolve validateCreateVolReq_np buildHostPVC_np waitForLHVolumeName_rounds_np
  waitForPVCState_rounds_np : csi.

Lemma CreateVolume_np cs req : no_patch (CreateVolume cs req).
Proof.
  unfold CreateVolume, prepareRWXVolume, createNetworkFilesystem, createHostPVC, waitForLHVolumeName,
    buildHostVolumeRemoteRestore, buildHostVolumeRemoteRestoreFromBackup, getOrCreateVolumeRemoteRestore,
    checkVolumeRemoteRestoreReadiness, generateHostVolumeRemoteRestore.
  solve_no_patch.
Qed.

Lemma DeleteVolume_np cs id : no_patch (DeleteVolume cs id).
Proof. unfold DeleteVolume, deleteVolumeRemoteRestoreIfExists, deleteNetworkFilesystem. solve_no_patch. Qed.

Lemma ControllerExpandVolume_np cs req : no_patch (ControllerExpandVolume cs req).
Proof.
  assert (forall id, no_patch (isVolumeInUse cs id)) by (unfold isVolumeInUse; solve_no_patch).
  unfold ControllerExpandVolume, validateOnlineExpansion, storeRequest, waitForPVCState.
  solve_no_patch.
Qed.

Lemma prepareSnapshotResponse_np cs name vol : no_patch (prepareSnapshotResponse cs name vol).
Proof. unfold prepareSnapshotResponse, checkSnapsReadiness, convertVolumeSnapshotToCSI. solve_no_patch. Qed.

Lemma prepareBackupSnapResponse_np cs name vol : no_patch (prepareBackupSnapResponse cs name vol).
Proof. unfold prepareBackupSnapResponse, checkVolumeRemoteBackupReadiness. solve_no_patch. Qed.

#[export] Hint Resolve prepareSnapshotResponse_np prepareBackupSnapResponse_np : csi.

Lemma CreateSnapshot_np cs req : no_patch (CreateSnapshot cs req).
Proof.
  unfold CreateSnapshot, handleBackupSnap, handleLocalSnap, handleExistingBackupSnap,
    handleExistingLocalSnap, createHostVolumeRemoteBackupFromReq, generateHostVolumeRemoteBackup,
    createSnapFromVolume, generateHostSnap, getHostSnapClass, unmarshalFailed.
  solve_no_patch.
Qed.

Lemma DeleteSnapshot_np cs id : no_patch (DeleteSnapshot cs id).
Proof. unfold DeleteSnapshot, handleBackupSnapDeletion, handleLocalSnapDeletion. solve_no_patch. Qed.

Lemma handler_safe rq h : safe (allowed_action rq) (handler rq) h (fun _ _ => True).
Proof.
  destruct rq as [cs req|cs req|c node|cs req|cs id|cs req|cs req|cs id]; cbn [handler];
    apply safe_bind; cbn [safe].
  - unfold ControllerPublishVolume. case_match; [done|]. case_match; [|done].
    split; [done|]. intros [pvc|e] h' _ _; cbn [bind]; [|done]. case_match; [done|].
    case_match; [|by apply publishBlockVolume_safe].
    np_call. case_match; [|done]. apply safe_no_patch; [auto with csi|done].
  - unfold ControllerUnpublishVolume. case_match; [done|].
    split; [done|]. intros [pvc|e] h' _ _; cbn [bind]; [|done]. case_match; [done|].
    np_call. case_match; [apply safe_no_patch; [auto with csi|done]|].
    apply safe_bind. eapply safe_mono; [by apply removeVolumeFromHostVM_safe|].
    by intros [[]|e] h2 _ _.
  - destruct node as [node|]; [|done]. by apply OnNodesChange_safe.
  - by apply safe_no_patch; [apply CreateVolume_np|].
  - by apply safe_no_patch; [apply DeleteVolume_np|].
  - by apply safe_no_patch; [apply ControllerExpandVolume_np|].
  - by apply safe_no_patch; [apply CreateSnapshot_np|].
  - by apply safe_no_patch; [apply DeleteSnapshot_np|].
Qed.

(** ** Invariant of the pool *)

(** The patch in an event, with the machine that was the answer *)
Definition accepted (e : event reply) : option (string * string * list patchOp * VirtualMachine) :=
  match e with
  | existT c r =>
      match c return reply c -> option (string * string * list patchOp * VirtualMachine) with
      | VmPatch ns n ops => fun r => match r with Ok vm => Some (ns, n, ops, vm) | Err _ => None end
      | _ => fun _ => None
      end r
  end.

Section Concurrency.

Context {S : Type} {step : forall c, S -> reply c -> S -> Prop} {env : S -> S -> Prop}.
Context `{!HistoryLaws S step env}.

(** What is left of every handler is safe for the history so far. *)
Definition pool_ok (cf : config) : Prop :=
  sane (server cf)
  /\ Forall (fun th => safe (allowed_action th.1) th.2 (history (server cf)) (fun _ _ => True))
       (threads cf).

Lemma pool_grows s s' (ts : list (request * P unit)) :
  incl (history s) (history s') ->
  Forall (fun th => safe (allowed_action th.1) th.2 (history s) (fun _ _ => True)) ts ->
  Forall (fun th => safe (allowed_action th.1) th.2 (history s') (fun _ _ => True)) ts.
Proof. intros Hi HF. eapply Forall_impl; [exact HF|]. intros th. by apply safe_grows. Qed.

(** The replies of the server keep what the handlers rely on. *)
Lemma step_answered c s r s' : step c s r s' -> sane s -> answered c r (history s').
Proof.
  destruct c; try done. intros Hs Hok. cbn in r. destruct r as [vm|e]; [|done].
  pose proof (machine_get _ _ _ _ _ Hs Hok) as Hm. apply (history_stored _ _ _ Hok) in Hm.
  split; [by apply (history_step _ _ _ _ Hs Hok)|]. by apply (history_name _ _ _ Hok) in Hm.
Qed.

Lemma pool_ok_step cf l cf' : cstep step env cf l cf' -> pool_ok cf -> pool_ok cf'.
Proof.
  intros Hst. destruct Hst as [ts s i rq c k r s' Hi Hs|ts s s' He|ts s rq]; intros [Hok Hts];
    cbn [server threads] in *.
  - pose proof (history_step _ _ _ _ Hs Hok) as Hincl.
    split; cbn [server threads]; [by eapply sane_step|]. apply Forall_insert; [by eapply pool_grows|].
    rewrite Forall_lookup in Hts. destruct (Hts _ _ Hi) as [_ Hk]. cbn.
    apply Hk; [done|]. by eapply step_answered.
  - split; cbn [server threads]; [by eapply sane_env|]. eapply pool_grows; [by eapply history_env|done].
  - split; cbn [server threads]; [done|]. apply Forall_app. split; [done|].
    constructor; [apply handler_safe|done].
Qed.

Lemma reachable_ok s0 cf : sane s0 -> reachable step env s0 cf -> pool_ok cf.
Proof.
  intros H0. induction 1 as [|cf l cf' _ IH Hst]; [by split|]. by eapply pool_ok_step.
Qed.

Lemma cstep_event cf i e cf' :
  cstep step env cf (Some (i, e)) cf' ->
  exists rq c k r s', threads cf !! i = Some (rq, Call c k) /\ e = ev c r
    /\ step c (server cf) r s' /\ cf' = mkConfig (<[i := (rq, k r)]> (threads cf)) s'.
Proof. inversion 1; subst. cbn [threads server]. eauto 10. Qed.

(** A patch that the server accepts is an abstract action of the request on
    the machine it is applied to. *)
Lemma accepted_patch cf i e ns n ops vm' cf' :
  pool_ok cf -> cstep step env cf (Some (i, e)) cf' -> accepted e = Some (ns, n, ops, vm') ->
  exists rq p a vm t, threads cf !! i = Some (rq, p) /\ allowed_action rq ns n a
    /\ machines (server cf) !! (ns, n) = Some vm /\ vm_Template vm = Some t
    /\ same_spec vm' (set_Template (act a t) vm)
    /\ machines (server cf') = <[(ns, n) := vm']> (machines (server cf)).
Proof.
  intros [Hok Hts] (rq & c & k & r & s' & Hi & -> & Hs & ->)%cstep_event Hacc.
  destruct c; try done. cbn in r, Hacc. destruct r as [vm2|]; [|done]. injection Hacc as -> -> -> ->.
  rewrite Forall_lookup in Hts. destruct (Hts _ _ Hi) as [(vm0 & t & a & Hin & Ht & -> & Hmay) _].
  apply machine_patch in Hs as (vm & vm1 & Hm & Hap & Hss & Hs'); [|done].
  pose proof (apply_ops_of_version _ _ _ _ _ Hap) as Hv.
  assert (vm = vm0) as ->.
  { eapply history_version; [exact Hok|by eapply history_stored|exact Hin|done]. }
  apply (apply_ops_of _ _ _ _ _ Ht) in Hap as [_ ->].
  exists rq, (Call _ k), a, vm0, t. by split_and!.
Qed.

(** C1: hot plugging is linearizable.  Whatever requests arrive, however
    their handlers and the changes of other clients interleave, each patch
    that the server accepts from a handler changes the stored machine by one
    abstract action of its own request: a publish plugs its volume into the
    machine of its node, an unpublish unplugs it, the node controller unplugs
    all hot-plugged volumes of the machine of its node; the action is applied
    to the machine as it is stored at that moment, so the effects of all
    other handlers and clients that came before are kept. *)
Theorem hotplug_linearizable s0 cf i e ns n ops vm' cf' :
  sane s0 -> reachable step env s0 cf ->
  cstep step env cf (Some (i, e)) cf' -> accepted e = Some (ns, n, ops, vm') ->
  exists rq p a vm t, threads cf !! i = Some (rq, p) /\ allowed_action rq ns n a
    /\ machines (server cf) !! (ns, n) = Some vm /\ vm_Template vm = Some t
    /\ same_spec vm' (set_Template (act a t) vm)
    /\ machines (server cf') = <[(ns, n) := vm']> (machines (server cf)).
Proof. intros H0 Hr. apply accepted_patch. by eapply reachable_ok. Qed.

(** ** Well-formed machines *)

(** No two volumes and no two disks of a machine have the same name. *)
Definition wf_template (t : VMTemplateSpec) : Prop :=
  NoDup (map vol_Name (Volumes t)) /\ NoDup (map disk_Name (Disks t)).

Definition wf_machines (m : gmap key VirtualMachine) : Prop :=
  map_Forall (fun _ vm => forall t, vm_Template vm = Some t -> wf_template t) m.

Lemma NoDup_map_filter {A B} (f : A -> B) (g : A -> bool) l :
  NoDup (map f l) -> NoDup (map f (List.filter g l)).
Proof.
  induction l as [|x l IH]; cbn; [done|]. intros [Hx Hl]%NoDup_cons.
  destruct (g x); [|by apply IH]. cbn. apply NoDup_cons. split; [|by apply IH].
  intros (y & Heq & Hy)%list_elem_of_fmap. apply Hx, list_elem_of_fmap. exists y. split; [done|].
  apply list_elem_of_In in Hy. apply filter_In in Hy as [Hy _]. by apply list_elem_of_In.
Qed.

Lemma NoDup_snoc_name {A} (f : A -> string) l x :
  NoDup (map f l) -> existsb (fun y => (f y =? f x)%string) l = false -> NoDup (map f (l ++ [x])).
Proof.
  intros Hl Hx. rewrite map_app. apply NoDup_app. split_and!; [done| |apply NoDup_singleton].
  intros y (z & -> & Hz)%list_elem_of_fmap Hin%list_elem_of_singleton.
  rewrite existsb_false_forall in Hx. specialize (Hx z (proj1 (list_elem_of_In _ _) Hz)).
  apply String.eqb_neq in Hx. cbn in Hin. congruence.
Qed.

Lemma act_wf a t : wf_template t -> wf_template (act a t).
Proof.
  intros [Hv Hd]. destruct a; cbn [act]; split; cbn; try by apply NoDup_map_filter.
  - destruct (hasVolume vol t) eqn:E; [done|]. by apply NoDup_snoc_name.
  - destruct (hasDisk vol t) eqn:E; [done|]. by apply NoDup_snoc_name.
Qed.

Lemma wf_machines_insert m k vm :
  wf_machines m -> (forall t, vm_Template vm = Some t -> wf_template t) ->
  wf_machines (<[k := vm]> m).
Proof. intros Hm Hvm. by apply map_Forall_insert_2. Qed.

(** C5: the machines stay well formed.  When no other client and no call
    other than a patch of the driver stores a machine with two volumes or
    two disks of one name, no machine ever has them, whatever requests are
    served at the same time: a volume that is published twice, by two
    handlers that both read the machine before either patched it, is plugged
    in once. *)
Theorem machines_wellformed s0 cf :
  (forall s s', env s s' -> wf_machines (machines s) -> wf_machines (machines s')) ->
  (forall c s r s', step c s r s' -> accepted (ev c r) = None ->
     wf_machines (machines s) -> wf_machines (machines s')) ->
  sane s0 -> wf_machines (machines s0) -> reachable step env s0 cf ->
  wf_machines (machines (server cf)).
Proof.
  intros Henv Hcall H0 Hwf Hr. induction Hr as [|cf l cf' Hr IH Hst]; [done|].
  destruct l as [[i e]|]; [|inversion Hst; subst; cbn in *; eauto].
  destruct (accepted e) as [[[[ns n] ops] vm']|] eqn:Eacc.
  - destruct (accepted_patch _ _ _ _ _ _ _ _ (reachable_ok _ _ H0 Hr) Hst Eacc)
      as (rq & p & a & vm & t & _ & _ & Hm & Ht & [Htm _] & ->).
    apply wf_machines_insert; [done|]. intros t'. rewrite Htm. intros [= <-].
    by apply act_wf, (IH _ _ Hm).
  - apply cstep_event in Hst as (rq & c & k & r & s' & _ & -> & Hs & ->). by eapply Hcall.
Qed.

End Concurrency.

(** ** A server with a history

    The in-memory server, with every version of every machine that it
    stored.  Another client may give any machine another template. *)

Record HistCluster := mkHist { hc : Cluster; hc_history : history_t }.

Definition remember (h : history_t) (c : Cluster) : HistCluster :=
  mkHist c (map_to_list (cl_vms c) ++ h).

Definition hist_serve (c : call) (s : HistCluster) : reply c * HistCluster :=
  let (r, cl) := mem_serve c (hc s) in (r, remember (hc_history s) cl).

Abbreviation hist_step := (step_of hist_serve).

Definition edit (k : key) (t : VMTemplateSpec) (s : HistCluster) : HistCluster :=
  match cl_vms (hc s) !! k with
  | Some vm => remember (hc_history s) (upd_vms <[k := bump (set_Template t vm)]> (hc s))
  | None => s
  end.

Definition hist_env (s s' : HistCluster) : Prop :=
  exists k t, wf_template t /\ s' = edit k t s.

Definition rv_of (vm : VirtualMachine) : string := ResourceVersion (meta vm).

(** The stored version of a machine is the latest one; an earlier version
    has a shorter resource version. *)
Definition sane_history (m : gmap key VirtualMachine) (h : history_t) : Prop :=
  (forall k vm, m !! k = Some vm -> In (k, vm) h)
  /\ (forall k a, In (k, a) h -> name_of a = k.2
        /\ exists vm, m !! k = Some vm /\ (a = vm \/ (String.length (rv_of a) < String.length (rv_of vm))%nat))
  /\ (forall k a b, In (k, a) h -> In (k, b) h -> rv_of a = rv_of b -> a = b).

Lemma In_remember (k : key) (vm : VirtualMachine) (m : gmap key VirtualMachine) (h : history_t) :
  In (k, vm) (map_to_list m ++ h) <-> m !! k = Some vm \/ In (k, vm) h.
Proof. by rewrite in_app_iff, <- list_elem_of_In, elem_of_map_to_list. Qed.

Lemma sane_same m h : sane_history m h -> sane_history m (map_to_list m ++ h).
Proof.
  intros (H1 & H2 & H3). assert (forall k vm, In (k, vm) (map_to_list m ++ h) -> In (k, vm) h)
    as Hin by (intros k vm [Hm|Hh]%In_remember; auto).
  split_and!; [intros; apply In_remember; auto|intros; apply H2; auto|intros; eapply H3; eauto].
Qed.

Lemma sane_start m :
  (forall k vm, m !! k = Some vm -> name_of vm = k.2) -> sane_history m (map_to_list m ++ []).
Proof.
  intros Hn. split_and!.
  - intros k vm Hk. apply In_remember. by left.
  - intros k a [Hk|[]]%In_remember. split; [by apply Hn|]. exists a. auto.
  - intros k a b [Ha|[]]%In_remember [Hb|[]]%In_remember _. congruence.
Qed.

Lemma length_append a b : String.length (a +:+ b) = (String.length a + String.length b)%nat.
Proof. induction a as [|c a IH]; [done|]. exact (f_equal Datatypes.S IH). Qed.

Lemma bump_longer vm vm1 :
  vm_meta vm1 = vm_meta vm -> String.length (rv_of (bump vm1)) = Datatypes.S (String.length (rv_of vm)).
Proof.
  intros E. unfold rv_of.
  change (String.length (ResourceVersion (vm_meta vm1) +:+ "'")
          = Datatypes.S (String.length (ResourceVersion (vm_meta vm)))).
  rewrite E, length_append. apply Nat.add_1_r.
Qed.

Lemma sane_bump m h k vm vm1 :
  sane_history m h -> m !! k = Some vm -> vm_meta vm1 = vm_meta vm ->
  sane_history (<[k := bump vm1]> m) (map_to_list (<[k := bump vm1]> m) ++ h).
Proof.
  intros (H1 & H2 & H3) Hk E. pose proof (bump_longer _ _ E) as Hlen.
  assert (forall k' a, In (k', a) (map_to_list (<[k := bump vm1]> m) ++ h) ->
            k' = k /\ a = bump vm1 \/ In (k', a) h) as Hin.
  { intros k' a [[[<- <-]|[_ Hm]]%lookup_insert_Some|Hh]%In_remember; auto. }
  assert (forall a, In (k, a) h -> (String.length (rv_of a) < String.length (rv_of (bump vm1)))%nat) as Hold.
  { intros a (_ & vm' & Hk' & Ha)%H2. rewrite Hlen. replace vm' with vm in * by congruence.
    destruct Ha as [->|]; lia. }
  split_and!.
  - intros k' vm' Hl. apply In_remember. auto.
  - intros k' a [[-> ->]|Hh]%Hin.
    + split; [|exists (bump vm1); rewrite lookup_insert_eq; auto].
      destruct (H2 _ _ (H1 _ _ Hk)) as [Hn _]. unfold name_of in *. cbn in *. by rewrite E.
    + destruct (H2 _ _ Hh) as (Hn & vm' & Hl & Ha). split; [done|].
      destruct (decide (k' = k)) as [->|Hne];
        [exists (bump vm1); rewrite lookup_insert_eq|exists vm'; rewrite lookup_insert_ne]; auto.
  - intros k' a b [[-> ->]|Ha]%Hin [[Hb ->]|Hb]%Hin Heq; [done| | |by eapply H3].
    + apply Hold in Hb. rewrite Heq in Hb. lia.
    + subst k'. apply Hold in Ha. rewrite Heq in Ha. lia.
Qed.

Lemma apply_op_meta op vm vm' : apply_op op vm = Some vm' -> vm_meta vm' = vm_meta vm.
Proof. unfold apply_op. repeat case_match; intros; by simplify_eq/=. Qed.

Lemma apply_patch_meta ops vm vm' : apply_patch ops vm = Some vm' -> vm_meta vm' = vm_meta vm.
Proof.
  revert vm. induction ops as [|op ops IH]; intros vm; [by intros [= ->]|].
  rewrite apply_patch_cons. destruct (apply_op op vm) as [vm1|] eqn:E; cbn; [|done].
  intros H. by rewrite (IH _ H), (apply_op_meta _ _ _ E).
Qed.

(** What a call of the in-memory server does to the machines *)
Lemma mem_serve_vms c s :
  cl_vms (mem_serve c s).2 = cl_vms s
  \/ exists k vm vm1, cl_vms s !! k = Some vm /\ vm_meta vm1 = vm_meta vm
       /\ cl_vms (mem_serve c s).2 = <[k := bump vm1]> (cl_vms s).
Proof.
  destruct c; cbn; repeat case_match; auto. right.
  eexists _, _, _. split_and!; [eassumption|by eapply apply_patch_meta|done].
Qed.

Lemma mem_serve_vms_None c s :
  accepted (ev c (mem_serve c s).1) = None -> cl_vms (mem_serve c s).2 = cl_vms s.
Proof. destruct c; cbn; repeat case_match; auto; done. Qed.

Lemma hist_step_inv c s r s' :
  hist_step c s r s' ->
  r = (mem_serve c (hc s)).1 /\ s' = remember (hc_history s) (mem_serve c (hc s)).2.
Proof. unfold step_of, hist_serve. destruct (mem_serve c (hc s)). by intros [= <- <-]. Qed.

#[export] Program Instance hist_HistoryLaws : HistoryLaws HistCluster hist_step hist_env := {|
  machines := fun s => cl_vms (hc s);
  history := hc_history;
  sane := fun s => sane_history (cl_vms (hc s)) (hc_history s);
|}.
Next Obligation.
  intros c s r s' [-> ->]%hist_step_inv Hs. cbn.
  destruct (mem_serve_vms c (hc s)) as [->|(k & vm & vm1 & Hk & E & ->)];
    [by apply sane_same|by eapply sane_bump].
Qed.
Next Obligation.
  intros s s' (k & t & _ & ->) Hs. unfold edit. destruct (cl_vms (hc s) !! k) as [vm|] eqn:E; [|done].
  by eapply sane_bump.
Qed.
Next Obligation. intros c s r s' [-> ->]%hist_step_inv _. apply incl_appr, incl_refl. Qed.
Next Obligation.
  intros s s' (k & t & _ & ->) _. unfold edit. case_match; [apply incl_appr|]; apply incl_refl.
Qed.
Next Obligation. intros s k vm (H1 & _). by apply H1. Qed.
Next Obligation. intros s k a b (_ & _ & H3). by apply H3. Qed.
Next Obligation. intros s k vm (_ & H2 & _) Hin. by apply H2. Qed.
Next Obligation.
  intros ns n s vm s' [H _]%hist_step_inv _. cbn in H. unfold lookup_reply in H.
  by destruct (cl_vms (hc s) !! (ns, n)); simplify_eq.
Qed.
Next Obligation.
  intros ns n ops s vm' s' [H ->]%hist_step_inv _. revert H. cbn.
  destruct (cl_vms (hc s) !! (ns, n)) as [vm|] eqn:E; [|done].
  destruct (apply_patch ops vm) as [vm1|] eqn:E1; [|done]. intros [= ->].
  exists vm, vm1. by split_and!.
Qed.

(** ** Schedules

    An executable scheduler over the server with a history *)

Inductive pick := Arrive (rq : request) | Turn (i : nat) | Edit (k : key) (t : VMTemplateSpec).

Definition play1 (cf : config) (x : pick) : config :=
  match x with
  | Arrive rq => mkConfig (threads cf ++ [(rq, handler rq)]) (server cf)
  | Turn i =>
      match threads cf !! i with
      | Some (rq, Call c k) =>
          let (r, s') := hist_serve c (server cf) in mkConfig (<[i := (rq, k r)]> (threads cf)) s'
      | _ => cf
      end
  | Edit k t => mkConfig (threads cf) (edit k t (server cf))
  end.

Definition fair_pick (x : pick) : Prop :=
  match x with Edit _ t => wf_template t | _ => True end.

Lemma play1_reachable s0 cf x :
  fair_pick x -> reachable hist_step hist_env s0 cf -> reachable hist_step hist_env s0 (play1 cf x).
Proof.
  destruct cf as [ts s]. intros Hx Hr. destruct x as [rq|i|k t]; cbn [play1 threads server].
  - eapply reachable_step; [done|apply cstep_arrive].
  - destruct (ts !! i) as [[rq [| |c k]]|] eqn:E; try done.
    destruct (hist_serve c s) as [r s'] eqn:Es. eapply reachable_step; [done|]. by eapply cstep_call.
  - eapply reachable_step; [done|]. apply cstep_env. by exists k, t.
Qed.

Definition play (xs : list pick) (cf : config) : config := foldl play1 cf xs.

Lemma play_reachable s0 xs cf :
  Forall fair_pick xs -> reachable hist_step hist_env s0 cf ->
  reachable hist_step hist_env s0 (play xs cf).
Proof.
  revert cf. induction xs as [|x xs IH]; intros cf Hxs Hr; [done|].
  inversion Hxs; subst. apply IH; [done|]. by apply play1_reachable.
Qed.

(** Two requests to publish the same volume, both of which read the machine
    before either patches it *)
Definition race_start : HistCluster := remember [] sample_cluster.

Definition race_request : request :=
  Publish sample_cs (mkPublishRequest "vol1" "node1" (Some (sample_cap SINGLE_NODE_WRITER))).

(** Another client changes the machine first; then both handlers run up to
    the patch they are about to send. *)
Definition race_schedule : list pick :=
  [Arrive race_request; Arrive race_request;
   Edit ("guest", "node1")
     (mkVMTemplate [mkVMVolume "root" None "containerDisk"; mkVMVolume "data" None "dataVolume"]
        [mkVMDisk "root" (Some "virtio") "disk"; mkVMDisk "data" (Some "virtio") "disk"])]
  ++ repeat (Turn 0) 7 ++ repeat (Turn 1) 7.

Definition race_before : config := play race_schedule (mkConfig [] race_start).

(** The call that a thread makes next, and its answer *)
Definition next_event (cf : config) (i : nat) : option (event reply) :=
  match threads cf !! i with
  | Some (_, Call c _) => Some (ev c (hist_serve c (server cf)).1)
  | _ => None
  end.

Lemma next_event_cstep cf i e :
  next_event cf i = Some e -> cstep hist_step hist_env cf (Some (i, e)) (play1 cf (Turn i)).
Proof.
  destruct cf as [ts s]. unfold next_event. cbn [threads server play1].
  destruct (ts !! i) as [[rq [| |c k]]|] eqn:E; try done. intros [= <-].
  destruct (hist_serve c s) as [r s'] eqn:Es. by eapply cstep_call.
Qed.

Lemma wf_template_dec t :
  bool_decide (NoDup (map vol_Name (Volumes t))) && bool_decide (NoDup (map disk_Name (Disks t))) = true ->
  wf_template t.
Proof. intros [?%bool_decide_eq_true ?%bool_decide_eq_true]%andb_prop. by split. Qed.

Lemma race_before_reachable : reachable hist_step hist_env race_start race_before.
Proof.
  apply play_reachable; [|constructor].
  repeat (apply Forall_cons; split; [first [exact I|by apply wf_template_dec]|]). apply Forall_nil_2.
Qed.

Lemma race_start_sane : @sane _ _ _ hist_HistoryLaws race_start.
Proof.
  change (sane_history (cl_vms sample_cluster) (map_to_list (cl_vms sample_cluster) ++ [])).
  apply sane_start. intros k vm Hk. cbn [sample_cluster cl_vms] in Hk.
  apply lookup_insert_Some in Hk as [[<- <-]|[_ H]]; [done|]. by apply lookup_empty_Some in H.
Qed.

Lemma race_start_wf : wf_machines (cl_vms (hc race_start)).
Proof.
  apply wf_machines_insert; [apply map_Forall_empty|]. intros t [= <-]. by apply wf_template_dec.
Qed.

(** The first handler's next call is a patch that is accepted. *)
Lemma race_target :
  (fun x => (x.1.1.1, x.1.1.2)) <$> (next_event race_before 0 ≫= accepted) = Some ("guest", "node1").
Proof. by vm_compute. Qed.

Lemma hotplug_linearizable_witness :
  exists vm' rq p a vm t, threads race_before !! 0%nat = Some (rq, p)
    /\ allowed_action rq "guest" "node1" a
    /\ machines (server race_before) !! ("guest", "node1") = Some vm /\ vm_Template vm = Some t
    /\ same_spec vm' (set_Template (act a t) vm)
    /\ machines (server (play1 race_before (Turn 0)))
       = <[("guest", "node1") := vm']> (machines (server race_before)).
Proof.
  pose proof race_target as Ht.
  destruct (next_event race_before 0) as [e|] eqn:E; [|discriminate Ht]. cbn in Ht.
  destruct (accepted e) as [[[[ns n] ops] vm']|] eqn:Ea; [|discriminate Ht].
  injection Ht as -> ->. exists vm'.
  exact (hotplug_linearizable (step := hist_step) (env := hist_env) race_start race_before 0 e
           "guest" "node1" ops vm' _ race_start_sane race_before_reachable
           (next_event_cstep _ _ _ E) Ea).
Defined.

Lemma machines_wellformed_witness :
  wf_machines (machines (server (play [Turn 0; Turn 1] race_before)))
  /\ (hasVolume "vol1" <$> (cl_vms (hc (server (play [Turn 0; Turn 1] race_before)))
                             !! ("guest", "node1") ≫= vm_Template)) = Some true.
Proof.
  split; [|by vm_compute].
  apply (machines_wellformed (step := hist_step) (env := hist_env) race_start).
  - intros s s' (k & t & Ht & ->) Hwf. unfold edit. destruct (cl_vms (hc s) !! k) as [vm|]; [|done].
    apply wf_machines_insert; [done|]. by intros t' [= <-].
  - intros c s r s' [-> ->]%hist_step_inv Hacc Hwf. cbn. by rewrite (mem_serve_vms_None _ _ Hacc).
  - apply race_start_sane.
  - apply race_start_wf.
  - apply play_reachable; [by repeat constructor|exact race_before_reachable].
Defined.
