(* ===== verification/Net.v ===== *)
(** * MAC addresses and pkg/sysfsnet/interfaces_linux.go

    The functions of Go's package net the driver uses to read, normalise and
    compare hardware addresses, and the enumeration of the network interfaces
    of the node from sysfs. *)

From S2P Require Import Prelude Go Prog Api.

Module net.

(** HardwareAddr, as the values of its bytes *)
Abbreviation HardwareAddr := (list Z).

Definition hexValue (c : ascii) : option Z :=
  let n := Z.of_nat (nat_of_ascii c) in
  if (48 <=? n) && (n <=? 57) then Some (n - 48)
  else if (97 <=? n) && (n <=? 102) then Some (n - 87)
  else if (65 <=? n) && (n <=? 70) then Some (n - 55)
  else None.

(** Two hex digits, then the separator or the end; returns the rest after
    the separator. *)
Definition xtoi2 (s : string) (e : ascii) : option (Z * string) :=
  match s with
  | String a (String b r) =>
      match hexValue a, hexValue b with
      | Some x, Some y =>
          match r with
          | EmptyString => Some (16 * x + y, "")
          | String c r' => if Ascii.eqb c e then Some (16 * x + y, r') else None
          end
      | _, _ => None
      end
  | _ => None
  end.

(** [n] groups of two digits, separated by [e] *)
Fixpoint parseGroups (n : nat) (e : ascii) (s : string) : option HardwareAddr :=
  match n with
  | O => if (s =? "")%string then Some [] else None
  | S n =>
      match xtoi2 s e with
      | Some (b, r) => option_map (cons b) (parseGroups n e r)
      | None => None
      end
  end.

(** [n] groups of four digits, separated by dots *)
Fixpoint parseDotted (n : nat) (s : string) : option HardwareAddr :=
  match n with
  | O => if (s =? "")%string then Some [] else None
  | S n =>
      match s with
      | String a (String b r) =>
          match hexValue a, hexValue b, xtoi2 r "." with
          | Some x, Some y, Some (z, r') =>
              option_map (fun l => 16 * x + y :: z :: l) (parseDotted n r')
          | _, _, _ => None
          end
      | _ => None
      end
  end.

Definition addrLength (n : nat) : bool := ((n =? 6) || (n =? 8) || (n =? 20))%nat.

Definition ParseMAC (s : string) : option HardwareAddr :=
  let len := String.length s in
  if (len <? 14)%nat then None
  else
    match String.get 2 s, String.get 4 s with
    | Some c, Some d =>
        if Ascii.eqb c ":" || Ascii.eqb c "-" then
          if negb ((len + 1) mod 3 =? 0)%nat then None
          else
            let n := ((len + 1) / 3)%nat in
            if negb (addrLength n) then None else parseGroups n c s
        else if Ascii.eqb d "." then
          if negb ((len + 1) mod 5 =? 0)%nat then None
          else
            let n := (2 * (len + 1) / 5)%nat in
            if negb (addrLength n) then None else parseDotted (n / 2) s
        else None
    | _, _ => None
    end.

Definition hexDigit (z : Z) : ascii :=
  ascii_of_nat (Z.to_nat (if z <? 10 then z + 48 else z + 87)).

Fixpoint hwString (hw : HardwareAddr) : string :=
  match hw with
  | [] => ""
  | [b] => String (hexDigit (b / 16)) (String (hexDigit (b mod 16)) "")
  | b :: rest => String (hexDigit (b / 16)) (String (hexDigit (b mod 16)) (String ":" (hwString rest)))
  end.

Definition is_addr (hw : HardwareAddr) : Prop :=
  addrLength (length hw) = true /\ Forall (fun b => 0 <= b < 256) hw.

(** ** Printing and parsing *)

Lemma hexValue_digit z : 0 <= z < 16 -> hexValue (hexDigit z) = Some z.
Proof.
  intros H. assert (Hz : In z (map Z.of_nat (seq 0 16))).
  { apply in_map_iff. exists (Z.to_nat z). split; [lia|]. apply in_seq. lia. }
  revert Hz. clear. unfold In. simpl. intros Hz. by destruct_or! Hz; subst; try done.
Qed.

Lemma hex_pair b : 0 <= b < 256 -> 16 * (b / 16) + b mod 16 = b.
Proof. intros _. pose proof (Z.div_mod b 16). lia. Qed.

Lemma hexValue_high b : 0 <= b < 256 -> hexValue (hexDigit (b / 16)) = Some (b / 16).
Proof. intros H. apply hexValue_digit. split; [apply Z.div_pos; lia|apply Z.div_lt_upper_bound; lia]. Qed.

Lemma hexValue_low b : hexValue (hexDigit (b mod 16)) = Some (b mod 16).
Proof. apply hexValue_digit, Z.mod_pos_bound. lia. Qed.

Lemma parseGroups_String hw :
  Forall (fun b => 0 <= b < 256) hw -> parseGroups (length hw) ":" (hwString hw) = Some hw.
Proof.
  induction 1 as [|b hw Hb HF IH]; [done|]. cbn [length parseGroups hwString].
  destruct hw as [|b' hw'].
  - cbn [xtoi2]. rewrite (hexValue_high b Hb), (hexValue_low b), (hex_pair b Hb). done.
  - cbn [xtoi2]. rewrite (hexValue_high b Hb), (hexValue_low b), (hex_pair b Hb).
    rewrite Ascii.eqb_refl. by rewrite IH.
Qed.

Lemma hwString_length hw : hw <> [] -> (String.length (hwString hw) + 1 = 3 * length hw)%nat.
Proof.
  induction hw as [|b hw IH]; [done|]. intros _. destruct hw as [|b' hw']; [done|].
  specialize (IH ltac:(done)). change (hwString (b :: b' :: hw')) with
    (String (hexDigit (b / 16)) (String (hexDigit (b mod 16)) (String ":" (hwString (b' :: hw'))))).
  cbn [String.length]. simpl length in *. lia.
Qed.

(** What HardwareAddr.String prints is parsed back to the address. *)
Lemma ParseMAC_String hw : is_addr hw -> ParseMAC (hwString hw) = Some hw.
Proof.
  intros [Hlen HF]. assert (H6 : (6 <= length hw)%nat).
  { unfold addrLength in Hlen. rewrite !orb_true_iff, !Nat.eqb_eq in Hlen. lia. }
  pose proof (hwString_length hw ltac:(by destruct hw; simpl in *; [lia|])) as Hl.
  unfold ParseMAC. rewrite (proj2 (Nat.ltb_ge _ _)) by lia. rewrite Hl.
  replace (3 * length hw)%nat with (length hw * 3)%nat by lia.
  rewrite Nat.Div0.mod_mul, Nat.div_mul by lia. cbn [negb Nat.eqb].
  destruct hw as [|b1 [|b2 hw']]; [simpl in H6; lia..|].
  change (hwString (b1 :: b2 :: hw')) with
    (String (hexDigit (b1 / 16)) (String (hexDigit (b1 mod 16)) (String ":" (hwString (b2 :: hw'))))).
  cbn [String.get]. rewrite Ascii.eqb_refl. cbn [orb].
  destruct hw' as [|b3 hw'']; [simpl in H6; lia|].
  change (hwString (b2 :: b3 :: hw'')) with
    (String (hexDigit (b2 / 16)) (String (hexDigit (b2 mod 16)) (String ":" (hwString (b3 :: hw''))))).
  cbn [String.get]. rewrite Hlen. cbn [negb].
  exact (parseGroups_String (b1 :: b2 :: b3 :: hw'') HF).
Qed.

Lemma hexValue_range c z : hexValue c = Some z -> 0 <= z < 16.
Proof. unfold hexValue. repeat case_match; intros [= <-]; bool_to_prop; lia. Qed.

Lemma xtoi2_range s e b r : xtoi2 s e = Some (b, r) -> 0 <= b < 256.
Proof.
  unfold xtoi2. intros H. repeat case_match; simplify_eq;
    repeat match goal with H : hexValue _ = Some _ |- _ => apply hexValue_range in H end; lia.
Qed.

Lemma parseGroups_addr n e s hw :
  parseGroups n e s = Some hw -> length hw = n /\ Forall (fun b => 0 <= b < 256) hw.
Proof.
  revert s hw. induction n as [|n IH]; intros s hw; cbn [parseGroups].
  { case_match; [|done]. by intros [= <-]. }
  destruct (xtoi2 s e) as [[b r]|] eqn:E; [|done].
  destruct (parseGroups n e r) as [l|] eqn:El; [|done]. intros [= <-].
  destruct (IH _ _ El) as [<- HF]. split; [done|]. constructor; [by eapply xtoi2_range|done].
Qed.

Lemma parseDotted_addr n s hw :
  parseDotted n s = Some hw -> length hw = (2 * n)%nat /\ Forall (fun b => 0 <= b < 256) hw.
Proof.
  revert s hw. induction n as [|n IH]; intros s hw; cbn [parseDotted].
  { case_match; [|done]. by intros [= <-]. }
  destruct s as [|a [|b r]]; [done..|].
  destruct (hexValue a) as [x|] eqn:Ex, (hexValue b) as [y|] eqn:Ey; [|done..].
  destruct (xtoi2 r ".") as [[z r']|] eqn:Ez; [|done].
  destruct (parseDotted n r') as [l|] eqn:El; [|done]. intros [= <-].
  destruct (IH _ _ El) as [Hl HF]. apply hexValue_range in Ex, Ey. apply xtoi2_range in Ez.
  split; [simpl; lia|]. constructor; [lia|]. by constructor.
Qed.

(** Every address that was parsed is well-formed. *)
Lemma ParseMAC_addr s hw : ParseMAC s = Some hw -> is_addr hw.
Proof.
  unfold ParseMAC, is_addr. intros H. repeat case_match; try done; bool_to_prop.
  all: match goal with
       | H : parseGroups _ _ _ = Some _ |- _ => apply parseGroups_addr in H as [-> HF]; done
       | H : parseDotted _ _ = Some _ |- _ => apply parseDotted_addr in H as [Hl HF]
       end.
  all: split; [|done]; rewrite Hl.
  all: match goal with H : addrLength ?n = true |- _ =>
         pose proof H as H'; unfold addrLength in H'; rewrite !orb_true_iff, !Nat.eqb_eq in H';
         replace (2 * (n / 2))%nat with n; [done|] end.
  all: destruct H' as [[H'|H']|H']; rewrite H'; reflexivity.
Qed.

End net.

(** ** pkg/sysfsnet *)
Module sysfsnet.

Definition sysClassNet : string := "/sys/class/net".

Definition readMACFromFile (s : string) : Fallible string :=
  let* f := send (OsReadLine s) in
  match f with
  | Err err => if errors.IsNotExist err then Ret (Ok "") else Ret (Err err)
  | Ok line => Ret (Ok line)
  end.

(** The loop over the directory entries; entries that cannot be examined, or
    whose address does not parse, are skipped. *)
Fixpoint Interfaces_loop (dents : list string) : Fallible (list net.HardwareAddr) :=
  match dents with
  | [] => Ret (Ok [])
  | dentry :: rest =>
      let entryPath := filepath.Join sysClassNet dentry in
      let* info := send (OsStatIsDir entryPath) in
      match info with
      | Err _ => Interfaces_loop rest
      | Ok isDir =>
          if negb isDir then Interfaces_loop rest
          else
            let* r := readMACFromFile (filepath.Join entryPath "address") in
            match r with
            | Err err =>
                if errors.IsNotExist err then Interfaces_loop rest else Ret (Err err)
            | Ok hwText =>
                match net.ParseMAC (strings.TrimSpace hwText) with
                | None => Interfaces_loop rest
                | Some hw =>
                    let? ifaces := Interfaces_loop rest in
                    Ret (Ok (hw :: ifaces))
                end
            end
      end
  end.

Definition Interfaces : Fallible (list net.HardwareAddr) :=
  let? dents := send (OsReadDir sysClassNet) in
  Interfaces_loop dents.

End sysfsnet.

Example mac_samples :
  net.ParseMAC "52:54:00:AB:cd:01" = Some [82; 84; 0; 171; 205; 1]
  /\ net.ParseMAC "5254.00ab.cd01" = Some [82; 84; 0; 171; 205; 1]
  /\ net.ParseMAC "52-54-00-ab-cd-01" = Some [82; 84; 0; 171; 205; 1]
  /\ net.ParseMAC "52:54-00:ab:cd:01" = None /\ net.ParseMAC "52:54:00:ab:cd" = None
  /\ net.hwString [82; 84; 0; 171; 205; 1] = "52:54:00:ab:cd:01"
  /\ strings.TrimSpace " a b  " = "a b".
Proof. vm_compute. auto 10. Qed.
