(* ===== verification/Server.v ===== *)
(** * pkg/csi/server.go, pkg/csi/identity_server.go and pkg/version

    The gRPC front end: the endpoint it parses and listens on, the
    interceptor that logs every call, and the identity service.
    logrus.Fatal ends the process; it is a panic of the model. *)

From S2P Require Import Prelude Go Prog Api.

(** ** pkg/version *)

(** The values the sources give; the build may set others. *)
Definition Version : string := "v0.0.0-dev".
Definition GitCommit : string := "HEAD".
Definition FriendlyVersion : string := Version +:+ " (" +:+ GitCommit +:+ ")".

(** ** The identity service *)

Record IdentityServer := mkIdentityServer { driverName : string; version : string }.

Definition NewIdentityServer (driverName version : string) : IdentityServer :=
  {| driverName := driverName; version := version |}.

Record GetPluginInfoResponse := mkGetPluginInfoResponse { gpi_Name : string; VendorVersion : string }.

Definition GetPluginInfo (ids : IdentityServer) : result GetPluginInfoResponse :=
  Ok {| gpi_Name := driverName ids; VendorVersion := version ids |}.

(** An empty response: the plugin is ready. *)
Definition Probe (ids : IdentityServer) : result unit := Ok tt.

Inductive PluginCapability :=
| PluginCapability_Service_CONTROLLER_SERVICE
| PluginCapability_VolumeExpansion_ONLINE.

Definition GetPluginCapabilities (ids : IdentityServer) : result (list PluginCapability) :=
  Ok [PluginCapability_Service_CONTROLLER_SERVICE; PluginCapability_VolumeExpansion_ONLINE].

(** ** The server *)

(** [s[1]] panics when the separator is missing. *)
Definition parseEndpoint (ep : string) : P (result (string * string)) :=
  let invalid := Ret (Err (FmtErr ("invalid endpoint: " +:+ ep))) in
  if strings.HasPrefix (strings.ToLower ep) "unix://"
     || strings.HasPrefix (strings.ToLower ep) "tcp://" then
    match strings.SplitN2 ep "://" with
    | s0 :: s1 :: _ => if negb (s1 =? "")%string then Ret (Ok (s0, s1)) else invalid
    | _ => Panic "index out of range"
    end
  else invalid.

(** From net.Listen on; the registration of the services with the server is
    part of grpc. *)
Definition listenAndServe (proto addr : string) : P unit :=
  let* listener := send (NetListen proto addr) in
  match listener with
  | Err err => Panic ("Failed to listen: " +:+ Error err)
  | Ok _ =>
      let* served := send (GrpcServe proto addr) in
      match served with
      | Err err => Panic ("Failed to serve: " +:+ Error err)
      | Ok _ => Ret tt
      end
  end.

Definition serve (endpoint : string) : P unit :=
  let* parsed := parseEndpoint endpoint in
  match parsed with
  | Err err => Panic (Error err)
  | Ok (proto, addr) =>
      if (proto =? "unix")%string then
        let addr := "/" +:+ addr in
        let* removed := send (OsRemove addr) in
        match removed with
        | Err err =>
            if negb (errors.IsNotExist err)
            then Panic ("Failed to remove " +:+ addr +:+ ", error: " +:+ Error err)
            else listenAndServe proto addr
        | Ok _ => listenAndServe proto addr
        end
      else listenAndServe proto addr
  end.

(** The level at which a call is logged *)
Definition logLevel (fullMethod : string) : string :=
  if existsb (String.eqb fullMethod)
       ["/csi.v1.Node/NodeGetCapabilities"; "/csi.v1.Node/NodeGetVolumeStats"]
  then "trace" else "info".

(** The interceptor; a handler returns a response and an error. *)
Definition logGRPC {Req Resp} (req : Req) (fullMethod : string)
    (handler : Req -> P (Resp * option error)) : P (Resp * option error) :=
  let level := logLevel fullMethod in
  let* _ := send (Log level) in
  let* r := handler req in
  let '(resp, err) := r in
  match err with
  | Some _ => let* _ := send (Log "error") in Ret (resp, err)
  | None => let* _ := send (Log level) in Ret (resp, err)
  end.

(** ** Lower case *)

Definition is_ascii (c : ascii) : Prop := (nat_of_ascii c < 128)%nat.

(** The bytes [ToLower] turns into the single ASCII character [c] *)
Definition lowers_to (s : string) (c : ascii) : Prop :=
  (exists d, s = String d "" /\ is_ascii d
     /\ c = (if ((65 <=? nat_of_ascii d) && (nat_of_ascii d <=? 90))%nat
             then ascii_of_nat (nat_of_ascii d + 32) else d))
  \/ (s = String (ascii_of_nat 196) (String (ascii_of_nat 176) "") /\ c = "i"%char)
  \/ (s = String (ascii_of_nat 226) (String (ascii_of_nat 132) (String (ascii_of_nat 170) ""))
      /\ c = "k"%char).

Lemma ToLower_cons d x :
  is_ascii d ->
  strings.ToLower (String d x) =
  String (if ((65 <=? nat_of_ascii d) && (nat_of_ascii d <=? 90))%nat
          then ascii_of_nat (nat_of_ascii d + 32) else d) (strings.ToLower x).
Proof.
  unfold is_ascii. intros Hd.
  assert (H1 : (nat_of_ascii d =? 196)%nat = false) by (apply Nat.eqb_neq; lia).
  assert (H2 : (nat_of_ascii d =? 226)%nat = false) by (apply Nat.eqb_neq; lia).
  destruct x as [|e [|f x]]; cbn [strings.ToLower]; by rewrite ?H1, ?H2.
Qed.

Lemma ToLower_app s c x : lowers_to s c -> strings.ToLower (s +:+ x) = String c (strings.ToLower x).
Proof.
  intros [(d & -> & Hd & ->)|[[-> ->]|[-> ->]]]; [|done..]. by apply ToLower_cons.
Qed.

Lemma nat_of_ascii_inj a n : nat_of_ascii a = n -> a = ascii_of_nat n.
Proof. intros <-. by rewrite ascii_nat_embedding. Qed.

Lemma upper_is_ascii d :
  is_ascii (if ((65 <=? nat_of_ascii d) && (nat_of_ascii d <=? 90))%nat
            then ascii_of_nat (nat_of_ascii d + 32) else d) -> is_ascii d.
Proof.
  unfold is_ascii. destruct (_ && _) eqn:E; [|done]. intros _.
  apply andb_true_iff in E as [_ E%Nat.leb_le]. lia.
Qed.

(** The first character of a lower-case form, when it is ASCII, comes from
    bytes that have it alone as their lower-case form. *)
Lemma ToLower_head s c t :
  is_ascii c -> strings.ToLower s = String c t ->
  exists s1 s2, s = s1 +:+ s2 /\ lowers_to s1 c /\ strings.ToLower s2 = t.
Proof.
  intros Hc. destruct s as [|d s]; [done|].
  destruct (decide (is_ascii d)) as [Hd|Hd].
  { rewrite ToLower_cons by done. intros [= <- <-]. exists (String d ""), s.
    split_and!; try done. left. by exists d. }
  assert (Hplain : forall u, String (if ((65 <=? nat_of_ascii d) && (nat_of_ascii d <=? 90))%nat
            then ascii_of_nat (nat_of_ascii d + 32) else d) u = String c t -> False).
  { intros u [= <- _]. by apply Hd, upper_is_ascii. }
  destruct s as [|e s]; [by intros H%Hplain|]. cbn [strings.ToLower].
  destruct (_ && _) eqn:E at 1.
  { apply andb_true_iff in E as [E1%Nat.eqb_eq%nat_of_ascii_inj E2%Nat.eqb_eq%nat_of_ascii_inj].
    subst d e. intros [= <- <-].
    exists (String (ascii_of_nat 196) (String (ascii_of_nat 176) "")), s. split_and!; try done.
    right. by left. }
  destruct s as [|f s]; [by intros H%Hplain|].
  destruct (_ && _ && _) eqn:E' at 1.
  { rewrite !andb_true_iff, !Nat.eqb_eq in E'. destruct E' as [[E1 E2] E3].
    apply nat_of_ascii_inj in E1, E2, E3. subst d e f. intros [= <- <-].
    exists (String (ascii_of_nat 226) (String (ascii_of_nat 132) (String (ascii_of_nat 170) ""))), s.
    split_and!; try done. right. by right. }
  by intros H%Hplain.
Qed.

Definition no_colon (s : string) : Prop := ~ In ":"%char (String.list_ascii_of_string s).

Lemma no_colon_app a b : no_colon a -> no_colon b -> no_colon (a +:+ b).
Proof.
  unfold no_colon. intros Ha Hb. revert Ha. induction a as [|c a IH]; [done|].
  intros Ha. change (String c a +:+ b) with (String c (a +:+ b)). cbn [String.list_ascii_of_string].
  intros [H|H]; [apply Ha; by left|]. apply IH; [|done]. intros H'. apply Ha. by right.
Qed.

Lemma lowers_to_no_colon s c : lowers_to s c -> c <> ":"%char -> no_colon s.
Proof.
  intros [(d & -> & Hd & ->)|[[-> ->]|[-> ->]]] Hc; unfold no_colon; intros Hin;
    cbn [String.list_ascii_of_string] in Hin; [|by inv_In Hin..].
  destruct Hin as [->|[]]. by apply Hc.
Qed.

(** An ASCII prefix of a lower-case form comes from a prefix of the string. *)
Lemma ToLower_prefix p s t :
  Forall is_ascii (String.list_ascii_of_string p) ->
  strings.ToLower s = p +:+ t ->
  exists s1 s2, s = s1 +:+ s2 /\ (forall x, strings.ToLower (s1 +:+ x) = p +:+ strings.ToLower x)
    /\ strings.ToLower s2 = t /\ (no_colon p -> no_colon s1).
Proof.
  revert s. induction p as [|c p IH]; intros s Hp Hs.
  { by exists "", s. }
  apply Forall_cons in Hp as [Hc Hp].
  change (String c p +:+ t) with (String c (p +:+ t)) in Hs.
  apply ToLower_head in Hs as (a & s2 & -> & Ha & Hs2); [|done].
  destruct (IH s2 Hp Hs2) as (b & s3 & -> & Hb & Hs3 & Hnc).
  exists (a +:+ b), s3. split_and!; [|intros x|done|intros Hcol].
  - by rewrite strings.append_assoc.
  - rewrite <- strings.append_assoc, (ToLower_app _ _ _ Ha), Hb. done.
  - apply no_colon_app.
    + eapply lowers_to_no_colon; [exact Ha|]. intros ->. apply Hcol. by left.
    + apply Hnc. intros H. apply Hcol. by right.
Qed.

Lemma Cut_scheme a b : no_colon a -> strings.Cut (a +:+ "://" +:+ b) "://" = Some (a, b).
Proof.
  induction a as [|c a IH]; intros Hnc; [by destruct b|].
  change (String c a +:+ "://" +:+ b) with (String c (a +:+ "://" +:+ b)).
  cbn [strings.Cut String.prefix]. destruct (Ascii.ascii_dec ":" c) as [<-|Hne].
  - exfalso. apply Hnc. by left.
  - rewrite IH; [done|]. intros H. apply Hnc. by right.
Qed.

Lemma lowers_to_punct s c : (nat_of_ascii c < 65)%nat -> lowers_to s c -> s = String c "".
Proof.
  intros Hc [(d & -> & Hd & ->)|[[_ ->]|[_ ->]]]; [|vm_compute in Hc; lia..].
  destruct (_ && _) eqn:E; [|done]. exfalso. unfold is_ascii in Hd.
  rewrite nat_ascii_embedding in Hc by lia. apply andb_true_iff in E as [E%Nat.leb_le _]. lia.
Qed.

Lemma ToLower_punct p s t :
  Forall (fun c => (nat_of_ascii c < 65)%nat) (String.list_ascii_of_string p) ->
  strings.ToLower s = p +:+ t -> exists s2, s = p +:+ s2 /\ strings.ToLower s2 = t.
Proof.
  revert s. induction p as [|c p IH]; intros s Hp Hs; [by exists s|].
  apply Forall_cons in Hp as [Hc Hp].
  apply (ToLower_head s c (p +:+ t)) in Hs as (a & s2 & -> & Ha & Hs2); [|unfold is_ascii; lia].
  destruct (IH s2 Hp Hs2) as (s3 & -> & Hs3). exists s3. split; [|done].
  by rewrite (lowers_to_punct _ _ Hc Ha).
Qed.

Lemma separator_punct : Forall (fun c => (nat_of_ascii c < 65)%nat) (String.list_ascii_of_string "://").
Proof. repeat constructor; vm_compute; lia. Qed.

(** A string whose lower-case form is a scheme followed by the separator *)
Lemma scheme_split p s :
  Forall is_ascii (String.list_ascii_of_string p) -> no_colon p ->
  strings.HasPrefix (strings.ToLower s) (p +:+ "://") = true ->
  exists proto addr, s = proto +:+ "://" +:+ addr /\ strings.ToLower proto = p
    /\ strings.SplitN2 s "://" = [proto; addr].
Proof.
  intros Hp Hnc H. apply strings.prefix_split in H as [t Ht].
  rewrite <- strings.append_assoc in Ht.
  apply ToLower_prefix in Ht as (proto & s2 & -> & Happ & Hs2 & Hn); [|done].
  apply (ToLower_punct _ _ _ separator_punct) in Hs2 as (addr & -> & _).
  exists proto, addr. split_and!; [done| |].
  - specialize (Happ ""). by rewrite !strings.append_nil_r in Happ.
  - unfold strings.SplitN2. by rewrite Cut_scheme by auto.
Qed.

Lemma ToLower_nil s : strings.ToLower s = "" -> s = "".
Proof.
  destruct s as [|c [|d [|e s]]]; cbn [strings.ToLower]; [done..| |];
    repeat match goal with |- context [if ?b then _ else _] => destruct b; try discriminate end.
Qed.

Lemma ToLower_separator x : strings.ToLower ("://" +:+ x) = "://" +:+ strings.ToLower x.
Proof.
  change ("://" +:+ x) with (String ":" (String "/" (String "/" x))).
  rewrite !ToLower_cons by (unfold is_ascii; vm_compute; lia). reflexivity.
Qed.

(** And conversely *)
Lemma scheme_join p proto addr :
  Forall is_ascii (String.list_ascii_of_string p) -> no_colon p -> strings.ToLower proto = p ->
  strings.HasPrefix (strings.ToLower (proto +:+ "://" +:+ addr)) (p +:+ "://") = true
  /\ strings.SplitN2 (proto +:+ "://" +:+ addr) "://" = [proto; addr].
Proof.
  intros Hp Hnc H. rewrite <- (strings.append_nil_r p) in H.
  apply ToLower_prefix in H as (s1 & s2 & -> & Happ & Hs2 & Hn); [|done].
  apply ToLower_nil in Hs2 as ->.
  rewrite strings.append_nil_r. split.
  - rewrite Happ, ToLower_separator, strings.append_assoc. apply strings.prefix_app.
  - unfold strings.SplitN2. by rewrite Cut_scheme by auto.
Qed.

(** ** Properties *)

Lemma is_ascii_scheme p :
  In p ["unix"; "tcp"] -> Forall is_ascii (String.list_ascii_of_string p) /\ no_colon p.
Proof.
  intros H. inv_In H; (split; [apply Forall_forall; intros c Hc|intros Hc]);
    rewrite ?list_elem_of_In in Hc; cbn [String.list_ascii_of_string] in Hc; inv_In Hc; unfold is_ascii; vm_compute; lia.
Qed.

Lemma accepted_split ep :
  strings.HasPrefix (strings.ToLower ep) "unix://"
  || strings.HasPrefix (strings.ToLower ep) "tcp://" = true ->
  exists proto addr, ep = proto +:+ "://" +:+ addr /\ In (strings.ToLower proto) ["unix"; "tcp"]
    /\ strings.SplitN2 ep "://" = [proto; addr].
Proof.
  rewrite orb_true_iff. intros H.
  assert (exists p, In p ["unix"; "tcp"]
            /\ strings.HasPrefix (strings.ToLower ep) (p +:+ "://") = true) as (p & Hp & Hpre).
  { destruct H as [H|H]; [exists "unix"|exists "tcp"]; auto with csi. }
  destruct (is_ascii_scheme p Hp) as [Ha Hn].
  destruct (scheme_split p ep Ha Hn Hpre) as (proto & addr & -> & <- & ?). eauto 6.
Qed.

Lemma parseEndpoint_cases ep :
  (exists proto addr, parseEndpoint ep = Ret (Ok (proto, addr)))
  \/ parseEndpoint ep = Ret (Err (FmtErr ("invalid endpoint: " +:+ ep))).
Proof.
  unfold parseEndpoint. destruct (_ || _) eqn:E; [|by right].
  destruct (accepted_split ep E) as (proto & addr & _ & _ & ->).
  destruct (addr =? "")%string; cbn [negb]; eauto.
Qed.

(** parseEndpoint accepts exactly the endpoints made of a scheme, the
    separator and an address. *)
Lemma parseEndpoint_exact ep :
  (forall proto addr,
     parseEndpoint ep = Ret (Ok (proto, addr)) <->
     ep = proto +:+ "://" +:+ addr /\ addr <> "" /\ In (strings.ToLower proto) ["unix"; "tcp"])
  /\ ((exists proto addr, parseEndpoint ep = Ret (Ok (proto, addr)))
      \/ parseEndpoint ep = Ret (Err (FmtErr ("invalid endpoint: " +:+ ep)))).
Proof.
  split.
  - intros proto addr. unfold parseEndpoint. split.
    + destruct (_ || _) eqn:E; [|done].
      destruct (accepted_split ep E) as (proto' & addr' & -> & Hl & ->).
      destruct (addr' =? "")%string eqn:Ea; cbn [negb]; [done|]. bool_to_prop.
      by intros [= <- <-].
    + intros (-> & Ha & Hp). destruct (is_ascii_scheme _ Hp) as [H1 H2].
      destruct (scheme_join _ proto addr H1 H2 eq_refl) as [Hpre ->].
      assert (Hacc : strings.HasPrefix (strings.ToLower (proto +:+ "://" +:+ addr)) "unix://"
        || strings.HasPrefix (strings.ToLower (proto +:+ "://" +:+ addr)) "tcp://" = true).
      { apply orb_true_iff. unfold In in Hp.
        destruct Hp as [Hp|[Hp|[]]]; rewrite <- Hp in Hpre; auto. }
      rewrite Hacc.
      by rewrite (proj2 (eqb_false_ne _ _) Ha).
  - apply parseEndpoint_cases.
Qed.

(** The interceptor is transparent: a call that goes through logGRPC is
    served by the handler with the same request, once, and the caller gets
    the handler's response and error unchanged; around the handler's own
    calls there are only log records, an error being logged at level error
    and the frequent probes at level trace. *)
Theorem logGRPC_transparent {Req Resp} (req : Req) m (handler : Req -> P (Resp * option error)) tr o :
  runs (logGRPC req m handler) tr o <->
  exists tr', runs (handler req) tr' o
    /\ tr = ev (Log (logLevel m)) tt :: tr' ++
         match o with
         | Returned (_, Some _) => [ev (Log "error") tt]
         | Returned (_, None) => [ev (Log (logLevel m)) tt]
         | Panicked _ => []
         end.
Proof.
  unfold logGRPC. cbn [bind runs trigger]. split.
  - intros ([] & tr' & -> & [(tr1 & [resp err] & tr2 & Hr & Hl & ->)|(w & -> & Hr)]%runs_bind).
    + exists tr1. destruct err; destruct Hl as ([] & ? & -> & -> & ->); auto.
    + exists tr'. by rewrite app_nil_r.
  - intros (tr' & Hr & ->). eexists tt, _. split; [done|]. apply runs_bind.
    destruct o as [[resp err]|w]; [left; exists tr', (resp, err)|right; exists w; by rewrite app_nil_r].
    destruct err; eexists; (split_and!; [done| |done]); by exists tt, [].
Qed.

(** The calls that bring the server up at an endpoint, in order *)
Definition start_calls (proto addr : string) : list call :=
  if (proto =? "unix")%string
  then [OsRemove ("/" +:+ addr); NetListen proto ("/" +:+ addr); GrpcServe proto ("/" +:+ addr)]
  else [NetListen proto addr; GrpcServe proto addr].

(** An endpoint of the accepted form *)
Definition endpoint_form (ep proto addr : string) : Prop :=
  ep = proto +:+ "://" +:+ addr /\ addr <> "" /\ In (strings.ToLower proto) ["unix"; "tcp"].

(** How a run of [serve] at an endpoint of the form goes: it makes the calls
    in order, the first one at least, returns after all of them, and ends the
    process only when the last one it made failed. *)
Definition serve_post (proto addr : string) (tr : trace reply) (o : outcome unit) : Prop :=
  calls tr <> [] /\ calls tr `prefix_of` start_calls proto addr
  /\ match o with
     | Returned _ => calls tr = start_calls proto addr
     | Panicked _ => exists e err, last tr = Some e /\ reply_error e = Some err
     end.

Lemma serve_accepted ep proto addr :
  endpoint_form ep proto addr -> all_runs (serve ep) (serve_post proto addr).
Proof.
  intros Hf. apply parseEndpoint_exact in Hf. apply wp_iff. unfold serve. rewrite Hf. cbn [bind].
  unfold serve_post, start_calls. destruct (proto =? "unix")%string; cbn.
  - intros [[]|e]; [|destruct (negb _)]; cbn.
    2:{ split_and!; [done|by eexists|by eexists _, e]. }
    all: intros [[]|e1]; cbn; [intros [[]|e2]; cbn|]; (split_and!; [done|by eexists|]);
      solve [done|eexists _, _; done].
  - intros [[]|e1]; cbn; [intros [[]|e2]; cbn|]; (split_and!; [done|by eexists|]);
      solve [done|eexists _, _; done].
Qed.

Lemma serve_rejected ep :
  (forall proto addr, ~ endpoint_form ep proto addr) ->
  serve ep = Panic ("invalid endpoint: " +:+ ep).
Proof.
  intros Hf. unfold serve. destruct (parseEndpoint_cases ep) as [(proto & addr & E)|E].
  - apply parseEndpoint_exact in E. by destruct (Hf proto addr).
  - by rewrite E.
Qed.

(** C38: serve accepts exactly the endpoints made of a scheme that is unix or
    tcp up to case, the separator and an address that is not empty, and
    never indexes out of range.  At an endpoint of this form it makes its
    calls in order, the first one at least, and ends the process only when
    the last call it made failed; with the scheme unix in lower case it
    removes a stale socket at the rooted path before it listens there and
    serves, and any other accepted spelling, UNIX among them, is handed to
    net.Listen as it is, without the root and without removing anything.
    Every other endpoint ends the process before any call.  serve returns
    only when the server was shut down after all of the calls. *)
Theorem serve_calls ep :
  (forall proto addr, endpoint_form ep proto addr ->
     all_runs (serve ep) (fun tr o =>
       calls tr <> [] /\ calls tr `prefix_of` start_calls proto addr
       /\ match o with
          | Returned _ => calls tr = start_calls proto addr
          | Panicked _ => exists e err, last tr = Some e /\ reply_error e = Some err
          end))
  /\ ((forall proto addr, ~ endpoint_form ep proto addr) ->
     all_runs (serve ep) (fun tr o =>
       tr = [] /\ o = Panicked ("invalid endpoint: " +:+ ep))).
Proof.
  split; [apply serve_accepted|]. intros Hf tr o. rewrite (serve_rejected _ Hf). by intros [-> ->].
Qed.

Lemma serve_calls_witness :
  endpoint_form "UNIX://csi/csi.sock" "UNIX" "csi/csi.sock"
  /\ all_runs (serve "UNIX://csi/csi.sock") (fun tr o =>
       List.hd_error (calls tr) = Some (NetListen "UNIX" "csi/csi.sock"))
  /\ runs (serve "udp://x") [] (Panicked "invalid endpoint: udp://x").
Proof.
  assert (Hf : endpoint_form "UNIX://csi/csi.sock" "UNIX" "csi/csi.sock").
  { split_and!; [reflexivity|done|by left]. }
  split; [exact Hf|]. split; [|by split].
  intros tr o Hr. destruct (proj1 (serve_calls _) _ _ Hf tr o Hr) as (Hne & [k Hk] & _).
  destruct (calls tr) as [|c l]; [done|]. cbn in Hk. by injection Hk as <-.
Defined.
