(* ===== verification/Process.v ===== *)
(** * The process of the driver: the server and its wait group

    NonBlockingGRPCServer runs [serve] in a goroutine; Run starts it and
    waits on its wait group.  A state of the process is where the main
    goroutine is, the fields of the server and the other goroutines; a step
    is the start of the server, after which Run waits or, on a control-plane
    node, stays in the leader election, the end of the wait, a call of a goroutine
    with any reply, or somebody asking the server to stop. *)

From S2P Require Import Prelude Go Prog Api Server.

(** The server: the counter of its wait group, and whether the pointer to
    the grpc server has been set *)
Record NonBlockingGRPCServer := mkNBServer { wg : nat; server : bool }.

Definition NewNonBlockingGRPCServer : NonBlockingGRPCServer := {| wg := 0; server := false |}.

(** The server after Start and the goroutine that was started *)
Definition Start (endpoint : string) (s : NonBlockingGRPCServer) : NonBlockingGRPCServer * P unit :=
  ({| wg := S (wg s); server := server s |}, serve endpoint).

(** Whether Wait returns now *)
Definition Wait (s : NonBlockingGRPCServer) : bool := (wg s =? 0)%nat.

(** A method of a nil grpc server panics. *)
Definition Stop (s : NonBlockingGRPCServer) : P unit :=
  if server s then send (GrpcStop true) else Panic "nil pointer dereference".

Definition ForceStop (s : NonBlockingGRPCServer) : P unit :=
  if server s then send (GrpcStop false) else Panic "nil pointer dereference".

(** [serve] sets the pointer once it listens, before it serves. *)
Definition assign (e : event reply) (s : NonBlockingGRPCServer) : NonBlockingGRPCServer :=
  let '(existT c r) := e in
  match c return reply c -> NonBlockingGRPCServer with
  | NetListen _ _ => fun r => match r with Ok _ => {| wg := wg s; server := true |} | Err _ => s end
  | _ => fun _ => s
  end r.

(** ** The process *)

Inductive phase := Starting | Waiting | Electing | Finished.

Record process := mkProcess {
  at_phase : phase; grpc : NonBlockingGRPCServer; routines : list (P unit);
}.

Definition launched : process := mkProcess Starting NewNonBlockingGRPCServer [].

Inductive pstep (endpoint : string) : process -> process -> Prop :=
| pstep_start s rs :
    pstep endpoint (mkProcess Starting s rs)
      (mkProcess Waiting (Start endpoint s).1 (rs ++ [(Start endpoint s).2]))
| pstep_elect s rs :
    pstep endpoint (mkProcess Starting s rs)
      (mkProcess Electing (Start endpoint s).1 (rs ++ [(Start endpoint s).2]))
| pstep_wait s rs :
    Wait s = true -> pstep endpoint (mkProcess Waiting s rs) (mkProcess Finished s rs)
| pstep_call ph s rs i c k r :
    rs !! i = Some (Call c k) ->
    pstep endpoint (mkProcess ph s rs) (mkProcess ph (assign (ev c r) s) (<[i := k r]> rs))
| pstep_stop ph s rs stop :
    stop = Stop \/ stop = ForceStop ->
    pstep endpoint (mkProcess ph s rs) (mkProcess ph s (rs ++ [stop s])).

Inductive pstate (endpoint : string) : process -> Prop :=
| pstate_launched : pstate endpoint launched
| pstate_step p p' : pstate endpoint p -> pstep endpoint p p' -> pstate endpoint p'.

(** ** Invariant *)

Definition accepts (endpoint : string) : Prop :=
  exists proto addr, parseEndpoint endpoint = Ret (Ok (proto, addr)).

(** Only a goroutine that serves a valid endpoint listens. *)
Definition listens_only_at (endpoint : string) : P unit -> Prop :=
  only_calls (fun c => match c with NetListen _ _ => accepts endpoint | _ => True end).

Lemma serve_listens endpoint : listens_only_at endpoint (serve endpoint).
Proof.
  unfold listens_only_at, serve.
  destruct (parseEndpoint_cases endpoint) as [(proto & addr & E)|E]; rewrite E; cbn [bind]; [|done].
  assert (accepts endpoint) as Ha by (by exists proto, addr).
  assert (forall a, listens_only_at endpoint (listenAndServe proto a)) as Hl.
  { intros a. split; [done|]. intros [u|e]; [|done]. split; [done|]. by intros [v|e]. }
  destruct (proto =? "unix")%string; [|apply Hl]. split; [done|].
  intros [u|e]; [apply Hl|]. cbn. destruct (negb _); [done|apply Hl].
Qed.

Lemma stop_listens endpoint stop s :
  stop = Stop \/ stop = ForceStop -> listens_only_at endpoint (stop s).
Proof. intros [->| ->]; [unfold Stop|unfold ForceStop]; by destruct (server s). Qed.

Definition process_ok (endpoint : string) (p : process) : Prop :=
  match at_phase p with
  | Starting => wg (grpc p) = 0%nat
  | Waiting | Electing => wg (grpc p) = 1%nat
  | Finished => False
  end
  /\ (server (grpc p) = true -> accepts endpoint)
  /\ Forall (listens_only_at endpoint) (routines p).

Lemma assign_ok endpoint c r s :
  (match c with NetListen _ _ => accepts endpoint | _ => True end) ->
  (server s = true -> accepts endpoint) ->
  wg (assign (ev c r) s) = wg s /\ (server (assign (ev c r) s) = true -> accepts endpoint).
Proof. intros Hc Hs. destruct c; cbn; try done. by destruct r. Qed.

Lemma process_ok_step endpoint p p' :
  process_ok endpoint p -> pstep endpoint p p' -> process_ok endpoint p'.
Proof.
  intros (Hw & Hs & Hr) Hst. destruct Hst as [s rs|s rs|s rs H|ph s rs i c k r Hi|ph s rs stop Hstop];
    cbn [at_phase grpc routines] in *.
  1,2: split_and!; cbn; [by rewrite Hw|done|]; apply Forall_app; split; [done|];
    constructor; [apply serve_listens|done].
  - unfold Wait in H. by rewrite Hw in H.
  - rewrite Forall_lookup in Hr. destruct (Hr _ _ Hi) as [Hc Hk].
    destruct (assign_ok endpoint c r s Hc Hs) as [Hw' Hs']. split_and!; cbn [at_phase grpc routines].
    + by rewrite Hw'.
    + done.
    + apply Forall_insert; [by rewrite Forall_lookup|apply Hk].
  - split_and!; [done..|]. apply Forall_app. split; [done|].
    constructor; [by apply stop_listens|done].
Qed.

(** C37: the process waits for ever.  In every state that the process reaches,
    whatever the services answer and whoever asks the server to stop, the
    wait of Run has not returned: the counter of the wait group is one from
    the start of the server on, since nothing counts it down, so the process
    ends only when a goroutine or the leader election ends it.  The pointer to the grpc server is
    set only for an endpoint that parses; before it is set, Stop and
    ForceStop dereference nil, afterwards they reach the server. *)
Theorem process_waits endpoint p :
  pstate endpoint p ->
  at_phase p <> Finished
  /\ (at_phase p = Waiting -> Wait (grpc p) = false)
  /\ (server (grpc p) = true -> accepts endpoint)
  /\ (forall stop, stop = Stop \/ stop = ForceStop ->
        (exists w, stop (grpc p) = Panic w) <-> server (grpc p) = false).
Proof.
  intros Hp. assert (process_ok endpoint p) as (Hw & Hs & _).
  { induction Hp as [|p p' _ IH Hst]; [by split|]. by eapply process_ok_step. }
  split_and!.
  - intros E. by rewrite E in Hw.
  - intros E. unfold Wait. rewrite E in Hw. by rewrite Hw.
  - done.
  - intros stop [->| ->]; [unfold Stop|unfold ForceStop]; destruct (server (grpc p)); split;
      solve [done|by intros [w ?]|by eexists].
Qed.

(** A process that listens on a socket and is asked to stop *)
Lemma process_waits_witness :
  exists p, pstate "unix:///csi/csi.sock" p /\ at_phase p = Waiting /\ server (grpc p) = true
    /\ Wait (grpc p) = false.
Proof.
  set (p1 := mkProcess Waiting (mkNBServer 1 false) [serve "unix:///csi/csi.sock"]).
  assert (pstate "unix:///csi/csi.sock" p1) as H1.
  { eapply pstate_step; [apply pstate_launched|]. apply (pstep_start _ NewNonBlockingGRPCServer []). }
  eassert (pstate "unix:///csi/csi.sock" _) as H2.
  { eapply pstate_step; [exact H1|].
    eapply (pstep_call _ Waiting _ _ 0 (OsRemove "//csi/csi.sock") _ (Ok tt)). reflexivity. }
  eassert (pstate "unix:///csi/csi.sock" _) as H3.
  { eapply pstate_step; [exact H2|].
    eapply (pstep_call _ Waiting _ _ 0 (NetListen "unix" "//csi/csi.sock") _ (Ok tt)). reflexivity. }
  eexists. split; [exact H3|]. split; [reflexivity|]. split; [reflexivity|].
  exact (proj1 (proj2 (process_waits _ _ H3)) eq_refl).
Defined.
