(* ===== verification/Manager.v ===== *)
(** * pkg/csi/manager.go and pkg/config

    The start-up of the driver: the clients, the choice of the hotplug mode
    from the Harvester version, the discovery of the virtual machine the
    driver runs on by its MAC addresses, and what is started. *)

From S2P Require Import Prelude Go Prog Kube Csi Api Utils CsiUtil Controller NodeServer NodeController Net Server.

Definition defaultKubeconfigPath : string := "/etc/kubernetes/cloud-config".
Definition calicoMacAddress : string := "ee:ee:ee:ee:ee:ee".
Definition loopBackMacAddress : string := "00:00:00:00:00:00".
Definition serverVersionSettingName : string := "server-version".
Definition controlPlaneLabel : string := "node-role.kubernetes.io/control-plane".

(** pkg/config.Config *)
Record Config := mkConfig {
  Endpoint : string; KubeConfig : string; NodeID : string; HostStorageClass : string; Debug : bool;
}.

(** ** Discovery of the virtual machine instance *)

(** The result of discoverVMIName: a name, the sentinel errVMINotFound, or
    another error *)
Inductive discovery :=
| Discovered (name : string)
| errVMINotFound
| DiscoveryFailed (e : error).

(** The addresses the instances are compared with *)
Definition nodeMacs (ifaces : list net.HardwareAddr) : list string :=
  List.filter (fun s => negb ((s =? calicoMacAddress) || (s =? loopBackMacAddress))%string)
    (map net.hwString ifaces).

#[global] Arguments nodeMacs ifaces : simpl never.

(** The closure [matches] of discoverVMIName *)
Definition matches (macs : list string) (ifaces : list string) : bool :=
  existsb (fun text =>
    match net.ParseMAC text with
    | Some mac => existsb (String.eqb (net.hwString mac)) macs
    | None => false
    end) ifaces.

Definition discoverVMIName (ns nodeID : string) (ifaces : list net.HardwareAddr) : P discovery :=
  match ifaces with
  | [] => Ret errVMINotFound
  | _ =>
      let macs := nodeMacs ifaces in
      let byList :=
        let* instances := send (VmiList ns) in
        match instances with
        | Err err => Ret (DiscoveryFailed err)
        | Ok items =>
            match List.find (fun i => matches macs (vmi_Interfaces i)) items with
            | Some instance => Ret (Discovered (name_of instance))
            | None => Ret errVMINotFound
            end
        end in
      let* instance := send (VmiGet ns nodeID) in
      match instance with
      | Ok i => if matches macs (vmi_Interfaces i) then Ret (Discovered (name_of i)) else byList
      | Err _ => byList
      end
  end.

(** ** Start-up *)

(** type Manager, with the endpoint its gRPC server was started on and the
    node controller that runs while the driver leads, where it may *)
Record Manager := mkManager {
  ids : IdentityServer; m_ns : NodeServer; cs : ControllerServer;
  grpcEndpoint : string; nodeController : option Controller;
}.

(** How Run ends.  It returns, or starts the driver and does not return: on a
    control-plane node it takes part in the leader election, whose end is the
    end of the process, and elsewhere it waits on the wait group of the
    server, on which nothing calls Done.  [serve] runs in a goroutine of its
    own meanwhile (the steps of the process are in Process.v). *)
Inductive run_result :=
| Returns (err : option error)
| Waits (m : Manager)
| Elects (m : Manager) (ended : leader_end).

(** [x, err := p; if err != nil { return err }] in Run *)
Notation "'let!' x := p 'in' q" :=
  (bind p (fun r => match r with Ok x => q | Err e => Ret (Returns (Some e)) end))
  (at level 10, x name, p at level 100, q at level 200) : prog_scope.

(** The clients of the host cluster, built in this order *)
Definition hostClients : list string :=
  ["host kube"; "host core"; "host storage"; "host kubevirt"; "host longhorn";
   "host networkfs"; "host harvester"; "host snapshot"].

Fixpoint newClients (names : list string) (k : P run_result) : P run_result :=
  match names with
  | [] => k
  | n :: rest => let! _ := send (NewClient n) in newClients rest k
  end.

(** From the index of the pods on *)
Definition startDriver (cfg : Config) (nodeID namespace host : string) (declarative : bool)
    : P run_result :=
  let* _ := send (AddIndexer IndexPodByPVC) in
  let ids := NewIdentityServer CsiUtil.driverName FriendlyVersion in
  let ns := NewNodeServer nodeID namespace host in
  let* cs := NewControllerServer namespace (HostStorageClass cfg) declarative in
  let* _ := send (GoServe (Endpoint cfg)) in
  let* node := send (GuestNodeGet nodeID) in
  match node with
  | Ok n =>
      if bool_decide (map_lookup (Labels (node_meta n)) controlPlaneLabel = Some "true") then
        let* ended := send (LeaderRun "kube-system" "harvester-csi-node-monitor") in
        Ret (Elects (mkManager ids ns cs (Endpoint cfg)
                       (Some (Register nodeID namespace declarative))) ended)
      else Ret (Waits (mkManager ids ns cs (Endpoint cfg) None))
  | Err _ => Ret (Waits (mkManager ids ns cs (Endpoint cfg) None))
  end.

(** From the enumeration of the interfaces on *)
Definition discoverAndStart (cfg : Config) (namespace host : string) (declarative : bool)
    : P run_result :=
  let* r := sysfsnet.Interfaces in
  let ifaces := match r with Ok l => l | Err _ => [] end in
  let* d := discoverVMIName namespace (NodeID cfg) ifaces in
  match d with
  | Discovered name => startDriver cfg name namespace host declarative
  | errVMINotFound => startDriver cfg (NodeID cfg) namespace host declarative
  | DiscoveryFailed err => Ret (Returns (Some err))
  end.

(** From the configuration of the local clients on *)
Definition runWith (cfg : Config) : P run_result :=
  let* inCluster := send (NewClient "in-cluster config") in
  match inCluster with
  | Err _ => Ret (Returns None)
  | Ok _ =>
      newClients ["local kube"; "local core"]
        (let! ns := send (ConfigNamespace (KubeConfig cfg)) in
         let namespace := if (ns =? "")%string then "default" else ns in
         let! host := send (ClientConfigHost (KubeConfig cfg)) in
         newClients hostClients
           (let! setting := send (SettingGet serverVersionSettingName) in
            discoverAndStart cfg namespace host (IsVersionAtLeast (set_Value setting) 1 8)))
  end.

Definition set_KubeConfig (path : string) (cfg : Config) : Config :=
  mkConfig (Endpoint cfg) path (NodeID cfg) (HostStorageClass cfg) (Debug cfg).

Definition Run (cfg : Config) : P run_result :=
  let* st := send (OsStat (KubeConfig cfg)) in
  match st with
  | Ok _ => runWith cfg
  | Err err =>
      if errors.IsNotExist err then runWith (set_KubeConfig defaultKubeconfigPath cfg)
      else Ret (Returns (Some err))
  end.
