(* ===== verification/ManagerThm.v ===== *)
(** * Properties of the start-up *)

From S2P Require Import Prelude Go Prog Kube Csi Api Store Utils CsiUtil Controller Samples VolumesSpec AttachSpec NodeServer NodeController Net Server Manager.

(** The instance has an interface with the address of an interface of this
    node, which is not one of the two addresses every node may have. *)
Definition same_machine (ifaces : list net.HardwareAddr) (vmi : VirtualMachineInstance) : Prop :=
  exists hw text, In hw ifaces /\ In text (vmi_Interfaces vmi) /\ net.ParseMAC text = Some hw
    /\ hw <> repeat 238 6 /\ hw <> repeat 0 6.

Lemma hwString_inj a b : net.is_addr a -> net.is_addr b -> net.hwString a = net.hwString b -> a = b.
Proof.
  intros Ha%net.ParseMAC_String Hb%net.ParseMAC_String E. rewrite E in Ha. congruence.
Qed.

Lemma shared_addr b : 0 <= b < 256 -> net.is_addr (repeat b 6).
Proof. intros H. split; [done|]. repeat (constructor; [done|]). constructor. Qed.

(** The comparison of texts is a comparison of addresses. *)
Lemma matches_iff ifaces vmi :
  Forall net.is_addr ifaces ->
  matches (nodeMacs ifaces) (vmi_Interfaces vmi) = true <-> same_machine ifaces vmi.
Proof.
  intros HF. unfold matches, same_machine. rewrite existsb_exists.
  change calicoMacAddress with (net.hwString (repeat 238 6)) in *.
  assert (Hex : forall s, In s (nodeMacs ifaces) <-> exists hw, In hw ifaces /\ s = net.hwString hw
            /\ hw <> repeat 238 6 /\ hw <> repeat 0 6).
  { intros s. unfold nodeMacs. rewrite filter_In, in_map_iff, negb_true_iff, orb_false_iff.
    change calicoMacAddress with (net.hwString (repeat 238 6)).
    change loopBackMacAddress with (net.hwString (repeat 0 6)).
    rewrite !String.eqb_neq. split.
    - intros ((hw & <- & Hin) & H1 & H2). exists hw. split_and!; congruence.
    - intros (hw & Hin & -> & H1 & H2). rewrite List.Forall_forall in HF.
      split; [eauto|]. split; intros E%hwString_inj; auto using shared_addr.
      all: apply shared_addr; lia. }
  split.
  - intros (text & Hin & H). destruct (net.ParseMAC text) as [mac|] eqn:E; [|done].
    apply existsb_exists in H as (s & Hs & <-%String.eqb_eq).
    apply Hex in Hs as (hw & Hhw & Heq & H1 & H2). rewrite List.Forall_forall in HF.
    apply hwString_inj in Heq as <-; [|by eapply net.ParseMAC_addr|auto]. by exists mac, text.
  - intros (hw & text & Hhw & Hin & E & H1 & H2). exists text. split; [done|]. rewrite E.
    apply existsb_exists. exists (net.hwString hw). rewrite String.eqb_refl. split; [|done].
    apply Hex. by exists hw.
Qed.

Definition discovered_by (ns id : string) (ifaces : list net.HardwareAddr) (name : string)
    (tr : trace reply) : Prop :=
  exists vmi, name_of vmi = name /\ same_machine ifaces vmi
    /\ (In (ev (VmiGet ns id) (Ok vmi)) tr
        \/ exists items, In (ev (VmiList ns) (Ok items)) tr /\ In vmi items).

Definition discovery_post ns id ifaces (tr : trace reply) (o : outcome discovery) : Prop :=
  writes tr = [] /\
  match o with
  | Returned (Discovered name) => discovered_by ns id ifaces name tr
  | Returned errVMINotFound =>
      ifaces = [] \/
      (exists items, In (ev (VmiList ns) (Ok items)) tr
         /\ forall vmi, In vmi items -> ~ same_machine ifaces vmi)
  | Returned (DiscoveryFailed e) => In (ev (VmiList ns) (Err e)) tr
  | Panicked _ => False
  end.

Lemma discoverVMIName_spec ns id ifaces :
  Forall net.is_addr ifaces -> wp (discoverVMIName ns id ifaces) (discovery_post ns id ifaces).
Proof.
  intros HF. unfold discoverVMIName, discovery_post.
  destruct ifaces as [|h l]; [by split; [|left]|]. set (ifaces := h :: l) in *.
  assert (Hlist : forall pre, writes pre = [] ->
    wp (let* instances := send (VmiList ns) in
        match instances with
        | Err err => Ret (DiscoveryFailed err)
        | Ok items =>
            match List.find (fun i => matches (nodeMacs ifaces) (vmi_Interfaces i)) items with
            | Some instance => Ret (Discovered (name_of instance))
            | None => Ret errVMINotFound
            end
        end) (fun tr o => discovery_post ns id ifaces (pre ++ tr) o)).
  { intros pre Hpre. cbn. intros [items|e]; cbn.
    - destruct (List.find _ items) as [i|] eqn:E; cbn; (split; [by writes_simpl|]).
      + apply find_some in E as [Hin Hm%matches_iff]; [|done]. exists i. split_and!; auto.
        right. exists items. auto with csi.
      + right. exists items. split; [auto with csi|]. intros vmi Hin Hs%matches_iff; [|done].
        eapply find_none in E; [|exact Hin]. cbn in E. congruence.
    - split; [by writes_simpl|auto with csi]. }
  cbn [bind wp trigger]. intros [i|e];
    [destruct (matches (nodeMacs ifaces) (vmi_Interfaces i)) eqn:E|]; cbn [bind].
  - split; [by writes_simpl|]. apply matches_iff in E; [|done]. exists i. auto with csi.
  - eapply wp_mono; [apply (Hlist [ev (VmiGet ns id) (Ok i)]); by writes_simpl|done].
  - eapply wp_mono; [apply (Hlist [ev (VmiGet ns id) (Err e)]); by writes_simpl|done].
Qed.

(** C29: the machine the driver runs on is found by its hardware addresses:
    when discoverVMIName returns a name, it is that of an instance, read
    from the host cluster, with an interface that has the address of an
    interface of this node, however the two addresses are written, and not
    one of the addresses that Calico and the loopback give every node; when
    it reports that there is none, no instance of the namespace has such an
    interface, or the node has no interface; any other error is the one the
    listing of the instances failed with. *)
Theorem discoverVMIName_exact ns id ifaces :
  Forall net.is_addr ifaces ->
  all_runs (discoverVMIName ns id ifaces) (fun tr o =>
    match o with
    | Returned (Discovered name) =>
        exists vmi, name_of vmi = name /\ same_machine ifaces vmi
          /\ (In (ev (VmiGet ns id) (Ok vmi)) tr
              \/ exists items, In (ev (VmiList ns) (Ok items)) tr /\ In vmi items)
    | Returned errVMINotFound =>
        ifaces = [] \/
        (exists items, In (ev (VmiList ns) (Ok items)) tr
           /\ forall vmi, In vmi items -> ~ same_machine ifaces vmi)
    | Returned (DiscoveryFailed e) => In (ev (VmiList ns) (Err e)) tr
    | Panicked _ => False
    end).
Proof.
  intros HF. apply wp_iff. eapply wp_mono; [by apply discoverVMIName_spec|].
  by intros tr o [_ H].
Qed.

(** On the sample cluster the node with the address of the instance [node1],
    written in capitals, is found under that name. *)
Lemma discoverVMIName_exact_witness :
  exists ifaces vmi, net.ParseMAC "52-54-00-00-00-01" = Some (hd [] ifaces)
    /\ name_of vmi = "node1" /\ same_machine ifaces vmi.
Proof.
  exists [[82; 84; 0; 0; 0; 1]].
  destruct (exec_post mem_serve (discoverVMIName "guest" "node1" [[82; 84; 0; 0; 0; 1]])
    sample_cluster _ (discoverVMIName_exact "guest" "node1" [[82; 84; 0; 0; 0; 1]]
       ltac:(repeat constructor; lia))) as (vmi & Hn & Hs & _).
  exists vmi. split; [reflexivity|]. split; [exact Hn|exact Hs].
Defined.

(** ** The interfaces of the node *)

(** The address was read from a file. *)
Definition read_mac (hw : net.HardwareAddr) (tr : trace reply) : Prop :=
  exists path line, In (ev (OsReadLine path) (Ok line)) tr
    /\ net.ParseMAC (strings.TrimSpace line) = Some hw.

Lemma read_mac_grows hw : grows (read_mac hw).
Proof. unfold grows, incl. intros tr tr' Hi (p & l & ? & ?). exists p, l. auto. Qed.

Definition interfaces_post (tr : trace reply) (o : outcome (result (list net.HardwareAddr))) : Prop :=
  writes tr = [] /\
  match o with
  | Returned (Ok l) => Forall (fun hw => net.is_addr hw /\ read_mac hw tr) l
  | Returned (Err _) => True
  | Panicked _ => False
  end.

Lemma interfaces_post_cons e tr o :
  mutating (projT1 e) = false -> interfaces_post tr o -> interfaces_post (e :: tr) o.
Proof.
  intros He [Hw Ho]. split; [rewrite writes_cons, He; done|].
  destruct o as [[l|]|]; try done. eapply Forall_impl; [exact Ho|]. cbn.
  intros hw [H1 H2]. split; [done|]. by apply (grows_app_r _ [e]); [apply read_mac_grows|].
Qed.

Lemma Interfaces_loop_spec dents : wp (sysfsnet.Interfaces_loop dents) interfaces_post.
Proof.
  induction dents as [|d dents IH]; [by split|]. cbn.
  assert (Hskip : forall e1, mutating (projT1 e1) = false ->
    wp (sysfsnet.Interfaces_loop dents) (fun tr o => interfaces_post (e1 :: tr) o)).
  { intros e1 H1. eapply wp_mono; [exact IH|]. intros tr o. by apply interfaces_post_cons. }
  assert (Hskip2 : forall e1 e2, mutating (projT1 e1) = false -> mutating (projT1 e2) = false ->
    wp (sysfsnet.Interfaces_loop dents) (fun tr o => interfaces_post (e1 :: e2 :: tr) o)).
  { intros e1 e2 H1 H2. eapply wp_mono; [exact IH|]. intros tr o H. by auto using interfaces_post_cons. }
  intros [[]|e]; cbn [negb]; [|by apply Hskip..]. cbn. intros [line|e]; cbn [bind].
  - destruct (net.ParseMAC (strings.TrimSpace line)) as [hw|] eqn:Ehw; [|by apply Hskip2].
    apply wp_bind. eapply wp_mono; [exact IH|]. intros tr [[l|e]|w]; cbn; intros [Hw Ho]; [|by split; [writes_simpl|]|done].
    rewrite app_nil_r. split; [by writes_simpl|]. constructor.
    + split; [by eapply net.ParseMAC_addr|]. do 2 eexists. split; [|exact Ehw]. auto with csi.
    + eapply Forall_impl; [exact Ho|]. cbn. intros h [H1 H2]. split; [done|].
      eapply read_mac_grows; [|exact H2]. intros x Hx. auto with csi.
  - destruct (errors.IsNotExist e) eqn:Ee; cbn [bind].
    + by apply Hskip2.
    + rewrite Ee. cbn. by split; [writes_simpl|].
Qed.

Lemma Interfaces_spec : wp sysfsnet.Interfaces interfaces_post.
Proof.
  unfold sysfsnet.Interfaces. cbn. intros [dents|e]; cbn; [|by split; [writes_simpl|]].
  eapply wp_mono; [apply Interfaces_loop_spec|]. intros tr o. by apply interfaces_post_cons.
Qed.

(** ** The driver that is started *)

(** What the servers and the node controller of a started driver share *)
Definition configured (cfg : Config) (id ns : string) (declarative : bool) (m : Manager)
    (tr : trace reply) : Prop :=
  nodeID (m_ns m) = id /\ ns_namespace (m_ns m) = ns
  /\ namespace (cs m) = ns /\ hostStorageClass (cs m) = HostStorageClass cfg
  /\ useDeclarativeHotplug (cs m) = declarative /\ grpcEndpoint m = Endpoint cfg
  /\ In (ev (AddIndexer IndexPodByPVC) tt) tr
  /\ forall c, nodeController m = Some c ->
       c = Register id ns declarative
       /\ exists n, In (ev (GuestNodeGet id) (Ok n)) tr
            /\ map_lookup (Labels (node_meta n)) controlPlaneLabel = Some "true".

Lemma configured_grows cfg id ns d m : grows (configured cfg id ns d m).
Proof.
  unfold grows, incl. intros tr tr' Hi (? & ? & ? & ? & ? & ? & ? & Hc). split_and!; auto.
  intros c [? (n & ? & ?)]%Hc. eauto.
Qed.

(** Run's own writes: it starts the server, and takes part in the election
    only on a control-plane node, where the node controller may run. *)
Definition started (cfg : Config) (id : string) (tr : trace reply) (r : run_result) (m : Manager) : Prop :=
  match r with
  | Waits m' => m' = m /\ nodeController m = None /\ writes tr = [GoServe (Endpoint cfg)]
      /\ exists node, In (ev (GuestNodeGet id) node) tr
         /\ match node with
            | Ok n => map_lookup (Labels (node_meta n)) controlPlaneLabel <> Some "true"
            | Err _ => True
            end
  | Elects m' ended => m' = m /\ nodeController m <> None
      /\ writes tr = [GoServe (Endpoint cfg); LeaderRun "kube-system" "harvester-csi-node-monitor"]
      /\ In (ev (LeaderRun "kube-system" "harvester-csi-node-monitor") ended) tr
  | Returns _ => False
  end.

Lemma startDriver_spec cfg id ns host d :
  wp (startDriver cfg id ns host d) (fun tr o =>
    exists r m, o = Returned r /\ started cfg id tr r m /\ configured cfg id ns d m tr).
Proof.
  unfold startDriver. cbn. intros [] rn rl [] [n|e]; cbn.
  - destruct (bool_decide _) eqn:Eb; cbn.
    + apply bool_decide_eq_true in Eb. intros ended. do 2 eexists. split; [done|]. split.
      { split_and!; [done..|by writes_simpl|auto 10 with csi]. }
      unfold configured. cbn. split_and!; auto with csi.
      intros c [= <-]. split; [done|]. exists n. auto 10 with csi.
    + apply bool_decide_eq_false in Eb. do 2 eexists. split; [done|]. split.
      { split_and!; [done..|by writes_simpl|]. exists (Ok n). auto 10 with csi. }
      unfold configured. cbn. by split_and!; auto with csi.
  - do 2 eexists. split; [done|]. split.
    { split_and!; [done..|by writes_simpl|]. exists (Err e). auto 10 with csi. }
    unfold configured. cbn. by split_and!; auto with csi.
Qed.

Lemma started_after cfg id pre tr r m :
  writes pre = [] -> started cfg id tr r m -> started cfg id (pre ++ tr) r m.
Proof.
  intros Hw. destruct r as [e|m'|m' ended]; [done| |]; cbn.
  - intros (-> & Hc & Hw' & node & Hin & Hn). split_and!; [done..|by writes_simpl|].
    exists node. auto with csi.
  - intros (-> & Hc & Hw' & Hn). split_and!; [done..|by writes_simpl|auto with csi].
Qed.

(** How the driver knows which instance it runs on *)
Definition identified (cfg : Config) (ns id : string) (tr : trace reply) : Prop :=
  id = NodeID cfg
  \/ exists ifaces, Forall (fun hw => net.is_addr hw /\ read_mac hw tr) ifaces
       /\ discovered_by ns (NodeID cfg) ifaces id tr.

Lemma identified_grows cfg ns id : grows (identified cfg ns id).
Proof.
  unfold grows, incl. intros tr tr' Hi [H|(ifs & HF & vmi & Hn & Hs & Hv)]; [by left|right].
  exists ifs. split.
  - eapply Forall_impl; [exact HF|]. cbn. intros hw [? ?]. split; [done|]. by eapply read_mac_grows.
  - exists vmi. split_and!; try done. destruct Hv as [Hv|(items & ? & ?)]; eauto 6.
Qed.

(** The error of some service of the trace *)
Definition reported (e : error) (tr : trace reply) : Prop :=
  exists x, In x tr /\ reply_error x = Some e.

Lemma reported_grows e : grows (reported e).
Proof. unfold grows, incl. intros tr tr' Hi (x & ? & ?). exists x. auto. Qed.

Definition start_post (cfg : Config) (ns : string) (d : bool) (tr : trace reply)
    (o : outcome run_result) : Prop :=
  match o with
  | Returned (Returns (Some e)) => reported e tr /\ writes tr = []
  | Returned (Returns None) => False
  | Returned r =>
      exists m id, started cfg id tr r m /\ configured cfg id ns d m tr /\ identified cfg ns id tr
  | Panicked _ => False
  end.

Lemma discoverAndStart_spec cfg ns host d :
  wp (discoverAndStart cfg ns host d) (start_post cfg ns d).
Proof.
  unfold discoverAndStart. eapply wp_bind_use; [apply Interfaces_spec| |by intros tr w [_ []]].
  intros tr1 r [Hw1 Hr]. set (ifaces := match r with Ok l => l | Err _ => [] end).
  assert (HF : Forall (fun hw => net.is_addr hw /\ read_mac hw tr1) ifaces) by by destruct r.
  eapply wp_bind_use; [apply (discoverVMIName_spec _ _ ifaces)| |by intros tr w [_ []]].
  { eapply Forall_impl; [exact HF|]. by intros hw [? _]. }
  assert (Hstart : forall tr2 id, writes tr2 = [] -> identified cfg ns id (tr1 ++ tr2) ->
    wp (startDriver cfg id ns host d) (fun tr o => start_post cfg ns d (tr1 ++ tr2 ++ tr) o)).
  { intros tr2 id Hw2 Hid. eapply wp_mono; [apply startDriver_spec|].
    intros tr o (r' & m & -> & Hs & Hc).
    assert (exists m id, started cfg id (tr1 ++ tr2 ++ tr) r' m
              /\ configured cfg id ns d m (tr1 ++ tr2 ++ tr) /\ identified cfg ns id (tr1 ++ tr2 ++ tr)).
    { exists m, id. rewrite app_assoc. split_and!.
      - apply started_after; [by writes_simpl|done].
      - by apply grows_app_r; [apply configured_grows|].
      - by apply grows_app_l; [apply identified_grows|]. }
    by destruct r' as [[e|]|m'|m' ended]. }
  intros tr2 [name| |e] [Hw2 H2].
  - apply Hstart; [done|]. right. exists ifaces. split.
    + eapply Forall_impl; [exact HF|]. cbn. intros hw [? ?]. split; [done|].
      by apply grows_app_l; [apply read_mac_grows|].
    + destruct H2 as (vmi & Hn & Hs & Hv). exists vmi. split_and!; try done.
      destruct Hv as [Hv|(items & ? & ?)]; [left|right; exists items]; auto with csi.
  - apply Hstart; [done|]. by left.
  - cbn. rewrite app_nil_r. split; [|by writes_simpl].
    apply grows_app_r; [apply reported_grows|]. by eexists.
Qed.

Lemma newClients_spec names k Q :
  (forall tr, writes tr = [] -> wp k (fun tr' o => Q (tr ++ tr') o)) ->
  (forall tr e, writes tr = [] -> reported e tr -> Q tr (Returned (Returns (Some e)))) ->
  wp (newClients names k) Q.
Proof.
  revert Q. induction names as [|n names IH]; intros Q Hk Herr; [by apply (Hk [])|].
  cbn. intros [[]|e]; cbn.
  - apply IH.
    + intros tr Htr. apply (Hk (ev (NewClient n) (Ok tt) :: tr)). by writes_simpl.
    + intros tr e Htr Hr. apply Herr; [by writes_simpl|].
      by apply (grows_app_r _ [_]); [apply reported_grows|].
  - apply Herr; [by writes_simpl|]. eexists. split; [apply in_eq|done].
Qed.

(** How a run of Run ends *)
Definition run_post (cfg : Config) (tr : trace reply) (o : outcome run_result) : Prop :=
  match o with
  | Returned (Returns (Some e)) => reported e tr /\ writes tr = []
  | Returned (Returns None) => writes tr = []
      /\ exists e, In (ev (NewClient "in-cluster config") (Err e)) tr
  | Returned r =>
      exists m ns setting id, started cfg id tr r m /\ ns <> ""
        /\ In (ev (SettingGet serverVersionSettingName) (Ok setting)) tr
        /\ configured cfg id ns (IsVersionAtLeast (set_Value setting) 1 8) m tr
        /\ identified cfg ns id tr
  | Panicked _ => False
  end.

Lemma run_post_reported cfg tr e :
  writes tr = [] -> reported e tr -> run_post cfg tr (Returned (Returns (Some e))).
Proof. by split. Qed.

Lemma run_post_start cfg ns setting pre tr o :
  ns <> "" -> writes pre = [] -> In (ev (SettingGet serverVersionSettingName) (Ok setting)) pre ->
  start_post cfg ns (IsVersionAtLeast (set_Value setting) 1 8) tr o -> run_post cfg (pre ++ tr) o.
Proof.
  intros Hns Hpre Hset Ho.
  assert (Hup : forall r,
    (exists m id, started cfg id tr r m
       /\ configured cfg id ns (IsVersionAtLeast (set_Value setting) 1 8) m tr /\ identified cfg ns id tr) ->
    exists m ns setting id, started cfg id (pre ++ tr) r m /\ ns <> ""
      /\ In (ev (SettingGet serverVersionSettingName) (Ok setting)) (pre ++ tr)
      /\ configured cfg id ns (IsVersionAtLeast (set_Value setting) 1 8) m (pre ++ tr)
      /\ identified cfg ns id (pre ++ tr)).
  { intros r (m & id & Hs & Hc & Hi). exists m, ns, setting, id.
    split_and!; [by apply started_after|done|auto with csi| |].
    - by apply grows_app_r; [apply configured_grows|].
    - by apply grows_app_r; [apply identified_grows|]. }
  destruct o as [[[e|]|m|m ended]|w]; try done; [|by apply Hup..].
  destruct Ho as [Hr Hw]. split; [|by writes_simpl]. by apply grows_app_r; [apply reported_grows|].
Qed.

Lemma runWith_spec cfg pre :
  writes pre = [] -> wp (runWith cfg) (fun tr o => run_post cfg (pre ++ tr) o).
Proof.
  intros Hpre. unfold runWith. cbn [bind wp trigger]. intros [[]|e].
  2:{ split; [by writes_simpl|]. exists e. auto with csi. }
  apply newClients_spec.
  2:{ intros tr e Htr Hr. apply run_post_reported; [by writes_simpl|].
      apply grows_app_r; [apply reported_grows|]. by apply (grows_app_r _ [_]); [apply reported_grows|]. }
  intros tr1 Htr1. cbn [bind wp trigger]. intros [ns0|e].
  2:{ apply run_post_reported; [by writes_simpl|]. exists (ev (ConfigNamespace (KubeConfig cfg)) (Err e)). split; [auto 12 with csi|reflexivity]. }
  cbn [bind wp trigger]. intros [host|e].
  2:{ apply run_post_reported; [by writes_simpl|]. exists (ev (ClientConfigHost (KubeConfig cfg)) (Err e)). split; [auto 12 with csi|reflexivity]. }
  apply newClients_spec.
  2:{ intros tr e Htr (x & Hx & He). apply run_post_reported; [by writes_simpl|]. exists x. auto 10 with csi. }
  intros tr2 Htr2. cbn [bind wp trigger]. intros [setting|e].
  2:{ apply run_post_reported; [by writes_simpl|]. exists (ev (SettingGet serverVersionSettingName) (Err e)). split; [auto 14 with csi|reflexivity]. }
  eapply wp_mono; [apply discoverAndStart_spec|]. intros tr o Ho.
  match goal with |- run_post _ ?t _ =>
    assert (t = (pre ++ (ev (NewClient "in-cluster config") (Ok tt) :: tr1 ++
      (ev (ConfigNamespace (KubeConfig cfg)) (Ok ns0)
       :: ev (ClientConfigHost (KubeConfig cfg)) (Ok host) :: tr2
       ++ [ev (SettingGet serverVersionSettingName) (Ok setting)]))) ++ tr) as ->
    by (by rewrite <- app_assoc; cbn [app]; rewrite <- app_assoc; cbn [app]; rewrite <- app_assoc) end.
  eapply run_post_start; [| |auto 12 with csi|exact Ho]; [|by writes_simpl].
  destruct (ns0 =? "")%string eqn:En; [done|by bool_to_prop].
Qed.

(** C30: a driver that comes up is configured consistently.  The node server
    and the controller server work in the same namespace, which is not empty;
    the controller server and the node controller use the same hotplug mode,
    decided by the server version that was read; the identity of the node is
    the configured one or the name of an instance that has a hardware address
    which was read from this node's sysfs; and the index by which
    unpublishRWXVolume looks for the pods of a claim was added.  Run itself
    writes nothing but this: it starts the server at the configured endpoint,
    and then, just when the guest node of that identity was read with the
    control-plane label, takes part in the leader election for the node
    controller (which holds a Lease), in which it stays until the process
    ends; otherwise there is no node controller and Run waits.  Where Run
    returns an error, some service failed with it, and it returns none only
    outside of a cluster; then nothing was started. *)
Theorem Run_configuration cfg :
  all_runs (Run cfg) (fun tr o =>
    match o with
    | Returned (Returns (Some e)) => reported e tr /\ writes tr = []
    | Returned (Returns None) => writes tr = []
        /\ exists e, In (ev (NewClient "in-cluster config") (Err e)) tr
    | Returned r =>
        exists m ns setting id, started cfg id tr r m /\ ns <> ""
          /\ In (ev (SettingGet serverVersionSettingName) (Ok setting)) tr
          /\ configured cfg id ns (IsVersionAtLeast (set_Value setting) 1 8) m tr
          /\ identified cfg ns id tr
    | Panicked _ => False
    end).
Proof.
  apply wp_iff. unfold Run. cbn [bind wp trigger]. intros [[]|e].
  - by apply (runWith_spec cfg [_]).
  - destruct (errors.IsNotExist e).
    + by apply (runWith_spec (set_KubeConfig defaultKubeconfigPath cfg) [_]).
    + split; [|done]. exists (ev (OsStat (KubeConfig cfg)) (Err e)). split; [apply in_eq|reflexivity].
Qed.
