(* ===== verification/VersionThm.v ===== *)
(** * Properties of the Harvester version test *)

From S2P Require Import Prelude Go Utils.

(** ** Decimal numbers *)

Definition digit_value (c : ascii) : Z := Z.of_nat (nat_of_ascii c) - 48.

(** The number a string of digits denotes *)
Fixpoint decimal (s : string) : Z :=
  match s with
  | EmptyString => 0
  | String c r => digit_value c * 10 ^ Z.of_nat (String.length r) + decimal r
  end.

Fixpoint digits (s : string) : Prop :=
  match s with
  | EmptyString => True
  | String c r => semver.isDigit c = true /\ digits r
  end.

(** Digits, at least one, without a leading zero *)
Definition canonical (s : string) : Prop :=
  s = "0" \/ exists c r, s = String c r /\ digits s /\ 1 <= digit_value c.

Lemma isDigit_iff c : semver.isDigit c = true <-> 0 <= digit_value c <= 9.
Proof.
  unfold semver.isDigit, semver.ascii_le, digit_value, nat_of_ascii.
  rewrite andb_true_iff, !N.leb_le. change (N_of_ascii "0") with 48%N. change (N_of_ascii "9") with 57%N.
  split; lia.
Qed.

Lemma digit_value_inj c d : digit_value c = digit_value d -> c = d.
Proof.
  unfold digit_value. intros H. rewrite <- (ascii_nat_embedding c), <- (ascii_nat_embedding d).
  f_equal. lia.
Qed.

Lemma decimal_bounds s : digits s -> 0 <= decimal s < 10 ^ Z.of_nat (String.length s).
Proof.
  induction s as [|c s IH]; [done|]. intros [Hc%isDigit_iff Hs]. specialize (IH Hs).
  cbn [decimal String.length]. rewrite Nat2Z.inj_succ, Z.pow_succ_r by lia. nia.
Qed.

Lemma canonical_digits s : canonical s -> digits s /\ s <> "".
Proof. intros [->|(c & r & -> & H & _)]; done. Qed.

(** A longer canonical string denotes a larger number. *)
Lemma decimal_longer x y :
  canonical x -> canonical y -> (String.length x < String.length y)%nat -> decimal x < decimal y.
Proof.
  intros [Hx Hx0]%canonical_digits Hy Hlen. apply decimal_bounds in Hx as [_ Hx].
  destruct Hy as [->|(c & r & -> & [Hc Hr] & H1)].
  { destruct x; cbn in Hlen; [done|lia]. }
  apply decimal_bounds in Hr as [Hr _]. cbn [decimal String.length] in *.
  assert (10 ^ Z.of_nat (String.length x) <= 10 ^ Z.of_nat (String.length r))
    by (apply Z.pow_le_mono_r; lia). nia.
Qed.

(** On strings of one length the order of the bytes is that of the numbers. *)
Lemma decimal_compare x y :
  digits x -> digits y -> String.length x = String.length y ->
  String.compare x y = (decimal x ?= decimal y).
Proof.
  revert y. induction x as [|c x IH]; intros [|d y]; try done.
  intros [Hc Hx] [Hd Hy] [= Hlen]. cbn [String.compare decimal]. rewrite <- Hlen.
  pose proof (decimal_bounds x Hx). pose proof (decimal_bounds y Hy). rewrite <- Hlen in *.
  assert (Hcd : Ascii.compare c d = (digit_value c ?= digit_value d)).
  { unfold Ascii.compare, digit_value, nat_of_ascii.
    destruct (N.compare_spec (N_of_ascii c) (N_of_ascii d)); symmetry;
      [apply Z.compare_eq_iff|apply Z.compare_lt_iff|apply Z.compare_gt_iff]; lia. }
  rewrite Hcd. set (b := 10 ^ Z.of_nat (String.length x)) in *.
  destruct (Z.compare_spec (digit_value c) (digit_value d)) as [E|E|E].
  - rewrite (IH y Hx Hy Hlen), E.
    destruct (Z.compare_spec (decimal x) (decimal y)); symmetry;
      [apply Z.compare_eq_iff|apply Z.compare_lt_iff|apply Z.compare_gt_iff]; lia.
  - symmetry. apply Z.compare_lt_iff. nia.
  - symmetry. apply Z.compare_gt_iff. nia.
Qed.

(** semver's comparison of numbers as strings is the comparison of numbers. *)
Lemma compareInt_decimal x y :
  canonical x -> canonical y ->
  semver.compareInt x y = match decimal x ?= decimal y with Eq => 0 | Lt => -1 | Gt => 1 end.
Proof.
  intros Hx Hy. unfold semver.compareInt.
  destruct (x =? y)%string eqn:E; bool_to_prop; [subst; by rewrite Z.compare_refl|].
  destruct (_ <? _)%nat eqn:E1; [apply Nat.ltb_lt in E1|apply Nat.ltb_ge in E1].
  { by rewrite (proj2 (Z.compare_lt_iff _ _) (decimal_longer x y Hx Hy E1)). }
  destruct (String.length y <? _)%nat eqn:E2; [apply Nat.ltb_lt in E2|apply Nat.ltb_ge in E2].
  { by rewrite (proj2 (Z.compare_gt_iff _ _) (decimal_longer y x Hy Hx E2)). }
  destruct (canonical_digits x Hx) as [Dx _], (canonical_digits y Hy) as [Dy _].
  rewrite <- decimal_compare by (done || lia). unfold String.ltb.
  destruct (String.compare x y) eqn:Ec; try done.
  by apply String.compare_eq_iff in Ec.
Qed.

(** ** Printing numbers *)

Lemma pretty_char x :
  (x < 10)%N -> semver.isDigit (pretty_N_char x) = true /\ digit_value (pretty_N_char x) = Z.of_N x.
Proof.
  intros H. assert (Hx : In x (map N.of_nat (seq 0 10))).
  { apply in_map_iff. exists (N.to_nat x). split; [lia|]. apply in_seq. lia. }
  revert Hx. clear. cbn. intros Hx. by inv_In Hx.
Qed.

Lemma pretty_go_decimal x s :
  digits s ->
  digits (pretty_N_go x s)
  /\ decimal (pretty_N_go x s) = Z.of_N x * 10 ^ Z.of_nat (String.length s) + decimal s
  /\ ((0 < x)%N -> exists c r, pretty_N_go x s = String c r /\ 1 <= digit_value c).
Proof.
  revert s. induction (N.lt_wf_0 x) as [x _ IH]. intros s Hs.
  destruct (decide (x = 0%N)) as [->|Hx].
  { rewrite pretty_N_go_0. split_and!; [done|lia|done]. }
  assert (Hpos : (0 < x)%N) by lia. rewrite pretty_N_go_step by done.
  destruct (pretty_char (x `mod` 10)) as [Hd Hv]; [by apply N.mod_lt|].
  destruct (IH (x `div` 10)%N ltac:(by apply N.div_lt) (String (pretty_N_char (x `mod` 10)) s))
    as (D & V & H); [done|].
  split_and!; [done| |].
  - rewrite V. cbn [decimal String.length]. rewrite Hv, Nat2Z.inj_succ, Z.pow_succ_r by lia.
    pose proof (N.div_mod x 10 ltac:(done)). nia.
  - intros _. destruct (decide (x < 10)%N) as [Hlt|Hge].
    + rewrite N.div_small by done. rewrite pretty_N_go_0, N.mod_small in * by done.
      do 2 eexists. split; [done|]. rewrite Hv. lia.
    + apply H. apply N.div_str_pos. lia.
Qed.

Lemma pretty_canonical z : 0 <= z -> canonical (pretty z) /\ decimal (pretty z) = z.
Proof.
  intros Hz. destruct z as [|p|p]; [|change (pretty (Z.pos p)) with (pretty_N_go (N.pos p) "")|lia].
  { split; [by left|done]. }
  destruct (pretty_go_decimal (N.pos p) "" I) as (D & V & c & r & E & Hc); [done|].
  split; [|rewrite V; cbn; lia]. right. exists c, r. rewrite E in *. auto.
Qed.

(** ** Parsing versions *)

Definition starts_nondigit (s : string) : Prop :=
  match s with EmptyString => True | String c _ => semver.isDigit c = false end.

Lemma span_digits d rest :
  digits d -> starts_nondigit rest -> semver.span semver.isDigit (d +:+ rest) = (d, rest).
Proof.
  intros Hd Hr. induction d as [|c d IH].
  - destruct rest as [|c rest]; [done|]. change ("" +:+ String c rest) with (String c rest).
    unfold starts_nondigit in Hr. cbn [semver.span]. by rewrite Hr.
  - destruct Hd as [Hc Hd]. change (String c d +:+ rest) with (String c (d +:+ rest)).
    cbn [semver.span]. by rewrite Hc, IH.
Qed.

Lemma span_result test v a b : semver.span test v = (a, b) -> v = a +:+ b.
Proof.
  revert a b. induction v as [|c v IH]; intros a b; cbn [semver.span]; [by intros [= <- <-]|].
  destruct (test c); [|by intros [= <- <-]].
  destruct (semver.span test v) as [a' b'] eqn:E. intros [= <- <-]. by rewrite (IH a' b').
Qed.

Lemma span_digits_result v a b : semver.span semver.isDigit v = (a, b) -> digits a.
Proof.
  revert a b. induction v as [|c v IH]; intros a b; cbn [semver.span]; [by intros [= <- <-]|].
  destruct (semver.isDigit c) eqn:Ec; [|by intros [= <- <-]].
  destruct (semver.span _ v) as [a' b'] eqn:E. intros [= <- <-]. split; [done|]. by eapply IH.
Qed.

Lemma parseInt_canonical d rest :
  canonical d -> starts_nondigit rest -> semver.parseInt (d +:+ rest) = Some (d, rest).
Proof.
  intros [->|(c & r & -> & [Hc Hr] & H1)] Hrest.
  - change ("0" +:+ rest) with (String "0" ("" +:+ rest)). cbn [semver.parseInt].
    by rewrite (span_digits "" rest I Hrest).
  - change (String c r +:+ rest) with (String c (r +:+ rest)). cbn [semver.parseInt].
    rewrite Hc, (span_digits r rest Hr Hrest). cbn [negb].
    destruct (Ascii.eqb_spec c "0") as [->|]; [by vm_compute in H1|done].
Qed.

Lemma parseInt_result v d rest : semver.parseInt v = Some (d, rest) -> canonical d.
Proof.
  destruct v as [|c v]; [done|]. cbn [semver.parseInt].
  destruct (semver.isDigit c) eqn:Ec; [|done]. cbn [negb].
  destruct (semver.span semver.isDigit v) as [ds r] eqn:Es. apply span_digits_result in Es.
  destruct (Ascii.eqb_spec c "0") as [->|Hne].
  - destruct (ds =? "")%string eqn:Ed; bool_to_prop; [|done]. subst. intros [= <- <-]. by left.
  - intros [= <- <-]. right. exists c, ds. split_and!; try done.
    apply isDigit_iff in Ec. destruct (decide (digit_value c = 0)) as [E|]; [|lia].
    exfalso. apply Hne, digit_value_inj. by rewrite E.
Qed.

Definition target (maj min : Z) : string := "v" +:+ pretty maj +:+ "." +:+ pretty min +:+ ".0-0".

Lemma parse_target maj min :
  0 <= maj -> 0 <= min ->
  semver.parse (target maj min) = Some (semver.mkParsed (pretty maj) (pretty min) "0" "" "-0" "").
Proof.
  intros [Hmaj _]%pretty_canonical [Hmin _]%pretty_canonical. unfold target, semver.parse.
  change ("v" +:+ ?x) with (String "v" x). cbv iota.
  rewrite (parseInt_canonical _ _ Hmaj) by done.
  change ("." +:+ ?x) with (String "." x). cbv iota.
  by rewrite (parseInt_canonical _ _ Hmin).
Qed.

(** A pre-release as parse leaves it: empty, or a hyphen and identifiers of
    which the first is not empty *)
Definition prerelease_ok (p : string) : Prop :=
  p = "" \/ exists c t, p = String "-" (String c t) /\ c <> "."%char.

Lemma prerelease_loop_head v t rest :
  semver.prerelease_loop v "" = Some (t, rest) -> exists c t', t = String c t' /\ c <> "."%char.
Proof.
  destruct v as [|c v]; cbn [semver.prerelease_loop String.eqb orb]; [done|].
  destruct (Ascii.eqb c "+"); [done|]. destruct (negb _ && _); [done|].
  destruct (Ascii.eqb_spec c "."); [done|].
  destruct (semver.prerelease_loop v _) as [[t' r']|]; [|done]. intros [= <- <-]. eauto.
Qed.

Lemma parse_suffix_ok ma mi pa v p :
  semver.parse_suffix ma mi pa v = Some p ->
  semver.major p = ma /\ semver.minor p = mi /\ semver.patch p = pa /\ prerelease_ok (semver.prerelease p).
Proof.
  unfold semver.parse_suffix.
  assert (Hpre : forall x y, match v with
             | String "-" _ => semver.parsePrerelease v
             | _ => Some ("", v)
             end = Some (x, y) -> prerelease_ok x).
  { destruct v as [|c v]; [by intros x y [= <- <-]; left|]. intros x y.
    destruct (Ascii.eqb_spec c "-") as [->|Hne].
    - cbn [semver.parsePrerelease].
      destruct (semver.prerelease_loop v "") as [[t r]|] eqn:E; [|done]. intros [= <- <-].
      apply prerelease_loop_head in E as (c & t' & -> & Hc). right. eauto.
    - intros H. left. revert H. destruct c as [[] [] [] [] [] [] [] []]; try (by intros [= <- _]). done. }
  destruct (match v with String "-" _ => _ | _ => _ end) as [[x y]|]; [|done].
  specialize (Hpre x y eq_refl).
  destruct (match y with String "+" _ => _ | _ => _ end) as [[b z]|]; [|done].
  destruct (z =? "")%string; [|done]. by intros [= <-].
Qed.

Lemma parse_ok v p :
  semver.parse v = Some p ->
  canonical (semver.major p) /\ canonical (semver.minor p) /\ canonical (semver.patch p)
  /\ prerelease_ok (semver.prerelease p).
Proof.
  unfold semver.parse. intros H.
  repeat match type of H with
         | context [match semver.parseInt ?x with _ => _ end] => destruct (semver.parseInt x) as [[? ?]|] eqn:?
         | context [match ?x with _ => _ end] => is_var x; destruct x
         end; try done.
  all: repeat match goal with E : semver.parseInt _ = Some _ |- _ => apply parseInt_result in E end.
  all: first [apply parse_suffix_ok in H as (-> & -> & -> & ?) | injection H as <-];
    split_and!; try done; by left.
Qed.

Lemma compareIdent_zero dx : dx <> "" -> dx <> "0" -> semver.compareIdent dx "0" = 1.
Proof.
  intros H1 H2. unfold semver.compareIdent. change (semver.isNum "0") with true.
  destruct (semver.isNum dx) eqn:En; [|done]. cbn [negb Bool.eqb andb].
  destruct dx as [|c [|d dx]]; [done| |done]. cbn [String.length Nat.ltb Nat.leb].
  assert (Hc : 0 < digit_value c).
  { unfold semver.isNum in En. cbn [semver.span] in En.
    destruct (semver.isDigit c) eqn:Ec; [|by apply String.eqb_eq in En].
    apply isDigit_iff in Ec. destruct (decide (digit_value c = 0)) as [E|]; [|lia].
    exfalso. apply H2. by rewrite (digit_value_inj c "0" E). }
  unfold String.ltb. cbn [String.compare]. unfold Ascii.compare, digit_value, nat_of_ascii in *.
  change (N_of_ascii "0") with 48%N. by rewrite (proj2 (N.compare_gt_iff _ _)) by lia.
Qed.

Lemma span_length test v a b :
  semver.span test v = (a, b) -> (String.length b <= String.length v)%nat.
Proof.
  revert a b. induction v as [|c v IH]; intros a b; cbn [semver.span]; [by intros [= <- <-]|].
  destruct (test c); [|by intros [= <- <-]].
  destruct (semver.span test v) as [a' b'] eqn:E. intros [= <- <-].
  specialize (IH _ _ eq_refl). cbn [String.length]. lia.
Qed.

(** The length of the first pre-release is fuel enough: more does not change
    the answer of the loop. *)
Lemma comparePrerelease_fuel n m x y :
  (String.length x <= n)%nat -> (String.length x <= m)%nat ->
  semver.comparePrerelease_loop n x y = semver.comparePrerelease_loop m x y.
Proof.
  revert m x y. induction n as [|n IH]; intros m x y Hn Hm.
  { destruct x; [by destruct m|by cbn in Hn; lia]. }
  destruct m as [|m]; [destruct x; [done|by cbn in Hm; lia]|].
  cbn [semver.comparePrerelease_loop].
  destruct ((x =? "")%string || (y =? "")%string) eqn:E; [done|].
  destruct (semver.nextIdent (semver.tail x)) as [dx x'] eqn:Ex.
  destruct (semver.nextIdent (semver.tail y)) as [dy y'].
  destruct (negb _); [done|]. apply span_length in Ex. destruct x as [|c x]; [done|].
  change (semver.tail (String c x)) with x in Ex. cbn [String.length] in *. apply IH; lia.
Qed.

(** The pre-release 0 is the lowest. *)
Lemma comparePrerelease_lowest p : prerelease_ok p -> 0 <= semver.comparePrerelease p "-0".
Proof.
  unfold semver.comparePrerelease. intros [->|(c & t & -> & Hc)]; [done|].
  destruct (_ =? _)%string eqn:E; [done|]. apply String.eqb_neq in E.
  cbn [String.eqb String.length semver.comparePrerelease_loop orb]. unfold semver.nextIdent, semver.tail.
  change (strings.skip 1 (String "-" ?x)) with x.
  destruct (semver.span _ (String c t)) as [dx x'] eqn:Es.
  pose proof (span_result _ _ _ _ Es) as Hsplit.
  assert (Hdx : dx <> "").
  { intros ->. cbn [semver.span] in Es. destruct (Ascii.eqb_spec c "."); [done|].
    cbn [negb] in Es. by destruct (semver.span _ t). }
  change (semver.span _ "0") with ("0", ""). cbv beta iota zeta.
  destruct (dx =? "0")%string eqn:Ed; cbn [negb]; bool_to_prop.
  - subst dx. destruct x' as [|e x']; [by rewrite Hsplit in E|].
    destruct t; [by destruct c as [[] [] [] [] [] [] [] []]|].
    cbn [String.length semver.comparePrerelease_loop String.eqb orb]. done.
  - rewrite compareIdent_zero; [lia|done|done].
Qed.

(** C28: IsVersionAtLeast compares versions, not strings: for a valid
    semantic version, whatever its patch number, its pre-release and its
    build, it tells whether the pair of its major and minor number is at
    least the given one, as numbers and in lexicographic order (so v1.10.0
    and v1.8.0-rc1 have at least version 1.8); for a string that is not a
    version it answers yes. *)
Theorem IsVersionAtLeast_exact version maj min :
  0 <= maj -> 0 <= min ->
  IsVersionAtLeast version maj min = true <->
  match semver.parse version with
  | None => True
  | Some p =>
      maj < decimal (semver.major p)
      \/ (maj = decimal (semver.major p) /\ min <= decimal (semver.minor p))
  end.
Proof.
  intros Hmaj Hmin. unfold IsVersionAtLeast, semver.IsValid, semver.Compare.
  change ("v" +:+ pretty maj +:+ "." +:+ pretty min +:+ ".0-0") with (target maj min).
  destruct (semver.parse version) as [p|] eqn:Ep; [|done]. cbn [negb].
  rewrite parse_target by done. cbn [semver.major semver.minor semver.patch semver.prerelease].
  apply parse_ok in Ep as (C1 & C2 & C3 & Hpre).
  destruct (pretty_canonical maj Hmaj) as [T1 V1], (pretty_canonical min Hmin) as [T2 V2].
  rewrite (compareInt_decimal _ _ C1 T1), (compareInt_decimal _ _ C2 T2).
  rewrite (compareInt_decimal _ _ C3 (or_introl eq_refl)), V1, V2.
  destruct (Z.compare_spec (decimal (semver.major p)) maj); cbn [negb Z.eqb]; [|split; [done|lia]|split; [lia|done]].
  destruct (Z.compare_spec (decimal (semver.minor p)) min); cbn [negb Z.eqb]; [|split; [done|lia]|split; [lia|done]].
  split; [lia|intros _]. apply Z.leb_le. apply canonical_digits in C3 as [[H3 _]%decimal_bounds _].
  change (decimal "0") with 0. destruct (Z.compare_spec (decimal (semver.patch p)) 0); [|lia|done].
  by apply comparePrerelease_lowest.
Qed.

(** The version 1.10 of Harvester has declarative hotplug, 1.7 has not. *)
Lemma IsVersionAtLeast_exact_witness :
  IsVersionAtLeast "v1.10.0-rc2+build" 1 8 = true /\ IsVersionAtLeast "v1.7.9" 1 8 <> true.
Proof.
  split.
  - apply (IsVersionAtLeast_exact "v1.10.0-rc2+build" 1 8); [lia|lia|].
    vm_compute. right. split; [reflexivity|discriminate].
  - intros H. apply (IsVersionAtLeast_exact "v1.7.9" 1 8) in H; [|lia|lia].
    vm_compute in H. destruct H as [H|[_ H]]; [discriminate H|by apply H].
Defined.
