(* ===== verification/Main.v ===== *)
(** * main.go: the command line

    The flags of the driver and how the arguments and the environment turn
    into the configuration that Manager.Run gets.  Of the cli library
    (vendor/github.com/urfave/cli) and of package flag of Go, the code that
    main uses is translated: the defaults and environment variables of the
    flags, the syntax of the arguments, and what is done when the arguments
    do not parse or ask for help or the version. *)

From S2P Require Import Prelude Go Prog Kube Csi Api CsiUtil Controller NodeServer NodeController Net Server Manager.

(** ** Flags *)

(** The value of a flag; the fields of cfg are the variables of the flags
    that have a Destination. *)
Inductive value := VString (s : string) | VBool (b : bool).

(** cli.StringFlag and cli.BoolFlag.  [fl_Names] are the names eachName
    finds in the Name field; a BoolFlag has no Value field. *)
Inductive Flag :=
| StringFlag (fl_Names : list string) (fl_Value fl_EnvVar : string)
| BoolFlag (fl_Names : list string) (fl_EnvVar : string).

(** The flags of main.go *)
Definition flags : list Flag :=
  [ StringFlag ["endpoint"] "unix:///csi/csi.sock" "";
    StringFlag ["nodeid"] "" "";
    StringFlag ["kubeconfig"] "" "";
    BoolFlag ["debug"] "DEBUG";
    StringFlag ["host-storage-class"] "" "HOST_STORAGE_CLASS" ].

Definition HelpFlag : Flag := BoolFlag ["help"; "h"] "".
Definition VersionFlag : Flag := BoolFlag ["version"; "v"] "".

(** strconv.ParseBool *)
Definition ParseBool (s : string) : option bool :=
  if existsb (String.eqb s) ["1"; "t"; "T"; "true"; "TRUE"; "True"] then Some true
  else if existsb (String.eqb s) ["0"; "f"; "F"; "false"; "FALSE"; "False"] then Some false
  else None.

(** flag.FlagSet: the variables of the flags, and the names that were set *)
Record FlagSet := mkFlagSet { formal : gmap string value; actual : list string }.

Definition declare (names : list string) (v : value) (set : FlagSet) : FlagSet :=
  mkFlagSet (foldr (fun n m => <[n := v]> m) (formal set) names) (actual set).

(** FlagSet.Set, and the end of parseOne *)
Definition setFlag (name : string) (v : value) (set : FlagSet) : FlagSet :=
  mkFlagSet (<[name := v]> (formal set)) (name :: actual set).

(** syscall.Getenv; no variable has the empty name. *)
Abbreviation environment := (string -> option string).

Definition flagFromEnv (env : environment) (name : string) : option string :=
  if (name =? "")%string then None else env name.

(** ApplyWithError; the text of strconv's error is left out. *)
Definition applyFlag (env : environment) (f : Flag) (set : FlagSet) : result FlagSet :=
  match f with
  | StringFlag names value envVar =>
      Ok (declare names (VString (default value (flagFromEnv env envVar))) set)
  | BoolFlag names envVar =>
      match flagFromEnv env envVar with
      | None => Ok (declare names (VBool false) set)
      | Some envVal =>
          if (envVal =? "")%string then Ok (declare names (VBool false) set)
          else match ParseBool envVal with
               | Some b => Ok (declare names (VBool b) set)
               | None => Err (FmtErr ("could not parse " +:+ envVal +:+ " as bool value for flag"))
               end
      end
  end.

Fixpoint flagSet (env : environment) (fs : list Flag) (set : FlagSet) : result FlagSet :=
  match fs with
  | [] => Ok set
  | f :: fs => match applyFlag env f set with
               | Ok set => flagSet env fs set
               | Err e => Err e
               end
  end.

(** ** The syntax of the arguments (package flag) *)

Inductive token := Positional | Terminator | BadSyntax | FlagArg (name : string) (value : option string).

Definition flagToken (s : string) : token :=
  match s with
  | String "-" (String c rest) =>
      let name := if (c =? "-")%char then rest else String c rest in
      match name with
      | EmptyString => Terminator
      | String d _ =>
          if (d =? "-")%char || (d =? "=")%char then BadSyntax
          else match strings.Cut name "=" with
               | Some (n, v) => FlagArg n (Some v)
               | None => FlagArg name None
               end
      end
  | _ => Positional
  end.

(** FlagSet.Parse: the error, the set and the arguments that are left.  The
    quoted value in the error about a boolean is left out. *)
Fixpoint Parse (set : FlagSet) (args : list string) : option error * FlagSet * list string :=
  match args with
  | [] => (None, set, [])
  | s :: rest =>
      match flagToken s with
      | Positional => (None, set, args)
      | Terminator => (None, set, rest)
      | BadSyntax => (Some (FmtErr ("bad flag syntax: " +:+ s)), set, args)
      | FlagArg name value =>
          match formal set !! name with
          | None => (Some (if existsb (String.eqb name) ["help"; "h"] then OtherErr "flag: help requested"
                           else FmtErr ("flag provided but not defined: -" +:+ name)), set, rest)
          | Some (VBool _) =>
              match ParseBool (default "true" value) with
              | Some b => Parse (setFlag name (VBool b) set) rest
              | None => (Some (FmtErr ("invalid boolean value for -" +:+ name +:+ ": parse error")),
                         mkFlagSet (<[name := VBool false]> (formal set)) (actual set), rest)
              end
          | Some (VString _) =>
              match value, rest with
              | Some v, _ => Parse (setFlag name (VString v) set) rest
              | None, v :: rest' => Parse (setFlag name (VString v) set) rest'
              | None, [] => (Some (FmtErr ("flag needs an argument: -" +:+ name)), set, rest)
              end
          end
      end
  end.

(** ** The flags of a context *)

(** normalizeFlags, for a flag with two names: one of them gets the value of
    the other, and both may not be used. *)
Definition normalizeFlag (a b : string) (set : FlagSet) : result FlagSet :=
  let visited n := existsb (String.eqb n) (actual set) in
  let copy from to := match formal set !! from with
                      | Some v => setFlag to v set
                      | None => set
                      end in
  if visited a && visited b then
    Err (OtherErr ("Cannot use two forms of the same flag: " +:+ b +:+ " " +:+ a))
  else if visited a then Ok (copy a b)
  else if visited b then Ok (copy b a)
  else Ok set.

Definition normalizeFlags (set : FlagSet) : result FlagSet :=
  match normalizeFlag "help" "h" set with
  | Ok set => normalizeFlag "version" "v" set
  | Err err => Err err
  end.

Definition lookupBool (name : string) (set : FlagSet) : bool :=
  match formal set !! name with Some (VBool b) => b | _ => false end.

Definition lookupString (name : string) (set : FlagSet) : string :=
  match formal set !! name with Some (VString s) => s | _ => "" end.

(** The variable cfg, through the Destinations of the flags *)
Definition cfg (set : FlagSet) : Config :=
  {| Endpoint := lookupString "endpoint" set;
     KubeConfig := lookupString "kubeconfig" set;
     NodeID := lookupString "nodeid" set;
     HostStorageClass := lookupString "host-storage-class" set;
     Debug := lookupBool "debug" set |}.

(** What App.Run does: it returns an error, prints help or the version, ends
    the process with a status, or runs the action with cfg set. *)
Inductive app_result :=
| AppFails (err : error)
| AppShows
| AppExits (code : Z)
| AppActs (c : Config).

Definition emptySet : FlagSet := mkFlagSet ∅ [].

(** ** The help command *)

(** argIsFlag, for flags with these names: the dashes in front and the value
    are taken off the argument. *)
Definition argIsFlag (names : list string) (arg : string) : bool :=
  if (arg =? "-")%string || (arg =? "--")%string then false
  else if negb (strings.HasPrefix arg "-") then false
  else
    let arg := match arg with String "-" (String "-" rest) => rest | _ => arg end in
    let arg := match arg with String "-" rest => rest | _ => arg end in
    let arg := match strings.Cut arg "=" with Some (n, _) => n | None => arg end in
    existsb (String.eqb arg) names.

(** reorderArgs: the flags of the command, each with a value that may follow
    it, come before the other arguments. *)
Fixpoint reorderArgs (names : list string) (nextIndexMayContainValue : bool)
    (reorderedArgs remainingArgs : list string) (args : list string) : list string :=
  match args with
  | [] => reorderedArgs ++ remainingArgs
  | arg :: rest =>
      if nextIndexMayContainValue && negb (argIsFlag names arg) then
        reorderArgs names false (reorderedArgs ++ [arg]) remainingArgs rest
      else if (arg =? "--")%string then reorderedArgs ++ ["--"] ++ remainingArgs ++ rest
      else if argIsFlag names arg then
        reorderArgs names (negb (strings.Contains arg "=")) (reorderedArgs ++ [arg]) remainingArgs rest
      else reorderArgs names nextIndexMayContainValue reorderedArgs (remainingArgs ++ [arg]) rest
  end.

(** The names of the only command, and ShowCommandHelp: an unknown topic is
    an ExitError, on which handleExitCoder ends the process. *)
Definition helpNames : list string := ["help"; "h"].

Definition ShowCommandHelp (command : string) : app_result :=
  if (command =? "")%string then AppShows
  else if existsb (String.eqb command) helpNames then AppShows
  else AppExits 3.

(** Command.Run of helpCommand, with the arguments after its name *)
Definition helpCommandRun (env : environment) (args : list string) : app_result :=
  match flagSet env [HelpFlag] emptySet with
  | Err err => AppFails err
  | Ok set =>
      let '(err, set, args) := Parse set (reorderArgs ["help"; "h"] false [] [] args) in
      match err with
      | Some err => AppFails err
      | None =>
          match normalizeFlag "help" "h" set with
          | Err err => AppFails err
          | Ok set =>
              if lookupBool "h" set || lookupBool "help" set then AppShows
              else match args with
                   | topic :: _ => ShowCommandHelp topic
                   | [] => AppShows
                   end
          end
      end
  end.

(** ** App.Run *)

Definition appRun (env : environment) (arguments : list string) : app_result :=
  match flagSet env (flags ++ [HelpFlag; VersionFlag]) emptySet with
  | Err err => AppFails err
  | Ok set =>
      let '(err, set, args) := Parse set arguments in
      match normalizeFlags set with
      | Err nerr => AppFails nerr
      | Ok set =>
          match err with
          | Some err => AppFails err
          | None =>
              if lookupBool "help" set || lookupBool "h" set then AppShows
              else if lookupBool "version" set || lookupBool "v" set then AppShows
              else match args with
                   | name :: args =>
                       if existsb (String.eqb name) helpNames then helpCommandRun env args
                       else AppActs (cfg set)
                   | [] => AppActs (cfg set)
                   end
          end
      end
  end.

(** ** main *)

Definition runCSI (c : Config) : P run_result := Run c.

(** The level of the log *)
Definition adjustLogs (c : Config) (level : string) : string := if Debug c then "debug" else level.

(** How main ends: with a status, or as Run does, with the level of the log *)
Inductive main_result := Exits (code : Z) | Runs (level : string) (r : run_result).

(** logrus starts at level info; logrus.Fatalf ends the process, and so does
    the end of the leader election. *)
Definition main (env : environment) (arguments : list string) : P main_result :=
  match appRun env arguments with
  | AppFails err => Panic ("Error running CSI driver: " +:+ Error err)
  | AppShows => Ret (Exits 0)
  | AppExits code => Ret (Exits code)
  | AppActs c =>
      let level := adjustLogs c "info" in
      let* r := runCSI c in
      match r with
      | Returns (Some err) => Panic ("Error running CSI driver: " +:+ Error err)
      | Elects _ (LeaderDied why) => Panic why
      | r => Ret (Runs level r)
      end
  end.

(** ** Arguments that set flags *)

(** Prove that an element is in a list that is written out. *)
Ltac in_list := repeat first [left; reflexivity|right].

(** One way to set a flag: with one dash or two, and for a string with the
    value in the same argument or in the next one *)
Inductive setting :=
| SetString (two glued : bool) (name v : string)
| SetDebug (two : bool) (text : option string).

Definition dash (two : bool) : string := if two then "--" else "-".

Definition render (st : setting) : list string :=
  match st with
  | SetString two true name v => [dash two +:+ name +:+ "=" +:+ v]
  | SetString two false name v => [dash two +:+ name; v]
  | SetDebug two None => [dash two +:+ "debug"]
  | SetDebug two (Some text) => [dash two +:+ "debug=" +:+ text]
  end.

Definition string_flags : list string := ["endpoint"; "nodeid"; "kubeconfig"; "host-storage-class"].

Definition valid_setting (st : setting) : Prop :=
  match st with
  | SetString _ _ name _ => In name string_flags
  | SetDebug _ (Some text) => ParseBool text <> None
  | SetDebug _ None => True
  end.

(** What a setting does to a configuration *)
Definition configure (c : Config) (st : setting) : Config :=
  match st with
  | SetString _ _ name v =>
      let put n old := if (name =? n)%string then v else old in
      {| Endpoint := put "endpoint" (Endpoint c); KubeConfig := put "kubeconfig" (KubeConfig c);
         NodeID := put "nodeid" (NodeID c);
         HostStorageClass := put "host-storage-class" (HostStorageClass c); Debug := Debug c |}
  | SetDebug _ text =>
      {| Endpoint := Endpoint c; KubeConfig := KubeConfig c; NodeID := NodeID c;
         HostStorageClass := HostStorageClass c;
         Debug := default (Debug c) (ParseBool (default "true" text)) |}
  end.

(** The configuration before any argument is read, when the value of DEBUG
    is one *)
Definition env_debug (env : environment) : option bool :=
  match env "DEBUG" with
  | None => Some false
  | Some v => if (v =? "")%string then Some false else ParseBool v
  end.

Definition defaults (env : environment) (debug : bool) : Config :=
  {| Endpoint := "unix:///csi/csi.sock"; KubeConfig := ""; NodeID := "";
     HostStorageClass := default "" (env "HOST_STORAGE_CLASS"); Debug := debug |}.

(** The arguments after the settings: none, or a first one that is not a
    flag and not the help command *)
Definition plain (tail : list string) : Prop :=
  match tail with
  | [] => True
  | s :: _ => flagToken s = Positional /\ ~ In s helpNames
  end.

Definition bool_flags : list string := ["debug"; "help"; "h"; "version"; "v"].

(** What the arguments after the settings come to *)
Inductive verdict := Acts | Shows | NoTopic | Fails.

Inductive asks : list string -> verdict -> Prop :=
| asks_nothing tail : plain tail -> asks tail Acts
| asks_terminated s tail : flagToken s = Terminator -> ~ In (hd "" tail) helpNames -> asks (s :: tail) Acts
| asks_shown s tail n v :
    flagToken s = FlagArg n v -> In n ["help"; "h"; "version"; "v"] ->
    ParseBool (default "true" v) = Some true -> plain tail -> asks (s :: tail) Shows
| asks_help c : In c helpNames -> asks [c] Shows
| asks_topic c t :
    In c helpNames -> flagToken t = Positional -> t = "" \/ In t helpNames -> asks [c; t] Shows
| asks_no_topic c t :
    In c helpNames -> flagToken t = Positional -> t <> "" -> ~ In t helpNames -> asks [c; t] NoTopic
| asks_syntax s tail : flagToken s = BadSyntax -> asks (s :: tail) Fails
| asks_unknown s tail n v :
    flagToken s = FlagArg n v -> ~ In n string_flags -> ~ In n bool_flags -> asks (s :: tail) Fails
| asks_missing s n : flagToken s = FlagArg n None -> In n string_flags -> asks [s] Fails
| asks_boolean s tail n v :
    flagToken s = FlagArg n (Some v) -> In n bool_flags -> ParseBool v = None -> asks (s :: tail) Fails.

(** The set while the settings are read *)
Definition reading (set : FlagSet) (c : Config) : Prop :=
  cfg set = c
  /\ (forall n, In n string_flags -> exists v, formal set !! n = Some (VString v))
  /\ (exists b, formal set !! "debug" = Some (VBool b))
  /\ (forall n, In n ["help"; "h"; "version"; "v"] ->
        formal set !! n = Some (VBool false) /\ ~ In n (actual set)).

Lemma flagToken_string two glued name v :
  In name string_flags ->
  flagToken (hd "" (render (SetString two glued name v)))
  = FlagArg name (if glued then Some v else None).
Proof. intros H. unfold string_flags in H. inv_In H; destruct two, glued, v; reflexivity. Qed.

Lemma flagToken_debug two text :
  flagToken (hd "" (render (SetDebug two text))) = FlagArg "debug" text.
Proof. destruct two, text as [[|c t]|]; reflexivity. Qed.

Lemma lookupString_set n m v set :
  lookupString n (setFlag m v set)
  = if (m =? n)%string then match v with VString s => s | VBool _ => "" end else lookupString n set.
Proof.
  unfold lookupString. cbn [setFlag formal]. destruct (m =? n)%string eqn:E.
  - apply String.eqb_eq in E as ->. by rewrite lookup_insert_eq.
  - apply String.eqb_neq in E. by rewrite lookup_insert_ne.
Qed.

Lemma lookupBool_set n m v set :
  lookupBool n (setFlag m v set)
  = if (m =? n)%string then match v with VBool b => b | VString _ => false end else lookupBool n set.
Proof.
  unfold lookupBool. cbn [setFlag formal]. destruct (m =? n)%string eqn:E.
  - apply String.eqb_eq in E as ->. by rewrite lookup_insert_eq.
  - apply String.eqb_neq in E. by rewrite lookup_insert_ne.
Qed.

(** The flags that ask for help or the version are not touched. *)
Lemma asks_set m v set (l : list string) :
  ~ In m l ->
  (forall n, In n l -> formal set !! n = Some (VBool false) /\ ~ In n (actual set)) ->
  forall n, In n l -> formal (setFlag m v set) !! n = Some (VBool false) /\ ~ In n (actual (setFlag m v set)).
Proof.
  intros Hm H n Hn. destruct (H n Hn) as [Hf Ha]. cbn. rewrite lookup_insert_ne by (by intros ->).
  split; [done|]. by intros [->|?].
Qed.

Lemma reading_string set c two glued name v :
  In name string_flags -> reading set c ->
  reading (setFlag name (VString v) set) (configure c (SetString two glued name v)).
Proof.
  intros Hn (<- & Hs & [b Hb] & Ha). split_and!.
  - unfold cfg. cbn [configure Endpoint KubeConfig NodeID HostStorageClass Debug].
    rewrite !lookupString_set, lookupBool_set.
    f_equal. unfold string_flags in Hn. by inv_In Hn.
  - intros n Hin. cbn. destruct (decide (name = n)) as [->|Hne]; [rewrite lookup_insert_eq; eauto|].
    rewrite lookup_insert_ne by done. auto.
  - exists b. cbn. rewrite lookup_insert_ne; [done|]. intros ->. unfold string_flags in Hn. inv_In Hn.
  - apply asks_set; [|done]. intros H. unfold string_flags in Hn. inv_In Hn; inv_In H.
Qed.

Lemma reading_debug set c two text b :
  ParseBool (default "true" text) = Some b -> reading set c ->
  reading (setFlag "debug" (VBool b) set) (configure c (SetDebug two text)).
Proof.
  intros Hp (<- & Hs & _ & Ha). split_and!.
  - unfold cfg. cbn [configure Endpoint KubeConfig NodeID HostStorageClass Debug].
    rewrite !lookupString_set, lookupBool_set, Hp. done.
  - intros n Hin. cbn. rewrite lookup_insert_ne; [auto|]. intros <-. unfold string_flags in Hin. inv_In Hin.
  - exists b. cbn. by rewrite lookup_insert_eq.
  - apply asks_set; [|done]. intros H. inv_In H.
Qed.

(** Only the names of the flags are declared. *)
Definition declared (set : FlagSet) : Prop :=
  forall n, is_Some (formal set !! n) -> In n (string_flags ++ bool_flags).

Lemma declared_set n v set :
  In n (string_flags ++ bool_flags) -> declared set -> declared (setFlag n v set).
Proof. intros Hn Hd m. cbn. rewrite lookup_insert_is_Some'. intros [<-|?]; auto. Qed.

(** Parsing reads one setting after the other. *)
Lemma Parse_setting set c st rest :
  valid_setting st -> reading set c -> declared set ->
  exists set', Parse set (render st ++ rest) = Parse set' rest /\ reading set' (configure c st)
    /\ declared set'.
Proof.
  intros Hv Hr Hdec. pose proof Hr as (_ & Hs & [b Hb] & _). destruct st as [two glued name v|two text].
  - exists (setFlag name (VString v) set). split_and!; [|by apply reading_string|].
    2: { apply declared_set; [apply in_app_iff; by left|done]. }
    destruct (Hs _ Hv) as [w Hw]. pose proof (flagToken_string two glued name v Hv) as Ht.
    destruct glued; cbn [render hd app Parse] in *; by rewrite Ht, Hw.
  - assert (exists b', ParseBool (default "true" text) = Some b') as [b' Hb'].
    { destruct text as [t|]; cbn in *; [|by exists true]. destruct (ParseBool t); [eauto|done]. }
    exists (setFlag "debug" (VBool b') set). split_and!; [|by apply reading_debug|].
    2: { apply declared_set; [apply in_app_iff; right; by left|done]. }
    pose proof (flagToken_debug two text) as Ht.
    destruct text; cbn [render hd app Parse] in *; by rewrite Ht, Hb, Hb'.
Qed.

Lemma Parse_settings sts set c rest :
  Forall valid_setting sts -> reading set c -> declared set ->
  exists set', Parse set (concat (map render sts) ++ rest) = Parse set' rest
    /\ reading set' (foldl configure c sts) /\ declared set'.
Proof.
  revert set c. induction sts as [|st sts IH]; intros set c Hv Hr Hd; [by exists set|].
  inversion Hv; subst. cbn [map concat foldl]. rewrite <- app_assoc.
  destruct (Parse_setting set c st (concat (map render sts) ++ rest)) as (s1 & -> & Hr1 & Hd1); [done..|].
  by apply IH.
Qed.

(** The set after the flags are declared *)
Definition initial (env : environment) (b : bool) : FlagSet :=
  declare ["version"; "v"] (VBool false) (declare ["help"; "h"] (VBool false)
    (declare ["host-storage-class"] (VString (default "" (env "HOST_STORAGE_CLASS")))
      (declare ["debug"] (VBool b) (declare ["kubeconfig"] (VString "")
        (declare ["nodeid"] (VString "") (declare ["endpoint"] (VString "unix:///csi/csi.sock") emptySet)))))).

Lemma flagSet_initial env b :
  env_debug env = Some b -> flagSet env (flags ++ [HelpFlag; VersionFlag]) emptySet = Ok (initial env b).
Proof.
  unfold env_debug, flags, initial. cbn -[declare ParseBool].
  destruct (env "DEBUG") as [v|]; [|by intros [= <-]].
  destruct (v =? "")%string; [by intros [= <-]|]. by intros ->.
Qed.

Lemma reading_initial env b : reading (initial env b) (defaults env b).
Proof.
  split_and!; [reflexivity| |by exists b|].
  - intros n Hn. unfold string_flags in Hn. inv_In Hn; eexists; reflexivity.
  - intros n Hn. inv_In Hn; (split; [reflexivity|intros []]).
Qed.

Lemma reading_normal set c : reading set c -> normalizeFlags set = Ok set.
Proof.
  intros (_ & _ & _ & Ha). unfold normalizeFlags, normalizeFlag.
  assert (forall n, In n ["help"; "h"; "version"; "v"] -> existsb (String.eqb n) (actual set) = false) as H.
  { intros n Hn. apply existsb_false_forall. intros x Hx. apply String.eqb_neq. intros <-.
    by destruct (Ha n Hn). }
  cbn zeta beta. rewrite (H "help"), (H "h") by in_list. cbn [andb].
  by rewrite (H "version"), (H "v") by in_list.
Qed.

Lemma reading_quiet set c n : reading set c -> In n ["help"; "h"; "version"; "v"] -> lookupBool n set = false.
Proof. intros (_ & _ & _ & Ha) Hn. unfold lookupBool. by rewrite (proj1 (Ha n Hn)). Qed.

Lemma flagSet_bad_env env :
  env_debug env = None -> exists err, flagSet env (flags ++ [HelpFlag; VersionFlag]) emptySet = Err err.
Proof.
  unfold env_debug, flags. cbn -[declare ParseBool].
  destruct (env "DEBUG") as [v|]; [|done]. destruct (v =? "")%string; [done|].
  intros ->. by eexists.
Qed.

Lemma declared_initial env b : declared (initial env b).
Proof.
  intros n. unfold initial. cbn [declare formal foldr emptySet].
  rewrite !lookup_insert_is_Some'. unfold string_flags, bool_flags.
  rewrite lookup_empty. intros H. destruct_or! H; subst; try in_list. by destruct H.
Qed.

Lemma helpNames_eqb c : existsb (String.eqb c) helpNames = true <-> In c helpNames.
Proof.
  rewrite existsb_exists. split; [intros (x & Hx & ->%String.eqb_eq)|intros H; exists c]; [done|].
  split; [done|by apply String.eqb_eq].
Qed.

(** Whether a flag was set *)
Definition visited (n : string) (set : FlagSet) : bool := existsb (String.eqb n) (actual set).

Lemma visited_set n m v set : visited n (setFlag m v set) = (n =? m)%string || visited n set.
Proof. reflexivity. Qed.

Lemma normalizeFlag_none a b set :
  visited a set = false -> visited b set = false -> normalizeFlag a b set = Ok set.
Proof. unfold visited, normalizeFlag. cbn zeta beta. by intros -> ->. Qed.

Lemma normalizeFlag_one a b set v :
  visited a set <> visited b set -> formal set !! (if visited a set then a else b) = Some v ->
  normalizeFlag a b set = Ok (setFlag (if visited a set then b else a) v set).
Proof.
  unfold visited, normalizeFlag. cbn zeta beta.
  destruct (existsb (String.eqb a) (actual set)), (existsb (String.eqb b) (actual set)); try done;
    by intros _ ->.
Qed.

(** A flag that asks for help or the version, after the settings *)
Lemma asked_normal set c n :
  reading set c -> In n ["help"; "h"; "version"; "v"] ->
  exists set', normalizeFlags (setFlag n (VBool true) set) = Ok set'
    /\ (lookupBool "help" set' || lookupBool "h" set')
       || (lookupBool "version" set' || lookupBool "v" set') = true.
Proof.
  intros (_ & _ & _ & Ha) Hn.
  assert (forall m, In m ["help"; "h"; "version"; "v"] -> visited m set = false) as H.
  { intros m Hm. apply existsb_false_forall. intros x Hx. apply String.eqb_neq. intros <-.
    by destruct (Ha m Hm). }
  assert (Hone : forall a b, (n = a \/ n = b) -> a <> b -> visited a set = false -> visited b set = false ->
    exists m, normalizeFlag a b (setFlag n (VBool true) set)
              = Ok (setFlag m (VBool true) (setFlag n (VBool true) set)) /\ (m = a \/ m = b)).
  { intros a b Hab Hne H1 H2. eexists. split.
    - apply normalizeFlag_one; rewrite !visited_set, H1, ?H2, !orb_false_r.
      + destruct Hab as [->| ->]; rewrite String.eqb_refl, ?(proj2 (String.eqb_neq _ _) Hne);
          [|done]. by rewrite (proj2 (String.eqb_neq b a)).
      + destruct (a =? n)%string eqn:E; [apply String.eqb_eq in E as ->; apply lookup_insert_eq|].
        destruct Hab as [->| ->]; [by rewrite String.eqb_refl in E|apply lookup_insert_eq].
    - case_match; auto. }
  unfold normalizeFlags.
  assert ((n = "help" \/ n = "h") \/ (n = "version" \/ n = "v")) as [Hh|Hv] by (inv_In Hn; auto).
  - destruct (Hone "help" "h" Hh ltac:(done) (H "help" ltac:(in_list)) (H "h" ltac:(in_list))) as (m & -> & Hm).
    rewrite normalizeFlag_none.
    + eexists. split; [done|]. rewrite !lookupBool_set.
      destruct Hh as [->| ->], Hm as [->| ->]; cbn; by rewrite ?orb_true_r.
    + rewrite !visited_set, (H "version" ltac:(in_list)). by destruct Hh as [->| ->], Hm as [->| ->].
    + rewrite !visited_set, (H "v" ltac:(in_list)). by destruct Hh as [->| ->], Hm as [->| ->].
  - rewrite normalizeFlag_none.
    + destruct (Hone "version" "v" Hv ltac:(done) (H "version" ltac:(in_list)) (H "v" ltac:(in_list)))
        as (m & -> & Hm).
      eexists. split; [done|]. rewrite !lookupBool_set.
      destruct Hv as [->| ->], Hm as [->| ->]; cbn; by rewrite ?orb_true_r.
    + rewrite visited_set, (H "help" ltac:(in_list)). by destruct Hv as [->| ->].
    + rewrite visited_set, (H "h" ltac:(in_list)). by destruct Hv as [->| ->].
Qed.

(** The help command with no topic or one *)
Lemma helpCommandRun_none env : helpCommandRun env [] = AppShows.
Proof. reflexivity. Qed.

Lemma positional_not_flag names t : flagToken t = Positional -> argIsFlag names t = false /\ t <> "--".
Proof.
  unfold argIsFlag. destruct t as [|c t]; [done|]. intros H.
  destruct (Ascii.ascii_dec c "-") as [->|Hc].
  - destruct t as [|d t]; [done|]. exfalso. revert H. cbn [flagToken].
    destruct (d =? "-")%char; [destruct t|]; try done;
      repeat match goal with
      | |- (if ?b then _ else _) = _ -> _ => destruct b; try done
      | |- match ?x with _ => _ end = _ -> _ => destruct x as [[? ?]|]; try done
      end.
  - split; [|by intros [= -> _]].
    assert (strings.HasPrefix (String c t) "-" = false) as ->.
    { unfold strings.HasPrefix. cbn [String.prefix]. by destruct (Ascii.ascii_dec "-" c). }
    by destruct (_ || _).
Qed.

Lemma helpCommandRun_topic env t :
  flagToken t = Positional -> helpCommandRun env [t] = ShowCommandHelp t.
Proof.
  intros H. destruct (positional_not_flag ["help"; "h"] t H) as [Hf Hd].
  unfold helpCommandRun. cbn [reorderArgs andb].
  rewrite Hf, (proj2 (String.eqb_neq t "--") Hd). cbn [app flagSet applyFlag HelpFlag flagFromEnv].
  cbn [String.eqb Parse]. rewrite H. reflexivity.
Qed.

(** What App.Run does, by what the arguments after the settings ask *)
Definition app_verdict (c : Config) (v : verdict) (r : app_result) : Prop :=
  match v with
  | Acts => r = AppActs c
  | Shows => r = AppShows
  | NoTopic => r = AppExits 3
  | Fails => exists err, r = AppFails err
  end.

(** The rest of App.Run once the settings were read *)
Definition appRest (env : environment) (p : option error * FlagSet * list string) : app_result :=
  let '(err, set, args) := p in
  match normalizeFlags set with
  | Err nerr => AppFails nerr
  | Ok set =>
      match err with
      | Some err => AppFails err
      | None =>
          if lookupBool "help" set || lookupBool "h" set then AppShows
          else if lookupBool "version" set || lookupBool "v" set then AppShows
          else match args with
               | name :: args =>
                   if existsb (String.eqb name) helpNames then helpCommandRun env args
                   else AppActs (cfg set)
               | [] => AppActs (cfg set)
               end
      end
  end.

Lemma appRest_error env err set args : exists e, appRest env (Some err, set, args) = AppFails e.
Proof. unfold appRest. destruct (normalizeFlags set); eauto. Qed.

Lemma appRest_read env set c args :
  reading set c ->
  appRest env (None, set, args) =
  match args with
  | name :: args => if existsb (String.eqb name) helpNames then helpCommandRun env args else AppActs c
  | [] => AppActs c
  end.
Proof.
  intros Hr. unfold appRest.
  rewrite (reading_normal _ _ Hr), !(reading_quiet _ _ _ Hr) by in_list. cbn [orb].
  by destruct Hr as [-> _].
Qed.

Lemma appRest_not_help env set c args :
  reading set c -> ~ In (hd "" args) helpNames -> appRest env (None, set, args) = AppActs c.
Proof.
  intros Hr Hn. rewrite (appRest_read _ _ _ _ Hr). destruct args as [|s args]; [done|].
  destruct (existsb _ _) eqn:E; [|done]. by apply helpNames_eqb in E.
Qed.

Lemma Parse_plain set tail : plain tail -> Parse set tail = (None, set, tail).
Proof. destruct tail as [|s tail]; [done|]. intros [Ht _]. cbn [Parse]. by rewrite Ht. Qed.

Lemma plain_not_help tail : plain tail -> ~ In (hd "" tail) helpNames.
Proof. destruct tail; [by intros _ [?|[?|[]]]|by intros [_ ?]]. Qed.

Lemma appRest_asked env set c n tail :
  reading set c -> In n ["help"; "h"; "version"; "v"] ->
  appRest env (None, setFlag n (VBool true) set, tail) = AppShows.
Proof.
  intros Hr Hn. destruct (asked_normal _ _ _ Hr Hn) as (set' & E & H). unfold appRest. rewrite E.
  destruct (lookupBool "help" set' || lookupBool "h" set'); [done|]. cbn [orb] in H. by rewrite H.
Qed.

(** A declared boolean flag *)
Lemma reading_bool set c n : reading set c -> In n bool_flags -> exists b, formal set !! n = Some (VBool b).
Proof.
  intros (_ & _ & Hb & Ha) Hn. unfold bool_flags in Hn. destruct Hn as [<-|Hn]; [done|].
  exists false. by apply Ha.
Qed.

Lemma appRest_asks env set c tail v :
  reading set c -> declared set -> asks tail v -> app_verdict c v (appRest env (Parse set tail)).
Proof.
  intros Hr Hdec Hv. pose proof Hr as (_ & Hs & _ & Ha).
  destruct Hv as [tail Hp|s tail Ht Hp|s tail n v Ht Hn Hb Hp|c' Hc|c' t Hc Ht Htop|c' t Hc Ht Hne Htop
    |s tail Ht|s tail n v Ht Hn1 Hn2|s n Ht Hn|s tail n v Ht Hn Hb]; cbn [app_verdict].
  - rewrite (Parse_plain _ _ Hp). apply (appRest_not_help _ _ _ _ Hr), plain_not_help, Hp.
  - cbn [Parse]. rewrite Ht. by apply (appRest_not_help _ _ _ _ Hr).
  - cbn [Parse]. rewrite Ht, (proj1 (Ha n Hn)), Hb, (Parse_plain _ _ Hp). by eapply appRest_asked.
  - assert (flagToken c' = Positional) as Ht by by unfold helpNames in Hc; inv_In Hc.
    cbn [Parse]. rewrite Ht, (appRest_read _ _ _ _ Hr), (proj2 (helpNames_eqb c') Hc). done.
  - assert (flagToken c' = Positional) as Ht' by by unfold helpNames in Hc; inv_In Hc.
    cbn [Parse]. rewrite Ht', (appRest_read _ _ _ _ Hr), (proj2 (helpNames_eqb c') Hc),
      helpCommandRun_topic by done.
    unfold ShowCommandHelp. destruct Htop as [->|Htop]; [done|].
    rewrite (proj2 (helpNames_eqb t) Htop). by case_match.
  - assert (flagToken c' = Positional) as Ht' by by unfold helpNames in Hc; inv_In Hc.
    cbn [Parse]. rewrite Ht', (appRest_read _ _ _ _ Hr), (proj2 (helpNames_eqb c') Hc),
      helpCommandRun_topic by done.
    unfold ShowCommandHelp. rewrite (proj2 (String.eqb_neq _ _) Hne).
    destruct (existsb _ _) eqn:E; [by apply helpNames_eqb in E|done].
  - cbn [Parse]. rewrite Ht. apply appRest_error.
  - cbn [Parse]. rewrite Ht. destruct (formal set !! n) eqn:E; [|apply appRest_error].
    destruct (proj1 (in_app_iff _ _ _) (Hdec n ltac:(by rewrite E; eexists))); done.
  - cbn [Parse]. rewrite Ht. destruct (Hs n Hn) as [w ->]. apply appRest_error.
  - cbn [Parse]. rewrite Ht. destruct (reading_bool _ _ _ Hr Hn) as [b ->].
    change (default "true" (Some v)) with v. rewrite Hb. apply appRest_error.
Qed.

Lemma appRun_verdict env sts tail v debug :
  env_debug env = Some debug -> Forall valid_setting sts -> asks tail v ->
  app_verdict (foldl configure (defaults env debug) sts) v
    (appRun env (concat (map render sts) ++ tail)).
Proof.
  intros Hd Hsts Hv. unfold appRun. rewrite (flagSet_initial _ _ Hd).
  destruct (Parse_settings sts _ _ tail Hsts (reading_initial env debug) (declared_initial env debug))
    as (set & -> & Hr & Hdec).
  apply (appRest_asks env set _ tail v Hr Hdec Hv).
Qed.

(** The only run of main ends so, without a call. *)
Definition main_ends (env : environment) (args : list string) (o : outcome main_result) : Prop :=
  forall tr o', runs (main env args) tr o' <-> tr = [] /\ o' = o.

(** How main ends when Run does *)
Definition after_Run (level : string) (o : outcome run_result) : outcome main_result :=
  match o with
  | Returned (Returns (Some err)) => Panicked ("Error running CSI driver: " +:+ Error err)
  | Returned (Elects _ (LeaderDied why)) => Panicked why
  | Returned r => Returned (Runs level r)
  | Panicked w => Panicked w
  end.

Lemma main_fails env args err :
  appRun env args = AppFails err ->
  main_ends env args (Panicked ("Error running CSI driver: " +:+ Error err)).
Proof. intros E tr o. unfold main. by rewrite E. Qed.

Lemma main_acts env args c :
  appRun env args = AppActs c ->
  forall tr o, runs (main env args) tr o <->
    exists o', runs (Run c) tr o' /\ o = after_Run (if Debug c then "debug" else "info") o'.
Proof.
  intros E tr o. unfold main. rewrite E, runs_bind. unfold runCSI, adjustLogs. split.
  - intros [(tr1 & r & tr2 & Hr & Ho & ->)|(w & -> & Hr)]; [|by exists (Panicked w)].
    exists (Returned r). destruct r as [[err|]|m|m [|why]]; destruct Ho as [-> ->]; by rewrite app_nil_r.
  - intros ([r|w] & Hr & ->); [left|right; by exists w].
    exists tr, r, []. rewrite app_nil_r. by destruct r as [[err|]|m|m [|why]].
Qed.

(** C36: the command line determines what main does.  Whatever settings of
    flags are given, in any order and repetition, each with one dash or two
    and with the value in the same argument or in the next one, and whatever
    the values are (empty, with an equals sign, starting with a dash): if
    nothing follows, or a positional argument other than the help command,
    or the terminator, main runs the driver with the configuration in which
    each field has the value of its last setting, else of its environment
    variable, else its default, with the log at level debug just when the
    configuration says so.  If a flag asks for help or the version, or the
    help command is given alone or with a known topic, main ends with status
    0; the help command with any other topic ends it with status 3; and bad
    syntax, an unknown flag, a flag without its value or a boolean that does
    not parse, just as a value of DEBUG that does not, is reported as a fatal
    error; in all these cases without any call. *)
Theorem main_configures env sts tail v :
  Forall valid_setting sts -> asks tail v ->
  let args := concat (map render sts) ++ tail in
  let failed := exists err, main_ends env args (Panicked ("Error running CSI driver: " +:+ Error err)) in
  match env_debug env with
  | None => failed
  | Some debug =>
      let c := foldl configure (defaults env debug) sts in
      match v with
      | Acts => forall tr o, runs (main env args) tr o <->
          exists o', runs (Run c) tr o' /\ o = after_Run (if Debug c then "debug" else "info") o'
      | Shows => main_ends env args (Returned (Exits 0))
      | NoTopic => main_ends env args (Returned (Exits 3))
      | Fails => failed
      end
  end.
Proof.
  intros Hsts Hv args failed. destruct (env_debug env) as [debug|] eqn:Hd.
  - pose proof (appRun_verdict env sts tail v debug Hd Hsts Hv) as H. fold args in H.
    destruct v; cbn [app_verdict] in H.
    + by apply main_acts.
    + intros tr o. unfold main. by rewrite H.
    + intros tr o. unfold main. by rewrite H.
    + destruct H as [err H]. exists err. by apply main_fails.
  - destruct (flagSet_bad_env env Hd) as [err H]. exists err. apply main_fails. unfold appRun. by rewrite H.
Qed.

Lemma main_configures_witness :
  let env := fun n => if (n =? "DEBUG")%string then Some "1" else None in
  let sts := [SetString true true "nodeid" "node=1"; SetDebug false (Some "f");
              SetString false false "nodeid" "-x"] in
  (forall tr o, runs (main env (concat (map render sts) ++ ["extra"])) tr o <->
     exists o', runs (Run (mkConfig "unix:///csi/csi.sock" "" "-x" "" false)) tr o'
       /\ o = after_Run "info" o')
  /\ main_ends env (concat (map render sts) ++ ["--help"]) (Returned (Exits 0))
  /\ main_ends env (concat (map render sts) ++ ["help"; "topic"]) (Returned (Exits 3))
  /\ exists err, main_ends env (concat (map render sts) ++ ["--unknown"])
       (Panicked ("Error running CSI driver: " +:+ Error err)).
Proof.
  cbv zeta.
  assert (Hsts : Forall valid_setting [SetString true true "nodeid" "node=1"; SetDebug false (Some "f");
    SetString false false "nodeid" "-x"]).
  { repeat (apply Forall_cons; split); [in_list|done|in_list|apply Forall_nil_2]. }
  set (env := fun n => if (n =? "DEBUG")%string then Some "1" else None).
  split; [|split; [|split]].
  - refine (main_configures env _ ["extra"] Acts Hsts _).
    apply asks_nothing. split; [reflexivity|]. intros H. unfold helpNames in H. inv_In H.
  - refine (main_configures env _ ["--help"] Shows Hsts _).
    by apply (asks_shown "--help" [] "help" None); [reflexivity|in_list|..].
  - refine (main_configures env _ ["help"; "topic"] NoTopic Hsts _).
    apply asks_no_topic; [in_list|reflexivity|done|]. intros H. unfold helpNames in H. inv_In H.
  - refine (main_configures env _ ["--unknown"] Fails Hsts _).
    apply (asks_unknown "--unknown" [] "unknown" None); [reflexivity| |]; intros H.
    + unfold string_flags in H. inv_In H.
    + unfold bool_flags in H. inv_In H.
Defined.
